(* ===== verification/_CoqProject ===== *)
-Q . S2P
Prelude.v
Effects.v
Borsh.v
Serde.v
Externals.v
Toy.v
Types.v
Address.v
OrchardTypes.v
OrchardFacts.v
OrchardNode.v
AccumulatorDiff.v
WithdrawalBundle.v
RollBack.v
Lineage.v
Keys.v
ShardTreeDb.v
ShardTreeFacts.v
Authorization.v
Wallet.v
WalletFacts.v
WalletToy.v
Bills.v
Limits.v
Orchard.v
State.v
Block.v
TwoWayPeg.v
TwoWayPegFacts.v
Archive.v
Proto.v
ArchiveFacts.v
ArchiveIter.v
MemPool.v
Node.v
NodeFacts.v
RoundTrip.v
MainchainTask.v
ProtoFacts.v
Miner.v
Net.v
Wire.v
PeerTask.v
NetTask.v
PeerFacts.v
TipFacts.v
NetTaskFacts.v
NodeApi.v
WalletNode.v
WalletNodeFacts.v
WalletNodeToy.v
App.v
Rpc.v
TemplateFacts.v
