(* ===== verification/Prelude.v ===== *)
(** * thunder-orchard: a sidechain node and wallet

    This development models the Rust crate under [src/lib], and of the
    application [src/app/app.rs] and [src/app/rpc_server.rs], as executable
    definitions, and proves what makes its parts correct.

    ** The program

    thunder-orchard is a Bitcoin sidechain.  A node keeps a _state_ (UTXOs,
    spent outputs, withdrawal bundles, orchard nullifiers and anchors, a
    Utreexo accumulator), an _archive_ (all sidechain headers and bodies, and
    the mainchain headers and block infos that back them), and a _memory pool_.
    Blocks are connected to the state together with the two-way peg data of the
    mainchain blocks between them and their parent.  Tasks own the node: one
    task per peer connection reads it and asks the peer for headers and bodies,
    the net task stores the answers and reorganizes to better tips, the
    mainchain task fetches mainchain ancestors from a mainchain node, over
    gRPC.  A wallet follows the node and creates transactions; a miner asks the
    mainchain to commit to blocks; the application ties them to a user, whose
    commands arrive over RPC.

    ** Files

    Vocabulary: this file ([Res], the result of code that can fail or panic;
    loops over lists; tactics), [Effects] (state that survives an error),
    [Borsh], [Externals] (third-party code, as one class of parameters), [Toy]
    (a concrete instance of it, for evaluation), [Keys] (order of table keys).

    Data, [src/lib/types]: [Types] ([transaction.rs], [hashes.rs], [mod.rs]),
    [AccumulatorDiff] and [WithdrawalBundle] ([mod.rs]), [Address]
    ([address.rs] and the address of [types/orchard/mod.rs]), [Serde] (the serde
    data model), [OrchardTypes] ([types/orchard/mod.rs]: bundles, actions, notes,
    keys and their representations) with [OrchardFacts], and [OrchardNode] (an
    instance of [Externals] whose bundles are these), [Proto] ([proto.rs]:
    reading the messages of the mainchain node, and its clients) with
    [ProtoFacts].

    State, [src/lib/state]: [RollBack] ([rollback.rs]), [Limits] (the body
    limits of [mod.rs]), [Orchard] ([orchard.rs]), [State] ([mod.rs]), [Block]
    ([block.rs]), [TwoWayPeg] ([two_way_peg_data.rs]) with [TwoWayPegFacts];
    [Authorization] is [src/lib/authorization.rs].

    Archive, [src/lib/archive.rs]: [Lineage] (the searches over a block tree,
    against an interface that the sidechain and the mainchain tables implement),
    [Archive], [ArchiveFacts], [ArchiveIter].

    Node: [MemPool] ([mempool.rs]), [Node] (tip changes of
    [node/net_task.rs]) with [NodeFacts] and [RoundTrip], [MainchainTask]
    ([node/mainchain_task.rs]), [NetTask] ([node/net_task.rs]) with [TipFacts]
    and [NetTaskFacts], [NodeApi] ([node/mod.rs] and the mining part of
    [app/app.rs]) with [TemplateFacts].

    Peers, [src/lib/net]: [Net] ([net/mod.rs], messages, request queue),
    [Wire] (frames on a stream, [net/peer/mod.rs]), [PeerTask]
    ([net/peer/task.rs]) with [PeerFacts].

    Wallet: [ShardTreeDb] ([types/orchard/shardtree_db.rs]) with
    [ShardTreeFacts], [Wallet] ([wallet/mod.rs]) with [WalletFacts] and
    [WalletToy], [Bills] (the scheduled denominations of [wallet/mod.rs]),
    [WalletNode] ([update_wallet] and [sign_and_send] of
    [app/app.rs]) with [WalletNodeFacts] and [WalletNodeToy].

    Application: [Miner] ([src/lib/miner.rs]), [App] ([app/app.rs]: mining a
    block from its template to its submission, deposits, main address, the
    task), [Rpc] (the handlers of [app/rpc_server.rs]).

    ** How code is modelled

    A database is a finite map (an option, for the key [()]); a record of
    databases is the contents of an LMDB environment.  A function that takes a
    write transaction returns the new contents in its [Ok] value: an error
    drops the transaction.  [Err] is a returned error, [Panic] a failed
    assertion, [expect] or checked operator.  A task whose state survives an
    error is a function of type [StR] ([Effects]).  Definitions keep the names
    of the source; loops are folds over lists ([foldR] stops at an error), or
    fixpoints on fuel where the source recurses on data in a table.  Integers
    are [Z] with the wrap-around of their width written out where it can
    happen ([wrap32]); amounts are checked as the source checks them.

    Where the order of iteration of a hash set or map can be observed it is a
    parameter ([iter_set], [iter_bmm], [into_values]), as are random choices
    and the clock.  Third-party code is a parameter: [Externals],
    [ShardTreeExternals], [WalletExternals], [HexCrate], [AddressCrates],
    [OrchardCrate], [OrchardNoteCrate], [FrontierCrate], [ConsensusCrate],
    [Quinn], [Bincode]; so are the services of the mainchain node
    ([ValidatorService], [WalletService]).  What a theorem needs of them is a law
    class ([AmountLaws], [BatchVerify], [SignVerify], [SortUnstable],
    [CheckpointLaws], [BincodeFormat], [SerdeLaws], [OrchardLaws], [QuinnLaws],
    ...) that states documented behaviour.
    Each file ends with a module of witnesses that evaluate its definitions at
    a concrete instance (the witnesses of the wallet have files of their own).

    ** What the theorems show

    Blocks: [prevalidate] accepts only authorized, funded, non-conflicting
    bodies; disconnecting undoes connecting; the batched connection of
    [apply_block] is the transaction-by-transaction one of [connect]; the sets
    of spent and unspent outputs stay disjoint and the sidechain's wealth is
    kept.  Bundles: the status machine of withdrawal bundles, the content of
    collected bundles, their predicted weight; disconnecting peg data undoes
    connecting it where the bookkeeping of the code allows, and panics where it
    does not ([multi_block_deposits_not_disconnectable]).

    Data: addresses read back from their text; the transaction id commits to
    the effects of an orchard bundle; bundles and notes read back from their
    serde representations, except for an anchor in text
    ([bundle_text_unreadable]).  Mainchain messages: no deposit is refused for its
    address, block infos are accepted in sequence only, and the ancestors that
    the mainchain task asks for are what the gRPC client reads.

    Archive: [archive_ok] is an invariant of every write; jumps along the
    exponential tables are iterated parents; last common ancestor, choice of
    tip, listing of missing bodies.  Node: a reorganization commits only to
    better tips and keeps state, archive and pool consistent; so does the net
    task, whatever arrives; answers to block requests never stop it, while a
    made-up body does later ([poisoned_body_stops_net_task]); mainchain
    ancestors are fetched in boundedly many rounds.  Memory pool: its indexes
    stay consistent, deleting a transaction deletes exactly its descendants,
    and proofs are regenerated after a block.  The template that is mined
    passes [prevalidate].  Peers: a connection task chooses tips as the archive
    does, and headers served by one node are accepted by another; requests
    and answers arrive as they were sent on one network, below the read limits.

    Wallet: the checkpoint tables are inverse to each other and implement a
    list of checkpoints; the wallet's tables stay consistent under all of its
    operations; coin selection succeeds exactly when the balance allows; what
    the wallet creates and signs, the node validates, with the fee that was
    asked for; the wallet disconnects and connects exactly the blocks that
    separate its tip from the node's, and then has the node's outputs; bills
    add up to the scheduled amount and fall on their weekdays within a week.

    Application: a block is submitted only under a mainchain block that commits
    to it, and mining keeps the node consistent; a payment that RPC answers with
    an id is in the memory pool and was pushed to the connected peers.

    ** Fuel

    Recursion along parents has as many steps as the archive has headers at
    most, since heights decrease ([ancestors_fuel], [disconnect_loop]); binary
    searches on [u32] depths have 33 steps; deleting a pool transaction has as
    many steps as the pool has outputs, and two.  Theorems state that these
    bounds suffice where they are about the result ([missing_bodies_agree],
    [mempool_delete_descendants], [update_notes_follows_node],
    [nth_ancestor_is_iterated_parent]).  The rounds of
    [request_ancestor_infos] are bounded by an argument, and a theorem gives a
    sufficient value.

    ** Not modelled

    The QUIC endpoint and its TLS, the limiters and queues of the channel pool,
    the generated protobuf code and the gRPC transport, the LMDB layer below put,
    get, delete and iteration, task spawning and the order in which concurrent
    streams are polled, node start-up and health checks, the HTTP server around
    the RPC handlers, OpenAPI schemas, the GUI and the CLI: they have no logic of
    their own, or it is that of a third-party crate.  A run of [mine] is modelled
    alone, without steps of other tasks between its own. *)
From Stdlib Require Export Strings.Byte.
From stdpp Require Export base tactics gmap list vector sorting countable numbers.
From stdpp Require Export option list.


(** ** Bytes *)

#[export] Instance byte_eq_dec : EqDecision byte := Byte.byte_eq_dec.

#[export] Instance byte_countable : Countable byte.
Proof. by apply (inj_countable Byte.to_N Byte.of_N), Byte.of_to_N. Defined.

#[export] Instance byte_inhabited : Inhabited byte := populate x00.

(** ** Results

    A Rust function that can fail and can panic: [Ok] is a normal return,
    [Err] is a returned error, [Panic] is a failed [assert!], [expect],
    [unwrap] or [unreachable!].  The state of a database transaction is only
    part of the [Ok] value: on [Err] and [Panic] the callers drop the write
    transaction, which aborts it. *)
Inductive Res (E A : Type) : Type :=
  | Ok (a : A)
  | Err (e : E)
  | Panic.
Arguments Ok {E A} a.
Arguments Err {E A} e.
Arguments Panic {E A}.

#[export] Instance res_ret E : MRet (Res E) := λ A a, Ok a.
#[export] Instance res_bind E : MBind (Res E) := λ A B f m,
  match m with Ok a => f a | Err e => Err e | Panic => Panic end.
#[export] Instance res_fmap E : FMap (Res E) := λ A B f m,
  match m with Ok a => Ok (f a) | Err e => Err e | Panic => Panic end.

(** [Result::map_err]. *)
Definition map_err {E F A} (f : E → F) (m : Res E A) : Res F A :=
  match m with Ok a => Ok a | Err e => Err (f e) | Panic => Panic end.

(** [Option::ok_or]. *)
Definition ok_or {E A} (o : option A) (e : E) : Res E A :=
  match o with Some a => Ok a | None => Err e end.

(** [Option::expect] and [Option::unwrap]. *)
Definition expect {E A} (o : option A) : Res E A :=
  match o with Some a => Ok a | None => Panic end.

(** [if !c { return Err(e) }] and [assert!(c)]. *)
Definition guard_err {E} (c : bool) (e : E) : Res E unit :=
  if c then Ok tt else Err e.
Definition assert_true {E} (c : bool) : Res E unit :=
  if c then Ok tt else Panic.

Definition is_ok {E A} (m : Res E A) : bool :=
  match m with Ok _ => true | _ => false end.

(** A [for] loop with [?] inside: left fold that stops at the first error. *)
Fixpoint foldR {E S A} (f : S → A → Res E S) (s : S) (l : list A) : Res E S :=
  match l with
  | [] => Ok s
  | a :: l => s' ← f s a; foldR f s' l
  end.

(** [iter.map(f).collect::<Result<Vec<_>, _>>()]. *)
Fixpoint mapR {E A B} (f : A → Res E B) (l : list A) : Res E (list B) :=
  match l with
  | [] => Ok []
  | a :: l => b ← f a; bs ← mapR f l; Ok (b :: bs)
  end.

Section res_facts.
Context {E : Type}.

Lemma bind_Ok {A B} (m : Res E A) (f : A → Res E B) b :
  m ≫= f = Ok b ↔ ∃ a, m = Ok a ∧ f a = Ok b.
Proof.
  destruct m; simpl; (split; [eauto; discriminate|]); intros (?&?&?);
    simplify_eq; done.
Qed.

Lemma fmap_Ok {A B} (m : Res E A) (f : A → B) b :
  f <$> m = Ok b ↔ ∃ a, m = Ok a ∧ b = f a.
Proof.
  destruct m; simpl; (split; [intros [=]; eauto|]); intros (?&?&?);
    simplify_eq; done.
Qed.

Lemma ok_or_Ok {A} (o : option A) (e : E) a : ok_or o e = Ok a ↔ o = Some a.
Proof. destruct o; simpl; naive_solver. Qed.

Lemma expect_Ok {A} (o : option A) a : expect (E:=E) o = Ok a ↔ o = Some a.
Proof. destruct o; simpl; naive_solver. Qed.

Lemma guard_err_Ok c (e : E) u : guard_err c e = Ok u ↔ c = true.
Proof. destruct c, u; simpl; naive_solver. Qed.

Lemma assert_true_Ok c u : assert_true (E:=E) c = Ok u ↔ c = true.
Proof. destruct c, u; simpl; naive_solver. Qed.

(** Steps of a program, as rewrite rules: they leave the rest alone. *)
Lemma res_bind_ext {A B} (r : Res E A) (f g : A → Res E B) : (∀ x, f x = g x) → r ≫= f = r ≫= g.
Proof. intros Hfg. destruct r; [apply Hfg|done..]. Qed.
Lemma ok_bind {A B} (a : A) (f : A → Res E B) : Ok a ≫= f = f a.
Proof. done. Qed.
Lemma expect_bind {A B} (a : A) (f : A → Res E B) : expect (Some a) ≫= f = f a.
Proof. done. Qed.

Lemma map_err_Ok {F A} (f : F → E) (m : Res F A) a :
  map_err f m = Ok a ↔ m = Ok a.
Proof. destruct m; simpl; naive_solver. Qed.
End res_facts.

(** Decompose a hypothesis [m = Ok _] of a monadic program into the facts
    about its steps. *)
Ltac res_step H :=
  lazymatch type of H with
  | _ ≫= _ = Ok _ =>
      let a := fresh "v" in let Ha := fresh "Hv" in
      apply bind_Ok in H; destruct H as (a & Ha & H)
  | _ <$> _ = Ok _ =>
      let a := fresh "v" in let Ha := fresh "Hv" in
      apply fmap_Ok in H; destruct H as (a & Ha & H)
  | ok_or _ _ = Ok _ => apply ok_or_Ok in H
  | expect _ = Ok _ => apply expect_Ok in H
  | guard_err _ _ = Ok _ => apply guard_err_Ok in H
  | assert_true _ = Ok _ => apply assert_true_Ok in H
  | map_err _ _ = Ok _ => apply map_err_Ok in H
  end.

Ltac res_inv :=
  repeat match goal with
  | H : _ = Ok _ |- _ => progress res_step H
  | H : Ok _ = Ok _ |- _ => injection H as H
  | H : Err _ = Ok _ |- _ => discriminate H
  | H : Panic = Ok _ |- _ => discriminate H
  | H : (let '(_, _) := ?x in _) = Ok _ |- _ => destruct x eqn:?
  | H : _ ∧ _ |- _ => destruct H
  | x : unit |- _ => destruct x
  | x : (_ * _)%type |- _ => destruct x
  end; simplify_eq/=.

(** ** Machine integers

    [u32] values that are stored or serialized carry their bound; the [as u32]
    cast is [u32_of_Z].  Heights and counters are [Z] with the wrap-around of
    release builds written out by [wrap32]; [zlen v] is [v.len()]. *)
Abbreviation zlen l := (Z.of_nat (length l)).

Definition wrap32 (z : Z) : Z := z `mod` 2 ^ 32.

Definition u32_max : Z := 2 ^ 32 - 1.

(** [u32::checked_add] and [u32::try_from]. *)
Definition u32_checked (z : Z) : option Z :=
  if bool_decide (0 ≤ z ≤ u32_max)%Z then Some z else None.
Definition u32_checked_add (a b : Z) : option Z := u32_checked (a + b).
Definition u32_checked_sub (a b : Z) : option Z := u32_checked (a - b).

Definition u32_range (z : Z) : bool := (0 <=? z)%Z && (z <? 2 ^ 32)%Z.

Record u32 := U32 { u32_val : Z; u32_ok : u32_range u32_val = true }.

Lemma u32_eq (a b : u32) : u32_val a = u32_val b → a = b.
Proof.
  destruct a as [a Ha], b as [b Hb]; simpl; intros <-.
  f_equal. apply (proof_irrel Ha).
Qed.

#[export] Instance u32_eq_dec : EqDecision u32.
Proof.
  refine (λ a b, cast_if (decide (u32_val a = u32_val b)));
    [by apply u32_eq | congruence].
Defined.

Lemma u32_range_wrap z : u32_range (wrap32 z) = true.
Proof.
  unfold u32_range, wrap32.
  pose proof (Z.mod_pos_bound z (2 ^ 32)). lia.
Qed.

(** The cast [z as u32]. *)
Definition u32_of_Z (z : Z) : u32 := U32 (wrap32 z) (u32_range_wrap z).

Lemma u32_of_val (a : u32) : u32_of_Z (u32_val a) = a.
Proof.
  apply u32_eq; simpl. unfold wrap32. destruct a as [a Ha]; simpl.
  unfold u32_range in Ha. apply Z.mod_small. lia.
Qed.

#[export] Instance u32_countable : Countable u32.
Proof. apply (inj_countable' u32_val u32_of_Z), u32_of_val. Defined.

Lemma u32_val_range (a : u32) : (0 ≤ u32_val a < 2 ^ 32)%Z.
Proof. destruct a as [a Ha]; simpl. unfold u32_range in Ha. lia. Qed.

Lemma u32_of_Z_small z : (0 ≤ z < 2 ^ 32)%Z → u32_val (u32_of_Z z) = z.
Proof. intros. simpl. apply Z.mod_small. lia. Qed.

Lemma u32_checked_Some a b : u32_checked a = Some b ↔ a = b ∧ (0 ≤ a < 2 ^ 32)%Z.
Proof.
  unfold u32_checked, u32_max. case_bool_decide; split.
  - intros [= ->]. split; [done | lia].
  - by intros [-> _].
  - done.
  - intros [-> ?]. lia.
Qed.

(** ** Little-endian byte vectors *)
Definition byte_of_Z (z : Z) : byte :=
  default x00 (Byte.of_N (Z.to_N (z `mod` 256))).
Definition Z_of_byte (b : byte) : Z := Z.of_N (Byte.to_N b).

Fixpoint le_vec (n : nat) (z : Z) : vec byte n :=
  match n with
  | O => [#]
  | S n => byte_of_Z z ::: le_vec n (z `div` 256)
  end.

Fixpoint le_val {n} (v : vec byte n) : Z :=
  match v with
  | [#] => 0
  | b ::: v => Z_of_byte b + 256 * le_val v
  end.

Lemma Z_of_byte_range b : (0 ≤ Z_of_byte b < 256)%Z.
Proof. unfold Z_of_byte. pose proof (Byte.to_N_bounded b). lia. Qed.

Lemma byte_of_Z_of_byte b : byte_of_Z (Z_of_byte b) = b.
Proof.
  unfold byte_of_Z. rewrite Z.mod_small by apply Z_of_byte_range.
  unfold Z_of_byte. by rewrite N2Z.id, Byte.of_to_N.
Qed.

Lemma Z_of_byte_of_Z z : Z_of_byte (byte_of_Z z) = (z `mod` 256)%Z.
Proof.
  unfold byte_of_Z, Z_of_byte. pose proof (Z.mod_pos_bound z 256 ltac:(lia)).
  destruct (Byte.of_N _) as [b|] eqn:Hb; simpl.
  - apply Byte.to_of_N in Hb. rewrite Hb. lia.
  - apply Byte.of_N_None_iff in Hb. lia.
Qed.

Lemma le_val_le_vec n z : le_val (le_vec n z) = (z `mod` 256 ^ Z.of_nat n)%Z.
Proof.
  revert z; induction n as [|n IH]; intros z; simpl le_vec; simpl le_val.
  - by rewrite Z.mod_1_r.
  - rewrite IH, Z_of_byte_of_Z, Nat2Z.inj_succ, Z.pow_succ_r by lia.
    rewrite Z.rem_mul_r; lia.
Qed.

Lemma le_vec_le_val n (v : vec byte n) : le_vec n (le_val v) = v.
Proof.
  induction v as [|b n v IH]; simpl; [done|].
  pose proof (Z_of_byte_range b) as Hb. f_equal.
  - rewrite <- (byte_of_Z_of_byte b) at 2. unfold byte_of_Z.
    by rewrite Z.mul_comm, Z_mod_plus_full.
  - rewrite Z.mul_comm, Z.div_add, (Z.div_small (Z_of_byte b)) by lia. done.
Qed.

Lemma le_val_range n (v : vec byte n) : (0 ≤ le_val v < 256 ^ Z.of_nat n)%Z.
Proof.
  rewrite <- (le_vec_le_val n v), le_val_le_vec.
  apply Z.mod_pos_bound. apply Z.pow_pos_nonneg; lia.
Qed.

#[global] Arguments le_vec : simpl never.
#[global] Arguments le_val : simpl never.

(** [read_exact] of a fixed-size buffer from a byte reader. *)
Fixpoint read_vec (n : nat) (l : list byte) : option (vec byte n * list byte) :=
  match n with
  | O => Some ([#], l)
  | S n =>
      match l with
      | [] => None
      | b :: l => '(v, l') ← read_vec n l; Some (b ::: v, l')
      end
  end.

Lemma read_vec_app n (v : vec byte n) l : read_vec n (vec_to_list v ++ l) = Some (v, l).
Proof. induction v as [|b n v IH]; simpl; [done|]. by rewrite IH. Qed.

Lemma read_vec_Some n l (v : vec byte n) l' :
  read_vec n l = Some (v, l') → l = vec_to_list v ++ l'.
Proof.
  revert l; induction v as [|b n v IH]; intros l; simpl; [naive_solver|].
  destruct l as [|b' l]; [done|].
  destruct (read_vec n l) as [[w k]|] eqn:Hr; simpl; [|done].
  intros [= -> Hw ->]. apply Eqdep_dec.inj_pair2_eq_dec in Hw; [|apply Nat.eq_dec].
  subst. f_equal. by apply IH.
Qed.

(** Byte vectors as map keys, by an encoding that evaluates. *)
#[export] Instance byte_vec_countable n : Countable (vec byte n).
Proof.
  apply (inj_countable vec_to_list (λ l, fst <$> read_vec n l)).
  intros v. rewrite <- (app_nil_r (vec_to_list v)). by rewrite read_vec_app.
Defined.

(** Evaluation of concrete programs: comparing the result inside [bool] keeps
    the evaluation away from the types. *)
Definition res_is {E A} `{EqDecision A} (m : Res E A) (a : A) : bool :=
  match m with Ok b => bool_decide (a = b) | _ => false end.

Lemma res_is_Ok {E A} `{EqDecision A} (m : Res E A) a : res_is m a = true → m = Ok a.
Proof. destruct m; simpl; [|done..]. intros H%bool_decide_eq_true. by subst. Qed.

Ltac vm_ok := apply res_is_Ok; vm_compute; reflexivity.

(** A decidable property of all entries of a concrete map. *)
Definition map_all `{Countable K} {A} (P : K → A → bool) (m : gmap K A) : bool :=
  forallb (λ e, P e.1 e.2) (map_to_list m).
Lemma map_all_lookup `{Countable K} {A} (P : K → A → bool) (m : gmap K A) k x :
  map_all P m = true → m !! k = Some x → P k x = true.
Proof.
  unfold map_all. rewrite forallb_forall. intros Hall Hk.
  by apply (Hall (k, x)), list_elem_of_In, elem_of_map_to_list.
Qed.

(** A sublist of a sorted list is sorted. *)
Lemma StronglySorted_filter {A} (R : A → A → Prop) (P : A → Prop) `{∀ x, Decision (P x)} l :
  StronglySorted R l → StronglySorted R (filter P l).
Proof.
  induction 1 as [|x l _ IH Hx]; [constructor|]. rewrite filter_cons. case_decide; [|done].
  constructor; [done|]. rewrite Forall_forall in Hx |- *. intros y [_ Hy]%list_elem_of_filter. by apply Hx.
Qed.

(** ** Loops *)
Section loops.
Context {E : Type}.

Lemma foldR_app {S A} (f : S → A → Res E S) s l k :
  foldR f s (l ++ k) = s' ← foldR f s l; foldR f s' k.
Proof.
  revert s. induction l as [|a l IH]; intros s; [done|]. simpl.
  destruct (f s a); simpl; [apply IH|done..].
Qed.

Lemma foldR_pure {S A} (f : S → A → S) s l :
  foldR (λ s a, Ok (E:=E) (f s a)) s l = Ok (foldl f s l).
Proof. revert s. by induction l as [|a l IH]; intros s; simpl. Qed.

(** Invariant rule; [I] may mention the part of the list still to come. *)
Lemma foldR_inv {S A} (I : S → list A → Prop) (f : S → A → Res E S) s l s' :
  (∀ s a l s', I s (a :: l) → f s a = Ok s' → I s' l) →
  I s l → foldR f s l = Ok s' → I s' [].
Proof.
  intros Hstep. revert s. induction l as [|a l IH]; intros s HI; simpl.
  - by intros [= <-].
  - intros (s1 & Ha & Hl)%bind_Ok. eauto.
Qed.

(** A loop and the loop that undoes it over the reversed list.  [R s t] says
    that the state [t] of the undoing loop stands for [s]. *)
Lemma foldR_undo {S T A F} (I : S → list A → Prop) (R : S → T → Prop)
    (f : S → A → Res E S) (g : T → A → Res F T) s l s' t :
  (∀ s a l s', I s (a :: l) → f s a = Ok s' →
     I s' l ∧ ∀ t, R s' t → ∃ t', g t a = Ok t' ∧ R s t') →
  I s l → foldR f s l = Ok s' → R s' t →
  ∃ t', foldR g t (reverse l) = Ok t' ∧ R s t'.
Proof.
  intros Hstep. revert s t. induction l as [|a l IH]; intros s t HI; simpl.
  - intros [= <-] HR. by exists t.
  - intros (s1 & Ha & Hl)%bind_Ok HR. destruct (Hstep _ _ _ _ HI Ha) as [HI1 Hundo].
    destruct (IH s1 t HI1 Hl HR) as (t1 & Ht1 & HR1).
    destruct (Hundo t1 HR1) as (t2 & Ht2 & HR2). exists t2. split; [|done].
    rewrite reverse_cons. revert Ht1. generalize (reverse l) as k. clear -Ht2.
    intros k. revert t. induction k as [|b k IH]; intros t; simpl.
    + intros [= ->]. by rewrite Ht2.
    + destruct (g t b); simpl; [apply IH|done..].
Qed.

(** Two loops in step: related states stay related, and the first failure of
    either is the same failure of the other. *)
Definition res_rel {A B} (R : A → B → Prop) (m : Res E A) (n : Res E B) : Prop :=
  match m, n with
  | Ok a, Ok b => R a b
  | Err e, Err e' => e = e'
  | Panic, Panic => True
  | _, _ => False
  end.

Lemma foldR_rel {S T A B} (I : S → T → list A → list B → Prop)
    (f : S → A → Res E S) (g : T → B → Res E T) s t l k :
  (∀ s t a b l k, I s t (a :: l) (b :: k) → res_rel (λ s' t', I s' t' l k) (f s a) (g t b)) →
  length l = length k → I s t l k →
  res_rel (λ s' t', I s' t' [] []) (foldR f s l) (foldR g t k).
Proof.
  intros Hstep. revert s t k. induction l as [|a l IH]; intros s t [|b k] Hlen HI;
    try done. simpl. pose proof (Hstep _ _ _ _ _ _ HI) as Hs. unfold res_rel in Hs.
  destruct (f s a), (g t b); simpl; try done; subst. apply IH; [by injection Hlen|done].
Qed.

Lemma mapR_Ok {A B} (f : A → Res E B) l k :
  mapR f l = Ok k ↔ Forall2 (λ a b, f a = Ok b) l k.
Proof.
  revert k. induction l as [|a l IH]; intros k; simpl.
  - split; [intros [= <-]; constructor | by intros ->%Forall2_nil_inv_l].
  - rewrite bind_Ok. split.
    + intros (b & Hb & Hbs). apply bind_Ok in Hbs as (bs & Hl & Hk).
      injection Hk as <-. constructor; [done|]. by apply IH.
    + intros (b & k' & Hb & Hk & ->)%Forall2_cons_inv_l. exists b. split; [done|].
      by rewrite (proj2 (IH k') Hk).
Qed.
End loops.

(** ** Programs that cannot panic *)
Section no_panic.
Context {Er : Type}.

Definition no_panic {A} (m : Res Er A) : Prop := match m with Panic => False | _ => True end.

Lemma no_panic_bind {A B} (m : Res Er A) (f : A → Res Er B) :
  no_panic m → (∀ a, m = Ok a → no_panic (f a)) → no_panic (m ≫= f).
Proof. destruct m; simpl; auto. Qed.
Lemma no_panic_bind_all {A B} (m : Res Er A) (f : A → Res Er B) :
  no_panic m → (∀ a, no_panic (f a)) → no_panic (m ≫= f).
Proof. intros Hm Hf. by apply no_panic_bind. Qed.
Lemma no_panic_Ok {A} (a : A) : no_panic (Ok a).
Proof. done. Qed.
Lemma no_panic_Err {A} e : no_panic (A:=A) (Err e).
Proof. done. Qed.
Lemma no_panic_ok_or {A} (o : option A) e : no_panic (ok_or o e).
Proof. by destruct o. Qed.
Lemma no_panic_guard c e : no_panic (guard_err c e).
Proof. by destruct c. Qed.
Lemma no_panic_map_err {Er' A} (f : Er' → Er) (m : Res Er' A) :
  match m with Panic => False | _ => True end → no_panic (map_err f m).
Proof. by destruct m. Qed.
Lemma no_panic_foldR {A B} (I : B → Prop) (f : B → A → Res Er B) s l :
  (∀ s a, I s → no_panic (f s a) ∧ ∀ s', f s a = Ok s' → I s') → I s → no_panic (foldR f s l).
Proof.
  intros Hf. revert s. induction l as [|a l IH]; intros s Hs; cbn [foldR]; [done|].
  destruct (Hf s a Hs) as [Hn Hs']. apply no_panic_bind; [done|]. intros s' H1. apply IH. by apply Hs'.
Qed.
Lemma no_panic_foldR_all {A B} (f : B → A → Res Er B) s l :
  (∀ s a, no_panic (f s a)) → no_panic (foldR f s l).
Proof. intros Hf. by apply (no_panic_foldR (λ _, True)). Qed.
End no_panic.

Create HintDb no_panic discriminated.
#[export] Hint Resolve no_panic_Ok no_panic_Err no_panic_ok_or no_panic_guard : no_panic.

(** Walk through a program; [db] knows the calls it makes. *)
Ltac no_panic_step :=
  match goal with
  | |- ∀ _, _ => intro
  | |- no_panic (mbind _ _) => apply no_panic_bind_all
  | |- no_panic (foldR _ _ _) => apply no_panic_foldR_all
  | |- no_panic (map_err _ ?m) => apply no_panic_map_err; change (no_panic m)
  | |- no_panic (match ?x with _ => _ end) => destruct x
  | |- no_panic _ => solve [auto with no_panic]
  end.
Ltac solve_no_panic := repeat no_panic_step.
