(* ===== verification/Effects.v ===== *)
(** State and errors.

    A task of the program keeps its state when a call returns an error: what it
    has queued or stored stays.  [StR S Er A] is such a call, a function from a
    state to the state afterwards and a result.  [returns] says that a call
    returns, with a postcondition on its value and state; [keeps] that every
    call keeps an invariant, errors included. *)
From S2P Require Import Prelude.

Definition StR (S Er A : Type) : Type := S → S * Res Er A.

#[export] Instance str_ret S Er : MRet (StR S Er) := λ A a s, (s, Ok a).
#[export] Instance str_bind S Er : MBind (StR S Er) := λ A B f m s,
  let '(s, r) := m s in
  match r with Ok a => f a s | Err e => (s, Err e) | Panic => (s, Panic) end.

Definition st_lift {S Er A} (r : Res Er A) : StR S Er A := λ s, (s, r).
Definition st_get {S Er A} (f : S → A) : StR S Er A := λ s, (s, Ok (f s)).
Definition st_modify {S Er} (f : S → S) : StR S Er unit := λ s, (f s, Ok tt).
(** A call on a part of the state. *)
Definition st_zoom {S T Er A} (get : S → T) (put : T → S → S) (m : StR T Er A) : StR S Er A :=
  λ s, let '(t, r) := m (get s) in (put t s, r).
Definition st_map_err {S Er F A} (f : Er → F) (m : StR S Er A) : StR S F A :=
  λ s, let '(s, r) := m s in (s, map_err f r).

(** [for x in l { f(x)?; }] *)
Fixpoint st_for {S Er A} (f : A → StR S Er unit) (l : list A) : StR S Er unit :=
  match l with
  | [] => mret tt
  | x :: l => _ ← f x; st_for f l
  end.

Section laws.
Context {S Er : Type}.
Implicit Types s : S.

Definition returns {A} (m : StR S Er A) (s : S) (Q : A → S → Prop) : Prop :=
  ∃ a s', m s = (s', Ok a) ∧ Q a s'.
Definition keeps {A} (I : S → Prop) (m : StR S Er A) : Prop := ∀ s, I s → I (m s).1.

Lemma st_bind_eq {A B} (m : StR S Er A) (f : A → StR S Er B) s s' a :
  m s = (s', Ok a) → (m ≫= f) s = f a s'.
Proof. unfold mbind, str_bind. by intros ->. Qed.
(** How a sequence of two calls ends. *)
Lemma st_bind_inv {A B} (m : StR S Er A) (f : A → StR S Er B) s s' r :
  (m ≫= f) s = (s', r) →
  (∃ a s1, m s = (s1, Ok a) ∧ f a s1 = (s', r)) ∨ ((m s).1 = s' ∧ ∀ b, r ≠ Ok b).
Proof.
  unfold mbind, str_bind. destruct (m s) as [s1 [a|e|]]; [left; by exists a, s1| |];
    intros [= <- <-]; by right.
Qed.
Lemma st_lift_bind {A B} (a : A) (f : A → StR S Er B) s : (st_lift (Ok a) ≫= f) s = f a s.
Proof. done. Qed.
Lemma st_get_bind {A B} (g : S → A) (f : A → StR S Er B) s : (st_get g ≫= f) s = f (g s) s.
Proof. done. Qed.
Lemma st_modify_bind {B} (g : S → S) (f : unit → StR S Er B) s : (st_modify g ≫= f) s = f tt (g s).
Proof. done. Qed.

Lemma returns_bind {A B} (m : StR S Er A) (f : A → StR S Er B) s (P : A → S → Prop) Q :
  returns m s P → (∀ a s', P a s' → returns (f a) s' Q) → returns (m ≫= f) s Q.
Proof.
  intros (a & s1 & Hm & Ha) Hf. destruct (Hf a s1 Ha) as (b & s2 & Hb & HQ).
  exists b, s2. split; [|done]. by rewrite (st_bind_eq m f s s1 a).
Qed.
Lemma returns_ret {A} (a : A) s (Q : A → S → Prop) : Q a s → returns (mret a) s Q.
Proof. intros HQ. by exists a, s. Qed.
Lemma returns_lift {A} (a : A) s (Q : A → S → Prop) : Q a s → returns (st_lift (Ok a)) s Q.
Proof. intros HQ. by exists a, s. Qed.
Lemma returns_modify (g : S → S) s (Q : unit → S → Prop) : Q tt (g s) → returns (st_modify g) s Q.
Proof. intros HQ. by exists tt, (g s). Qed.
Lemma returns_wand {A} (m : StR S Er A) s (P Q : A → S → Prop) :
  (∀ a s', P a s' → Q a s') → returns m s P → returns m s Q.
Proof. intros HPQ (a & s' & Hm & Ha). exists a, s'. split; [done|by apply HPQ]. Qed.

Lemma returns_for {A} (I : S → Prop) (f : A → StR S Er unit) l s :
  (∀ x s, x ∈ l → I s → returns (f x) s (λ _, I)) → I s → returns (st_for f l) s (λ _, I).
Proof.
  revert s. induction l as [|x l IH]; intros s Hf Hs; [by apply returns_ret|].
  apply (returns_bind _ _ _ (λ _, I)); [by apply Hf; [left|]|].
  intros _ s' Hs'. apply IH; [|done]. intros y s1 Hy. apply Hf. by right.
Qed.

Lemma returns_keeps {A} (m : StR S Er A) s (Q : A → S → Prop) (I : S → Prop) :
  keeps I m → I s → returns m s Q → returns m s (λ a s', Q a s' ∧ I s').
Proof.
  intros HI Hs (a & s' & Hm & HQ). exists a, s'. split_and!; [done..|]. specialize (HI s Hs).
  by rewrite Hm in HI.
Qed.
(** A loop ends at the first call that does not return. *)
Lemma st_for_stop {A} (f : A → StR S Er unit) x l s :
  (f x s).2 ≠ Ok tt → st_for f (x :: l) s = f x s.
Proof.
  intros Hf. cbn [st_for]. unfold mbind, str_bind. by destruct (f x s) as [s' [[]|e|]].
Qed.

Lemma keeps_bind {A B} (I : S → Prop) (m : StR S Er A) (f : A → StR S Er B) :
  keeps I m → (∀ a, keeps I (f a)) → keeps I (m ≫= f).
Proof.
  intros Hm Hf s Hs. unfold mbind, str_bind. specialize (Hm s Hs).
  destruct (m s) as [s' [a|e|]]; simpl in *; [by apply Hf|done..].
Qed.
Lemma keeps_lift {A} (I : S → Prop) (r : Res Er A) : keeps I (st_lift r).
Proof. by intros s Hs. Qed.
Lemma keeps_ret {A} (I : S → Prop) (a : A) : keeps I (mret a).
Proof. by intros s Hs. Qed.
Lemma keeps_get {A} (I : S → Prop) (g : S → A) : keeps I (st_get g).
Proof. by intros s Hs. Qed.
Lemma keeps_modify (I : S → Prop) (g : S → S) : (∀ s, I s → I (g s)) → keeps I (st_modify g).
Proof. intros Hg s Hs. by apply Hg. Qed.
Lemma keeps_for {A} (I : S → Prop) (f : A → StR S Er unit) l :
  (∀ x, keeps I (f x)) → keeps I (st_for f l).
Proof.
  intros Hf. induction l as [|x l IH]; [apply keeps_ret|]. by apply keeps_bind.
Qed.
End laws.

Lemma keeps_zoom {S T Er A} (I : S → Prop) (J : T → Prop) (get : S → T) (put : T → S → S) (m : StR T Er A) :
  keeps J m → (∀ s, I s → J (get s)) → (∀ s t, I s → J t → I (put t s)) → keeps I (st_zoom get put m).
Proof.
  intros Hm Hget Hput s Hs. unfold st_zoom. specialize (Hm (get s) (Hget s Hs)).
  destruct (m (get s)) as [t r]. by apply Hput.
Qed.

Create HintDb keeps.
#[export] Hint Resolve keeps_lift keeps_ret keeps_get keeps_for : keeps.
#[export] Hint Extern 2 (keeps _ (_ ≫= _)) => apply keeps_bind; [|intros ?] : keeps.
#[export] Hint Extern 2 (keeps _ (match ?x with _ => _ end)) => destruct x : keeps.
Ltac solve_keeps := eauto with keeps.
