(* ===== verification/Borsh.v ===== *)
(** Borsh serialization (crate [borsh], used throughout [src/lib/types]).

    [BorshSerialize] and [BorshDeserialize] are the traits the source derives
    or implements; [BorshLaws] is what their clients rely on: a serialized
    value is read back, and the reader stops right after it.  The generic
    consequence is [borsh_app_inj]: serializations can be concatenated without
    separators, which is how transaction ids and keys are built. *)
From S2P Require Import Prelude.

Class BorshSerialize (A : Type) := borsh : A → list byte.
Class BorshDeserialize (A : Type) := deborsh : list byte → option (A * list byte).

#[global] Arguments borsh {_ _} _ : simpl never.
#[global] Arguments deborsh {_ _} _ : simpl never.
#[global] Hint Mode BorshSerialize ! : typeclass_instances.
#[global] Hint Mode BorshDeserialize ! : typeclass_instances.

(** [borsh_ok] is the range of values of the Rust type: the model's integers
    are unbounded. *)
Class BorshLaws (A : Type) `{BorshSerialize A, BorshDeserialize A} := {
  borsh_ok : A → Prop;
  deborsh_borsh a l : borsh_ok a → deborsh (borsh a ++ l) = Some (a, l)
}.

(** ** Fixed-size arrays, [u32], [u64], tags *)
#[export] Instance borsh_array n : BorshSerialize (vec byte n) := vec_to_list.
#[export] Instance deborsh_array n : BorshDeserialize (vec byte n) := read_vec n.
#[export] Program Instance array_laws n : BorshLaws (vec byte n) :=
  {| borsh_ok _ := True |}.
Next Obligation. intros. apply read_vec_app. Qed.

#[export] Instance borsh_u32 : BorshSerialize u32 :=
  λ z, vec_to_list (le_vec 4 (u32_val z)).
#[export] Instance deborsh_u32 : BorshDeserialize u32 := λ l,
  '(v, l) ← read_vec 4 l; Some (u32_of_Z (le_val v), l).
#[export] Program Instance u32_laws : BorshLaws u32 := {| borsh_ok _ := True |}.
Next Obligation.
  intros z l _. unfold deborsh, deborsh_u32, borsh, borsh_u32.
  rewrite read_vec_app. simpl. rewrite le_val_le_vec.
  rewrite Z.mod_small by (pose proof (u32_val_range z); simpl; lia).
  by rewrite u32_of_val.
Qed.

Definition u64_range (z : Z) : Prop := (0 ≤ z < 2 ^ 64)%Z.
Definition borsh_u64 (z : Z) : list byte := vec_to_list (le_vec 8 z).
Definition deborsh_u64 (l : list byte) : option (Z * list byte) :=
  '(v, l) ← read_vec 8 l; Some (le_val v, l).

Lemma deborsh_u64_borsh z l : u64_range z → deborsh_u64 (borsh_u64 z ++ l) = Some (z, l).
Proof.
  intros Hz. unfold deborsh_u64, borsh_u64. rewrite read_vec_app. simpl.
  rewrite le_val_le_vec, Z.mod_small; [done|]. unfold u64_range in Hz. simpl. lia.
Qed.

(** ** Pairs, options and vectors *)
#[export] Instance borsh_prod `{BorshSerialize A, BorshSerialize B} :
  BorshSerialize (A * B) := λ p, borsh p.1 ++ borsh p.2.

#[export] Instance borsh_option `{BorshSerialize A} : BorshSerialize (option A) :=
  λ o, match o with None => [x00] | Some a => x01 :: borsh a end.

(** A vector is its length as [u32] followed by its elements. *)
#[export] Instance borsh_list `{BorshSerialize A} : BorshSerialize (list A) :=
  λ l, vec_to_list (le_vec 4 (zlen l)) ++ mjoin (borsh <$> l).

(** ** Unambiguous concatenation *)
Definition prefix_free {A} (ok : A → Prop) (ser : A → list byte) : Prop :=
  ∀ a b l k, ok a → ok b → ser a ++ l = ser b ++ k → a = b ∧ l = k.

Lemma borsh_app_inj `{BorshSerialize A, BorshDeserialize A, !BorshLaws A} :
  prefix_free borsh_ok (borsh (A:=A)).
Proof.
  intros a b l k Ha Hb Heq.
  pose proof (deborsh_borsh a l Ha) as Hd.
  rewrite Heq, deborsh_borsh in Hd by done. by simplify_eq.
Qed.

Lemma array_prefix_free n : prefix_free (λ _, True) (vec_to_list (A:=byte) (n:=n)).
Proof.
  intros a b l k _ _ Heq. pose proof (read_vec_app n a l) as Hr.
  rewrite Heq, read_vec_app in Hr. by simplify_eq.
Qed.

Section prefix_free.
Context `{BorshSerialize A}.

Lemma prefix_free_inj (ok : A → Prop) (ser : A → list byte) a b :
  prefix_free ok ser → ok a → ok b → ser a = ser b → a = b.
Proof.
  intros Hpf Ha Hb Heq.
  apply (Hpf a b [] [] Ha Hb). by rewrite Heq.
Qed.

Lemma prefix_free_prod {B} `{BorshSerialize B} (okA : A → Prop) (okB : B → Prop) :
  prefix_free okA (borsh (A:=A)) → prefix_free okB (borsh (A:=B)) →
  prefix_free (λ p, okA p.1 ∧ okB p.2) (borsh (A:=A * B)).
Proof.
  intros HA HB [a b] [a' b'] l k [??] [??] Heq.
  unfold borsh, borsh_prod in Heq; simpl in *. rewrite <- !app_assoc in Heq.
  apply HA in Heq as [-> Heq]; [|done..].
  by apply HB in Heq as [-> ->].
Qed.

Lemma prefix_free_concat (ok : A → Prop) (ser : A → list byte) l k r r' :
  prefix_free ok ser → length l = length k → Forall ok l → Forall ok k →
  mjoin (ser <$> l) ++ r = mjoin (ser <$> k) ++ r' → l = k ∧ r = r'.
Proof.
  intros Hpf Hlen Hl. revert k Hlen.
  induction Hl as [|a l Ha Hl IH]; intros [|b k] Hlen Hk Heq;
    simplify_eq/=; [done|].
  inversion_clear Hk. rewrite <- !app_assoc in Heq.
  apply Hpf in Heq as [-> Heq]; [|done..].
  by apply IH in Heq as [-> ->].
Qed.

Lemma prefix_free_list (ok : A → Prop) :
  prefix_free ok (borsh (A:=A)) →
  prefix_free (λ l, Forall ok l ∧ (zlen l < 2 ^ 32)%Z) (borsh (A:=list A)).
Proof.
  intros Hpf l k r r' [Hl Hnl] [Hk Hnk] Heq.
  unfold borsh, borsh_list in Heq. rewrite <- !app_assoc in Heq.
  apply array_prefix_free in Heq as [Hlen Heq]; [|done..].
  apply (f_equal le_val) in Hlen. rewrite !le_val_le_vec in Hlen.
  rewrite !Z.mod_small in Hlen by (simpl; lia).
  by eapply prefix_free_concat in Heq as [-> ->]; [..|lia| |].
Qed.
End prefix_free.
