(* ===== verification/Serde.v ===== *)
(** The serde data model, as far as [src/lib] uses it by hand.

    [Serialize] turns a value into the calls it makes to a serializer,
    [Deserialize] reads a value from what a deserializer presents; both are
    told whether the format [is_human_readable].  A format (the [bincode] and
    [serde_json] crates) is expected to present what it was given, so a round
    trip through a format is a round trip through [value].  Text is its UTF-8
    bytes; the [hex] crate is a parameter. *)
From stdpp Require Export strings.
From S2P Require Import Prelude.

Inductive value :=
  | VStr (s : list byte)
  | VBytes (b : list byte)
  | VU8 (b : byte)
  | VU64 (n : Z)
  | VI64 (n : Z)
  | VTuple (l : list value)
  | VSeq (l : list value)
  | VStruct (fields : list (string * value))
  | VNone
  | VSome (v : value).

(** What a [Deserialize] can complain about: the shape of the data, or a value
    that a [TryFrom] rejects. *)
Inductive DeError :=
  | InvalidType
  | MissingField (name : string)
  | DuplicateField (name : string)
  | InvalidLength
  | InvalidHex
  | Custom (what : string).

Class Serialize (A : Type) := serialize : bool → A → value.
Class Deserialize (A : Type) := deserialize : bool → value → Res DeError A.
#[global] Arguments serialize {_ _} _ _ : simpl never.
#[global] Arguments deserialize {_ _} _ _ : simpl never.
#[global] Hint Mode Serialize ! : typeclass_instances.
#[global] Hint Mode Deserialize ! : typeclass_instances.

(** [serde_ok] holds of the values that a program can have. *)
Class SerdeLaws (A : Type) `{Serialize A, Deserialize A} := {
  serde_ok : bool → A → Prop;
  deserialize_serialize hr a : serde_ok hr a → deserialize hr (serialize hr a) = Ok a
}.

(** ** Integers, options and sequences *)
Definition u64_de (v : value) : Res DeError Z := match v with VU64 n => Ok n | _ => Err InvalidType end.
Definition i64_de (v : value) : Res DeError Z := match v with VI64 n => Ok n | _ => Err InvalidType end.
Definition u8_de (v : value) : Res DeError byte := match v with VU8 b => Ok b | _ => Err InvalidType end.

#[export] Instance option_serialize `{Serialize A} : Serialize (option A) := λ hr o,
  match o with None => VNone | Some a => VSome (serialize hr a) end.
#[export] Instance option_deserialize `{Deserialize A} : Deserialize (option A) := λ hr v,
  match v with
  | VNone => Ok None
  | VSome v => Some <$> deserialize hr v
  | _ => Err InvalidType
  end.
#[export] Program Instance option_serde_laws `{SerdeLaws A} : SerdeLaws (option A) :=
  {| serde_ok hr o := match o with None => True | Some a => serde_ok hr a end |}.
Next Obligation.
  intros A ? ? ? hr [a|] Ha; [|done]. unfold serialize, deserialize, option_serialize, option_deserialize.
  by rewrite deserialize_serialize.
Qed.

#[export] Instance list_serialize `{Serialize A} : Serialize (list A) := λ hr l,
  VSeq (serialize hr <$> l).
#[export] Instance list_deserialize `{Deserialize A} : Deserialize (list A) := λ hr v,
  match v with VSeq l => mapR (deserialize hr) l | _ => Err InvalidType end.
Lemma mapR_deserialize_serialize `{SerdeLaws A} hr (l : list A) :
  Forall (serde_ok hr) l → mapR (deserialize hr) (serialize hr <$> l) = Ok l.
Proof.
  induction 1 as [|a l Ha _ IH]; [done|]. rewrite fmap_cons. simpl.
  by rewrite deserialize_serialize, ok_bind, IH.
Qed.
#[export] Program Instance list_serde_laws `{SerdeLaws A} : SerdeLaws (list A) :=
  {| serde_ok hr := Forall (serde_ok hr) |}.
Next Obligation. intros. by apply mapR_deserialize_serialize. Qed.

(** ** Fixed-size arrays of bytes: a tuple of numbers *)
#[export] Instance array_serialize n : Serialize (vec byte n) := λ _ v,
  VTuple (VU8 <$> vec_to_list v).
#[export] Instance array_deserialize n : Deserialize (vec byte n) := λ _ v,
  match v with
  | VTuple l =>
      bytes ← mapR u8_de l;
      match read_vec n bytes with Some (v, []) => Ok v | _ => Err InvalidLength end
  | _ => Err InvalidType
  end.
Lemma read_vec_all_of n (v : vec byte n) : read_vec n (vec_to_list v) = Some (v, []).
Proof. rewrite <- (app_nil_r (vec_to_list v)). apply read_vec_app. Qed.
Lemma mapR_u8_de l : mapR u8_de (VU8 <$> l) = Ok l.
Proof. induction l as [|b l IH]; [done|]. rewrite fmap_cons. simpl. by rewrite IH. Qed.
#[export] Program Instance array_serde_laws n : SerdeLaws (vec byte n) := {| serde_ok _ _ := True |}.
Next Obligation.
  intros n hr v _. unfold serialize, deserialize, array_serialize, array_deserialize.
  by rewrite mapR_u8_de, ok_bind, read_vec_all_of.
Qed.

(** ** Fields of a struct

    Derived implementations write the fields in order and find them by name. *)
Definition field (fields : list (string * value)) (name : string) : Res DeError value :=
  match filter (λ f, f.1 = name) fields with
  | [] => Err (MissingField name)
  | [f] => Ok f.2
  | _ => Err (DuplicateField name)
  end.
Definition struct_fields (v : value) : Res DeError (list (string * value)) :=
  match v with VStruct fields => Ok fields | _ => Err InvalidType end.

Lemma field_cons_eq n v l : filter (λ f, f.1 = n) l = [] → field ((n, v) :: l) n = Ok v.
Proof. intros Hf. unfold field. rewrite filter_cons_True by done. by rewrite Hf. Qed.
Lemma field_cons_ne n m v l : m ≠ n → field ((m, v) :: l) n = field l n.
Proof. intros Hne. unfold field. by rewrite filter_cons_False. Qed.
(** Read the fields of a struct that is given by its fields. *)
Ltac read_fields :=
  cbn [struct_fields]; rewrite ok_bind;
  repeat match goal with
  | |- context [field ?l ?n] =>
      let Hf := fresh in
      eassert (field l n = Ok _) as Hf
        by (repeat (rewrite field_cons_ne by done); rewrite field_cons_eq by done; reflexivity);
      rewrite Hf; clear Hf
  end;
  repeat rewrite ok_bind.

(** ** Crate [hex] *)
Class HexCrate := {
  hex_encode : list byte → list byte;
  hex_decode : list byte → option (list byte)
}.
Class HexLaws `{HexCrate} : Prop := { hex_decode_encode l : hex_decode (hex_encode l) = Some l }.

Section hex.
Context `{HexCrate}.
(** [hex::serde] and [serde_with::hex::Hex] on [[u8; N]] *)
Definition hex_array_serialize {n} (v : vec byte n) : value := VStr (hex_encode (vec_to_list v)).
Definition hex_array_deserialize n (v : value) : Res DeError (vec byte n) :=
  match v with
  | VStr s =>
      bytes ← ok_or (hex_decode s) InvalidHex;
      match read_vec n bytes with Some (v, []) => Ok v | _ => Err InvalidLength end
  | _ => Err InvalidType
  end.
Lemma hex_array_round_trip `{!HexLaws} {n} (v : vec byte n) :
  hex_array_deserialize n (hex_array_serialize v) = Ok v.
Proof. simpl. rewrite hex_decode_encode. simpl. by rewrite read_vec_all_of. Qed.

(** Hexadecimal text, or an array of numbers. *)
Definition hex_or_array_serialize {n} (hr : bool) (v : vec byte n) : value :=
  if hr then hex_array_serialize v else serialize hr v.
Definition hex_or_array_deserialize n (hr : bool) (v : value) : Res DeError (vec byte n) :=
  if hr then hex_array_deserialize n v else deserialize hr v.
Lemma hex_or_array_round_trip `{!HexLaws} {n} hr (v : vec byte n) :
  hex_or_array_deserialize n hr (hex_or_array_serialize hr v) = Ok v.
Proof. destruct hr; [apply hex_array_round_trip|]. by apply (deserialize_serialize (A:=vec byte n)). Qed.

(** [ByteArrayRepr] and [BytesRepr] of [src/lib/types/orchard/mod.rs]:
    hexadecimal text, or bytes. *)
Definition ByteArrayRepr_serialize {n} (hr : bool) (v : vec byte n) : value :=
  if hr then hex_array_serialize v else VBytes (vec_to_list v).
Definition ByteArrayRepr_deserialize n (hr : bool) (v : value) : Res DeError (vec byte n) :=
  if hr then hex_array_deserialize n v
  else match v with
       | VBytes l => match read_vec n l with Some (v, []) => Ok v | _ => Err InvalidLength end
       | _ => Err InvalidType
       end.
Lemma ByteArrayRepr_round_trip `{!HexLaws} {n} hr (v : vec byte n) :
  ByteArrayRepr_deserialize n hr (ByteArrayRepr_serialize hr v) = Ok v.
Proof.
  unfold ByteArrayRepr_deserialize, ByteArrayRepr_serialize.
  destruct hr; [apply hex_array_round_trip|].
  by rewrite read_vec_all_of.
Qed.

Definition BytesRepr_serialize (hr : bool) (l : list byte) : value :=
  if hr then VStr (hex_encode l) else VBytes l.
Definition BytesRepr_deserialize (hr : bool) (v : value) : Res DeError (list byte) :=
  match hr, v with
  | true, VStr s => ok_or (hex_decode s) InvalidHex
  | false, VBytes l => Ok l
  | _, _ => Err InvalidType
  end.
Lemma BytesRepr_round_trip `{!HexLaws} hr l :
  BytesRepr_deserialize hr (BytesRepr_serialize hr l) = Ok l.
Proof. destruct hr; simpl; [|done]. by rewrite hex_decode_encode. Qed.
End hex.
