(* ===== verification/Externals.v ===== *)
(** Third-party code the node calls, as one type class.

    The bodies of these operations are not part of the repository: the
    [bitcoin], [rustreexo], [orchard], [blake3], [ed25519_dalek], [bincode]
    and LMDB crates.  Every definition of the development takes them as the
    parameter [Externals]; what a theorem needs to know about one of them is a
    named hypothesis of that theorem (or one of the law classes below).
    [Toy.v] builds a concrete, executable instance. *)
From S2P Require Import Prelude.

(** [[u8; 32]], the type of [types::Hash], [bitcoin::Txid] and
    [bitcoin::BlockHash]. *)
Abbreviation Hash := (vec byte 32).

(** [bitcoin::TxOut] and [bitcoin::Transaction], with the fields that
    [WithdrawalBundle::new] fills in.  [input] is always empty there. *)
Record TxOut := mk_TxOut { txo_value : Z; txo_script_pubkey : list byte }.

#[export] Instance TxOut_eq_dec : EqDecision TxOut.
Proof. solve_decision. Defined.

Record BtcTransaction := mk_BtcTransaction {
  btx_version : Z;
  btx_lock_time : Z;
  btx_input : list unit;
  btx_output : list TxOut
}.

#[export] Instance BtcTransaction_eq_dec : EqDecision BtcTransaction.
Proof. solve_decision. Defined.

Class Externals := {
  (** *** crate [bitcoin] *)
  (** [bitcoin::Address<NetworkUnchecked>] *)
  MainAddress : Type;
  MainAddress_eq_dec :: EqDecision MainAddress;
  MainAddress_countable :: Countable MainAddress;
  (** [address.assume_checked_ref().script_pubkey()] *)
  script_pubkey : MainAddress → list byte;
  (** [bitcoin::Address::from_script(script, Network::Bitcoin)] *)
  address_from_script : list byte → option MainAddress;
  (** derived [Ord] of addresses *)
  main_address_cmp : MainAddress → MainAddress → comparison;
  (** [Ord for bitcoin::Txid] *)
  btc_txid_cmp : Hash → Hash → comparison;
  (** [bitcoin::Amount::MAX], in satoshis *)
  amount_max : Z;
  (** [bitcoin::VarInt(n).size()], in bytes *)
  varint_size : Z → Z;
  (** [bitcoin::Amount::SIZE], [LockTime::SIZE], [Weight::WITNESS_SCALE_FACTOR]
      and [bitcoin::policy::MAX_STANDARD_TX_WEIGHT] *)
  amount_size : Z;
  locktime_size : Z;
  witness_scale_factor : Z;
  max_standard_tx_weight : Z;
  (** [script::Builder::new().push_opcode(OP_RETURN).push_slice(data)] *)
  op_return_script : list byte → list byte;
  (** [Transaction::compute_txid] and [Transaction::weight().to_wu()] *)
  compute_txid : BtcTransaction → Hash;
  tx_weight : BtcTransaction → Z;

  (** *** crate [rustreexo] *)
  (** [BitcoinNodeHash], [BitcoinNodeHash::from(&[u8; 32])] and its bytes *)
  NodeHash : Type;
  NodeHash_eq_dec :: EqDecision NodeHash;
  node_hash : Hash → NodeHash;
  node_hash_bytes : NodeHash → Hash;
  (** [MemForest<BitcoinNodeHash>] and [Proof<BitcoinNodeHash>] *)
  Forest : Type;
  forest_default : Forest;
  UtreexoProof : Type;
  UtreexoProof_eq_dec :: EqDecision UtreexoProof;
  forest_modify : Forest → list NodeHash → list NodeHash → option Forest;
  forest_roots : Forest → list NodeHash;
  forest_prove : Forest → list NodeHash → option UtreexoProof;
  forest_verify : Forest → UtreexoProof → list NodeHash → option bool;

  (** *** crates [orchard] and [incrementalmerkletree], as wrapped by
      [types::orchard] *)
  Nullifier : Type;
  Nullifier_eq_dec :: EqDecision Nullifier;
  Nullifier_countable :: Countable Nullifier;
  ExtractedNoteCommitment : Type;
  MerkleHashOrchard : Type;
  Anchor : Type;
  Anchor_eq_dec :: EqDecision Anchor;
  Anchor_countable :: Countable Anchor;
  anchor_from : MerkleHashOrchard → Anchor;
  anchor_empty_tree : Anchor;
  Frontier : Type;
  frontier_empty : Frontier;
  frontier_root : Frontier → MerkleHashOrchard;
  (** [None] when the commitment tree is full *)
  frontier_append : Frontier → ExtractedNoteCommitment → option Frontier;
  Action : Type;
  action_cmx : Action → ExtractedNoteCommitment;
  action_nullifier : Action → Nullifier;
  (** [orchard::bundle::Bundle<Authorized, i64>] and its accessors *)
  Bundle : Type;
  bundle_actions : Bundle → list Action;
  bundle_spends_enabled : Bundle → bool;
  bundle_value_balance : Bundle → Z;
  bundle_anchor : Bundle → Anchor;
  bundle_ser_without_auth : Bundle → list byte;
  bundle_ser : Bundle → list byte;
  (** verification of the binding signature, of the spend authorizations and
      of the proof; the signatures sign the given bytes *)
  bundle_verify_binding : Bundle → list byte → bool;
  bundle_verify_spend_auth : Bundle → list byte → bool;
  bundle_verify_proof : Bundle → bool;

  (** *** crate [blake3] *)
  blake3 : list byte → Hash;
  blake3_xof20 : list byte → vec byte 20;

  (** *** crate [ed25519_dalek] *)
  VerifyingKey : Type;
  Signature : Type;
  SigningKey : Type;
  vk_bytes : VerifyingKey → vec byte 32;
  sig_bytes : Signature → vec byte 64;
  verifying_key_of : SigningKey → VerifyingKey;
  sign_bytes : SigningKey → list byte → Signature;
  verify_batch : list (list byte) → list Signature → list VerifyingKey → bool;

  (** *** crates [bincode] and [heed] *)
  (** the key bytes that [SerdeBincode<u32>] stores *)
  bincode_u32 : Z → list byte;
}.

(** Documented behaviour of [bitcoin::Amount]: a [u64] number of satoshis. *)
Class AmountLaws `{Externals} : Prop := {
  amount_max_range : (0 ≤ amount_max < 2 ^ 64)%Z
}.

(** Documented sizes of the consensus encoding of bitcoin transactions. *)
Class ConsensusSizes `{Externals} : Prop := {
  varint_size_spec n : varint_size n =
    if (n <=? 252)%Z then 1%Z else if (n <=? 65535)%Z then 3%Z
    else if (n <=? 4294967295)%Z then 5%Z else 9%Z;
  amount_size_spec : amount_size = 8%Z;
  locktime_size_spec : locktime_size = 4%Z;
  witness_scale_factor_spec : witness_scale_factor = 4%Z;
  max_standard_tx_weight_spec : max_standard_tx_weight = 400000%Z
}.
