(* ===== verification/Toy.v ===== *)
(** A small executable instance of [Externals], used to evaluate the
    definitions on concrete inputs.  The utreexo forest is the list of its
    leaves, the note commitment frontier the list of the appended
    commitments, the hash a polynomial hash on 24 bits, and a signature is
    valid when it equals the signing key's number. *)
From S2P Require Import Prelude Externals.

Module Toy.
Definition poly_hash (l : list byte) : Z :=
  foldl (λ a b, Z.land (a * 31 + Z_of_byte b + 1) 16777215)%Z 7%Z l.

Fixpoint remove_one (x : Hash) (l : list Hash) : option (list Hash) :=
  match l with
  | [] => None
  | y :: l => if decide (x = y) then Some l else (y ::.) <$> remove_one x l
  end.

Definition toy_modify (f adds dels : list Hash) : option (list Hash) :=
  f' ← foldl (λ o x, f ← o; remove_one x f) (Some f) dels; Some (f' ++ adds).

Definition toy_prove (f targets : list Hash) : option (list Hash) :=
  if decide (Forall (λ t, t ∈ f) targets) then Some targets else None.

Definition toy_verify (f p dels : list Hash) : option bool :=
  Some (bool_decide (p = dels) && bool_decide (Forall (λ t, t ∈ f) dels)).

Record bundle := mk_bundle {
  b_actions : list (Z * Z);
  b_spends : bool;
  b_balance : Z;
  b_anchor : list Z;
  b_sig : bool
}.

Definition ser_bundle (b : bundle) : list byte :=
  mjoin ((λ a, vec_to_list (le_vec 8 a.1) ++ vec_to_list (le_vec 8 a.2))
         <$> b_actions b)
  ++ vec_to_list (le_vec 8 (b_balance b)).

Fixpoint bytes_cmp (a b : list byte) : comparison :=
  match a, b with
  | [], [] => Eq
  | [], _ => Lt
  | _, [] => Gt
  | x :: a, y :: b =>
      match (Z_of_byte x ?= Z_of_byte y)%Z with Eq => bytes_cmp a b | c => c end
  end.

Definition varint (n : Z) : Z :=
  if (n <=? 252)%Z then 1%Z else if (n <=? 65535)%Z then 3%Z
  else if (n <=? 4294967295)%Z then 5%Z else 9%Z.

Definition weight (t : BtcTransaction) : Z :=
  (4 * (4 + 1 + varint (zlen (btx_output t))
        + foldr (λ o a, 8 + varint (zlen (txo_script_pubkey o))
                        + zlen (txo_script_pubkey o) + a) 0 (btx_output t)
        + 4) + 2)%Z.

Definition externals : Externals := {|
  MainAddress := list byte;
  script_pubkey a := a;
  address_from_script s := Some s;
  main_address_cmp := bytes_cmp;
  btc_txid_cmp a b := bytes_cmp (vec_to_list a) (vec_to_list b);
  amount_max := 2 ^ 64 - 1;
  varint_size := varint;
  amount_size := 8; locktime_size := 4; witness_scale_factor := 4;
  max_standard_tx_weight := 400000;
  op_return_script d := x6a :: byte_of_Z (zlen d) :: d;
  compute_txid t :=
    le_vec 32 (poly_hash (mjoin ((λ o, vec_to_list (le_vec 8 (txo_value o))
                                       ++ txo_script_pubkey o) <$> btx_output t)));
  tx_weight := weight;
  NodeHash := Hash; node_hash h := h; node_hash_bytes h := h;
  Forest := list Hash; forest_default := []; UtreexoProof := list Hash;
  forest_modify := toy_modify; forest_roots f := f;
  forest_prove := toy_prove; forest_verify := toy_verify;
  Nullifier := Z; ExtractedNoteCommitment := Z; MerkleHashOrchard := list Z;
  Anchor := list Z; anchor_from r := r; anchor_empty_tree := [];
  Frontier := list Z; frontier_empty := []; frontier_root f := f;
  frontier_append f c := Some (c :: f);
  Action := Z * Z; action_cmx := fst; action_nullifier := snd;
  Bundle := bundle; bundle_actions := b_actions;
  bundle_spends_enabled := b_spends; bundle_value_balance := b_balance;
  bundle_anchor := b_anchor; bundle_ser_without_auth := ser_bundle;
  bundle_ser := ser_bundle;
  bundle_verify_binding b _ := b_sig b;
  bundle_verify_spend_auth b _ := b_sig b;
  bundle_verify_proof b := b_sig b;
  blake3 l := le_vec 32 (poly_hash l);
  blake3_xof20 l := le_vec 20 (poly_hash l);
  VerifyingKey := Z; Signature := Z; SigningKey := Z;
  vk_bytes k := le_vec 32 k; sig_bytes s := le_vec 64 s;
  verifying_key_of k := k; sign_bytes k _ := k;
  verify_batch _ sigs vks := bool_decide (sigs = vks);
  bincode_u32 z := vec_to_list (le_vec 4 z);
|}.

#[global] Instance amount_laws : @AmountLaws externals.
Proof. constructor. simpl. lia. Qed.

#[global] Instance consensus_sizes : @ConsensusSizes externals.
Proof. by constructor. Qed.
End Toy.
