(* ===== verification/Types.v ===== *)
(** Transactions, outputs and blocks ([src/lib/types/transaction.rs],
    [src/lib/types/hashes.rs], [src/lib/types/mod.rs],
    [src/lib/types/address.rs]).

    The hash newtypes [Txid], [M6id], [MerkleRoot], [BlockHash] are [Hash];
    an [Amount] is its number of satoshis.  Serializations are executable, so
    ids and keys are computed by the model as by the code, up to the hash
    function. *)
From S2P Require Import Prelude Borsh Externals Toy.

Abbreviation Txid := Hash.
Abbreviation M6id := Hash.
Abbreviation MerkleRoot := Hash.
Abbreviation BlockHash := Hash.
Abbreviation BtcBlockHash := Hash.
Abbreviation TransparentAddress := (vec byte 20).
Abbreviation Amount := Z.

(** ** Amounts *)
Section amounts.
Context `{E : Externals}.

(** [Amount::checked_add], [Amount::checked_sub], [CheckedSum::checked_sum] *)
Definition checked_add (a b : Amount) : option Amount :=
  if (a + b <=? amount_max)%Z then Some (a + b)%Z else None.
Definition checked_sub (a b : Amount) : option Amount :=
  if (b <=? a)%Z then Some (a - b)%Z else None.
Definition checked_sum (l : list Amount) : option Amount :=
  foldl (λ o a, s ← o; checked_add s a) (Some 0%Z) l.

Definition amount_ok (a : Amount) : Prop := (0 ≤ a ≤ amount_max)%Z.
Definition sumZ (l : list Z) : Z := foldr Z.add 0%Z l.
#[global] Arguments sumZ : simpl never.

Lemma sumZ_cons a l : sumZ (a :: l) = (a + sumZ l)%Z.
Proof. done. Qed.

Lemma checked_add_Some a b c :
  checked_add a b = Some c ↔ c = (a + b)%Z ∧ (c ≤ amount_max)%Z.
Proof.
  unfold checked_add. destruct (Z.leb_spec (a + b) amount_max); split;
    [intros [= <-]; lia | intros [-> _]; done | done | lia].
Qed.

Lemma checked_add_None a b :
  checked_add a b = None ↔ (amount_max < a + b)%Z.
Proof. unfold checked_add. destruct (Z.leb_spec (a + b) amount_max); split; done || lia. Qed.

Lemma checked_sub_Some a b c :
  checked_sub a b = Some c ↔ c = (a - b)%Z ∧ (b ≤ a)%Z.
Proof.
  unfold checked_sub. destruct (Z.leb_spec b a); split;
    [intros [= <-]; lia | intros [-> _]; done | done | lia].
Qed.

Lemma sumZ_app l k : sumZ (l ++ k) = (sumZ l + sumZ k)%Z.
Proof. unfold sumZ. induction l; simpl in *; lia. Qed.

Lemma sumZ_nonneg l : Forall (λ a, 0 ≤ a)%Z l → (0 ≤ sumZ l)%Z.
Proof. unfold sumZ. induction 1; simpl in *; lia. Qed.

Lemma sumZ_perm l k : l ≡ₚ k → sumZ l = sumZ k.
Proof. unfold sumZ. induction 1; simpl in *; lia. Qed.

Lemma checked_fold_None {B} (f : Amount → B → option Amount) (l : list B) :
  foldl (λ o b, s ← o; f s b) None l = None.
Proof. induction l; [done|]; by simpl. Qed.

(** On nonnegative amounts the running sum overflows iff the total does. *)
Lemma checked_sum_from l s :
  (0 ≤ s)%Z → Forall (λ a, 0 ≤ a)%Z l →
  foldl (λ o a, s ← o; checked_add s a) (Some s) l =
    match l with
    | [] => Some s
    | _ => if (s + sumZ l <=? amount_max)%Z then Some (s + sumZ l)%Z else None
    end.
Proof.
  intros Hs Hl. revert s Hs. induction Hl as [|a l Ha Hl IH]; intros s Hs; [done|].
  simpl. unfold checked_add at 2. pose proof (sumZ_nonneg _ Hl).
  destruct (Z.leb_spec (s + a) amount_max).
  - rewrite IH by lia. rewrite !sumZ_cons. destruct l as [|b l].
    + change (sumZ []) with 0%Z. rewrite Z.add_0_r.
      by destruct (Z.leb_spec (s + a) amount_max); [|lia].
    + by rewrite !Z.add_assoc.
  - rewrite checked_fold_None, sumZ_cons.
    by destruct (Z.leb_spec (s + (a + sumZ l)) amount_max); [lia|].
Qed.

Lemma checked_sum_Some l v :
  (0 ≤ amount_max)%Z → Forall (λ a, 0 ≤ a)%Z l →
  checked_sum l = Some v ↔ v = sumZ l ∧ (v ≤ amount_max)%Z.
Proof.
  intros Hmax Hl. unfold checked_sum. rewrite checked_sum_from by done.
  destruct l as [|a l]; [change (sumZ []) with 0%Z; split;
    [intros [= <-]; lia | by intros [-> _]]|].
  rewrite Z.add_0_l. case_match eqn:Hle; split;
    [intros [= <-]; lia | intros [-> _]; done | done | intros [-> ?]; lia].
Qed.
End amounts.

(** ** Outpoints and their database keys *)

(** [bitcoin::OutPoint] *)
Record BtcOutPoint := mk_BtcOutPoint { bop_txid : Hash; bop_vout : u32 }.

Inductive OutPoint :=
  | Regular (txid : Txid) (vout : u32)
  | Coinbase (merkle_root : MerkleRoot) (vout : u32)
  | Deposit (outpoint : BtcOutPoint).

#[export] Instance BtcOutPoint_eq_dec : EqDecision BtcOutPoint.
Proof. solve_decision. Defined.
#[export] Instance OutPoint_eq_dec : EqDecision OutPoint.
Proof. solve_decision. Defined.

Definition OutPoint_rep (o : OutPoint) : (Hash * u32) + (Hash * u32) + (Hash * u32) :=
  match o with
  | Regular h v => inl (inl (h, v))
  | Coinbase h v => inl (inr (h, v))
  | Deposit o => inr (bop_txid o, bop_vout o)
  end.
#[export] Instance OutPoint_countable : Countable OutPoint.
Proof.
  apply (inj_countable' OutPoint_rep (λ r, match r with
    | inl (inl (h, v)) => Regular h v
    | inl (inr (h, v)) => Coinbase h v
    | inr (h, v) => Deposit (mk_BtcOutPoint h v) end)).
  by intros [| |[]].
Defined.

Definition borsh_serialize_bitcoin_outpoint (o : BtcOutPoint) : list byte :=
  borsh (bop_txid o, bop_vout o).

Definition borsh_deserialize_bitcoin_outpoint (l : list byte) :
    option (BtcOutPoint * list byte) :=
  '(txid, l) ← deborsh (A:=vec byte 32) l;
  '(vout, l) ← deborsh (A:=u32) l;
  Some (mk_BtcOutPoint txid vout, l).

(** Derived [BorshSerialize] and [BorshDeserialize]: variant index, fields. *)
#[export] Instance OutPoint_serialize : BorshSerialize OutPoint := λ o,
  match o with
  | Regular txid vout => x00 :: borsh txid ++ borsh vout
  | Coinbase merkle_root vout => x01 :: borsh merkle_root ++ borsh vout
  | Deposit o => x02 :: borsh_serialize_bitcoin_outpoint o
  end.

#[export] Instance OutPoint_deserialize : BorshDeserialize OutPoint := λ l,
  match l with
  | x00 :: l =>
      '(h, l) ← deborsh (A:=vec byte 32) l; '(v, l) ← deborsh (A:=u32) l;
      Some (Regular h v, l)
  | x01 :: l =>
      '(h, l) ← deborsh (A:=vec byte 32) l; '(v, l) ← deborsh (A:=u32) l;
      Some (Coinbase h v, l)
  | x02 :: l => '(o, l) ← borsh_deserialize_bitcoin_outpoint l; Some (Deposit o, l)
  | _ => None
  end.

Lemma borsh_bitcoin_outpoint_ok o l :
  borsh_deserialize_bitcoin_outpoint (borsh_serialize_bitcoin_outpoint o ++ l)
  = Some (o, l).
Proof.
  unfold borsh_deserialize_bitcoin_outpoint, borsh_serialize_bitcoin_outpoint.
  unfold borsh at 1, borsh_prod. cbn [fst snd]. rewrite <- app_assoc.
  rewrite (deborsh_borsh (bop_txid o)) by done. cbn [mbind option_bind].
  rewrite (deborsh_borsh (bop_vout o)) by done. by destruct o.
Qed.

#[export] Program Instance OutPoint_laws : BorshLaws OutPoint :=
  {| borsh_ok _ := True |}.
Next Obligation.
  intros [h v|h v|o] l _; unfold borsh, OutPoint_serialize; cbn [app];
    unfold deborsh, OutPoint_deserialize.
  1,2: rewrite <- app_assoc, (deborsh_borsh h) by done; cbn [mbind option_bind];
       by rewrite (deborsh_borsh v).
  by rewrite borsh_bitcoin_outpoint_ok.
Qed.

Definition OUTPOINT_KEY_SIZE : nat := 37.

(** [OutPointKey]: fixed-width key, the Borsh encoding of the outpoint. *)
Record OutPointKey := mk_OutPointKey { key_bytes : vec byte OUTPOINT_KEY_SIZE }.

#[export] Instance OutPointKey_eq_dec : EqDecision OutPointKey.
Proof. solve_decision. Defined.
#[export] Instance OutPointKey_countable : Countable OutPointKey.
Proof. apply (inj_countable' key_bytes mk_OutPointKey). by intros []. Defined.

(** [OutPointKey::from]: serialize into a zeroed 37-byte buffer.  The cursor
    never reaches the end of the buffer early ([OutPointKey_from_bytes]). *)
Definition OutPointKey_from (o : OutPoint) : OutPointKey :=
  mk_OutPointKey
    (default (vreplicate OUTPOINT_KEY_SIZE x00)
       (fst <$> read_vec OUTPOINT_KEY_SIZE (borsh o))).

(** [OutPoint::from(OutPointKey)] *)
Definition OutPoint_from {E} (k : OutPointKey) : Res E OutPoint :=
  expect (fst <$> deborsh (vec_to_list (key_bytes k))).

(** [BytesDecode for OutPointKey] *)
Definition OutPointKey_bytes_decode (bytes : list byte) : option OutPointKey :=
  if decide (length bytes = OUTPOINT_KEY_SIZE) then
    '(key, _) ← read_vec OUTPOINT_KEY_SIZE bytes;
    _ ← deborsh (A:=OutPoint) (vec_to_list key);
    Some (mk_OutPointKey key)
  else None.

(** [BytesEncode for OutPointKey] *)
Definition OutPointKey_bytes_encode (k : OutPointKey) : list byte :=
  vec_to_list (key_bytes k).

(** [Ord for OutPointKey]: lexicographic on the bytes, as LMDB compares keys. *)
Fixpoint bytes_cmp (a b : list byte) : comparison :=
  match a, b with
  | [], [] => Eq
  | [], _ => Lt
  | _, [] => Gt
  | x :: a, y :: b =>
      match (Z_of_byte x ?= Z_of_byte y)%Z with Eq => bytes_cmp a b | c => c end
  end.
Definition OutPointKey_cmp (a b : OutPointKey) : comparison :=
  bytes_cmp (vec_to_list (key_bytes a)) (vec_to_list (key_bytes b)).

Section outpoint_keys.
Lemma borsh_outpoint_length (o : OutPoint) : length (borsh o) = OUTPOINT_KEY_SIZE.
Proof.
  destruct o as [h v|h v|o]; unfold borsh, OutPoint_serialize,
    borsh_serialize_bitcoin_outpoint, borsh, borsh_prod; cbn [length];
    rewrite length_app; unfold borsh, borsh_array, borsh_u32;
    by rewrite !length_vec_to_list.
Qed.

Lemma read_vec_all l k n :
  length l = n → ∃ v, read_vec n (l ++ k) = Some (v, k) ∧ vec_to_list v = l.
Proof.
  revert l. induction n as [|n IH]; intros [|b l] Hl; try done.
  - by exists [#].
  - injection Hl as Hl. destruct (IH l Hl) as (v & Hv & Hvl).
    exists (b ::: v). simpl. by rewrite Hv, Hvl.
Qed.

Lemma OutPointKey_from_bytes o : vec_to_list (key_bytes (OutPointKey_from o)) = borsh o.
Proof.
  destruct (read_vec_all (borsh o) [] OUTPOINT_KEY_SIZE) as (v & Hv & Hl);
    [apply borsh_outpoint_length|]. rewrite app_nil_r in Hv.
  unfold OutPointKey_from. by rewrite Hv.
Qed.

Lemma OutPointKey_eq a b :
  vec_to_list (key_bytes a) = vec_to_list (key_bytes b) → a = b.
Proof. destruct a, b; simpl. intros ?%vec_to_list_inj2. by f_equal. Qed.

Lemma OutPoint_from_key {E} o : OutPoint_from (E:=E) (OutPointKey_from o) = Ok o.
Proof.
  unfold OutPoint_from. rewrite OutPointKey_from_bytes.
  rewrite <- (app_nil_r (borsh o)). by rewrite deborsh_borsh.
Qed.

#[export] Instance OutPointKey_from_inj : Inj (=) (=) OutPointKey_from.
Proof.
  intros a b Hab. pose proof (OutPoint_from_key (E:=unit) a) as Ha.
  rewrite Hab, OutPoint_from_key in Ha. by simplify_eq.
Qed.

(** The decoder accepts only canonical encodings. *)
Lemma deborsh_hash_u32_canonical (l : list byte) (h : Hash) l1 (v : u32) l2 :
  deborsh l = Some (h, l1) → deborsh l1 = Some (v, l2) → l = borsh h ++ borsh v ++ l2.
Proof.
  unfold deborsh, deborsh_array, deborsh_u32. intros Hh Hv.
  apply read_vec_Some in Hh as ->. destruct (read_vec 4 l1) as [[w l3]|] eqn:Hw;
    [|done]. cbn in Hv. injection Hv as <- <-. apply read_vec_Some in Hw as ->.
  unfold borsh, borsh_array, borsh_u32. do 2 f_equal.
  pose proof (le_val_range 4 w). rewrite u32_of_Z_small by done.
  by rewrite le_vec_le_val.
Qed.

Lemma deborsh_outpoint_canonical l (o : OutPoint) l' :
  deborsh l = Some (o, l') → l = borsh o ++ l'.
Proof.
  unfold deborsh at 1, OutPoint_deserialize, borsh_deserialize_bitcoin_outpoint.
  destruct l as [|b l]; [done|]. destruct b; try done; intros H;
    destruct (deborsh (A:=vec byte 32) l) as [[h l1]|] eqn:Hh; try done;
    cbn [mbind option_bind] in H;
    destruct (deborsh (A:=u32) l1) as [[v l2]|] eqn:Hv; try done;
    cbn [mbind option_bind] in H; injection H as <- <-;
    rewrite (deborsh_hash_u32_canonical l h l1 v l2 Hh Hv);
    unfold borsh at 3, OutPoint_serialize, borsh_serialize_bitcoin_outpoint;
    cbn [app]; unfold borsh at 3, borsh_prod || idtac; cbn [fst snd bop_txid bop_vout];
    by rewrite <- ?app_assoc.
Qed.

Lemma bytes_cmp_refl a : bytes_cmp a a = Eq.
Proof. induction a; simpl; [done|]. by rewrite Z.compare_refl. Qed.

Lemma bytes_cmp_eq a b : bytes_cmp a b = Eq → a = b.
Proof.
  revert b. induction a as [|x a IH]; intros [|y b]; simpl; try done.
  destruct (Z.compare_spec (Z_of_byte x) (Z_of_byte y)) as [Hxy|?|?]; try done.
  intros ->%IH. f_equal. by rewrite <- (byte_of_Z_of_byte x), Hxy, byte_of_Z_of_byte.
Qed.

Lemma bytes_cmp_antisym a b : bytes_cmp b a = CompOpp (bytes_cmp a b).
Proof.
  revert b. induction a as [|x a IH]; intros [|y b]; simpl; try done.
  rewrite (Z.compare_antisym (Z_of_byte x)).
  destruct (Z_of_byte x ?= Z_of_byte y)%Z; simpl; [apply IH|done..].
Qed.

Lemma bytes_cmp_lt_trans a b c :
  bytes_cmp a b = Lt → bytes_cmp b c = Lt → bytes_cmp a c = Lt.
Proof.
  revert b c. induction a as [|x a IH]; intros [|y b] [|z c]; simpl; try done.
  destruct (Z.compare_spec (Z_of_byte x) (Z_of_byte y));
  destruct (Z.compare_spec (Z_of_byte y) (Z_of_byte z));
  destruct (Z.compare_spec (Z_of_byte x) (Z_of_byte z)); try done; try lia; eauto.
Qed.
End outpoint_keys.

(** Derived [Ord for OutPoint]: variant, then hash, then index.  The order of
    [bitcoin::Txid] is the library's. *)
Definition lex_cmp (c d : comparison) : comparison := match c with Eq => d | _ => c end.
Definition u32_cmp (a b : u32) : comparison := (u32_val a ?= u32_val b)%Z.
Definition hash_cmp (a b : Hash) : comparison := bytes_cmp (vec_to_list a) (vec_to_list b).
Definition OutPoint_cmp `{E : Externals} (a b : OutPoint) : comparison :=
  match a, b with
  | Regular h v, Regular h' v' => lex_cmp (hash_cmp h h') (u32_cmp v v')
  | Regular _ _, _ => Lt
  | Coinbase _ _, Regular _ _ => Gt
  | Coinbase h v, Coinbase h' v' => lex_cmp (hash_cmp h h') (u32_cmp v v')
  | Coinbase _ _, Deposit _ => Lt
  | Deposit o, Deposit o' =>
      lex_cmp (btc_txid_cmp (bop_txid o) (bop_txid o')) (u32_cmp (bop_vout o) (bop_vout o'))
  | Deposit _, _ => Gt
  end.

(** ** Hashing

    [hash] and [hash_with_scratch_buffer]: serialize, then BLAKE3. *)
Definition hash `{E : Externals} `{BorshSerialize A} (data : A) : Hash :=
  blake3 (borsh data).
Definition hash_with_scratch_buffer `{E : Externals} `{BorshSerialize A} (data : A) : Hash :=
  blake3 ([] ++ borsh data).

(** [trait GetValue] *)
Class GetValue (A : Type) := get_value : A → Amount.
#[global] Arguments get_value {_ _} _ : simpl never.

(** ** Outputs *)
Section outputs.
Context `{E : Externals}.

Inductive InPoint :=
  | InRegular (txid : Txid) (vin : u32)
  | InWithdrawal (m6id : M6id).

#[export] Instance InPoint_eq_dec : EqDecision InPoint.
Proof. solve_decision. Defined.

#[export] Instance InPoint_serialize : BorshSerialize InPoint := λ i,
  match i with
  | InRegular txid vin => x00 :: borsh txid ++ borsh vin
  | InWithdrawal m6id => x01 :: borsh m6id
  end.

Inductive Content :=
  | Value (value : Amount)
  | Withdrawal (value main_fee : Amount) (main_address : MainAddress).

#[export] Instance Content_eq_dec : EqDecision Content.
Proof. solve_decision. Defined.

#[export] Instance Content_serialize : BorshSerialize Content := λ c,
  match c with
  | Value amount => x00 :: borsh_u64 amount
  | Withdrawal value main_fee main_address =>
      x01 :: borsh_u64 value ++ borsh_u64 main_fee
        ++ vec_to_list (le_vec 4 (zlen (script_pubkey main_address)))
        ++ script_pubkey main_address
  end.

(** [Content::deserialize_reader]; [deserialize] reads the same bytes. *)
#[export] Instance Content_deserialize : BorshDeserialize Content := λ l,
  match l with
  | x00 :: l => '(sats, l) ← deborsh_u64 l; Some (Value sats, l)
  | x01 :: l =>
      '(value_sats, l) ← deborsh_u64 l;
      '(main_fee_sats, l) ← deborsh_u64 l;
      '(len_buf, l) ← read_vec 4 l;
      let script_len := Z.to_nat (le_val len_buf) in
      '(script_bytes, l) ← read_vec script_len l;
      address ← address_from_script (vec_to_list script_bytes);
      Some (Withdrawal value_sats main_fee_sats address, l)
  | _ => None
  end.

Definition is_value (c : Content) : bool :=
  match c with Value _ => true | _ => false end.
Definition is_withdrawal (c : Content) : bool :=
  match c with Withdrawal _ _ _ => true | _ => false end.

#[export] Instance Content_get_value : GetValue Content := λ c,
  match c with
  | Value value => value
  | Withdrawal value main_fee _ => default amount_max (checked_add value main_fee)
  end.

Record Output := mk_Output { address : TransparentAddress; content : Content }.

#[export] Instance Output_eq_dec : EqDecision Output.
Proof. solve_decision. Defined.

#[export] Instance Output_serialize : BorshSerialize Output := λ o,
  borsh (address o) ++ borsh (content o).
#[export] Instance Output_deserialize : BorshDeserialize Output := λ l,
  '(address, l) ← deborsh (A:=vec byte 20) l; '(content, l) ← deborsh l;
  Some (mk_Output address content, l).

#[export] Instance Output_get_value : GetValue Output := λ o, get_value (content o).

(** [PointedOutput] and [PointedOutputRef] differ only in ownership. *)
Record PointedOutput := mk_PointedOutput { outpoint : OutPoint; output : Output }.

#[export] Instance PointedOutput_serialize : BorshSerialize PointedOutput := λ p,
  borsh (outpoint p) ++ borsh (output p).

(** [BitcoinNodeHash::from(&PointedOutput)] *)
Definition PointedOutput_node_hash (p : PointedOutput) : NodeHash :=
  node_hash (hash p).

Record SpentOutput := mk_SpentOutput { so_output : Output; inpoint : InPoint }.

#[export] Instance SpentOutput_eq_dec : EqDecision SpentOutput.
Proof. solve_decision. Defined.

(** The amounts a [u64] holds, and scripts a [u32] length prefix covers. *)
Definition content_ok (c : Content) : Prop :=
  match c with
  | Value v => u64_range v
  | Withdrawal v f a => u64_range v ∧ u64_range f
      ∧ (zlen (script_pubkey a) < 2 ^ 32)%Z
      ∧ address_from_script (script_pubkey a) = Some a
  end.
End outputs.

(** ** Transactions *)
Section transactions.
Context `{E : Externals}.

Record Transaction := mk_Transaction {
  inputs : list (OutPoint * Hash);
  proof : UtreexoProof;
  outputs : list Output;
  orchard_bundle : option Bundle
}.

(** The bytes [Transaction::txid] hashes: the proof is skipped, and an
    absent bundle contributes nothing. *)
Definition txid_preimage (tx : Transaction) : list byte :=
  borsh (inputs tx) ++ borsh (outputs tx)
  ++ match orchard_bundle tx with
     | Some orchard_bundle => bundle_ser_without_auth orchard_bundle
     | None => []
     end.
Definition txid (tx : Transaction) : Txid := blake3 (txid_preimage tx).

(** Derived [BorshSerialize], with [#[borsh(skip)] proof]. *)
#[export] Instance Transaction_serialize : BorshSerialize Transaction := λ tx,
  borsh (inputs tx) ++ borsh (outputs tx)
  ++ match orchard_bundle tx with Some b => x01 :: bundle_ser b | None => [x00] end.

Record FilledTransaction := mk_FilledTransaction {
  transaction : Transaction;
  spent_utxos : list Output
}.

Definition get_value_in (t : FilledTransaction) : option Amount :=
  checked_sum (get_value <$> spent_utxos t).
Definition get_value_out (t : FilledTransaction) : option Amount :=
  checked_sum (get_value <$> outputs (transaction t)).

Inductive ComputeFeeError :=
  | Underfunded (value_in value_out : Amount)
  | ValueInOverflow
  | ValueOutOverflow.

Definition get_fee (t : FilledTransaction) : Res ComputeFeeError Amount :=
  value_in ← ok_or (get_value_in t) ValueInOverflow;
  value_out ← ok_or (get_value_out t) ValueOutOverflow;
  ok_or (checked_sub value_in value_out) (Underfunded value_in value_out).

Definition filled_inputs (t : FilledTransaction) : list (OutPoint * Hash * Output) :=
  zip (inputs (transaction t)) (spent_utxos t).

Record Authorization := mk_Authorization {
  verifying_key : VerifyingKey;
  signature : Signature
}.

Record AuthorizedTransaction := mk_AuthorizedTransaction {
  at_transaction : Transaction;
  authorizations : list Authorization
}.

Record Body := mk_Body {
  coinbase : list Output;
  transactions : list Transaction;
  body_authorizations : list Authorization
}.

Definition Body_new (authorized_transactions : list AuthorizedTransaction)
    (coinbase : list Output) : Body :=
  let '(auths, txs) := foldl (λ '(auths, txs) a,
      (auths ++ authorizations a, txs ++ [at_transaction a]))
    ([], []) authorized_transactions in
  mk_Body coinbase txs auths.

(** [iter.next().unwrap()], [n] times *)
Fixpoint take_unwrap {A} (n : nat) (l : list A) : Res Empty_set (list A * list A) :=
  match n with
  | O => Ok ([], l)
  | S n =>
      match l with
      | [] => Panic
      | a :: l => '(k, l) ← take_unwrap n l; Ok (a :: k, l)
      end
  end.

Fixpoint authorized_transactions_loop (txs : list Transaction)
    (auths : list Authorization) : Res Empty_set (list AuthorizedTransaction) :=
  match txs with
  | [] => Ok []
  | tx :: txs =>
      '(mine, auths) ← take_unwrap (length (inputs tx)) auths;
      rest ← authorized_transactions_loop txs auths;
      Ok (mk_AuthorizedTransaction tx mine :: rest)
  end.
Definition authorized_transactions (b : Body) : Res Empty_set (list AuthorizedTransaction) :=
  authorized_transactions_loop (transactions b) (body_authorizations b).

Definition compute_merkle_root (b : Body) : MerkleRoot :=
  hash_with_scratch_buffer (coinbase b, transactions b).

(** Outputs of a transaction or a coinbase with their outpoints, in order;
    [vout as u32] truncates. *)
Definition pointed_outputs (mk : u32 → OutPoint) (outs : list Output) : list PointedOutput :=
  imap (λ vout output, mk_PointedOutput (mk (u32_of_Z (Z.of_nat vout))) output) outs.

Definition modify_memforest (b : Body) (memforest : Forest) : option Forest :=
  let merkle_root := compute_merkle_root b in
  let add := PointedOutput_node_hash <$> pointed_outputs (Coinbase merkle_root) (coinbase b) in
  let '(add, del) := foldl (λ '(add, del) tx,
      let txid := txid tx in
      (add ++ (PointedOutput_node_hash <$> pointed_outputs (Regular txid) (outputs tx)),
       del ++ ((λ i, node_hash i.2) <$> inputs tx)))
    (add, []) (transactions b) in
  forest_modify memforest add del.

Definition get_inputs (b : Body) : list OutPoint :=
  mjoin ((λ tx, fst <$> inputs tx) <$> transactions b).

Definition insert_outputs (m : gmap OutPoint Output) (l : list PointedOutput) :=
  foldl (λ m p, <[outpoint p := output p]> m) m l.
Definition get_outputs (b : Body) : gmap OutPoint Output :=
  let outs := insert_outputs ∅
    (pointed_outputs (Coinbase (compute_merkle_root b)) (coinbase b)) in
  foldl (λ outs tx, insert_outputs outs (pointed_outputs (Regular (txid tx)) (outputs tx)))
    outs (transactions b).

Definition get_coinbase_value (b : Body) : option Amount :=
  checked_sum (get_value <$> coinbase b).

Record Header := mk_Header {
  merkle_root : MerkleRoot;
  prev_side_hash : option BlockHash;
  prev_main_hash : BtcBlockHash;
  roots : list NodeHash
}.

#[export] Instance Header_serialize : BorshSerialize Header := λ h,
  borsh (merkle_root h) ++ borsh (prev_side_hash h) ++ borsh (prev_main_hash h)
  ++ borsh (node_hash_bytes <$> roots h).

Definition Header_hash (h : Header) : BlockHash := hash h.
End transactions.

(** ** Properties of the serializations and of [Body] *)
Section type_facts.
Context `{E : Externals}.

Lemma deborsh_content_borsh c l :
  content_ok c → deborsh (borsh c ++ l) = Some (c, l).
Proof.
  destruct c as [v|v f a]; unfold content_ok, borsh, deborsh, Content_serialize,
    Content_deserialize; cbn [app].
  - intros Hv. by rewrite deborsh_u64_borsh.
  - intros (Hv & Hf & Hs & Ha). rewrite <- !app_assoc.
    rewrite deborsh_u64_borsh by done. cbn [mbind option_bind].
    rewrite deborsh_u64_borsh by done. cbn [mbind option_bind].
    rewrite read_vec_app. cbn [mbind option_bind].
    rewrite le_val_le_vec, Z.mod_small, Nat2Z.id by (simpl; lia).
    destruct (read_vec_all (script_pubkey a) l (length (script_pubkey a)) eq_refl)
      as (w & Hr & Hw).
    rewrite Hr. cbn [mbind option_bind]. by rewrite Hw, Ha.
Qed.

Lemma deborsh_output_borsh o l :
  content_ok (content o) → deborsh (borsh o ++ l) = Some (o, l).
Proof.
  intros Hc. unfold borsh at 1, Output_serialize. rewrite <- app_assoc.
  unfold deborsh, Output_deserialize.
  rewrite (deborsh_borsh (address o)) by done. cbn [mbind option_bind].
  rewrite deborsh_content_borsh by done. by destruct o.
Qed.

#[export] Program Instance Output_laws : BorshLaws Output :=
  {| borsh_ok o := content_ok (content o) |}.
Next Obligation. intros. by apply deborsh_output_borsh. Qed.

Definition tx_ok (tx : Transaction) : Prop :=
  (zlen (inputs tx) < 2 ^ 32)%Z ∧ (zlen (outputs tx) < 2 ^ 32)%Z
  ∧ Forall (λ o, content_ok (content o)) (outputs tx).

Definition bundle_bytes (tx : Transaction) : list byte :=
  from_option bundle_ser_without_auth [] (orchard_bundle tx).

Lemma txid_preimage_inj tx tx' :
  tx_ok tx → tx_ok tx' → txid_preimage tx = txid_preimage tx' →
  inputs tx = inputs tx' ∧ outputs tx = outputs tx' ∧ bundle_bytes tx = bundle_bytes tx'.
Proof.
  intros (Hi & Ho & Hf) (Hi' & Ho' & Hf') Heq. unfold txid_preimage in Heq.
  assert (prefix_free (λ i : OutPoint * Hash, True ∧ True) borsh) as Hpf.
  { apply (prefix_free_prod (λ _, True) (λ _, True)).
    - exact (borsh_app_inj (A:=OutPoint)).
    - apply array_prefix_free. }
  eapply (prefix_free_list _ Hpf) in Heq as [Hin Heq];
    [|split; [by apply Forall_true|done]..].
  eapply (prefix_free_list _ (borsh_app_inj (A:=Output))) in Heq as [Hout Hb]; [|done..].
  unfold bundle_bytes. by destruct (orchard_bundle tx), (orchard_bundle tx').
Qed.

Lemma take_unwrap_app {A} (l k : list A) :
  take_unwrap (length l) (l ++ k) = Ok (l, k).
Proof. induction l as [|a l IH]; simpl; [done|]. by rewrite IH. Qed.

Lemma Body_new_spec ats cb :
  Body_new ats cb = mk_Body cb (at_transaction <$> ats) (mjoin (authorizations <$> ats)).
Proof.
  unfold Body_new.
  assert (∀ auths txs, foldl (λ '(auths, txs) a,
      (auths ++ authorizations a, txs ++ [at_transaction a])) (auths, txs) ats
    = (auths ++ mjoin (authorizations <$> ats), txs ++ (at_transaction <$> ats))) as ->.
  { induction ats as [|a ats IH]; intros auths txs; simpl.
    - by rewrite !app_nil_r.
    - by rewrite IH, <- !app_assoc. }
  done.
Qed.

Lemma authorized_transactions_loop_app ats k :
  Forall (λ a, length (authorizations a) = length (inputs (at_transaction a))) ats →
  authorized_transactions_loop (at_transaction <$> ats)
    (mjoin (authorizations <$> ats) ++ k) = Ok ats.
Proof.
  induction 1 as [|a ats Ha _ IH]; [done|]. csimpl. rewrite <- app_assoc.
  rewrite <- Ha, take_unwrap_app. cbn [mbind res_bind].
  match goal with |- context [authorized_transactions_loop ?x ?y] =>
    change (authorized_transactions_loop x y) with
      (authorized_transactions_loop (at_transaction <$> ats)
        (mjoin (authorizations <$> ats) ++ k)) end.
  rewrite IH. by destruct a.
Qed.
End type_facts.

(** ** Properties *)
Section properties.
Context `{E : Externals}.

(** Database keys of outpoints round-trip: decoding a key gives back the
    outpoint it was made from, the decoder used by the database accepts every
    encoded key, and so distinct outpoints never share a key. *)
Theorem outpoint_key_round_trip (o o' : OutPoint) :
  OutPoint_from (E:=Empty_set) (OutPointKey_from o) = Ok o
  ∧ OutPointKey_bytes_decode (OutPointKey_bytes_encode (OutPointKey_from o))
    = Some (OutPointKey_from o)
  ∧ (OutPointKey_from o = OutPointKey_from o' ↔ o = o').
Proof.
  split_and!.
  - apply OutPoint_from_key.
  - unfold OutPointKey_bytes_decode, OutPointKey_bytes_encode.
    rewrite decide_True by apply length_vec_to_list.
    rewrite <- (app_nil_r (vec_to_list _)), read_vec_app. cbn [mbind option_bind].
    rewrite OutPointKey_from_bytes, <- (app_nil_r (borsh o)), deborsh_borsh by done.
    by destruct (OutPointKey_from o).
  - split; [apply (inj OutPointKey_from)|congruence].
Qed.

(** The key decoder accepts nothing else: bytes that decode are exactly
    the canonical encoding of some outpoint, so every stored key can be turned
    back into an outpoint without panicking. *)
Theorem outpoint_key_decode_canonical (bytes : list byte) (k : OutPointKey)
    (Hdec : OutPointKey_bytes_decode bytes = Some k) :
  ∃ o, k = OutPointKey_from o ∧ bytes = borsh o
       ∧ OutPoint_from (E:=Empty_set) k = Ok o.
Proof.
  unfold OutPointKey_bytes_decode in Hdec. case_decide as Hlen; [|done].
  destruct (read_vec OUTPOINT_KEY_SIZE bytes) as [[key rest]|] eqn:Hr; [|done].
  apply read_vec_Some in Hr as ->. cbn [mbind option_bind] in Hdec.
  destruct (deborsh (A:=OutPoint) (vec_to_list key)) as [[o l]|] eqn:Ho; [|done].
  injection Hdec as <-. apply deborsh_outpoint_canonical in Ho.
  assert (l = [] ∧ rest = []) as [-> ->].
  { pose proof (f_equal length Ho) as Hl. rewrite length_app, borsh_outpoint_length in Hl.
    rewrite length_app, length_vec_to_list in Hlen. rewrite length_vec_to_list in Hl.
    split; apply length_zero_iff_nil; lia. }
  rewrite app_nil_r in *.
  assert (mk_OutPointKey key = OutPointKey_from o) as ->.
  { apply OutPointKey_eq. by rewrite OutPointKey_from_bytes. }
  exists o. split_and!; [done|done|apply OutPoint_from_key].
Qed.

(** Outputs round-trip through Borsh: reading the serialization of an
    output followed by arbitrary bytes gives the output and those bytes, for
    every output whose amounts are [u64] and whose withdrawal address is one
    that [Address::from_script] recovers from its script. *)
Theorem output_borsh_round_trip (o : Output) (rest : list byte)
    (Hok : content_ok (content o)) :
  deborsh (borsh o ++ rest) = Some (o, rest).
Proof. by apply deborsh_output_borsh. Qed.

(** A transaction id binds the inputs and the outputs: transactions whose
    hashed bytes agree have the same inputs and the same outputs, although the
    serialization has no separators and ends with an optional bundle. *)
Theorem txid_preimage_binds (tx tx' : Transaction)
    (Hok : tx_ok tx) (Hok' : tx_ok tx')
    (Heq : txid_preimage tx = txid_preimage tx') :
  inputs tx = inputs tx' ∧ outputs tx = outputs tx'.
Proof. by pose proof (txid_preimage_inj tx tx' Hok Hok' Heq) as (? & ? & _). Qed.

(** [Body::new] and [Body::authorized_transactions] are inverse: splitting
    a body built from fully authorized transactions returns exactly them, in
    order and without panicking. *)
Theorem body_authorized_transactions_round_trip (ats : list AuthorizedTransaction)
    (cb : list Output)
    (Hauth : Forall (λ a, length (authorizations a) = length (inputs (at_transaction a))) ats) :
  authorized_transactions (Body_new ats cb) = Ok ats.
Proof.
  rewrite Body_new_spec. unfold authorized_transactions. simpl.
  rewrite <- (app_nil_r (mjoin _)). by apply authorized_transactions_loop_app.
Qed.

(** [FilledTransaction::get_fee] is exact: it returns the difference of
    the input and the output values when both sums fit an amount and the
    outputs do not exceed the inputs, and otherwise the error that names the
    reason, with the two sums when the transaction is underfunded. *)
Theorem get_fee_spec `{!AmountLaws} (t : FilledTransaction)
    (Hin : Forall (λ o, 0 ≤ get_value o)%Z (spent_utxos t))
    (Hout : Forall (λ o, 0 ≤ get_value o)%Z (outputs (transaction t))) :
  let value_in := sumZ (get_value <$> spent_utxos t) in
  let value_out := sumZ (get_value <$> outputs (transaction t)) in
  get_fee t =
    if (amount_max <? value_in)%Z then Err ValueInOverflow
    else if (amount_max <? value_out)%Z then Err ValueOutOverflow
    else if (value_in <? value_out)%Z then Err (Underfunded value_in value_out)
    else Ok (value_in - value_out)%Z.
Proof.
  intros vi vo. pose proof amount_max_range as Hmax.
  assert (∀ l : list Output, Forall (λ o, 0 ≤ get_value o)%Z l →
    checked_sum (get_value <$> l) =
      if (amount_max <? sumZ (get_value <$> l))%Z then None
      else Some (sumZ (get_value <$> l))) as Hsum.
  { intros l Hl. apply option_eq. intros v.
    rewrite checked_sum_Some by (lia || by apply Forall_fmap).
    destruct (Z.ltb_spec amount_max (sumZ (get_value <$> l))); split;
      [lia | done | intros [-> ?]; done | intros [= <-]; done]. }
  unfold get_fee, get_value_in, get_value_out. rewrite !Hsum by done.
  fold vi vo. destruct (Z.ltb_spec amount_max vi); [done|]. cbn [ok_or mbind res_bind].
  destruct (Z.ltb_spec amount_max vo); [done|]. cbn [ok_or mbind res_bind].
  unfold checked_sub. destruct (Z.leb_spec vo vi); destruct (Z.ltb_spec vi vo);
    done || lia.
Qed.
End properties.

(** ** Witnesses *)
Module TypesToy.
#[local] Existing Instance Toy.externals.
Definition h (z : Z) : Hash := le_vec 32 z.
Definition addr (z : Z) : TransparentAddress := le_vec 20 z.
Definition op (z : Z) : OutPoint := Regular (h z) (u32_of_Z 3).
Definition out (z : Z) : Output := mk_Output (addr 1) (Value z).
Definition wd : Output := mk_Output (addr 2) (Withdrawal 700 30 [x01; x02]).
Definition tx1 : Transaction := mk_Transaction [(op 1, h 9); (op 2, h 8)] [] [out 60; wd] None.

Definition other_proof : UtreexoProof := [h 5].

Lemma outpoint_key_decode_canonical_witness :
  ∃ o, OutPointKey_from (op 4) = OutPointKey_from o ∧ borsh (op 4) = borsh o
       ∧ OutPoint_from (E:=Empty_set) (OutPointKey_from (op 4)) = Ok o.
Proof.
  apply (outpoint_key_decode_canonical (borsh (op 4))). vm_compute. reflexivity.
Defined.

Lemma wd_ok : content_ok (content wd).
Proof. unfold content_ok, wd, u64_range. simpl. split_and!; done || lia. Qed.

Lemma output_borsh_round_trip_witness : deborsh (borsh wd ++ [x05]) = Some (wd, [x05]).
Proof. apply (output_borsh_round_trip wd [x05]), wd_ok. Defined.

Lemma tx1_ok : tx_ok tx1.
Proof.
  split_and!; [done..|].
  constructor; [|constructor; [apply wd_ok|constructor]].
  unfold content_ok, u64_range. simpl. lia.
Qed.

Lemma txid_preimage_binds_witness :
  inputs tx1 = inputs (mk_Transaction (inputs tx1) other_proof (outputs tx1) None) ∧
  outputs tx1 = outputs (mk_Transaction (inputs tx1) other_proof (outputs tx1) None).
Proof.
  apply (txid_preimage_binds tx1 (mk_Transaction (inputs tx1) other_proof (outputs tx1) None));
    [apply tx1_ok | apply tx1_ok | reflexivity].
Defined.

Lemma body_authorized_transactions_round_trip_witness :
  let a := mk_Authorization (4%Z : VerifyingKey) (4%Z : Signature) in
  let ats := [mk_AuthorizedTransaction tx1 [a; a]; mk_AuthorizedTransaction tx1 [a; a]] in
  authorized_transactions (Body_new ats [out 3]) = Ok ats.
Proof.
  intros a ats. apply (body_authorized_transactions_round_trip ats [out 3]).
  repeat constructor.
Defined.

Lemma get_fee_spec_witness :
  get_fee (mk_FilledTransaction tx1 [out 500; out 400]) = Ok 110%Z.
Proof.
  rewrite (get_fee_spec (mk_FilledTransaction tx1 [out 500; out 400]));
    [reflexivity | repeat constructor; done | repeat constructor; done].
Defined.
End TypesToy.
