(* ===== verification/Address.v ===== *)
(** Addresses and their text ([src/lib/types/address.rs]).

    Text is its UTF-8 bytes.  Base58, Bech32m, SHA-256 and the raw form of an
    orchard address are third-party code ([AddressCrates]). *)
From stdpp Require Import pretty.
From S2P Require Import Prelude.
From S2P Require Import Serde.
From S2P Require Import Externals.
From S2P Require Import Types.

Definition bytes_of (s : string) : list byte := String.list_byte_of_string s.

Class AddressCrates := {
  (** [bitcoin::base58::{encode, decode}] *)
  base58_encode : list byte → list byte;
  base58_decode : list byte → option (list byte);
  (** [bech32]: [Hrp::parse_unchecked], [encode::<Bech32m>], [decode] *)
  Hrp : Type;
  Hrp_eq_dec :: EqDecision Hrp;
  hrp_parse_unchecked : list byte → Hrp;
  bech32m_encode_ : Hrp → list byte → option (list byte);
  bech32_decode : list byte → option (Hrp * list byte);
  (** [bitcoin::hashes::sha256] *)
  sha256 : list byte → Hash;
  (** [orchard::Address] *)
  RawAddress : Type;
  to_raw_address_bytes : RawAddress → vec byte 43;
  from_raw_address_bytes : vec byte 43 → option RawAddress
}.

#[local] Arguments read_vec : simpl never.

Section address.
Context `{AddressCrates} `{HexCrate}.

(** ** Transparent addresses *)
Inductive TransparentAddressParseError := Bs58 | WrongLength (len : nat).

Definition ALL_ZEROS : TransparentAddress := vreplicate 20 x00.
Definition as_base58 (a : TransparentAddress) : list byte := base58_encode (vec_to_list a).

Definition THIS_SIDECHAIN : Z := 98.

(** Format with [s{sidechain_number}_] prefix and a checksum postfix *)
Definition deposit_prefix (a : TransparentAddress) : list byte :=
  bytes_of "s" ++ bytes_of (pretty THIS_SIDECHAIN) ++ bytes_of "_" ++ as_base58 a ++ bytes_of "_".
Definition format_for_deposit (a : TransparentAddress) : list byte :=
  let prefix := deposit_prefix a in
  let prefix_digest := vec_to_list (sha256 prefix) in
  prefix ++ hex_encode (take 3 prefix_digest).

Definition TransparentAddress_from_str (s : list byte) :
    Res TransparentAddressParseError TransparentAddress :=
  address ← ok_or (base58_decode s) Bs58;
  match read_vec 20 address with
  | Some (a, []) => Ok a
  | _ => Err (WrongLength (length address))
  end.

#[export] Instance TransparentAddress_Serialize : Serialize TransparentAddress | 0 := λ hr a,
  if hr then VStr (as_base58 a) else array_serialize 20 hr a.
#[export] Instance TransparentAddress_Deserialize : Deserialize TransparentAddress | 0 := λ hr v,
  if hr then
    match v with
    | VStr s => map_err (λ _, Custom "TransparentAddress") (TransparentAddress_from_str s)
    | _ => Err InvalidType
    end
  else array_deserialize 20 hr v.

(** ** Shielded addresses *)
Inductive Bech32mDecodeError :=
  | Bech32m
  | InvalidBytes (bytes : vec byte 43)
  | WrongHrp (expected decoded : Hrp)
  | WrongSize
  | WrongVariant.

Definition ShieldedAddress : Type := RawAddress.
Definition BECH32M_HRP : Hrp := hrp_parse_unchecked (bytes_of "t-shld").

Definition bech32m_encode {Er} (a : ShieldedAddress) : Res Er (list byte) :=
  expect (bech32m_encode_ BECH32M_HRP (vec_to_list (to_raw_address_bytes a))).

Definition bech32m_decode (s : list byte) : Res Bech32mDecodeError ShieldedAddress :=
  '(hrp, data) ← ok_or (bech32_decode s) Bech32m;
  if bool_decide (hrp ≠ BECH32M_HRP) then Err (WrongHrp BECH32M_HRP hrp)
  else
    match read_vec 43 data with
    | Some (bytes, []) =>
        match from_raw_address_bytes bytes with
        | None => Err (InvalidBytes bytes)
        | Some addr =>
            text ← bech32m_encode addr;
            if bool_decide (s ≠ text) then Err WrongVariant else Ok addr
        end
    | _ => Err WrongSize
    end.

(** A [Serialize] whose text cannot be encoded panics; the value is then never
    used. *)
#[export] Instance ShieldedAddress_Serialize : Serialize ShieldedAddress := λ hr a,
  if hr then match bech32m_encode (Er:=Empty_set) a with Ok s => VStr s | _ => VNone end
  else VBytes (vec_to_list (to_raw_address_bytes a)).
#[export] Instance ShieldedAddress_Deserialize : Deserialize ShieldedAddress := λ hr v,
  match hr, v with
  | true, VStr s => map_err (λ _, Custom "ShieldedAddress") (bech32m_decode s)
  | false, VBytes l =>
      match read_vec 43 l with
      | Some (bytes, []) => ok_or (from_raw_address_bytes bytes) (Custom "Invalid address")
      | _ => Err InvalidLength
      end
  | _, _ => Err InvalidType
  end.

(** ** Either *)
Record AddressParseError := mk_AddressParseError {
  ape_shielded : Bech32mDecodeError;
  ape_transparent : TransparentAddressParseError
}.
Inductive Address := Shielded (a : ShieldedAddress) | Transparent (a : TransparentAddress).

(** [Display] *)
Definition Address_to_string {Er} (a : Address) : Res Er (list byte) :=
  match a with
  | Shielded addr => bech32m_encode addr
  | Transparent addr => Ok (as_base58 addr)
  end.

Definition Address_from_str (s : list byte) : Res AddressParseError Address :=
  match bech32m_decode s with
  | Panic => Panic
  | Ok addr => Ok (Shielded addr)
  | Err shielded =>
      match TransparentAddress_from_str s with
      | Panic => Panic
      | Ok addr => Ok (Transparent addr)
      | Err transparent => Err (mk_AddressParseError shielded transparent)
      end
  end.

(** ** Properties

    Documented behaviour of the crates: decoding inverts encoding, Base58 text
    is ASCII without ['-'], the human-readable part of a Bech32 string precedes its last
    ['1'] and is compared without regard to case (['-'] has none), and Bech32m
    encodes 43 bytes. *)
Class AddressLaws : Prop := {
  base58_round_trip l : base58_decode (base58_encode l) = Some l;
  base58_no_dash l : x2d ∉ base58_encode l;
  base58_ascii l b : b ∈ base58_encode l → (Z_of_byte b < 128)%Z;
  bech32_round_trip hrp l s : bech32m_encode_ hrp l = Some s → bech32_decode s = Some (hrp, l);
  bech32m_encode_total l : length l = 43 → is_Some (bech32m_encode_ BECH32M_HRP l);
  bech32_hrp s hrp l : bech32_decode s = Some (hrp, l) →
    ∃ p rest, s = p ++ x31 :: rest ∧ hrp = hrp_parse_unchecked p;
  hrp_dash p q : hrp_parse_unchecked p = hrp_parse_unchecked q → x2d ∈ p ↔ x2d ∈ q;
  raw_address_round_trip a : from_raw_address_bytes (to_raw_address_bytes a) = Some a
}.
Context `{!AddressLaws}.

Lemma bech32m_encode_Ok {Er} a : ∃ s, bech32m_encode (Er:=Er) a = Ok s.
Proof.
  destruct (bech32m_encode_total (vec_to_list (to_raw_address_bytes a))) as [s Hs].
  { apply length_vec_to_list. }
  exists s. unfold bech32m_encode. by rewrite Hs.
Qed.

Lemma bech32m_decode_encode {Er} a s :
  bech32m_encode (Er:=Er) a = Ok s → bech32m_decode s = Ok a.
Proof.
  intros Hs. unfold bech32m_decode. pose proof Hs as He. apply expect_Ok in He.
  rewrite (bech32_round_trip _ _ _ He). simpl. rewrite bool_decide_eq_false_2 by naive_solver.
  rewrite read_vec_all_of, raw_address_round_trip.
  assert (bech32m_encode (Er:=Bech32mDecodeError) a = Ok s) as ->.
  { unfold bech32m_encode. by rewrite He. }
  simpl. by rewrite bool_decide_eq_false_2 by naive_solver.
Qed.

(** Only the text of an address is accepted: no second spelling. *)
Lemma bech32m_decode_Ok s a : bech32m_decode s = Ok a → bech32m_encode (Er:=Bech32mDecodeError) a = Ok s.
Proof.
  unfold bech32m_decode. intros Hd. destruct (bech32_decode s) as [[hrp data]|]; [|done]. simpl in Hd.
  case_bool_decide as Hhrp; [done|]. destruct (read_vec 43 data) as [[bytes [|]]|]; try done.
  destruct (from_raw_address_bytes bytes) as [addr|]; [|done].
  destruct (bech32m_encode addr) as [text| |] eqn:Ht; try done. simpl in Hd.
  case_bool_decide as Hs; [done|]. by simplify_eq.
Qed.

Lemma transparent_round_trip a : TransparentAddress_from_str (as_base58 a) = Ok a.
Proof.
  unfold TransparentAddress_from_str, as_base58. rewrite base58_round_trip. simpl.
  by rewrite read_vec_all_of.
Qed.

(** No text in Base58 is a shielded address: the dash of ["t-shld"]. *)
Lemma base58_not_shielded a : ∃ e, bech32m_decode (as_base58 a) = Err e.
Proof.
  unfold bech32m_decode. destruct (bech32_decode (as_base58 a)) as [[hrp data]|] eqn:Hd; [|by eexists].
  simpl. case_bool_decide as Hhrp; [by eexists|]. exfalso. subst.
  apply bech32_hrp in Hd as (p & rest & Hs & Hp).
  unfold BECH32M_HRP in Hp. apply hrp_dash in Hp.
  assert (x2d ∈ p) as Hin by (apply Hp; vm_compute; right; left).
  apply (base58_no_dash (vec_to_list a)). fold (as_base58 a). rewrite Hs, elem_of_app. by left.
Qed.

(** C40: Addresses round-trip through text: what [Display] prints, [FromStr]
    reads back, although the two kinds of address share one parser; and a
    shielded address is read from no other text, so two spellings of the
    decoder (letter case, the older Bech32 checksum) are rejected. *)
Theorem address_text_round_trip (a : Address) (s : list byte) :
  (∃ t, Address_to_string (Er:=AddressParseError) a = Ok t ∧ Address_from_str t = Ok a)
  ∧ (∀ sa, Address_from_str s = Ok (Shielded sa) →
      Address_to_string (Er:=AddressParseError) (Shielded sa) = Ok s).
Proof.
  split.
  - destruct a as [a|a]; simpl.
    + destruct (bech32m_encode_Ok (Er:=AddressParseError) a) as [t Ht]. exists t. split; [done|].
      unfold Address_from_str. by rewrite (bech32m_decode_encode _ _ Ht).
    + exists (as_base58 a). split; [done|]. unfold Address_from_str.
      destruct (base58_not_shielded a) as [e ->]. by rewrite transparent_round_trip.
  - intros sa Hs. unfold Address_from_str in Hs.
    destruct (bech32m_decode s) as [addr| |] eqn:Hd; simplify_eq.
    + apply bech32m_decode_Ok, expect_Ok in Hd. simpl. unfold bech32m_encode. by rewrite Hd.
    + by destruct (TransparentAddress_from_str s).
Qed.

#[export] Program Instance ShieldedAddress_serde_laws : SerdeLaws ShieldedAddress :=
  {| serde_ok _ _ := True |}.
Next Obligation.
  intros hr a _. unfold serialize, deserialize, ShieldedAddress_Serialize, ShieldedAddress_Deserialize.
  destruct hr.
  - destruct (bech32m_encode_Ok (Er:=Empty_set) a) as [s Hs]. rewrite Hs.
    by rewrite (bech32m_decode_encode a s Hs).
  - by rewrite read_vec_all_of, raw_address_round_trip.
Qed.
End address.
#[global] Typeclasses Opaque ShieldedAddress.

(** ** Witness: every text is spelled with the letters [a] to [p] *)
Module AddressToy.
Definition letter (n : Z) : byte := byte_of_Z (97 + n).
Definition spell (b : byte) : list byte :=
  [letter (Z_of_byte b / 16); letter (Z_of_byte b mod 16)].
Fixpoint unspell (l : list byte) : option (list byte) :=
  match l with
  | [] => Some []
  | c :: d :: l => (byte_of_Z ((Z_of_byte c - 97) * 16 + (Z_of_byte d - 97)) ::.) <$> unspell l
  | [_] => None
  end.
Lemma unspell_spell l : unspell (mjoin (spell <$> l)) = Some l.
Proof.
  induction l as [|b l IH]; [done|]. rewrite fmap_cons. simpl. rewrite IH. simpl. f_equal. f_equal.
  by destruct b.
Qed.
Lemma spell_not c l : c ∈ mjoin (spell <$> l) → (97 ≤ Z_of_byte c)%Z.
Proof.
  intros (k & Hk & Hc)%list_elem_of_join. apply list_elem_of_fmap in Hc as (b & -> & _).
  unfold spell in Hk. rewrite !elem_of_cons, elem_of_nil in Hk.
  destruct b; destruct Hk as [->|[->|[]]]; vm_compute; congruence.
Qed.

Lemma spell_ascii c l : c ∈ mjoin (spell <$> l) → (Z_of_byte c < 128)%Z.
Proof.
  intros (k & Hk & Hc)%list_elem_of_join. apply list_elem_of_fmap in Hc as (b & -> & _).
  unfold spell in Hk. rewrite !elem_of_cons, elem_of_nil in Hk.
  destruct b; destruct Hk as [->|[->|[]]]; vm_compute; congruence.
Qed.

Fixpoint split_last (s : list byte) : option (list byte * list byte) :=
  match s with
  | [] => None
  | c :: s =>
      match split_last s with
      | Some (p, r) => Some (c :: p, r)
      | None => if bool_decide (c = x31) then Some ([], s) else None
      end
  end.
Lemma split_last_Some s p r : split_last s = Some (p, r) → s = p ++ x31 :: r.
Proof.
  revert p r. induction s as [|c s IH]; intros p r Hs; simplify_eq/=.
  destruct (split_last s) as [[p' r']|]; simplify_eq/=.
  - by rewrite (IH p' r) by done.
  - case_bool_decide; by simplify_eq/=.
Qed.
Lemma split_last_None r : x31 ∉ r → split_last r = None.
Proof.
  induction r as [|c r IH]; [done|]. rewrite not_elem_of_cons. intros [Hc Hr]. simpl.
  by rewrite IH, bool_decide_eq_false_2.
Qed.
Lemma split_last_app p r : x31 ∉ r → split_last (p ++ x31 :: r) = Some (p, r).
Proof. intros Hr. induction p as [|c p IH]; simpl; [by rewrite split_last_None|by rewrite IH]. Qed.

#[export] Instance hex : HexCrate := {| hex_encode l := mjoin (spell <$> l); hex_decode := unspell |}.
#[export] Instance hex_laws : HexLaws.
Proof. split. apply unspell_spell. Qed.
#[export] Instance crates : AddressCrates := {|
  base58_encode l := mjoin (spell <$> l);
  base58_decode := unspell;
  Hrp := list byte;
  hrp_parse_unchecked := id;
  bech32m_encode_ hrp l := Some (hrp ++ x31 :: mjoin (spell <$> l));
  bech32_decode s := '(hrp, l) ← split_last s; l ← unspell l; Some (hrp, l);
  sha256 l := le_vec 32 (zlen l);
  RawAddress := vec byte 43;
  to_raw_address_bytes := id;
  from_raw_address_bytes := Some
|}.
#[export] Instance laws : AddressLaws.
Proof.
  split; simpl; unfold id.
  - apply unspell_spell.
  - intros l Hl%spell_not. vm_compute in Hl. congruence.
  - intros l b Hb. eapply spell_ascii, Hb.
  - intros hrp l s Hs. simplify_eq. rewrite split_last_app; simpl; [by rewrite unspell_spell|].
    intros Hl%spell_not. vm_compute in Hl. congruence.
  - by eexists.
  - intros s hrp l Hs. destruct (split_last s) as [[p r]|] eqn:Hp; [|done]. simpl in Hs.
    destruct (unspell r); simplify_eq/=. exists hrp, r. apply split_last_Some in Hp. subst. eauto.
  - intros p q ->. done.
  - done.
Qed.

Definition someone : TransparentAddress := le_vec 20 1234567.
Lemma address_text_round_trip_witness :
  (∃ t, Address_to_string (Er:=AddressParseError) (Transparent someone) = Ok t
     ∧ Address_from_str t = Ok (Transparent someone))
  ∧ (∀ sa, Address_from_str (bytes_of "t-shld1abcd") = Ok (Shielded sa) →
      Address_to_string (Er:=AddressParseError) (Shielded sa) = Ok (bytes_of "t-shld1abcd")).
Proof. apply (address_text_round_trip (Transparent someone) (bytes_of "t-shld1abcd")). Defined.

(** The address formatted for a deposit to sidechain 98. *)
Example deposit_text :
  take 4 (format_for_deposit someone) = bytes_of "s98_" ∧ length (format_for_deposit someone) = 51.
Proof. vm_compute. done. Qed.
End AddressToy.
