(* ===== verification/OrchardTypes.v ===== *)
(** Orchard types ([src/lib/types/orchard/mod.rs]).

    The repository wraps the types of the [orchard] crate to give them Borsh
    and serde representations.  The crate's types and constructors are
    parameters ([OrchardCrate]); a [#[repr(transparent)]] wrapper is the type
    that it wraps.  [Borrowed] and [Owned] representations are one record here. *)
From S2P Require Import Prelude.
From S2P Require Import Borsh.
From S2P Require Import Serde.
From S2P Require Import Address.

#[local] Arguments read_vec : simpl never.

(** [redpallas::SigType] *)
Inductive SigType := SpendAuth | Binding.

(** [nonempty::NonEmpty] *)
Record NonEmpty (A : Type) := mk_NonEmpty { ne_head : A; ne_tail : list A }.
Arguments mk_NonEmpty {A} _ _.
Arguments ne_head {A} _.
Arguments ne_tail {A} _.
Definition ne_list {A} (l : NonEmpty A) : list A := ne_head l :: ne_tail l.
Definition ne_from_list {A} (l : list A) : option (NonEmpty A) :=
  match l with [] => None | a :: l => Some (mk_NonEmpty a l) end.

(** [orchard::note::TransmittedNoteCiphertext], a struct with public fields *)
Record TransmittedNoteCiphertext := mk_TransmittedNoteCiphertext {
  epk_bytes : vec byte 32;
  enc_ciphertext : vec byte 580;
  out_ciphertext : vec byte 80
}.

Class OrchardCrate := {
  (** [note::Nullifier] *)
  ONullifier : Type;
  ONullifier_eq_dec :: EqDecision ONullifier;
  ONullifier_countable :: Countable ONullifier;
  nullifier_to_bytes : ONullifier → vec byte 32;
  nullifier_from_bytes : vec byte 32 → option ONullifier;
  (** [redpallas::Signature] and [redpallas::VerificationKey] *)
  OSignature : SigType → Type;
  signature_to_bytes {T} : OSignature T → vec byte 64;
  signature_from_bytes {T} : vec byte 64 → OSignature T;
  OVerificationKey : SigType → Type;
  vk_to_bytes {T} : OVerificationKey T → vec byte 32;
  vk_try_from {T} : vec byte 32 → option (OVerificationKey T);
  vk_verify {T} : OVerificationKey T → list byte → OSignature T → bool;
  (** [note::ExtractedNoteCommitment] and [value::ValueCommitment] *)
  ONoteCommitment : Type;
  cmx_to_bytes : ONoteCommitment → vec byte 32;
  cmx_from_bytes : vec byte 32 → option ONoteCommitment;
  OValueCommitment : Type;
  cv_to_bytes : OValueCommitment → vec byte 32;
  cv_from_bytes : vec byte 32 → option OValueCommitment;
  (** [Action<A>]; [from_parts] fails if [rk] is the identity *)
  OAction : Type → Type;
  oa_nullifier {A} : OAction A → ONullifier;
  oa_rk {A} : OAction A → OVerificationKey SpendAuth;
  oa_cmx {A} : OAction A → ONoteCommitment;
  oa_encrypted_note {A} : OAction A → TransmittedNoteCiphertext;
  oa_cv_net {A} : OAction A → OValueCommitment;
  oa_authorization {A} : OAction A → A;
  action_from_parts {A} : ONullifier → OVerificationKey SpendAuth → ONoteCommitment →
    TransmittedNoteCiphertext → OValueCommitment → A → option (OAction A);
  (** [note_encryption::CompactAction] *)
  OCompactAction : Type;
  compact_from {A} : OAction A → OCompactAction;
  ca_nullifier : OCompactAction → ONullifier;
  ca_cmx : OCompactAction → ONoteCommitment;
  ca_ephemeral_key : OCompactAction → vec byte 32;
  ca_enc_ciphertext : OCompactAction → vec byte 52;
  (** [bundle::Flags], [tree::Anchor], [Proof] *)
  OFlags : Type;
  FLAGS_ENABLED : OFlags;
  FLAGS_SPENDS_DISABLED : OFlags;
  flags_spends_enabled : OFlags → bool;
  flags_to_byte : OFlags → byte;
  flags_from_byte : byte → option OFlags;
  OAnchor : Type;
  OAnchor_eq_dec :: EqDecision OAnchor;
  OAnchor_countable :: Countable OAnchor;
  oanchor_empty_tree : OAnchor;
  oanchor_to_bytes : OAnchor → vec byte 32;
  oanchor_from_bytes : vec byte 32 → option OAnchor;
  OProof : Type;
  proof_new : list byte → OProof;
  proof_bytes : OProof → list byte;
  (** the size of a proof for a number of actions, which the strict
      constructor of bundles enforces *)
  proof_size : nat → nat;
  (** [bundle::Authorized] *)
  OAuthorized : Type;
  authorized_proof : OAuthorized → OProof;
  authorized_binding_signature : OAuthorized → OSignature Binding;
  authorized_from_parts : OProof → OSignature Binding → OAuthorized;
  (** [bundle::Bundle<Auth, i64>], with the type of its spend authorizations *)
  OBundle : Type → Type → Type;
  ob_actions {Auth SA} : OBundle Auth SA → NonEmpty (OAction SA);
  ob_flags {Auth SA} : OBundle Auth SA → OFlags;
  ob_value_balance {Auth SA} : OBundle Auth SA → Z;
  ob_anchor {Auth SA} : OBundle Auth SA → OAnchor;
  ob_authorization {Auth SA} : OBundle Auth SA → Auth;
  ob_binding_validating_key {Auth SA} : OBundle Auth SA → OVerificationKey Binding;
  (** [Bundle::<EffectsOnly>::from_parts] *)
  bundle_from_parts_effects : NonEmpty (OAction unit) → OFlags → Z → OAnchor → OBundle unit unit;
  (** [Bundle::<Authorized>::try_from_parts] with [ProofSizeEnforcement::Strict] *)
  bundle_try_from_parts : NonEmpty (OAction (OSignature SpendAuth)) → OFlags → Z → OAnchor →
    OAuthorized → option (OBundle OAuthorized (OSignature SpendAuth));
  ob_verify_proof : OBundle OAuthorized (OSignature SpendAuth) → bool
}.

Section types.
Context `{OrchardCrate} `{HexCrate}.

(** ** Signatures, nullifiers, keys, commitments *)
Definition Signature (T : SigType) : Type := OSignature T.
#[export] Instance Signature_borsh T : BorshSerialize (Signature T) := λ s,
  borsh (signature_to_bytes s).
#[export] Instance Signature_Serialize T : Serialize (Signature T) := λ hr s,
  ByteArrayRepr_serialize hr (signature_to_bytes s).
#[export] Instance Signature_Deserialize T : Deserialize (Signature T) := λ hr v,
  signature_from_bytes <$> ByteArrayRepr_deserialize 64 hr v.

(** The shape that four types share: 32 bytes, of which some are refused. *)
Definition bytes32_deserialize {A} (from_bytes : vec byte 32 → option A) (what : string)
    (hr : bool) (v : value) : Res DeError A :=
  bytes ← hex_or_array_deserialize 32 hr v;
  ok_or (from_bytes bytes) (Custom what).

Definition Nullifier : Type := ONullifier.
#[export] Instance Nullifier_borsh : BorshSerialize Nullifier := λ n, borsh (nullifier_to_bytes n).
#[export] Instance Nullifier_Serialize : Serialize Nullifier := λ hr n,
  hex_or_array_serialize hr (nullifier_to_bytes n).
#[export] Instance Nullifier_Deserialize : Deserialize Nullifier :=
  bytes32_deserialize nullifier_from_bytes "Invalid nullifier bytes".

Definition VerificationKey (T : SigType) : Type := OVerificationKey T.
#[export] Instance VerificationKey_borsh T : BorshSerialize (VerificationKey T) := λ k,
  borsh (vk_to_bytes k).
#[export] Instance VerificationKey_Serialize T : Serialize (VerificationKey T) := λ hr k,
  hex_or_array_serialize hr (vk_to_bytes k).
#[export] Instance VerificationKey_Deserialize T : Deserialize (VerificationKey T) :=
  bytes32_deserialize vk_try_from "verification key".
Inductive SignatureVerificationError := mk_SignatureVerificationError.
Definition VerificationKey_verify {T} (k : VerificationKey T) (msg : list byte) (signature : Signature T) :
    Res SignatureVerificationError unit :=
  guard_err (vk_verify k msg signature) mk_SignatureVerificationError.

Definition ExtractedNoteCommitment : Type := ONoteCommitment.
#[export] Instance ExtractedNoteCommitment_borsh : BorshSerialize ExtractedNoteCommitment := λ c,
  borsh (cmx_to_bytes c).
#[export] Instance ExtractedNoteCommitment_Serialize : Serialize ExtractedNoteCommitment := λ hr c,
  hex_or_array_serialize hr (cmx_to_bytes c).
#[export] Instance ExtractedNoteCommitment_Deserialize : Deserialize ExtractedNoteCommitment :=
  bytes32_deserialize cmx_from_bytes "Failed to parse extracted note commitment".

Definition ValueCommitment : Type := OValueCommitment.
#[export] Instance ValueCommitment_borsh : BorshSerialize ValueCommitment := λ c, borsh (cv_to_bytes c).
#[export] Instance ValueCommitment_Serialize : Serialize ValueCommitment := λ hr c,
  hex_or_array_serialize hr (cv_to_bytes c).
#[export] Instance ValueCommitment_Deserialize : Deserialize ValueCommitment :=
  bytes32_deserialize cv_from_bytes "Failed to parse value commitment".

(** ** Encrypted notes *)
#[export] Instance TransmittedNoteCiphertext_borsh : BorshSerialize TransmittedNoteCiphertext := λ c,
  borsh (epk_bytes c) ++ borsh (enc_ciphertext c) ++ borsh (out_ciphertext c).
#[export] Instance TransmittedNoteCiphertext_Serialize : Serialize TransmittedNoteCiphertext := λ hr c,
  VStruct [("epk_bytes", ByteArrayRepr_serialize hr (epk_bytes c));
           ("enc_ciphertext", ByteArrayRepr_serialize hr (enc_ciphertext c));
           ("out_ciphertext", ByteArrayRepr_serialize hr (out_ciphertext c))]%string.
#[export] Instance TransmittedNoteCiphertext_Deserialize : Deserialize TransmittedNoteCiphertext := λ hr v,
  fields ← struct_fields v;
  epk_bytes ← field fields "epk_bytes" ≫= ByteArrayRepr_deserialize 32 hr;
  enc_ciphertext ← field fields "enc_ciphertext" ≫= ByteArrayRepr_deserialize 580 hr;
  out_ciphertext ← field fields "out_ciphertext" ≫= ByteArrayRepr_deserialize 80 hr;
  Ok (mk_TransmittedNoteCiphertext epk_bytes enc_ciphertext out_ciphertext).

(** [enc_ciphertext[32..=543]], [enc_ciphertext[544..=563]] and
    [enc_ciphertext[564..]] *)
Definition memo_ciphertext (c : TransmittedNoteCiphertext) : list byte :=
  take 512 (drop 32 (enc_ciphertext c)).
Definition additional_ciphertext (c : TransmittedNoteCiphertext) : list byte :=
  take 20 (drop 544 (enc_ciphertext c)).
Definition auth_tag_ciphertext (c : TransmittedNoteCiphertext) : list byte :=
  drop 564 (enc_ciphertext c).

(** ** Actions *)
Definition CompactAction : Type := OCompactAction.
#[export] Instance CompactAction_borsh : BorshSerialize CompactAction := λ a,
  borsh (A:=Nullifier) (ca_nullifier a) ++ borsh (A:=ExtractedNoteCommitment) (ca_cmx a)
  ++ borsh (ca_ephemeral_key a) ++ borsh (ca_enc_ciphertext a).

Inductive InvalidActionError := RkIdentityPoint.
Inductive InvalidBundleError := BundleAction (e : InvalidActionError) | InvalidBundle.

Definition Action (Auth : Type) : Type := OAction Auth.
Definition Action_new {Auth} (nf : Nullifier) (rk : VerificationKey SpendAuth) (cmx : ExtractedNoteCommitment)
    (encrypted_note : TransmittedNoteCiphertext) (cv_net : ValueCommitment) (authorization : Auth) :
    Res InvalidActionError (Action Auth) :=
  ok_or (action_from_parts nf rk cmx encrypted_note cv_net authorization) RkIdentityPoint.

#[export] Instance Action_borsh `{BorshSerialize Auth} : BorshSerialize (Action Auth) := λ a,
  borsh (A:=Nullifier) (oa_nullifier a) ++ borsh (A:=VerificationKey SpendAuth) (oa_rk a)
  ++ borsh (A:=ExtractedNoteCommitment) (oa_cmx a) ++ borsh (oa_encrypted_note a)
  ++ borsh (A:=ValueCommitment) (oa_cv_net a) ++ borsh (oa_authorization a).
#[export] Instance Action_Serialize `{Serialize Auth} : Serialize (Action Auth) := λ hr a,
  VStruct [("nullifier", serialize (A:=Nullifier) hr (oa_nullifier a));
           ("rk", serialize (A:=VerificationKey SpendAuth) hr (oa_rk a));
           ("cmx", serialize (A:=ExtractedNoteCommitment) hr (oa_cmx a));
           ("encrypted_note", serialize hr (oa_encrypted_note a));
           ("cv_net", serialize (A:=ValueCommitment) hr (oa_cv_net a));
           ("authorization", serialize hr (oa_authorization a))]%string.
#[export] Instance Action_Deserialize `{Deserialize Auth} : Deserialize (Action Auth) := λ hr v,
  fields ← struct_fields v;
  nullifier ← field fields "nullifier" ≫= deserialize (A:=Nullifier) hr;
  rk ← field fields "rk" ≫= deserialize (A:=VerificationKey SpendAuth) hr;
  cmx ← field fields "cmx" ≫= deserialize (A:=ExtractedNoteCommitment) hr;
  encrypted_note ← field fields "encrypted_note" ≫= deserialize (A:=TransmittedNoteCiphertext) hr;
  cv_net ← field fields "cv_net" ≫= deserialize (A:=ValueCommitment) hr;
  authorization ← field fields "authorization" ≫= deserialize (A:=Auth) hr;
  map_err (λ _, Custom "Invalid orchard action")
    (Action_new nullifier rk cmx encrypted_note cv_net authorization).

(** ** Flags, anchors, proofs *)
Definition BundleFlags : Type := OFlags.
#[export] Instance BundleFlags_borsh : BorshSerialize BundleFlags := λ f, [flags_to_byte f].
#[export] Instance BundleFlags_Serialize : Serialize BundleFlags := λ _ f, VU8 (flags_to_byte f).
#[export] Instance BundleFlags_Deserialize : Deserialize BundleFlags := λ _ v,
  repr ← u8_de v;
  ok_or (flags_from_byte repr) (Custom "Unexpected bits set in bundle flags").

Definition Anchor : Type := OAnchor.
#[export] Instance Anchor_borsh : BorshSerialize Anchor := λ a, borsh (oanchor_to_bytes a).
#[export] Instance Anchor_Serialize : Serialize Anchor := λ hr a,
  hex_or_array_serialize hr (oanchor_to_bytes a).
(** It does not ask whether the format is human-readable. *)
#[export] Instance Anchor_Deserialize : Deserialize Anchor := λ hr v,
  bytes ← deserialize (A:=vec byte 32) hr v;
  ok_or (oanchor_from_bytes bytes) (Custom "Invalid anchor").

Definition BundleProof : Type := OProof.
#[export] Instance byte_borsh : BorshSerialize byte := λ b, [b].
#[export] Instance BundleProof_borsh : BorshSerialize BundleProof := λ p, borsh (proof_bytes p).
#[export] Instance BundleProof_Serialize : Serialize BundleProof := λ hr p,
  BytesRepr_serialize hr (proof_bytes p).
#[export] Instance BundleProof_Deserialize : Deserialize BundleProof := λ hr v,
  proof_new <$> BytesRepr_deserialize hr v.

Definition Authorized : Type := OAuthorized.
#[export] Instance Authorized_borsh : BorshSerialize Authorized := λ a,
  borsh (A:=BundleProof) (authorized_proof a) ++ borsh (A:=Signature Binding) (authorized_binding_signature a).
#[export] Instance Authorized_Serialize : Serialize Authorized := λ hr a,
  VStruct [("proof", serialize (A:=BundleProof) hr (authorized_proof a));
           ("binding_signature", serialize (A:=Signature Binding) hr (authorized_binding_signature a))]%string.
#[export] Instance Authorized_Deserialize : Deserialize Authorized := λ hr v,
  fields ← struct_fields v;
  proof ← field fields "proof" ≫= deserialize (A:=BundleProof) hr;
  binding_signature ← field fields "binding_signature" ≫= deserialize (A:=Signature Binding) hr;
  Ok (authorized_from_parts proof binding_signature).

(** ** Bundles *)
#[export] Instance NonEmpty_Serialize `{Serialize A} : Serialize (NonEmpty A) := λ hr l,
  serialize hr (ne_list l).
#[export] Instance NonEmpty_Deserialize `{Deserialize A} : Deserialize (NonEmpty A) := λ hr v,
  l ← deserialize (A:=list A) hr v;
  ok_or (ne_from_list l) InvalidLength.

(** The authorization types that are serialized: [Authorized], and
    [EffectsOnly], the [unit] here. *)
Class BundleAuthorization (Auth SA : Type) := bundle_from_parts :
  NonEmpty (OAction SA) → OFlags → Z → OAnchor → Auth → Res InvalidBundleError (OBundle Auth SA).

Definition native_action (action : OAction (Signature SpendAuth)) :
    Res InvalidActionError (OAction (OSignature SpendAuth)) :=
  ok_or (action_from_parts (oa_nullifier action) (oa_rk action) (oa_cmx action)
    (oa_encrypted_note action) (oa_cv_net action) (oa_authorization action)) RkIdentityPoint.
#[export] Instance Authorized_from_parts : BundleAuthorization Authorized (Signature SpendAuth) :=
  λ actions flags value_balance anchor authorization,
  head ← map_err BundleAction (native_action (ne_head actions));
  tail ← map_err BundleAction (mapR native_action (ne_tail actions));
  ok_or (bundle_try_from_parts (mk_NonEmpty head tail) flags value_balance anchor authorization) InvalidBundle.
#[export] Instance EffectsOnly_from_parts : BundleAuthorization unit unit :=
  λ actions flags value_balance anchor _,
  Ok (bundle_from_parts_effects actions flags value_balance anchor).

Record BundleRepr (Auth SA : Type) := mk_BundleRepr {
  br_actions : NonEmpty (Action SA);
  br_flags : BundleFlags;
  br_balance : Z;
  br_anchor : Anchor;
  br_authorization : Auth
}.
#[global] Arguments mk_BundleRepr {Auth SA} _ _ _ _ _.
#[global] Arguments br_actions {Auth SA} _.
#[global] Arguments br_flags {Auth SA} _.
#[global] Arguments br_balance {Auth SA} _.
#[global] Arguments br_anchor {Auth SA} _.
#[global] Arguments br_authorization {Auth SA} _.

(** [i64] in Borsh *)
Definition borsh_i64 (z : Z) : list byte := vec_to_list (le_vec 8 z).

(** Borsh serialize without including authorizations. *)
Definition compact_item {SA} (action : Action SA) : list byte :=
  borsh (A:=CompactAction) (compact_from action).
Definition memo_item {SA} (action : Action SA) : list byte :=
  memo_ciphertext (oa_encrypted_note action) ++ additional_ciphertext (oa_encrypted_note action).
Definition noncompact_item {SA} (action : Action SA) : list byte :=
  borsh (A:=ValueCommitment) (oa_cv_net action) ++ borsh (A:=VerificationKey SpendAuth) (oa_rk action)
  ++ auth_tag_ciphertext (oa_encrypted_note action) ++ borsh (out_ciphertext (oa_encrypted_note action)).
Definition repr_serialize_without_auth {Auth SA} (b : BundleRepr Auth SA) : list byte :=
  mjoin (compact_item <$> ne_list (br_actions b))
  ++ mjoin (memo_item <$> ne_list (br_actions b))
  ++ mjoin (noncompact_item <$> ne_list (br_actions b))
  ++ borsh (br_flags b) ++ borsh_i64 (br_balance b) ++ borsh (br_anchor b).

#[export] Instance BundleRepr_Authorized_borsh : BorshSerialize (BundleRepr Authorized (Signature SpendAuth)) :=
  λ b,
  repr_serialize_without_auth b
  ++ borsh (A:=BundleProof) (authorized_proof (br_authorization b))
  ++ mjoin ((λ a, borsh (A:=Signature SpendAuth) (oa_authorization a)) <$> ne_list (br_actions b))
  ++ borsh (A:=Signature Binding) (authorized_binding_signature (br_authorization b)).
#[export] Instance BundleRepr_EffectsOnly_borsh : BorshSerialize (BundleRepr unit unit) :=
  repr_serialize_without_auth.

#[export] Instance BundleRepr_Serialize `{Serialize Auth, Serialize SA} : Serialize (BundleRepr Auth SA) :=
  λ hr b,
  VStruct [("actions", serialize (A:=NonEmpty (Action SA)) hr (br_actions b));
           ("flags", serialize (A:=BundleFlags) hr (br_flags b));
           ("balance", VI64 (br_balance b));
           ("anchor", serialize (A:=Anchor) hr (br_anchor b));
           ("authorization", serialize hr (br_authorization b))]%string.
#[export] Instance BundleRepr_Deserialize `{Deserialize Auth, Deserialize SA} : Deserialize (BundleRepr Auth SA) :=
  λ hr v,
  fields ← struct_fields v;
  actions ← field fields "actions" ≫= deserialize (A:=NonEmpty (Action SA)) hr;
  flags ← field fields "flags" ≫= deserialize (A:=BundleFlags) hr;
  balance ← field fields "balance" ≫= i64_de;
  anchor ← field fields "anchor" ≫= deserialize (A:=Anchor) hr;
  authorization ← field fields "authorization" ≫= deserialize (A:=Auth) hr;
  Ok (mk_BundleRepr actions flags balance anchor authorization).

Definition Bundle (Auth SA : Type) : Type := OBundle Auth SA.
Section bundle.
Context {Auth SA : Type}.
Definition actions (b : Bundle Auth SA) : NonEmpty (Action SA) := ob_actions b.
Definition flags (b : Bundle Auth SA) : BundleFlags := ob_flags b.
Definition value_balance (b : Bundle Auth SA) : Z := ob_value_balance b.
Definition anchor (b : Bundle Auth SA) : Anchor := ob_anchor b.
Definition authorization (b : Bundle Auth SA) : Auth := ob_authorization b.
(** These must be appended to the note commitment tree when a block is connected. *)
Definition extracted_note_commitments (b : Bundle Auth SA) : list ExtractedNoteCommitment :=
  oa_cmx <$> ne_list (actions b).
(** Must be added to the nullifier set when a block is connected. *)
Definition nullifiers (b : Bundle Auth SA) : list Nullifier := oa_nullifier <$> ne_list (actions b).
Definition binding_validating_key (b : Bundle Auth SA) : VerificationKey Binding := ob_binding_validating_key b.

Definition BundleRepr_from (b : Bundle Auth SA) : BundleRepr Auth SA :=
  mk_BundleRepr (actions b) (flags b) (value_balance b) (anchor b) (authorization b).
Definition Bundle_try_from `{!BundleAuthorization Auth SA} (r : BundleRepr Auth SA) :
    Res InvalidBundleError (Bundle Auth SA) :=
  bundle_from_parts (br_actions r) (br_flags r) (br_balance r) (br_anchor r) (br_authorization r).
Definition borsh_serialize_without_auth (b : Bundle Auth SA) : list byte :=
  repr_serialize_without_auth (BundleRepr_from b).

#[export] Instance Bundle_borsh `{!BorshSerialize (BundleRepr Auth SA)} : BorshSerialize (Bundle Auth SA) :=
  λ b, borsh (BundleRepr_from b).
#[export] Instance Bundle_Serialize `{Serialize Auth, Serialize SA} : Serialize (Bundle Auth SA) := λ hr b,
  serialize hr (BundleRepr_from b).
#[export] Instance Bundle_Deserialize `{Deserialize Auth, Deserialize SA, !BundleAuthorization Auth SA} :
    Deserialize (Bundle Auth SA) := λ hr v,
  repr ← deserialize (A:=BundleRepr Auth SA) hr v;
  map_err (λ _, Custom "invalid orchard bundle") (Bundle_try_from repr).
End bundle.

(** ** Verification *)
Inductive BundleProofVerificationError := mk_BundleProofVerificationError.
Definition verify_proof (b : Bundle Authorized (Signature SpendAuth)) : Res BundleProofVerificationError unit :=
  guard_err (ob_verify_proof b) mk_BundleProofVerificationError.
Definition verify_spend_auth_signatures (b : Bundle Authorized (Signature SpendAuth)) (sighash : list byte) :
    Res SignatureVerificationError unit :=
  foldR (λ _ action, VerificationKey_verify (oa_rk action) sighash (oa_authorization action))
    tt (ne_list (actions b)).
End types.
(** Each wrapper has its own representations, whatever the crate's types are. *)
#[global] Typeclasses Opaque Signature Nullifier VerificationKey ExtractedNoteCommitment
  ValueCommitment CompactAction Action BundleFlags Anchor BundleProof Authorized Bundle.
Abbreviation AuthorizedBundle := (Bundle Authorized (Signature SpendAuth)).

(** ** Notes *)
Class OrchardNoteCrate `{AddressCrates} := {
  ORho : Type;
  rho_to_bytes : ORho → vec byte 32;
  rho_from_bytes : vec byte 32 → option ORho;
  ORandomSeed : Type;
  rseed_as_bytes : ORandomSeed → vec byte 32;
  rseed_from_bytes : vec byte 32 → ORho → option ORandomSeed;
  ONote : Type;
  on_recipient : ONote → RawAddress;
  on_value : ONote → Z;
  on_rho : ONote → ORho;
  on_rseed : ONote → ORandomSeed;
  note_from_parts : RawAddress → Z → ORho → ORandomSeed → option ONote
}.

Section notes.
Context `{AC : AddressCrates} `{HexCrate} `{!OrchardNoteCrate}.

Definition Rho : Type := ORho.
#[export] Instance Rho_Serialize : Serialize Rho := λ hr r, ByteArrayRepr_serialize hr (rho_to_bytes r).
#[export] Instance Rho_Deserialize : Deserialize Rho := λ hr v,
  repr ← ByteArrayRepr_deserialize 32 hr v;
  ok_or (rho_from_bytes repr) (Custom "Invalid rho").

Record RandomSeedError := mk_RandomSeedError { rse_rho : Rho; rse_rseed : vec byte 32 }.
Definition RandomSeed : Type := ORandomSeed.
Definition RandomSeed_try_from (rho : Rho) (repr : vec byte 32) : Res RandomSeedError RandomSeed :=
  ok_or (rseed_from_bytes repr rho) (mk_RandomSeedError rho repr).

Definition Note : Type := ONote.
Definition Note_value (n : Note) : Z := on_value n.

Record NoteRepr := mk_NoteRepr {
  nr_recipient : ShieldedAddress;
  nr_value : Z;
  nr_rho : Rho;
  nr_rseed : vec byte 32
}.
#[export] Instance NoteRepr_Serialize : Serialize NoteRepr := λ hr n,
  VStruct [("recipient", serialize (A:=ShieldedAddress) hr (nr_recipient n));
           ("value", VU64 (nr_value n));
           ("rho", serialize (A:=Rho) hr (nr_rho n));
           ("rseed", ByteArrayRepr_serialize hr (nr_rseed n))]%string.
#[export] Instance NoteRepr_Deserialize : Deserialize NoteRepr := λ hr v,
  fields ← struct_fields v;
  recipient ← field fields "recipient" ≫= deserialize (A:=ShieldedAddress) hr;
  value ← field fields "value" ≫= u64_de;
  rho ← field fields "rho" ≫= deserialize (A:=Rho) hr;
  rseed ← field fields "rseed" ≫= ByteArrayRepr_deserialize 32 hr;
  Ok (mk_NoteRepr recipient value rho rseed).

#[export] Instance Note_Serialize : Serialize Note := λ hr n,
  serialize hr (mk_NoteRepr (on_recipient n) (on_value n) (on_rho n) (rseed_as_bytes (on_rseed n))).
#[export] Instance Note_Deserialize : Deserialize Note := λ hr v,
  n ← deserialize (A:=NoteRepr) hr v;
  rseed ← map_err (λ _, Custom "Invalid rseed") (RandomSeed_try_from (nr_rho n) (nr_rseed n));
  ok_or (note_from_parts (nr_recipient n) (nr_value n) (nr_rho n) rseed) (Custom "Invalid note").
End notes.
#[global] Typeclasses Opaque Rho RandomSeed Note.

(** ** Frontiers of the note commitment tree

    [frontier::NonEmptyFrontier] and [frontier::Frontier] of the
    [incrementalmerkletree] crate, over the nodes of the [orchard] crate. *)
Inductive FrontierError :=
  | PositionMismatch (expected_ommers : Z)
  | MaxDepthExceeded (depth : Z).

Class FrontierCrate `{OrchardCrate} := {
  OMerkleHash : Type;
  OMerkleHash_Serialize :: Serialize OMerkleHash;
  OMerkleHash_Deserialize :: Deserialize OMerkleHash;
  merkle_hash_from_cmx : ONoteCommitment → OMerkleHash;
  merkle_hash_to_anchor : OMerkleHash → OAnchor;
  ONonEmptyFrontier : Type;
  of_position : ONonEmptyFrontier → Z;
  of_leaf : ONonEmptyFrontier → OMerkleHash;
  of_ommers : ONonEmptyFrontier → list OMerkleHash;
  frontier_from_parts : Z → OMerkleHash → list OMerkleHash → ONonEmptyFrontier + FrontierError;
  OFrontier : Type;
  ofrontier_empty : OFrontier;
  ofrontier_value : OFrontier → option ONonEmptyFrontier;
  ofrontier_try_from : ONonEmptyFrontier → OFrontier + FrontierError;
  ofrontier_root : OFrontier → OMerkleHash;
  (** the frontier afterwards, and whether the commitment was appended *)
  ofrontier_append : OFrontier → OMerkleHash → OFrontier * bool
}.

Section frontiers.
Context `{FrontierCrate}.
Definition from_sum {A} (r : A + FrontierError) : Res FrontierError A :=
  match r with inl a => Ok a | inr e => Err e end.
Definition frontier_de_error (e : FrontierError) : DeError :=
  match e with PositionMismatch _ => Custom "PositionMismatch" | MaxDepthExceeded _ => Custom "MaxDepthExceeded" end.

Record NonEmptyFrontierRepr := mk_NonEmptyFrontierRepr {
  fr_position : Z;
  fr_leaf : OMerkleHash;
  fr_ommers : list OMerkleHash
}.
#[export] Instance NonEmptyFrontierRepr_Serialize : Serialize NonEmptyFrontierRepr := λ hr f,
  VStruct [("position", VU64 (fr_position f)); ("leaf", serialize hr (fr_leaf f));
           ("ommers", serialize hr (fr_ommers f))]%string.
#[export] Instance NonEmptyFrontierRepr_Deserialize : Deserialize NonEmptyFrontierRepr := λ hr v,
  fields ← struct_fields v;
  position ← field fields "position" ≫= u64_de;
  leaf ← field fields "leaf" ≫= deserialize (A:=OMerkleHash) hr;
  ommers ← field fields "ommers" ≫= deserialize (A:=list OMerkleHash) hr;
  Ok (mk_NonEmptyFrontierRepr position leaf ommers).

Definition NonEmptyFrontier : Type := ONonEmptyFrontier.
Definition NonEmptyFrontierRepr_from (f : NonEmptyFrontier) : NonEmptyFrontierRepr :=
  mk_NonEmptyFrontierRepr (of_position f) (of_leaf f) (of_ommers f).
Definition NonEmptyFrontier_try_from (r : NonEmptyFrontierRepr) : Res FrontierError NonEmptyFrontier :=
  from_sum (frontier_from_parts (fr_position r) (fr_leaf r) (fr_ommers r)).

Definition Frontier : Type := OFrontier.
Definition Frontier_value (f : Frontier) : option NonEmptyFrontier := ofrontier_value f.
Definition Frontier_root (f : Frontier) : OMerkleHash := ofrontier_root f.
(** Returns [true] if successful and [false] if the frontier would exceed the
    maximum allowed depth. *)
Definition Frontier_append (f : Frontier) (cmx : ExtractedNoteCommitment) : Frontier * bool :=
  ofrontier_append f (merkle_hash_from_cmx cmx).
Definition Frontier_try_from (repr : option NonEmptyFrontierRepr) : Res FrontierError Frontier :=
  match repr with
  | None => Ok ofrontier_empty
  | Some repr =>
      non_empty ← NonEmptyFrontier_try_from repr;
      from_sum (ofrontier_try_from non_empty)
  end.
#[export] Instance Frontier_Serialize : Serialize Frontier := λ hr f,
  serialize hr (NonEmptyFrontierRepr_from <$> Frontier_value f).
#[export] Instance Frontier_Deserialize : Deserialize Frontier := λ hr v,
  repr ← deserialize (A:=option NonEmptyFrontierRepr) hr v;
  map_err frontier_de_error (Frontier_try_from repr).
End frontiers.
#[global] Typeclasses Opaque NonEmptyFrontier Frontier.
