(* ===== verification/OrchardFacts.v ===== *)
(** Properties of the orchard types ([OrchardTypes]): what a bundle's
    serializations bind, and which of its representations can be read back. *)
From S2P Require Import Prelude.
From S2P Require Import Borsh.
From S2P Require Import Serde.
From S2P Require Import Externals.
From S2P Require Import Toy.
From S2P Require Import Types.
From S2P Require Import Address.
From S2P Require Import OrchardTypes.

#[local] Arguments read_vec : simpl never.

(** Documented behaviour of the [orchard] crate: encodings of field elements
    and keys are read back, constructors and accessors of its structs are
    inverse to each other, a compact action has the first 52 bytes of the note
    ciphertext, and the size of a proof grows with the number of actions. *)
Class OrchardLaws `{OrchardCrate} : Prop := {
  nullifier_bytes_law n : nullifier_from_bytes (nullifier_to_bytes n) = Some n;
  signature_bytes_law T (s : OSignature T) : signature_from_bytes (signature_to_bytes s) = s;
  vk_bytes_law T (k : OVerificationKey T) : vk_try_from (vk_to_bytes k) = Some k;
  cmx_bytes_law c : cmx_from_bytes (cmx_to_bytes c) = Some c;
  cv_bytes_law c : cv_from_bytes (cv_to_bytes c) = Some c;
  flags_byte_law f : flags_from_byte (flags_to_byte f) = Some f;
  anchor_bytes_law a : oanchor_from_bytes (oanchor_to_bytes a) = Some a;
  proof_bytes_law p : proof_new (proof_bytes p) = p;
  authorized_parts_law a :
    authorized_from_parts (authorized_proof a) (authorized_binding_signature a) = a;
  action_parts_law A (a : OAction A) :
    action_from_parts (oa_nullifier a) (oa_rk a) (oa_cmx a) (oa_encrypted_note a) (oa_cv_net a)
      (oa_authorization a) = Some a;
  compact_nullifier_law A (a : OAction A) : ca_nullifier (compact_from a) = oa_nullifier a;
  compact_cmx_law A (a : OAction A) : ca_cmx (compact_from a) = oa_cmx a;
  compact_epk_law A (a : OAction A) : ca_ephemeral_key (compact_from a) = epk_bytes (oa_encrypted_note a);
  compact_enc_law A (a : OAction A) :
    vec_to_list (ca_enc_ciphertext (compact_from a)) = take 52 (enc_ciphertext (oa_encrypted_note a));
  bundle_try_from_parts_law acts f v an au b :
    bundle_try_from_parts acts f v an au = Some b →
    ob_actions b = acts ∧ ob_flags b = f ∧ ob_value_balance b = v ∧ ob_anchor b = an
    ∧ ob_authorization b = au;
  proof_size_grows n m : n < m → proof_size n < proof_size m;
  proof_size_law acts f v an au b :
    bundle_try_from_parts acts f v an au = Some b →
    length (proof_bytes (authorized_proof au)) = proof_size (length (ne_list acts))
}.

Section orchard.
Context `{OL : OrchardLaws}.

(** ** Serializations of fixed length *)
Lemma fixed_length_concat {A B} (f : A → list byte) (g : B → list byte) k l l' r r' :
  (∀ a, length (f a) = k) → (∀ b, length (g b) = k) → length l = length l' →
  mjoin (f <$> l) ++ r = mjoin (g <$> l') ++ r' → f <$> l = g <$> l' ∧ r = r'.
Proof.
  intros Hf Hg. revert l'. induction l as [|a l IH]; intros [|b l'] Hl Heq; simplify_eq/=; [done|].
  rewrite <- !app_assoc in Heq. apply app_inj_1 in Heq as [-> Heq]; [|by rewrite Hf, Hg].
  by apply IH in Heq as [-> ->].
Qed.
Lemma length_mjoin {A} (f : A → list byte) k l :
  (∀ a, length (f a) = k) → length (mjoin (f <$> l)) = k * length l.
Proof.
  intros Hf.
  induction l as [|a l IH]; [simpl; lia|]. rewrite fmap_cons.
  change (mjoin (f a :: (f <$> l))) with (f a ++ mjoin (f <$> l)).
  rewrite length_app, Hf, IH. simpl. lia.
Qed.

Lemma to_bytes_inj {A B} (to : A → B) (from : B → option A) a b :
  (∀ x, from (to x) = Some x) → to a = to b → a = b.
Proof. intros Hl Heq. apply (f_equal from) in Heq. rewrite !Hl in Heq. congruence. Qed.

Lemma vec_inj {n} (v w : vec byte n) : vec_to_list v = vec_to_list w → v = w.
Proof. apply vec_to_list_inj2. Qed.

(** ** The effects of a bundle *)
Definition action_effects {SA} (a : OAction SA) :=
  (oa_nullifier a, oa_rk a, oa_cmx a, oa_encrypted_note a, oa_cv_net a).
Definition effects {Auth SA} (b : OBundle Auth SA) :=
  (action_effects <$> ne_list (ob_actions b), ob_flags b, ob_value_balance b, ob_anchor b).
(** An [i64]. *)
Definition balance_ok {Auth SA} (b : OBundle Auth SA) : Prop :=
  (- 2 ^ 63 ≤ ob_value_balance b < 2 ^ 63)%Z.

Lemma length_compact {SA} (a : OAction SA) : length (compact_item a) = 148.
Proof.
  unfold compact_item, borsh, CompactAction_borsh, borsh, Nullifier_borsh, ExtractedNoteCommitment_borsh,
    borsh, borsh_array. by rewrite !length_app, !length_vec_to_list.
Qed.
Lemma length_memo {SA} (a : OAction SA) : length (memo_item a) = 532.
Proof.
  unfold memo_item, memo_ciphertext, additional_ciphertext.
  by rewrite length_app, !length_take, !length_drop, length_vec_to_list.
Qed.
Lemma length_noncompact {SA} (a : OAction SA) : length (noncompact_item a) = 160.
Proof.
  unfold noncompact_item, auth_tag_ciphertext, borsh, ValueCommitment_borsh, VerificationKey_borsh,
    borsh, borsh_array. by rewrite !length_app, length_drop, !length_vec_to_list.
Qed.
Lemma length_without_auth {Auth SA} (b : OBundle Auth SA) :
  length (borsh_serialize_without_auth b) = 840 * length (ne_list (ob_actions b)) + 41.
Proof.
  unfold borsh_serialize_without_auth, repr_serialize_without_auth. rewrite !length_app.
  rewrite (length_mjoin _ 148), (length_mjoin _ 532), (length_mjoin _ 160)
    by (intros; by rewrite ?length_compact, ?length_memo, ?length_noncompact).
  unfold BundleRepr_from, borsh_i64, borsh, Anchor_borsh, BundleFlags_borsh, borsh, borsh_array.
  cbn [br_actions br_flags br_balance br_anchor]. unfold actions. rewrite !length_vec_to_list.
  assert (length [flags_to_byte (flags b)] = 1) as -> by done.
  change (Action SA) with (OAction SA). lia.
Qed.

(** The slices of a note ciphertext cover it. *)
Lemma enc_ciphertext_slices (c c' : TransmittedNoteCiphertext) :
  take 52 (enc_ciphertext c) = take 52 (enc_ciphertext c') →
  memo_ciphertext c = memo_ciphertext c' → additional_ciphertext c = additional_ciphertext c' →
  auth_tag_ciphertext c = auth_tag_ciphertext c' → enc_ciphertext c = enc_ciphertext c'.
Proof.
  unfold memo_ciphertext, additional_ciphertext, auth_tag_ciphertext. intros Hc Hm Ha Ht. apply vec_inj.
  assert (∀ l : list byte, l = take 32 (take 52 l) ++ take 512 (drop 32 l) ++ take 20 (drop 544 l) ++ drop 564 l)
    as Hsplit.
  { intros l. rewrite take_take. simpl (32 `min` 52). rewrite <- (take_drop 32 l) at 1. f_equal.
    rewrite <- (take_drop 512 (drop 32 l)) at 1. f_equal. rewrite drop_drop. simpl.
    rewrite <- (take_drop 20 (drop 544 l)) at 1. by rewrite drop_drop. }
  by rewrite (Hsplit (enc_ciphertext c)), Hc, Hm, Ha, Ht, <- Hsplit.
Qed.

Lemma action_effects_inj {SA SA'} (a : OAction SA) (a' : OAction SA') :
  compact_item a = compact_item a' → memo_item a = memo_item a' → noncompact_item a = noncompact_item a' →
  action_effects a = action_effects a'.
Proof.
  unfold compact_item, memo_item, noncompact_item, borsh, CompactAction_borsh, borsh, Nullifier_borsh,
    ExtractedNoteCommitment_borsh, ValueCommitment_borsh, VerificationKey_borsh, borsh, borsh_array.
  intros Hc Hm Hn.
  apply app_inj_1 in Hc as [Hnf Hc]; [|by rewrite !length_vec_to_list].
  apply app_inj_1 in Hc as [Hcmx Hc]; [|by rewrite !length_vec_to_list].
  apply app_inj_1 in Hc as [Hepk Henc]; [|by rewrite !length_vec_to_list].
  apply app_inj_1 in Hm as [Hmemo Hadd];
    [|unfold memo_ciphertext; by rewrite !length_take, !length_drop, !length_vec_to_list].
  apply app_inj_1 in Hn as [Hcv Hn]; [|by rewrite !length_vec_to_list].
  apply app_inj_1 in Hn as [Hrk Hn]; [|by rewrite !length_vec_to_list].
  apply app_inj_1 in Hn as [Htag Hout];
    [|unfold auth_tag_ciphertext; by rewrite !length_drop, !length_vec_to_list].
  rewrite !compact_nullifier_law in Hnf. rewrite !compact_cmx_law in Hcmx.
  rewrite !compact_epk_law in Hepk. rewrite !compact_enc_law in Henc.
  apply vec_inj, (to_bytes_inj _ nullifier_from_bytes _ _ nullifier_bytes_law) in Hnf.
  apply vec_inj, (to_bytes_inj _ cmx_from_bytes _ _ cmx_bytes_law) in Hcmx.
  apply vec_inj, (to_bytes_inj _ cv_from_bytes _ _ cv_bytes_law) in Hcv.
  apply vec_inj, (to_bytes_inj _ vk_try_from _ _ (vk_bytes_law SpendAuth)) in Hrk.
  apply vec_inj in Hepk, Hout. pose proof (enc_ciphertext_slices _ _ Henc Hmemo Hadd Htag) as He.
  unfold action_effects. rewrite Hnf, Hcmx, Hcv, Hrk. repeat f_equal.
  by destruct (oa_encrypted_note a), (oa_encrypted_note a'); simplify_eq/=.
Qed.

Lemma effects_list_inj {SA SA'} (l : list (OAction SA)) (l' : list (OAction SA')) :
  compact_item <$> l = compact_item <$> l' → memo_item <$> l = memo_item <$> l' →
  noncompact_item <$> l = noncompact_item <$> l' → action_effects <$> l = action_effects <$> l'.
Proof.
  revert l'. induction l as [|a l IH]; intros [|a' l'] Hc Hm Hn; try done.
  rewrite !fmap_cons in *. simplify_eq. f_equal; [by apply action_effects_inj|by apply IH].
Qed.

Lemma i64_mod z : (- 2 ^ 63 ≤ z < 2 ^ 63)%Z → (z mod 2 ^ 64 = if z <? 0 then z + 2 ^ 64 else z)%Z.
Proof.
  intros Hz. destruct (Z.ltb_spec z 0); [|apply Z.mod_small; lia].
  rewrite <- (Z_mod_plus_full z 1), Z.mul_1_l. apply Z.mod_small. lia.
Qed.
Lemma borsh_i64_inj z z' :
  (- 2 ^ 63 ≤ z < 2 ^ 63)%Z → (- 2 ^ 63 ≤ z' < 2 ^ 63)%Z → le_vec 8 z = le_vec 8 z' → z = z'.
Proof.
  intros Hz Hz' Heq%(f_equal le_val). rewrite !le_val_le_vec in Heq.
  change (256 ^ Z.of_nat 8)%Z with (2 ^ 64)%Z in Heq. rewrite !i64_mod in Heq by done.
  destruct (Z.ltb_spec z 0), (Z.ltb_spec z' 0); lia.
Qed.

Lemma effects_app_inj {Auth SA Auth' SA'} (b : OBundle Auth SA) (b' : OBundle Auth' SA') r r' :
  balance_ok b → balance_ok b' → length (ne_list (ob_actions b)) = length (ne_list (ob_actions b')) →
  borsh_serialize_without_auth b ++ r = borsh_serialize_without_auth b' ++ r' →
  effects b = effects b' ∧ r = r'.
Proof.
  intros Hv Hv' Hlen Heq. unfold borsh_serialize_without_auth, repr_serialize_without_auth in Heq.
  rewrite <- !app_assoc in Heq. unfold BundleRepr_from, actions in Heq.
  cbn [br_actions br_flags br_balance br_anchor] in Heq.
  eapply fixed_length_concat in Heq as [Hc Heq]; [|apply length_compact..|done].
  eapply fixed_length_concat in Heq as [Hm Heq]; [|apply length_memo..|done].
  eapply fixed_length_concat in Heq as [Hn Heq]; [|apply length_noncompact..|done].
  unfold borsh, BundleFlags_borsh, Anchor_borsh, borsh, borsh_array, borsh_i64 in Heq.
  apply app_inj_1 in Heq as [Hf Heq]; [|done]. injection Hf as Hf. apply (to_bytes_inj _ _ _ _ flags_byte_law) in Hf.
  apply array_prefix_free in Heq as [Hbal Heq]; [|done..]. apply borsh_i64_inj in Hbal; [|done..].
  apply array_prefix_free in Heq as [Han ->]; [|done..]. apply (to_bytes_inj _ _ _ _ anchor_bytes_law) in Han.
  split; [|done].
  assert (action_effects <$> ne_list (ob_actions b) = action_effects <$> ne_list (ob_actions b')) as He
    by exact (effects_list_inj _ _ Hc Hm Hn).
  unfold effects, flags, value_balance, anchor in *. by rewrite He, Hf, Hbal, Han.
Qed.

(** A serialization without authorizations binds the effects of a
    bundle, of whatever authorization types: if two bundles have the same bytes
    they have as many actions, each with the same nullifier, key, commitments
    and the same encrypted note, to the last byte, and the same flags, balance
    and anchor.  Nothing in the bytes separates the actions, and the slices of
    the note ciphertexts overlap. *)
Theorem without_auth_binds_effects {Auth SA Auth' SA'} (b : Bundle Auth SA) (b' : Bundle Auth' SA')
    (Hb : balance_ok b) (Hb' : balance_ok b')
    (Heq : borsh_serialize_without_auth b = borsh_serialize_without_auth b') :
  effects b = effects b'.
Proof.
  pose proof (f_equal length Heq) as Hlen. rewrite !length_without_auth in Hlen.
  apply (effects_app_inj b b' [] []); [done..|lia|by rewrite Heq].
Qed.

(** ** The serialization with authorizations *)

(** The bundle is one that the strict constructor accepts. *)
Definition canonical (b : AuthorizedBundle) : Prop :=
  bundle_try_from_parts (ob_actions b) (ob_flags b) (ob_value_balance b) (ob_anchor b)
    (ob_authorization b) = Some b.

Lemma action_ext {A} (a a' : OAction A) :
  action_effects a = action_effects a' → oa_authorization a = oa_authorization a' → a = a'.
Proof.
  intros He Ha. unfold action_effects in He. simplify_eq.
  pose proof (action_parts_law _ a) as Hp. pose proof (action_parts_law _ a') as Hp'. congruence.
Qed.
Lemma actions_ext {A} (l l' : list (OAction A)) :
  action_effects <$> l = action_effects <$> l' → oa_authorization <$> l = oa_authorization <$> l' → l = l'.
Proof.
  revert l'. induction l as [|a l IH]; intros [|a' l'] He Ha; try done.
  rewrite !fmap_cons in *. injection He as ? ? ? ? ? He. injection Ha as Ha1 Ha. f_equal; [|by apply IH].
  apply action_ext; [|done]. unfold action_effects. congruence.
Qed.
Lemma ne_list_inj {A} (l l' : NonEmpty A) : ne_list l = ne_list l' → l = l'.
Proof. destruct l, l'. unfold ne_list. simpl. congruence. Qed.
Lemma sig_list_inj {T} (l l' : list (OSignature T)) :
  (λ s, vec_to_list (signature_to_bytes s)) <$> l = (λ s, vec_to_list (signature_to_bytes s)) <$> l' → l = l'.
Proof.
  revert l'. induction l as [|a l IH]; intros [|a' l'] Heq; try done.
  rewrite !fmap_cons in Heq. injection Heq as Ha Heq. f_equal; [|by apply IH].
  apply vec_inj, (f_equal (signature_from_bytes (T:=T))) in Ha. by rewrite !signature_bytes_law in Ha.
Qed.
Lemma canonical_ext (b b' : AuthorizedBundle) :
  canonical b → canonical b' → effects b = effects b' →
  oa_authorization <$> ne_list (ob_actions b) = oa_authorization <$> ne_list (ob_actions b') →
  authorized_proof (ob_authorization b) = authorized_proof (ob_authorization b') →
  authorized_binding_signature (ob_authorization b) = authorized_binding_signature (ob_authorization b') →
  b = b'.
Proof.
  unfold canonical, effects. intros Hb Hb' He Hau Hp Hs.
  assert (ob_actions b = ob_actions b') as Hact.
  { apply ne_list_inj, actions_ext; [congruence|done]. }
  assert (ob_authorization b = ob_authorization b') as Hauth.
  { rewrite <- (authorized_parts_law (ob_authorization b)), <- (authorized_parts_law (ob_authorization b')).
    congruence. }
  assert (ob_flags b = ob_flags b' ∧ ob_value_balance b = ob_value_balance b' ∧ ob_anchor b = ob_anchor b')
    as (Hf & Hv & Ha) by (simplify_eq; eauto).
  rewrite Hact, Hf, Hv, Ha, Hauth, Hb' in Hb. by simplify_eq.
Qed.

Definition spend_auth_bytes (b : OBundle OAuthorized (OSignature SpendAuth)) : list byte :=
  mjoin ((λ s, vec_to_list (signature_to_bytes s)) <$> (oa_authorization <$> ne_list (ob_actions b))).
Definition proof_list (b : AuthorizedBundle) : list byte := proof_bytes (authorized_proof (ob_authorization b)).
Lemma mjoin_bytes (l : list byte) : mjoin ((λ c, [c]) <$> l) = l.
Proof. induction l as [|c l IH]; [done|]. rewrite fmap_cons. change ([c] ++ mjoin ((λ c, [c]) <$> l) = c :: l). by rewrite IH. Qed.
Lemma bundle_borsh_eq (b : AuthorizedBundle) :
  borsh b = borsh_serialize_without_auth b ++ vec_to_list (le_vec 4 (zlen (proof_list b))) ++ proof_list b
    ++ spend_auth_bytes b ++ vec_to_list (signature_to_bytes (authorized_binding_signature (ob_authorization b))).
Proof.
  unfold borsh at 1, Bundle_borsh, borsh at 1, BundleRepr_Authorized_borsh.
  unfold BundleRepr_from, actions, authorization. cbn [br_actions br_authorization].
  unfold borsh, BundleProof_borsh, Signature_borsh, borsh, borsh_list, borsh, byte_borsh, borsh_array.
  rewrite mjoin_bytes, <- !app_assoc. unfold spend_auth_bytes. by rewrite <- list_fmap_compose.
Qed.

Lemma canonical_proof_size b :
  canonical b → length (proof_list b) = proof_size (length (ne_list (ob_actions b))).
Proof. apply proof_size_law. Qed.
Lemma canonical_same_number b b' :
  canonical b → canonical b' → length (borsh b) = length (borsh b') →
  length (ne_list (ob_actions b)) = length (ne_list (ob_actions b')).
Proof.
  intros Hb Hb' Hlen. rewrite !bundle_borsh_eq, !length_app, !length_vec_to_list, !length_without_auth in Hlen.
  unfold spend_auth_bytes in Hlen.
  rewrite !(length_mjoin _ 64) in Hlen by (intros; apply length_vec_to_list).
  rewrite !length_fmap, (canonical_proof_size b), (canonical_proof_size b') in Hlen by done.
  unfold Signature, Authorized, Bundle, Action in *.
  set (n := length (ne_list (ob_actions b))) in *. set (m := length (ne_list (ob_actions b'))) in *.
  destruct (Nat.lt_trichotomy n m) as [Hl|[Hl|Hl]]; [|done|]; apply proof_size_grows in Hl as ?; lia.
Qed.

(** The serialization with authorizations, which blocks and transactions
    contain, determines the bundle: two bundles that the strict constructor of
    the crate accepts have the same bytes only if they are equal, although the
    number of actions is not written. *)
Theorem authorized_bundle_bytes_determine_bundle (b b' : AuthorizedBundle)
    (Hc : canonical b) (Hc' : canonical b') (Hb : balance_ok b) (Hb' : balance_ok b')
    (Heq : borsh b = borsh b') :
  b = b'.
Proof.
  pose proof (canonical_same_number b b' Hc Hc' (f_equal length Heq)) as Hn.
  rewrite !bundle_borsh_eq in Heq. apply effects_app_inj in Heq as [He Heq]; [|done..].
  apply array_prefix_free in Heq as [_ Heq]; [|done..].
  apply app_inj_1 in Heq as [Hp Heq]; [|by rewrite !canonical_proof_size, Hn by done].
  apply (f_equal proof_new) in Hp. unfold proof_list in Hp. rewrite !proof_bytes_law in Hp.
  unfold spend_auth_bytes in Heq.
  eapply fixed_length_concat in Heq as [Hs Heq];
    [|intros; apply length_vec_to_list..|by rewrite !length_fmap].
  apply sig_list_inj in Hs. apply vec_inj, (f_equal (signature_from_bytes (T:=Binding))) in Heq.
  rewrite !signature_bytes_law in Heq. by apply canonical_ext.
Qed.
End orchard.

(** ** Serde representations *)
Section serde.
Context `{OL : OrchardLaws} `{HL : HexLaws}.

Lemma bytes32_round_trip {A} (to : A → vec byte 32) from what hr a :
  (∀ x, from (to x) = Some x) →
  bytes32_deserialize from what hr (hex_or_array_serialize hr (to a)) = Ok a.
Proof. intros Hl. unfold bytes32_deserialize. by rewrite hex_or_array_round_trip, ok_bind, Hl. Qed.

#[export] Program Instance Signature_serde_laws T : SerdeLaws (Signature T) := {| serde_ok _ _ := True |}.
Next Obligation.
  intros T hr s _. unfold serialize, deserialize, Signature_Serialize, Signature_Deserialize.
  rewrite ByteArrayRepr_round_trip. simpl. f_equal. apply signature_bytes_law.
Qed.
#[export] Program Instance Nullifier_serde_laws : SerdeLaws Nullifier := {| serde_ok _ _ := True |}.
Next Obligation. intros. apply bytes32_round_trip, nullifier_bytes_law. Qed.
#[export] Program Instance VerificationKey_serde_laws T : SerdeLaws (VerificationKey T) := {| serde_ok _ _ := True |}.
Next Obligation. intros. apply bytes32_round_trip, vk_bytes_law. Qed.
#[export] Program Instance NoteCommitment_serde_laws : SerdeLaws ExtractedNoteCommitment := {| serde_ok _ _ := True |}.
Next Obligation. intros. apply bytes32_round_trip, cmx_bytes_law. Qed.
#[export] Program Instance ValueCommitment_serde_laws : SerdeLaws ValueCommitment := {| serde_ok _ _ := True |}.
Next Obligation. intros. apply bytes32_round_trip, cv_bytes_law. Qed.
#[export] Program Instance Ciphertext_serde_laws : SerdeLaws TransmittedNoteCiphertext := {| serde_ok _ _ := True |}.
Next Obligation.
  intros hr c _. unfold deserialize, TransmittedNoteCiphertext_Deserialize, serialize,
    TransmittedNoteCiphertext_Serialize. read_fields.
  rewrite !ByteArrayRepr_round_trip, !ok_bind. by destruct c.
Qed.
#[export] Program Instance Flags_serde_laws : SerdeLaws BundleFlags := {| serde_ok _ _ := True |}.
Next Obligation. intros hr f _. unfold deserialize, BundleFlags_Deserialize. simpl. by rewrite flags_byte_law. Qed.
#[export] Program Instance BundleProof_serde_laws : SerdeLaws BundleProof := {| serde_ok _ _ := True |}.
Next Obligation.
  intros hr p _. unfold serialize, deserialize, BundleProof_Serialize, BundleProof_Deserialize.
  rewrite BytesRepr_round_trip. simpl. f_equal. apply proof_bytes_law.
Qed.

#[export] Program Instance Authorized_serde_laws : SerdeLaws Authorized := {| serde_ok _ _ := True |}.
Next Obligation.
  intros hr a _. unfold deserialize, Authorized_Deserialize, serialize, Authorized_Serialize.
  read_fields. repeat (rewrite deserialize_serialize by done). rewrite !ok_bind.
  f_equal. apply authorized_parts_law.
Qed.

#[export] Program Instance Action_serde_laws `{SerdeLaws Auth} : SerdeLaws (Action Auth) :=
  {| serde_ok hr a := serde_ok hr (oa_authorization a) |}.
Next Obligation.
  intros Auth ??? hr a Ha. unfold deserialize, Action_Deserialize, serialize, Action_Serialize.
  read_fields. repeat (rewrite deserialize_serialize by done). rewrite !ok_bind.
  unfold Action_new. by rewrite action_parts_law.
Qed.

#[export] Program Instance NonEmpty_serde_laws `{SerdeLaws A} : SerdeLaws (NonEmpty A) :=
  {| serde_ok hr l := Forall (serde_ok hr) (ne_list l) |}.
Next Obligation.
  intros A ??? hr l Hl. unfold deserialize, NonEmpty_Deserialize, serialize, NonEmpty_Serialize.
  rewrite deserialize_serialize by done. rewrite ok_bind. by destruct l.
Qed.

(** An anchor is read back from a binary format only: a human-readable format
    is given text and asked for an array. *)
#[export] Program Instance Anchor_serde_laws : SerdeLaws Anchor := {| serde_ok hr _ := hr = false |}.
Next Obligation.
  intros hr a ->. unfold deserialize, Anchor_Deserialize, serialize, Anchor_Serialize. unfold hex_or_array_serialize.
  rewrite deserialize_serialize by done. by rewrite ok_bind, anchor_bytes_law.
Qed.
Lemma anchor_text_unreadable (a : Anchor) : deserialize (A:=Anchor) true (serialize true a) = Err InvalidType.
Proof. done. Qed.

#[export] Program Instance BundleRepr_serde_laws `{SerdeLaws Auth, SerdeLaws SA} : SerdeLaws (BundleRepr Auth SA) :=
  {| serde_ok hr b := Forall (serde_ok (A:=Action SA) hr) (ne_list (br_actions b))
       ∧ serde_ok hr (br_anchor b) ∧ serde_ok hr (br_authorization b) |}.
Next Obligation.
  intros Auth ??? SA ??? hr b (Hact & Han & Hau).
  unfold deserialize, BundleRepr_Deserialize, serialize, BundleRepr_Serialize.
  read_fields. cbn [i64_de]. repeat (rewrite deserialize_serialize by done). rewrite !ok_bind.
  by destruct b.
Qed.

(** Rebuilding the actions of a bundle succeeds and gives the same actions. *)
Lemma native_action_same a : native_action a = Ok a.
Proof. apply ok_or_Ok. exact (action_parts_law _ a). Qed.
Lemma native_actions l : mapR native_action l = Ok l.
Proof. induction l as [|a l IH]; [done|]. cbn [mapR]. by rewrite native_action_same, ok_bind, IH. Qed.
Lemma bundle_from_parts_authorized acts f v an au :
  bundle_from_parts (Auth:=Authorized) (SA:=Signature SpendAuth) acts f v an au
  = ok_or (bundle_try_from_parts acts f v an au) InvalidBundle.
Proof.
  unfold bundle_from_parts, Authorized_from_parts. rewrite native_action_same. cbn [map_err].
  rewrite ok_bind, native_actions. cbn [map_err]. rewrite ok_bind. by destruct acts.
Qed.

Lemma bundle_deserialize_canonical hr v b :
  deserialize (A:=AuthorizedBundle) hr v = Ok b → canonical b.
Proof.
  intros Hd. unfold deserialize, Bundle_Deserialize in Hd. apply bind_Ok in Hd as (r & _ & Hb).
  apply map_err_Ok in Hb. unfold Bundle_try_from in Hb.
  rewrite bundle_from_parts_authorized in Hb. apply ok_or_Ok in Hb.
  pose proof (bundle_try_from_parts_law _ _ _ _ _ _ Hb) as (Hact & Hf & Hv & Han & Hau).
  rewrite <- Hact, <- Hf, <- Hv, <- Han, <- Hau in Hb. exact Hb.
Qed.
Lemma bundle_round_trip (b : AuthorizedBundle) :
  canonical b → deserialize false (serialize false b) = Ok b.
Proof.
  intros Hc. unfold deserialize, Bundle_Deserialize, serialize, Bundle_Serialize.
  rewrite deserialize_serialize.
  - rewrite ok_bind. unfold Bundle_try_from. rewrite bundle_from_parts_authorized.
    unfold BundleRepr_from. simpl. unfold actions, flags, value_balance, anchor, authorization.
    unfold canonical in Hc. by rewrite Hc.
  - simpl. split_and!; try done. by apply Forall_true.
Qed.

(** C38: Bundles round-trip through the binary format of the archive's tables
    and of peer messages: a bundle that the crate's strict constructor accepts
    is read back unchanged, and whatever data a bundle is read from, in any
    format, it is one that this constructor accepts. *)
Theorem bundle_serde_round_trip (b b' : AuthorizedBundle) (hr : bool) (v : value)
    (Hc : canonical b) (Hd : deserialize hr v = Ok b') :
  deserialize false (serialize false b) = Ok b ∧ canonical b'.
Proof. split; [by apply bundle_round_trip|by eapply bundle_deserialize_canonical]. Qed.

(** C39: No bundle can be read back from a human-readable format: the anchor
    is written as hexadecimal text and read as an array, so a transaction or a
    block with an orchard bundle that the RPC server returns as JSON is refused
    by the [Deserialize] of the same types, with a type error at the anchor. *)
Theorem bundle_text_unreadable (b : AuthorizedBundle) :
  Bundle_Deserialize true (Bundle_Serialize true b) = Err InvalidType.
Proof.
  unfold Bundle_Deserialize, Bundle_Serialize.
  unfold deserialize at 1, BundleRepr_Deserialize, serialize at 1, BundleRepr_Serialize.
  read_fields. cbn [i64_de]. rewrite (deserialize_serialize (A:=NonEmpty (Action (Signature SpendAuth)))) by (by apply Forall_true).
  rewrite ok_bind, (deserialize_serialize (A:=BundleFlags)) by done. rewrite !ok_bind.
  by rewrite anchor_text_unreadable.
Qed.
End serde.

(** ** Notes and frontiers *)
Class NoteLaws `{OrchardNoteCrate} : Prop := {
  rho_bytes_law r : rho_from_bytes (rho_to_bytes r) = Some r;
  rseed_bytes_law n : rseed_from_bytes (rseed_as_bytes (on_rseed n)) (on_rho n) = Some (on_rseed n);
  note_parts_law n : note_from_parts (on_recipient n) (on_value n) (on_rho n) (on_rseed n) = Some n
}.
Class FrontierLaws `{FrontierCrate} `{!SerdeLaws OMerkleHash} : Prop := {
  merkle_hash_serde_law hr (h : OMerkleHash) : serde_ok hr h;
  frontier_parts_law f : frontier_from_parts (of_position f) (of_leaf f) (of_ommers f) = inl f;
  frontier_value_law f g : ofrontier_value f = Some g → ofrontier_try_from g = inl f;
  frontier_empty_law f : ofrontier_value f = None → f = ofrontier_empty
}.

Section stored.
Context `{HL : HexLaws} `{AL : AddressLaws} `{!OrchardNoteCrate} `{!NoteLaws}.

#[export] Program Instance Rho_serde_laws : SerdeLaws Rho := {| serde_ok _ _ := True |}.
Next Obligation.
  intros hr r _. unfold serialize, deserialize, Rho_Serialize, Rho_Deserialize.
  by rewrite ByteArrayRepr_round_trip, ok_bind, rho_bytes_law.
Qed.

(** Notes round-trip through every format. *)
Lemma note_round_trip hr (n : Note) : deserialize hr (serialize hr n) = Ok n.
Proof.
  unfold deserialize, Note_Deserialize, serialize, Note_Serialize.
  unfold deserialize at 1, NoteRepr_Deserialize, serialize at 1, NoteRepr_Serialize.
  read_fields. cbn [u64_de nr_recipient nr_value nr_rho nr_rseed].
  rewrite (deserialize_serialize (A:=ShieldedAddress)) by done. rewrite ByteArrayRepr_round_trip.
  rewrite (deserialize_serialize (A:=Rho)) by done. rewrite !ok_bind.
  cbn [nr_recipient nr_value nr_rho nr_rseed]. unfold RandomSeed_try_from.
  rewrite rseed_bytes_law. cbn [ok_or map_err]. by rewrite ok_bind, note_parts_law.
Qed.

Context `{FL : FrontierLaws}.
(** Frontiers of the note commitment tree round-trip through every format. *)
Lemma frontier_round_trip hr (f : Frontier) : deserialize hr (serialize hr f) = Ok f.
Proof.
  unfold serialize, deserialize, Frontier_Serialize, Frontier_Deserialize, Frontier_value.
  destruct (ofrontier_value f) as [g|] eqn:Hg; simpl.
  - unfold serialize, deserialize, option_serialize, option_deserialize.
    unfold serialize at 1, deserialize at 1, NonEmptyFrontierRepr_Serialize, NonEmptyFrontierRepr_Deserialize.
    read_fields. cbn [u64_de NonEmptyFrontierRepr_from fr_position fr_leaf fr_ommers].
    rewrite (deserialize_serialize (A:=OMerkleHash)) by apply merkle_hash_serde_law.
    rewrite (deserialize_serialize (A:=list OMerkleHash))
      by (apply Forall_true, merkle_hash_serde_law).
    rewrite !ok_bind. simpl. unfold NonEmptyFrontier_try_from. simpl.
    rewrite frontier_parts_law. simpl. by rewrite (frontier_value_law f g Hg).
  - rewrite (frontier_empty_law f Hg). done.
Qed.
End stored.
