(* ===== verification/OrchardNode.v ===== *)
(** The orchard types as the node sees them.

    The other files take bundles, nullifiers and anchors from the class
    [Externals].  Given the crates, [with_orchard] fills that part of the class
    with the wrappers of [src/lib/types/orchard/mod.rs], so that every theorem
    about an arbitrary [Externals] applies to the code's own types; what a
    transaction id commits to is stated here for those types. *)
From S2P Require Import Prelude.
From S2P Require Import Borsh.
From S2P Require Import Serde.
From S2P Require Import Externals.
From S2P Require Import Toy.
From S2P Require Import Types.
From S2P Require Import Address.
From S2P Require Import OrchardTypes.
From S2P Require Import OrchardFacts.

Section node.
Context (E0 : Externals) `{OC : OrchardCrate} `{FC : !FrontierCrate}.

Definition frontier_append_ (f : OrchardTypes.Frontier) (cmx : OrchardTypes.ExtractedNoteCommitment) :
    option OrchardTypes.Frontier :=
  let '(f, ok) := Frontier_append f cmx in if ok then Some f else None.

Definition with_orchard : Externals := {|
  MainAddress := @MainAddress E0;
  MainAddress_eq_dec := _; MainAddress_countable := _;
  script_pubkey := @script_pubkey E0;
  address_from_script := @address_from_script E0;
  main_address_cmp := @main_address_cmp E0;
  btc_txid_cmp := @btc_txid_cmp E0;
  amount_max := @amount_max E0;
  varint_size := @varint_size E0;
  amount_size := @amount_size E0;
  locktime_size := @locktime_size E0;
  witness_scale_factor := @witness_scale_factor E0;
  max_standard_tx_weight := @max_standard_tx_weight E0;
  op_return_script := @op_return_script E0;
  compute_txid := @compute_txid E0;
  tx_weight := @tx_weight E0;
  NodeHash := @NodeHash E0; NodeHash_eq_dec := _;
  node_hash := @node_hash E0; node_hash_bytes := @node_hash_bytes E0;
  Forest := @Forest E0; forest_default := @forest_default E0;
  UtreexoProof := @UtreexoProof E0; UtreexoProof_eq_dec := _;
  forest_modify := @forest_modify E0; forest_roots := @forest_roots E0;
  forest_prove := @forest_prove E0; forest_verify := @forest_verify E0;
  Externals.Nullifier := OrchardTypes.Nullifier;
  Nullifier_eq_dec := ONullifier_eq_dec; Nullifier_countable := ONullifier_countable;
  Externals.ExtractedNoteCommitment := OrchardTypes.ExtractedNoteCommitment;
  MerkleHashOrchard := OMerkleHash;
  Externals.Anchor := OrchardTypes.Anchor;
  Anchor_eq_dec := OAnchor_eq_dec; Anchor_countable := OAnchor_countable;
  anchor_from := merkle_hash_to_anchor;
  anchor_empty_tree := oanchor_empty_tree;
  Externals.Frontier := OrchardTypes.Frontier;
  frontier_empty := ofrontier_empty;
  frontier_root := Frontier_root;
  frontier_append := frontier_append_;
  Externals.Action := OrchardTypes.Action (OrchardTypes.Signature SpendAuth);
  action_cmx := oa_cmx;
  action_nullifier := oa_nullifier;
  Externals.Bundle := AuthorizedBundle;
  bundle_actions b := ne_list (actions b);
  bundle_spends_enabled b := flags_spends_enabled (flags b);
  bundle_value_balance := value_balance;
  bundle_anchor := anchor;
  bundle_ser_without_auth := borsh_serialize_without_auth;
  bundle_ser b := borsh b;
  bundle_verify_binding b msg :=
    is_ok (VerificationKey_verify (binding_validating_key b) msg
      (authorized_binding_signature (authorization b)));
  bundle_verify_spend_auth b sighash := is_ok (verify_spend_auth_signatures b sighash);
  bundle_verify_proof b := is_ok (verify_proof b);
  blake3 := @blake3 E0; blake3_xof20 := @blake3_xof20 E0;
  VerifyingKey := @VerifyingKey E0;
  Externals.Signature := @Externals.Signature E0;
  SigningKey := @SigningKey E0;
  vk_bytes := @vk_bytes E0; sig_bytes := @sig_bytes E0;
  verifying_key_of := @verifying_key_of E0; sign_bytes := @sign_bytes E0;
  verify_batch := @verify_batch E0;
  bincode_u32 := @bincode_u32 E0
|}.

(** ** What a transaction id commits to *)
Context `{OL : !OrchardLaws}.

Definition tx_balance_ok (tx : @Transaction with_orchard) : Prop :=
  match orchard_bundle tx with Some b => balance_ok b | None => True end.
Definition tx_effects (tx : @Transaction with_orchard) :=
  (inputs tx, outputs tx, match orchard_bundle tx with Some b => Some (effects b) | None => None end).

Lemma bundle_bytes_some (b : AuthorizedBundle) : borsh_serialize_without_auth b ≠ [].
Proof. intros Hb%(f_equal length). rewrite length_without_auth in Hb. simpl in Hb. lia. Qed.

(** C15: A transaction id commits to everything a transaction does: equal
    hashed bytes mean equal inputs and outputs, a bundle in both or in neither,
    and then the same nullifiers, keys, commitments, encrypted notes, flags,
    value balance and anchor in it.  Only the Utreexo proof, the zero-knowledge
    proof and the signatures can differ. *)
Theorem txid_commits_to_effects (tx tx' : @Transaction with_orchard)
    (Hok : tx_ok tx) (Hok' : tx_ok tx') (Hb : tx_balance_ok tx) (Hb' : tx_balance_ok tx')
    (Heq : txid_preimage tx = txid_preimage tx') :
  tx_effects tx = tx_effects tx'.
Proof.
  apply txid_preimage_inj in Heq as (Hi & Ho & Hbytes); [|done..].
  unfold tx_effects, tx_balance_ok, bundle_bytes in *. rewrite Hi, Ho. f_equal.
  destruct (orchard_bundle tx) as [b|], (orchard_bundle tx') as [b'|]; simpl in *; try done.
  - f_equal. by apply without_auth_binds_effects.
  - by apply bundle_bytes_some in Hbytes.
  - symmetry in Hbytes. by apply bundle_bytes_some in Hbytes.
Qed.

(** ** Verification

    The bundle checks of the node are those of the wrappers: the spend
    authorizations are verified one action at a time, the first failure
    decides. *)
Lemma foldR_unit_ok {Er A} (f : A → Res Er unit) l :
  is_ok (foldR (λ _, f) tt l) = forallb (λ a, is_ok (f a)) l.
Proof.
  induction l as [|a l IH]; [done|]. simpl. by destruct (f a) as [[]| |]; simpl; [apply IH|..].
Qed.
Lemma forallb_same {A} (f g : A → bool) l : (∀ a, f a = g a) → forallb f l = forallb g l.
Proof. intros Hfg. induction l as [|a l IH]; [done|]. simpl. by rewrite Hfg, IH. Qed.
Lemma verify_spend_auth_all (b : AuthorizedBundle) sighash :
  @bundle_verify_spend_auth with_orchard b sighash
  = forallb (λ a, vk_verify (oa_rk a) sighash (oa_authorization a)) (ne_list (actions b)).
Proof.
  cbn [bundle_verify_spend_auth with_orchard]. unfold verify_spend_auth_signatures. rewrite (foldR_unit_ok (λ action, VerificationKey_verify
    (oa_rk action) sighash (oa_authorization action))).
  apply forallb_same. intros a. unfold VerificationKey_verify, guard_err. by case_match.
Qed.
End node.

(** ** Witnesses: a crate whose values are their encodings *)
Module OrchardToy.
Record act (A : Type) := mk_act {
  a_nf : vec byte 32; a_rk : vec byte 32; a_cmx : vec byte 32;
  a_note : TransmittedNoteCiphertext; a_cv : vec byte 32; a_auth : A }.
Arguments mk_act {A} _ _ _ _ _ _.
Arguments a_nf {A} _. Arguments a_rk {A} _. Arguments a_cmx {A} _.
Arguments a_note {A} _. Arguments a_cv {A} _. Arguments a_auth {A} _.
Record compact := mk_compact {
  c_nf : vec byte 32; c_cmx : vec byte 32; c_epk : vec byte 32; c_enc : vec byte 52 }.
Record bdl (Auth SA : Type) := mk_bdl {
  b_acts : NonEmpty (act SA); b_flags : bool; b_value : Z; b_anchor : vec byte 32; b_auth : Auth }.
Arguments mk_bdl {Auth SA} _ _ _ _ _.
Arguments b_acts {Auth SA} _. Arguments b_flags {Auth SA} _. Arguments b_value {Auth SA} _.
Arguments b_anchor {Auth SA} _. Arguments b_auth {Auth SA} _.

Definition first_bytes (v : vec byte 580) : vec byte 52 :=
  match read_vec 52 v with Some (w, _) => w | None => vreplicate 52 x00 end.
Lemma read_vec_take n l : n ≤ length l → ∃ w, read_vec n l = Some (w, drop n l) ∧ vec_to_list w = take n l.
Proof.
  revert l. induction n as [|n IH]; intros [|b l] Hl; simpl in *; [by eexists|by eexists|lia|].
  destruct (IH l ltac:(lia)) as (w & -> & Hw). simpl. eexists. split; [done|]. simpl. by rewrite Hw.
Qed.
Lemma first_bytes_take v : vec_to_list (first_bytes v) = take 52 v.
Proof.
  destruct (read_vec_take 52 (vec_to_list v)) as (w & Hr & Hw); [rewrite length_vec_to_list; lia|].
  unfold first_bytes. by rewrite Hr.
Qed.

#[export] Instance crate : OrchardCrate := {|
  ONullifier := vec byte 32; ONullifier_countable := _;
  nullifier_to_bytes := id; nullifier_from_bytes := Some;
  OSignature _ := vec byte 64; signature_to_bytes _ := id; signature_from_bytes _ := id;
  OVerificationKey _ := vec byte 32; vk_to_bytes _ := id; vk_try_from _ := Some;
  vk_verify _ k _ s := bool_decide (vec_to_list k = take 32 s);
  ONoteCommitment := vec byte 32; cmx_to_bytes := id; cmx_from_bytes := Some;
  OValueCommitment := vec byte 32; cv_to_bytes := id; cv_from_bytes := Some;
  OAction := act;
  oa_nullifier _ := a_nf; oa_rk _ := a_rk; oa_cmx _ := a_cmx; oa_encrypted_note _ := a_note;
  oa_cv_net _ := a_cv; oa_authorization _ := a_auth;
  action_from_parts _ nf rk cmx note cv au := Some (mk_act nf rk cmx note cv au);
  OCompactAction := compact;
  compact_from _ a := mk_compact (a_nf a) (a_cmx a) (epk_bytes (a_note a)) (first_bytes (enc_ciphertext (a_note a)));
  ca_nullifier := c_nf; ca_cmx := c_cmx; ca_ephemeral_key := c_epk; ca_enc_ciphertext := c_enc;
  OFlags := bool; FLAGS_ENABLED := true; FLAGS_SPENDS_DISABLED := false; flags_spends_enabled := id;
  flags_to_byte f := if f then x03 else x02;
  flags_from_byte b := match b with x03 => Some true | x02 => Some false | _ => None end;
  OAnchor := vec byte 32; OAnchor_countable := _; oanchor_empty_tree := vreplicate 32 x00;
  oanchor_to_bytes := id; oanchor_from_bytes := Some;
  OProof := list byte; proof_new := id; proof_bytes := id; proof_size n := n;
  OAuthorized := list byte * vec byte 64; authorized_proof := fst; authorized_binding_signature := snd;
  authorized_from_parts := pair;
  OBundle := bdl;
  ob_actions _ _ := b_acts; ob_flags _ _ := b_flags; ob_value_balance _ _ := b_value; ob_anchor _ _ := b_anchor;
  ob_authorization _ _ := b_auth;
  ob_binding_validating_key _ _ _ := vreplicate 32 x00;
  bundle_from_parts_effects acts f v an := mk_bdl acts f v an tt;
  bundle_try_from_parts acts f v an au :=
    if bool_decide (length au.1 = length (ne_list acts)) then Some (mk_bdl acts f v an au) else None;
  ob_verify_proof _ := true
|}.
#[export] Instance laws : OrchardLaws.
Proof.
  split; try done; simpl.
  - by intros [|].
  - by intros [].
  - by intros A [].
  - intros A a. apply first_bytes_take.
  - intros acts f v an au b Hb. case_bool_decide; by simplify_eq/=.
  - intros acts f v an au b Hb. by case_bool_decide.
Qed.

Definition note (z : Z) : TransmittedNoteCiphertext :=
  mk_TransmittedNoteCiphertext (le_vec 32 z) (le_vec 580 z) (le_vec 80 z).
Definition action {A} (z : Z) (au : A) : act A :=
  mk_act (le_vec 32 z) (le_vec 32 z) (le_vec 32 z) (note z) (le_vec 32 z) au.
Definition signed : AuthorizedBundle :=
  mk_bdl (mk_NonEmpty (action 1 (le_vec 64 1)) [action 2 (le_vec 64 2)]) true (-500) (le_vec 32 9)
    ([x01; x02], le_vec 64 7).
(** The same bundle with another signature. *)
Definition resigned : AuthorizedBundle :=
  mk_bdl (mk_NonEmpty (action 1 (le_vec 64 5)) [action 2 (le_vec 64 2)]) true (-500) (le_vec 32 9)
    ([x01; x02], le_vec 64 7).
Definition unsigned : Bundle unit unit :=
  mk_bdl (mk_NonEmpty (action 1 tt) [action 2 tt]) true (-500) (le_vec 32 9) tt.

Lemma without_auth_binds_effects_witness : effects signed = effects unsigned.
Proof. apply (without_auth_binds_effects signed unsigned); [split; vm_compute; congruence..|]. vm_compute. reflexivity. Defined.

Lemma canonical_signed : canonical signed.
Proof. reflexivity. Qed.
Lemma authorized_bundle_bytes_determine_bundle_witness : signed = signed.
Proof.
  apply (authorized_bundle_bytes_determine_bundle signed signed);
    [exact canonical_signed..|split; vm_compute; congruence|split; vm_compute; congruence|reflexivity].
Defined.

#[local] Existing Instances AddressToy.hex AddressToy.hex_laws.
Lemma bundle_serde_round_trip_witness :
  deserialize false (serialize false signed) = Ok signed ∧ canonical signed.
Proof.
  exact (bundle_serde_round_trip signed signed false (serialize false signed) canonical_signed
    (bundle_round_trip signed canonical_signed)).
Defined.

Lemma bundle_text_unreadable_witness :
  deserialize (A:=AuthorizedBundle) true (serialize true signed) = Err InvalidType.
Proof. apply (bundle_text_unreadable signed). Defined.

#[export] Instance frontiers : FrontierCrate := {|
  OMerkleHash := vec byte 32;
  merkle_hash_from_cmx := id; merkle_hash_to_anchor := id;
  ONonEmptyFrontier := Z * vec byte 32 * list (vec byte 32);
  of_position f := f.1.1; of_leaf f := f.1.2; of_ommers f := f.2;
  frontier_from_parts p l o := inl (p, l, o);
  OFrontier := option (Z * vec byte 32 * list (vec byte 32));
  ofrontier_empty := None; ofrontier_value := id; ofrontier_try_from f := inl (Some f);
  ofrontier_root f := match f with Some f => f.1.2 | None => vreplicate 32 x00 end;
  ofrontier_append f h :=
    (Some match f with Some (p, l, o) => (p + 1, h, l :: o)%Z | None => (0, h, [])%Z end, true)
|}.

#[local] Abbreviation toy := (with_orchard Toy.externals).
Definition tx_signed : @Transaction toy := @mk_Transaction toy [] [] [] (Some signed).
Definition tx_resigned : @Transaction toy := @mk_Transaction toy [] [le_vec 32 3] [] (Some resigned).
(** Another proof and another signature, the same transaction id. *)
Lemma txid_commits_to_effects_witness :
  tx_effects Toy.externals tx_signed = tx_effects Toy.externals tx_resigned.
Proof.
  apply (txid_commits_to_effects Toy.externals tx_signed tx_resigned).
  - split; [reflexivity|]. split; [reflexivity|constructor].
  - split; [reflexivity|]. split; [reflexivity|constructor].
  - split; vm_compute; congruence.
  - split; vm_compute; congruence.
  - vm_compute. reflexivity.
Defined.
End OrchardToy.
