(* ===== verification/AccumulatorDiff.v ===== *)
(** Utreexo accumulator diffs and the accumulator
    ([AccumulatorDiff] and [Accumulator] of [src/lib/types/mod.rs]).

    A diff is the insertion-ordered hash map of the source, here the
    association list of its entries ([true]: insertion, [false]: removal) with
    the two counters the source keeps.  Its specification is per leaf: an
    update of one leaf never disturbs another one, and each leaf follows a
    three-state machine ([bump]). *)
From S2P Require Import Prelude Borsh Externals Toy Types.

Section accumulator.
Context `{E : Externals}.

(** [LinkedHashMap<BitcoinNodeHash, bool>] in insertion order, with counters. *)
Record AccumulatorDiff := mk_AccumulatorDiff {
  diff : list (NodeHash * bool);
  insertions : Z;
  deletions : Z
}.

Definition AccumulatorDiff_default : AccumulatorDiff := mk_AccumulatorDiff [] 0 0.

(** [LinkedHashMap::get] and removal of an occupied entry. *)
Fixpoint diff_get (h : NodeHash) (l : list (NodeHash * bool)) : option bool :=
  match l with
  | [] => None
  | (k, b) :: l => if decide (h = k) then Some b else diff_get h l
  end.
Fixpoint diff_remove (h : NodeHash) (l : list (NodeHash * bool)) : list (NodeHash * bool) :=
  match l with
  | [] => []
  | (k, b) :: l => if decide (h = k) then l else (k, b) :: diff_remove h l
  end.

Definition AccumulatorDiff_insert (utxo_hash : NodeHash) (self : AccumulatorDiff) :
    AccumulatorDiff :=
  match diff_get utxo_hash (diff self) with
  | Some true => self
  | Some false =>
      mk_AccumulatorDiff (diff_remove utxo_hash (diff self))
        (insertions self) (deletions self - 1)
  | None =>
      mk_AccumulatorDiff (diff self ++ [(utxo_hash, true)])
        (insertions self + 1) (deletions self)
  end.

Definition AccumulatorDiff_remove (utxo_hash : NodeHash) (self : AccumulatorDiff) :
    AccumulatorDiff :=
  match diff_get utxo_hash (diff self) with
  | Some true =>
      mk_AccumulatorDiff (diff_remove utxo_hash (diff self))
        (insertions self - 1) (deletions self)
  | Some false => self
  | None =>
      mk_AccumulatorDiff (diff self ++ [(utxo_hash, false)])
        (insertions self) (deletions self + 1)
  end.

Definition counts (self : AccumulatorDiff) : Z * Z := (insertions self, deletions self).
Definition diff_is_empty (self : AccumulatorDiff) : bool := bool_decide (diff self = []).

(** [struct Accumulator(pub MemForest<BitcoinNodeHash>)] *)
Record Accumulator := mk_Accumulator { forest : Forest }.
Definition Accumulator_default : Accumulator := mk_Accumulator forest_default.

(** The loop of [apply_diff] that splits the entries. *)
Definition split_diff (l : list (NodeHash * bool)) : list NodeHash * list NodeHash :=
  foldl (λ '(ins, dels) '(utxo_hash, insert),
      if (insert : bool) then (ins ++ [utxo_hash], dels) else (ins, dels ++ [utxo_hash]))
    ([], []) l.

(** [Accumulator::apply_diff]; [None] is a [UtreexoError]. *)
Definition apply_diff (self : Accumulator) (d : AccumulatorDiff) : option Accumulator :=
  let '(ins, dels) := split_diff (diff d) in
  mk_Accumulator <$> forest_modify (forest self) ins dels.

Definition get_roots (self : Accumulator) : list NodeHash := forest_roots (forest self).
Definition prove (self : Accumulator) (targets : list NodeHash) : option UtreexoProof :=
  forest_prove (forest self) targets.
Definition verify (self : Accumulator) (p : UtreexoProof) (del_hashes : list NodeHash) :
    option bool := forest_verify (forest self) p del_hashes.

(** A sequence of updates, [true] for [insert]. *)
Definition diff_update (d : AccumulatorDiff) (u : NodeHash * bool) : AccumulatorDiff :=
  if u.2 then AccumulatorDiff_insert u.1 d else AccumulatorDiff_remove u.1 d.

(** *** Specification: one leaf at a time *)

(** What an update does to the entry of its leaf: the opposite update cancels
    a pending one, a repeated update is absorbed. *)
Definition bump (ins : bool) (o : option bool) : option bool :=
  match o with
  | None => Some ins
  | Some b => if Bool.eqb b ins then Some b else None
  end.

Definition leaf_history (h : NodeHash) (us : list (NodeHash * bool)) : list bool :=
  snd <$> filter (λ u, u.1 = h) us.

Definition count_true (l : list (NodeHash * bool)) : Z := zlen (filter (λ u, u.2 = true) l).
Definition count_false (l : list (NodeHash * bool)) : Z := zlen (filter (λ u, u.2 = false) l).

Definition diff_wf (d : AccumulatorDiff) : Prop :=
  NoDup (fst <$> diff d)
  ∧ insertions d = count_true (diff d)
  ∧ deletions d = count_false (diff d).

(** *** Lemmas on the entry list *)
Lemma diff_get_app h l k :
  diff_get h (l ++ k) = match diff_get h l with Some b => Some b | None => diff_get h k end.
Proof. induction l as [|[h' b] l IH]; simpl; [done|]. by case_decide. Qed.

Lemma diff_get_remove h h' l :
  NoDup (fst <$> l) →
  diff_get h (diff_remove h' l) = if decide (h = h') then None else diff_get h l.
Proof.
  intros Hnd. induction l as [|[k b] l IH]; csimpl.
  - by case_decide.
  - csimpl in Hnd. apply NoDup_cons in Hnd as [Hk Hnd]. specialize (IH Hnd).
    destruct (decide (h' = k)) as [->|Hne].
    + destruct (decide (h = k)) as [->|]; [|done].
      clear IH. induction l as [|[k' b'] l IH]; [done|]. csimpl in *.
      apply not_elem_of_cons in Hk as [? ?]. rewrite decide_False by done.
      apply NoDup_cons in Hnd as [_ ?]. auto.
    + simpl. destruct (decide (h = k)) as [->|]; [by rewrite decide_False|done].
Qed.

Lemma diff_get_None h l : diff_get h l = None ↔ h ∉ l.*1.
Proof.
  induction l as [|[k b] l IH]; csimpl; [set_solver|].
  case_decide; subst; set_solver.
Qed.

Lemma diff_remove_spec h b l :
  diff_get h l = Some b → ∃ l1 l2, l = l1 ++ (h, b) :: l2 ∧ diff_remove h l = l1 ++ l2.
Proof.
  induction l as [|[k c] l IH]; simpl; [done|]. case_decide as Hk.
  - intros [= ->]. subst. by exists [], l.
  - intros (l1 & l2 & -> & ->)%IH. by exists ((k, c) :: l1), l2.
Qed.

Lemma count_true_app l k : count_true (l ++ k) = (count_true l + count_true k)%Z.
Proof. unfold count_true. rewrite filter_app, length_app. lia. Qed.
Lemma count_false_app l k : count_false (l ++ k) = (count_false l + count_false k)%Z.
Proof. unfold count_false. rewrite filter_app, length_app. lia. Qed.
Lemma count_true_middle h b l k :
  count_true (l ++ (h, b) :: k) = (count_true (l ++ k) + if b then 1 else 0)%Z.
Proof.
  unfold count_true. rewrite !filter_app, filter_cons, !length_app.
  destruct b; simpl; lia.
Qed.
Lemma count_false_middle h b l k :
  count_false (l ++ (h, b) :: k) = (count_false (l ++ k) + if b then 0 else 1)%Z.
Proof.
  unfold count_false. rewrite !filter_app, filter_cons, !length_app.
  destruct b; simpl; lia.
Qed.

Lemma diff_wf_default : diff_wf AccumulatorDiff_default.
Proof. repeat split. constructor. Qed.

Lemma diff_wf_update d u : diff_wf d → diff_wf (diff_update d u).
Proof.
  destruct d as [l i k], u as [h ins]; intros (Hnd & Hi & Hk); simpl in *.
  unfold diff_update, AccumulatorDiff_insert, AccumulatorDiff_remove, diff_wf; simpl.
  destruct (diff_get h l) as [b|] eqn:Hg.
  - destruct (diff_remove_spec h b l Hg) as (l1 & l2 & -> & Hr).
    rewrite fmap_app, fmap_cons, <- Permutation_middle, NoDup_cons, <- fmap_app in Hnd.
    rewrite count_true_middle in Hi. rewrite count_false_middle in Hk.
    destruct Hnd as [Hh Hnd]. destruct ins, b; simpl in *; rewrite ?Hr;
      rewrite ?count_true_middle, ?count_false_middle; split_and!; try lia; try done;
      rewrite fmap_app, fmap_cons, <- Permutation_middle, NoDup_cons, <- fmap_app; done.
  - apply diff_get_None in Hg.
    destruct ins; simpl; rewrite count_true_middle, count_false_middle, fmap_app;
      rewrite app_nil_r; (split; [|lia]);
      csimpl; rewrite <- Permutation_cons_append, NoDup_cons; done.
Qed.

Lemma diff_get_update d u h :
  diff_wf d →
  diff_get h (diff (diff_update d u)) =
    if decide (h = u.1) then bump u.2 (diff_get h (diff d)) else diff_get h (diff d).
Proof.
  intros (Hnd & _). destruct u as [k ins]; simpl.
  unfold diff_update, AccumulatorDiff_insert, AccumulatorDiff_remove; simpl.
  destruct (diff_get k (diff d)) as [[]|] eqn:Hg; destruct ins; simpl;
    rewrite ?diff_get_remove, ?diff_get_app by done; simpl; case_decide; subst;
    rewrite ?Hg; simpl; try done; by destruct (diff_get h (diff d)).
Qed.

Lemma diff_updates_spec us : ∀ d,
  diff_wf d →
  diff_wf (foldl diff_update d us) ∧
  ∀ h, diff_get h (diff (foldl diff_update d us)) =
       foldl (λ o ins, bump ins o) (diff_get h (diff d)) (leaf_history h us).
Proof.
  induction us as [|u us IH]; intros d Hwf; simpl; [done|].
  destruct (IH (diff_update d u)) as [Hwf' Hget]; [by apply diff_wf_update|].
  split; [done|]. intros h. rewrite Hget, diff_get_update by done.
  unfold leaf_history. rewrite filter_cons.
  case_decide; simplify_eq; case_decide; simplify_eq; done.
Qed.

Lemma split_diff_spec l :
  split_diff l = (fst <$> filter (λ u, u.2 = true) l, fst <$> filter (λ u, u.2 = false) l).
Proof.
  unfold split_diff.
  assert (∀ a b, foldl (λ '(ins, dels) '(utxo_hash, insert),
      if (insert : bool) then (ins ++ [utxo_hash], dels) else (ins, dels ++ [utxo_hash]))
    (a, b) l = (a ++ (fst <$> filter (λ u, u.2 = true) l),
                b ++ (fst <$> filter (λ u, u.2 = false) l))) as ->; [|done].
  induction l as [|[h []] l IH]; intros a b; simpl.
  - by rewrite !app_nil_r.
  - rewrite IH, !filter_cons. simpl. by rewrite <- app_assoc.
  - rewrite IH, !filter_cons. simpl. by rewrite <- app_assoc.
Qed.

Lemma diff_remove_snoc h b l :
  diff_get h l = None → diff_remove h (l ++ [(h, b)]) = l.
Proof.
  induction l as [|[k c] l IH]; simpl; intros Hl; [by rewrite decide_True|].
  case_decide; [done|]. by rewrite IH.
Qed.

Lemma elem_of_split_diff h b l :
  NoDup (l.*1) → h ∈ (filter (λ u, u.2 = b) l).*1 ↔ diff_get h l = Some b.
Proof.
  induction l as [|[k c] l IH]; csimpl; intros Hnd.
  - split; [by intros ?%elem_of_nil | done].
  - apply NoDup_cons in Hnd as [Hk Hnd]. specialize (IH Hnd).
    rewrite filter_cons. simpl. destruct (decide (h = k)) as [->|Hne].
    + assert (k ∉ (filter (λ u, u.2 = b) l).*1) as Hnot.
      { intros (u & -> & Hu)%list_elem_of_fmap. apply list_elem_of_filter in Hu as [_ Hu].
        apply Hk, list_elem_of_fmap. eauto. }
      case_decide; csimpl; [subst; set_solver|]. split; [done|congruence].
    + case_decide; csimpl; [rewrite elem_of_cons|]; naive_solver.
Qed.

(** Every leaf of a diff built by [insert] and [remove] behaves on its own:
    opposite updates cancel once, repeated ones are absorbed, and the counters
    count the entries. *)
Lemma diff_of_updates us :
  let d := foldl diff_update AccumulatorDiff_default us in
  diff_wf d ∧ ∀ h, diff_get h (diff d) = foldl (λ o ins, bump ins o) None (leaf_history h us).
Proof. apply (diff_updates_spec us). apply diff_wf_default. Qed.
End accumulator.

(** ** Properties *)
Section properties.
Context `{E : Externals}.

(** An accumulator diff refines its per-leaf specification: after any
    sequence of [insert] and [remove] calls, the entry of each leaf is the
    result of running the three-state machine [bump] over the updates of that
    leaf alone ("cancel out exactly once", double insertions and double
    removals are absorbed), no leaf is listed twice, and [counts] returns the
    numbers of pending insertions and deletions. *)
Theorem accumulator_diff_refines_leaves (us : list (NodeHash * bool)) :
  let d := foldl diff_update AccumulatorDiff_default us in
  (∀ h, diff_get h (diff d) = foldl (λ o ins, bump ins o) None (leaf_history h us))
  ∧ NoDup (fst <$> diff d)
  ∧ counts d = (count_true (diff d), count_false (diff d)).
Proof.
  destruct (diff_of_updates us) as [(Hnd & Hi & Hk) Hget]. simpl in *.
  split_and!; [done..|]. unfold counts. congruence.
Qed.

(** [apply_diff] gives the forest exactly the pending insertions and the
    pending deletions of the diff: duplicate-free, disjoint, each leaf on the
    side its entry says, and as many of each as the counters that sized the
    two vectors. *)
Theorem apply_diff_splits_exactly (us : list (NodeHash * bool)) (acc : Accumulator) :
  let d := foldl diff_update AccumulatorDiff_default us in
  ∃ ins dels,
    apply_diff acc d = mk_Accumulator <$> forest_modify (forest acc) ins dels
    ∧ NoDup ins ∧ NoDup dels ∧ (∀ h, h ∈ ins → h ∉ dels)
    ∧ (∀ h, h ∈ ins ↔ diff_get h (diff d) = Some true)
    ∧ (∀ h, h ∈ dels ↔ diff_get h (diff d) = Some false)
    ∧ zlen ins = insertions d ∧ zlen dels = deletions d.
Proof.
  intros d. destruct (diff_of_updates us) as [(Hnd & Hi & Hk) _]. fold d in Hnd, Hi, Hk.
  exists (filter (λ u, u.2 = true) (diff d)).*1, (filter (λ u, u.2 = false) (diff d)).*1.
  unfold apply_diff. rewrite split_diff_spec.
  assert (∀ P `{∀ u : NodeHash * bool, Decision (P u)}, NoDup (filter P (diff d)).*1) as Hf.
  { intros P HP. eapply sublist_NoDup; [apply Hnd|]. apply fmap_sublist, sublist_filter. }
  split_and!; [done|apply Hf|apply Hf|intros h|intros h|intros h| |].
  - rewrite !elem_of_split_diff by done. congruence.
  - by apply elem_of_split_diff.
  - by apply elem_of_split_diff.
  - by rewrite length_fmap, Hi.
  - by rewrite length_fmap, Hk.
Qed.

(** the documented cancellation: for a leaf without a pending update,
    insert-then-remove restores the diff itself, a second insertion is
    absorbed, and a further removal after the pair records a deletion. *)
Theorem insert_remove_cancels (h : NodeHash) (d : AccumulatorDiff)
    (Hnew : diff_get h (diff d) = None) :
  AccumulatorDiff_remove h (AccumulatorDiff_insert h d) = d
  ∧ AccumulatorDiff_insert h (AccumulatorDiff_insert h d) = AccumulatorDiff_insert h d
  ∧ diff_get h (diff (AccumulatorDiff_remove h
      (AccumulatorDiff_remove h (AccumulatorDiff_insert h d)))) = Some false.
Proof.
  destruct d as [l i k]; simpl in *.
  assert (AccumulatorDiff_remove h (AccumulatorDiff_insert h (mk_AccumulatorDiff l i k))
    = mk_AccumulatorDiff l i k) as Hid.
  { unfold AccumulatorDiff_insert, AccumulatorDiff_remove. simpl. rewrite Hnew. simpl.
    rewrite diff_get_app, Hnew. simpl. rewrite decide_True by done.
    rewrite diff_remove_snoc by done. f_equal. lia. }
  split_and!; [done| |].
  - unfold AccumulatorDiff_insert. simpl. rewrite Hnew. simpl.
    rewrite diff_get_app, Hnew. simpl. by rewrite decide_True.
  - rewrite Hid. unfold AccumulatorDiff_remove. simpl. rewrite Hnew. simpl.
    rewrite diff_get_app, Hnew. simpl. by rewrite decide_True.
Qed.
End properties.

Module AccumulatorDiffToy.
#[local] Existing Instance Toy.externals.
Definition leaf (z : Z) : Hash := le_vec 32 z.

Lemma insert_remove_cancels_witness :
  let d := AccumulatorDiff_insert (leaf 7) AccumulatorDiff_default in
  diff_get (leaf 5) (diff d) = None
  ∧ AccumulatorDiff_remove (leaf 5) (AccumulatorDiff_insert (leaf 5) d) = d.
Proof.
  intros d. assert (diff_get (leaf 5) (diff d) = None) as H by (vm_compute; reflexivity).
  split; [exact H|]. exact (proj1 (insert_remove_cancels (leaf 5) d H)).
Defined.
End AccumulatorDiffToy.
