(* ===== verification/WithdrawalBundle.v ===== *)
(** Withdrawal bundles ([WithdrawalBundle], [AggregatedWithdrawal] and the
    bundle statuses of [src/lib/types/mod.rs]).

    The size arithmetic is on [u32] with every [checked_add] of the source; an
    overflow is [None].  [predict_weight_exact] and [WithdrawalBundle_new_fits]
    relate the prediction to the bundle that is really built. *)
From S2P Require Import Prelude Borsh Externals Toy Types.

Inductive WithdrawalBundleEventStatus := EvConfirmed | EvFailed | EvSubmitted.

Inductive WithdrawalBundleStatus :=
  | Confirmed | Dropped | Failed | Pending | Submitted | SubmittedUnexpected.

#[export] Instance WithdrawalBundleEventStatus_eq_dec : EqDecision WithdrawalBundleEventStatus.
Proof. solve_decision. Defined.
#[export] Instance WithdrawalBundleStatus_eq_dec : EqDecision WithdrawalBundleStatus.
Proof. solve_decision. Defined.

Record WithdrawalBundleEvent := mk_WithdrawalBundleEvent {
  ev_m6id : M6id;
  ev_status : WithdrawalBundleEventStatus
}.
#[export] Instance WithdrawalBundleEvent_eq_dec : EqDecision WithdrawalBundleEvent.
Proof. solve_decision. Defined.

Section bundle.
Context `{E : Externals}.

(** ** Size prediction *)
Definition txout_size (spk_size : Z) : option Z :=
  size ← u32_checked_add amount_size (varint_size spk_size);
  u32_checked_add size spk_size.

Definition txin_base_size (script_sig_size : Z) : option Z :=
  let OUTPOINT_SIZE := 36%Z in
  let SEQUENCE_SIZE := 4%Z in
  let script_sig_len_size := varint_size script_sig_size in
  res ← u32_checked_add (OUTPOINT_SIZE + script_sig_len_size) script_sig_size;
  u32_checked_add res SEQUENCE_SIZE.

Definition vin_base_size (n_inputs sum_txin_base_sizes : Z) : option Z :=
  u32_checked_add (varint_size n_inputs) sum_txin_base_sizes.
Definition vout_size (n_outputs sum_txout_sizes : Z) : option Z :=
  u32_checked_add (varint_size n_outputs) sum_txout_sizes.

Definition tx_base_size (n_inputs sum_txin_base_sizes n_outputs sum_txout_sizes : Z) :
    option Z :=
  let VERSION_SIZE := 4%Z in
  vin ← vin_base_size n_inputs sum_txin_base_sizes;
  res ← u32_checked_add VERSION_SIZE vin;
  vout ← vout_size n_outputs sum_txout_sizes;
  res ← u32_checked_add res vout;
  u32_checked_add res locktime_size.

(** The constants of [predict_weight]; a [None] would fail to compile. *)
Definition TREASURY_TXIN_BASE_SIZE : Z := default 0%Z (txin_base_size 0).
Definition INPUTS_COMMITMENT_TXOUT_SIZE : Z := default 0%Z (txout_size 34).
Definition MAINCHAIN_FEE_COMMITMENT_TXOUT_SIZE : Z := default 0%Z (txout_size 10).

Definition u64_checked_mul (a b : Z) : option Z :=
  if (a * b <? 2 ^ 64)%Z then Some (a * b)%Z else None.

Definition predict_weight (n_outputs sum_txout_sizes : Z) : option Z :=
  n_outputs ← u32_checked_add n_outputs 2;
  sum_txout_sizes ← u32_checked_add
    (INPUTS_COMMITMENT_TXOUT_SIZE + MAINCHAIN_FEE_COMMITMENT_TXOUT_SIZE) sum_txout_sizes;
  tx_base_size ← tx_base_size 1 TREASURY_TXIN_BASE_SIZE n_outputs sum_txout_sizes;
  tx_weight_wu ← u64_checked_mul tx_base_size witness_scale_factor;
  if (tx_weight_wu <=? max_standard_tx_weight)%Z then Some tx_weight_wu else None.

(** ** Bundles *)
Record WithdrawalBundle := mk_WithdrawalBundle {
  spend_utxos : gmap OutPoint Output;
  bundle_tx : BtcTransaction
}.

#[export] Instance WithdrawalBundle_eq_dec : EqDecision WithdrawalBundle.
Proof. solve_decision. Defined.

(** [BundleTooHeavy] *)
Record WithdrawalBundleError := BundleTooHeavy { weight : Z; max_weight : Z }.

(** In-order iteration of a [BTreeMap<OutPoint, Output>]. *)
Definition outpoint_le (a b : OutPoint * Output) : Prop := OutPoint_cmp a.1 b.1 ≠ Gt.
#[export] Instance outpoint_le_dec a b : Decision (outpoint_le a b).
Proof. unfold outpoint_le. apply _. Defined.
Definition btree_iter (m : gmap OutPoint Output) : list (OutPoint * Output) :=
  merge_sort outpoint_le (map_to_list m).

(** [fee.to_sat().to_be_bytes()] *)
Definition be_bytes8 (z : Z) : list byte := reverse (vec_to_list (le_vec 8 z)).

Definition inputs_commitment (block_height : Z) (spend_utxos : gmap OutPoint Output) : Hash :=
  hash ((fst <$> btree_iter spend_utxos)
        ++ [Regular (vreplicate 32 x00) (u32_of_Z block_height)]).

Definition WithdrawalBundle_tx (block_height : Z) (fee : Amount)
    (spend_utxos : gmap OutPoint Output) (bundle_outputs : list TxOut) : BtcTransaction :=
  let inputs_commitment_txout :=
    mk_TxOut 0 (op_return_script (vec_to_list (inputs_commitment block_height spend_utxos))) in
  let mainchain_fee_txout := mk_TxOut 0 (op_return_script (be_bytes8 fee)) in
  mk_BtcTransaction 2 0 []
    ([mainchain_fee_txout; inputs_commitment_txout] ++ bundle_outputs).

Definition WithdrawalBundle_new (block_height : Z) (fee : Amount)
    (spend_utxos : gmap OutPoint Output) (bundle_outputs : list TxOut) :
    Res WithdrawalBundleError WithdrawalBundle :=
  let tx := WithdrawalBundle_tx block_height fee spend_utxos bundle_outputs in
  if (max_standard_tx_weight <? tx_weight tx)%Z
  then Err (BundleTooHeavy (tx_weight tx) max_standard_tx_weight)
  else Ok (mk_WithdrawalBundle spend_utxos tx).

Definition compute_m6id (b : WithdrawalBundle) : M6id := compute_txid (bundle_tx b).

(** ** Aggregated withdrawals *)
Record AggregatedWithdrawal := mk_AggregatedWithdrawal {
  agg_spend_utxos : gmap OutPoint Output;
  agg_main_address : MainAddress;
  agg_value : Amount;
  agg_main_fee : Amount
}.

(** [Ord for AggregatedWithdrawal]: by fee, then value, then address. *)
Definition AggregatedWithdrawal_cmp (a b : AggregatedWithdrawal) : comparison :=
  lex_cmp (agg_main_fee a ?= agg_main_fee b)%Z
    (lex_cmp (agg_value a ?= agg_value b)%Z
       (main_address_cmp (agg_main_address a) (agg_main_address b))).

(** [sort_by_key(|a| Reverse(a.clone()))]: descending. *)
Definition agg_ge (a b : AggregatedWithdrawal) : Prop := AggregatedWithdrawal_cmp b a ≠ Gt.
#[export] Instance agg_ge_dec a b : Decision (agg_ge a b).
Proof. unfold agg_ge. apply _. Defined.
Definition sort_aggregated (l : list AggregatedWithdrawal) : list AggregatedWithdrawal :=
  merge_sort agg_ge l.

(** Documented behaviour of the address order: a total order. *)
Class AddressOrder : Prop := {
  main_address_cmp_eq a b : main_address_cmp a b = Eq ↔ a = b;
  main_address_cmp_antisym a b : main_address_cmp b a = CompOpp (main_address_cmp a b);
  main_address_cmp_trans a b c :
    main_address_cmp a b = Lt → main_address_cmp b c = Lt → main_address_cmp a c = Lt
}.

(** Documented weight of a transaction without inputs: four times its base
    size, plus the segwit marker and flag that its serialization then has; and
    the scripts the builder makes for pushes of at most 75 bytes. *)
Definition txouts_size (l : list TxOut) : Z :=
  sumZ ((λ o, 8 + varint_size (zlen (txo_script_pubkey o)) + zlen (txo_script_pubkey o))%Z <$> l).
Class BtcTxLaws : Prop := {
  tx_weight_no_inputs t : btx_input t = [] →
    tx_weight t = (4 * (4 + 1 + varint_size (zlen (btx_output t))
                        + txouts_size (btx_output t) + 4) + 2)%Z;
  op_return_script_length d : length d ≤ 75 →
    length (op_return_script d) = 2 + length d
}.

(** *** The order of the aggregated withdrawals *)
Section order.
Context `{!AddressOrder}.

Lemma lex_cmp_eq c d : lex_cmp c d = Eq ↔ c = Eq ∧ d = Eq.
Proof. destruct c; simpl; naive_solver. Qed.

Lemma agg_cmp_antisym a b :
  AggregatedWithdrawal_cmp b a = CompOpp (AggregatedWithdrawal_cmp a b).
Proof.
  unfold AggregatedWithdrawal_cmp. rewrite main_address_cmp_antisym.
  rewrite (Z.compare_antisym (agg_main_fee a)), (Z.compare_antisym (agg_value a)).
  destruct (agg_main_fee a ?= _)%Z, (agg_value a ?= _)%Z; simpl; done.
Qed.

Lemma agg_cmp_trans a b c :
  AggregatedWithdrawal_cmp a b ≠ Gt → AggregatedWithdrawal_cmp b c ≠ Gt →
  AggregatedWithdrawal_cmp a c ≠ Gt.
Proof.
  unfold AggregatedWithdrawal_cmp.
  assert (∀ x y z, main_address_cmp x y ≠ Gt → main_address_cmp y z ≠ Gt →
    main_address_cmp x z ≠ Gt) as Hm.
  { intros x y z. destruct (main_address_cmp x y) eqn:Hxy; [|intros _|done].
    - apply main_address_cmp_eq in Hxy as ->. done.
    - destruct (main_address_cmp y z) eqn:Hyz; [|intros _|done].
      + apply main_address_cmp_eq in Hyz as ->. by rewrite Hxy.
      + by rewrite (main_address_cmp_trans _ _ _ Hxy Hyz). }
  destruct (Z.compare_spec (agg_main_fee a) (agg_main_fee b));
  destruct (Z.compare_spec (agg_main_fee b) (agg_main_fee c));
  destruct (Z.compare_spec (agg_main_fee a) (agg_main_fee c)); simpl; try done; try lia;
  destruct (Z.compare_spec (agg_value a) (agg_value b));
  destruct (Z.compare_spec (agg_value b) (agg_value c));
  destruct (Z.compare_spec (agg_value a) (agg_value c)); simpl; try done; try lia; eauto.
Qed.

#[export] Instance agg_ge_trans : Transitive agg_ge.
Proof. intros a b c. unfold agg_ge. eauto using agg_cmp_trans. Qed.

#[export] Instance agg_ge_total : Total agg_ge.
Proof.
  intros a b. unfold agg_ge. rewrite (agg_cmp_antisym a b).
  destruct (AggregatedWithdrawal_cmp a b); simpl; auto.
Qed.

Lemma agg_ge_antisym a b : agg_ge a b → agg_ge b a → agg_main_address a = agg_main_address b.
Proof.
  unfold agg_ge. rewrite (agg_cmp_antisym a b). intros H1 H2.
  assert (AggregatedWithdrawal_cmp a b = Eq) as Heq
    by (by destruct (AggregatedWithdrawal_cmp a b)).
  unfold AggregatedWithdrawal_cmp in Heq. rewrite !lex_cmp_eq in Heq.
  apply main_address_cmp_eq. apply Heq.
Qed.

(** Sorted permutations of a list with one entry per address coincide. *)
Lemma agg_sorted_unique l k :
  StronglySorted agg_ge l → StronglySorted agg_ge k → l ≡ₚ k →
  NoDup (agg_main_address <$> l) → l = k.
Proof.
  intros Hl. revert k. induction Hl as [|a l Hl IH Ha]; intros k Hk Hp Hnd.
  - by apply Permutation_nil_l in Hp.
  - destruct Hk as [|b k Hk Hb]; [by apply Permutation_nil_r in Hp|].
    assert (a = b) as ->.
    { assert (a ∈ b :: k) as [|Hak]%elem_of_cons by (rewrite <- Hp; left); [done|].
      assert (b ∈ a :: l) as [|Hbl]%elem_of_cons by (rewrite Hp; left); [done|].
      rewrite Forall_forall in Ha, Hb.
      pose proof (agg_ge_antisym a b (Ha b Hbl) (Hb a Hak)) as Heq.
      csimpl in Hnd. apply NoDup_cons in Hnd as [Hnd _]. destruct Hnd.
      rewrite Heq. by apply list_elem_of_fmap_2. }
    f_equal. apply IH; [done|by apply Permutation_cons_inv in Hp|].
    csimpl in Hnd. by apply NoDup_cons in Hnd as [_ ?].
Qed.
End order.
End bundle.

(** ** Size lemmas *)
Section sizes.
Context `{E : Externals, !ConsensusSizes}.

Lemma varint_size_range n : (1 ≤ varint_size n ≤ 9)%Z.
Proof. rewrite varint_size_spec. repeat case_match; lia. Qed.

Lemma txout_size_Some spk r :
  (0 ≤ spk < 2 ^ 32)%Z →
  txout_size spk = Some r ↔ r = (8 + varint_size spk + spk)%Z ∧ (r < 2 ^ 32)%Z.
Proof.
  intros Hspk. unfold txout_size, u32_checked_add. rewrite amount_size_spec.
  pose proof (varint_size_range spk).
  destruct (u32_checked (8 + varint_size spk)) as [x|] eqn:Hx; cbn [mbind option_bind].
  - apply u32_checked_Some in Hx as [<- ?]. rewrite u32_checked_Some. lia.
  - split; [done|]. intros [? ?].
    assert (u32_checked (8 + varint_size spk) = Some (8 + varint_size spk)%Z) as Hs
      by (apply u32_checked_Some; lia). congruence.
Qed.

Lemma predict_weight_constants :
  TREASURY_TXIN_BASE_SIZE = 41%Z ∧ INPUTS_COMMITMENT_TXOUT_SIZE = 43%Z
  ∧ MAINCHAIN_FEE_COMMITMENT_TXOUT_SIZE = 19%Z.
Proof.
  unfold TREASURY_TXIN_BASE_SIZE, INPUTS_COMMITMENT_TXOUT_SIZE,
    MAINCHAIN_FEE_COMMITMENT_TXOUT_SIZE, txin_base_size, txout_size.
  rewrite !varint_size_spec, !amount_size_spec. by vm_compute.
Qed.

Lemma u32_checked_add_ok a b :
  (0 ≤ a + b < 2 ^ 32)%Z → u32_checked_add a b = Some (a + b)%Z.
Proof. intros. by apply u32_checked_Some. Qed.

(** The base size that [predict_weight] computes. *)
Definition predicted_base_size (n_outputs sum_txout_sizes : Z) : Z :=
  (4 + 42 + varint_size (n_outputs + 2) + 62 + sum_txout_sizes + 4)%Z.

Lemma predict_weight_Some n s w :
  (0 ≤ n)%Z → (0 ≤ s)%Z →
  predict_weight n s = Some w ↔
    w = (4 * predicted_base_size n s)%Z ∧ (w ≤ 400000)%Z ∧ (n + 2 < 2 ^ 32)%Z.
Proof.
  intros Hn Hs. unfold predict_weight, tx_base_size, vin_base_size, vout_size,
    predicted_base_size, u64_checked_mul.
  destruct predict_weight_constants as (-> & -> & ->).
  rewrite locktime_size_spec, witness_scale_factor_spec, max_standard_tx_weight_spec.
  assert (varint_size 1 = 1%Z) as -> by (by rewrite varint_size_spec).
  pose proof (varint_size_range (n + 2)). split.
  - intros Hw. unfold u32_checked_add in Hw.
    repeat match goal with
    | H : _ ≫= _ = Some _ |- _ => apply bind_Some in H as (?&?&?)
    | H : u32_checked _ = Some _ |- _ => apply u32_checked_Some in H as [<- ?]
    end.
    repeat case_match; simplify_eq. lia.
  - intros (-> & Hle & Hn2).
    repeat (rewrite u32_checked_add_ok by lia; cbn [mbind option_bind]).
    destruct (Z.ltb_spec ((4 + (1 + 41) + (varint_size (n + 2) + (43 + 19 + s)) + 4) * 4)
      (2 ^ 64)); [|lia]. cbn [mbind option_bind].
    destruct (Z.leb_spec ((4 + (1 + 41) + (varint_size (n + 2) + (43 + 19 + s)) + 4) * 4)
      400000); [|lia]. f_equal. lia.
Qed.

Lemma txouts_size_nonneg l : (0 ≤ txouts_size l)%Z.
Proof.
  unfold txouts_size. apply sumZ_nonneg, Forall_fmap, Forall_true. intros o.
  pose proof (varint_size_range (zlen (txo_script_pubkey o))). simpl. lia.
Qed.

Lemma txouts_size_cons o l :
  txouts_size (o :: l) =
    (8 + varint_size (zlen (txo_script_pubkey o)) + zlen (txo_script_pubkey o)
     + txouts_size l)%Z.
Proof. done. Qed.

Lemma txouts_size_app l k : txouts_size (l ++ k) = (txouts_size l + txouts_size k)%Z.
Proof. unfold txouts_size. by rewrite fmap_app, sumZ_app. Qed.

(** Weight of the transaction [WithdrawalBundle::new] assembles. *)
Lemma WithdrawalBundle_tx_weight `{!BtcTxLaws} height fee spend outs :
  tx_weight (WithdrawalBundle_tx height fee spend outs) =
    (4 * (4 + 1 + varint_size (zlen outs + 2) + 62 + txouts_size outs + 4) + 2)%Z.
Proof.
  rewrite tx_weight_no_inputs by done. unfold WithdrawalBundle_tx. cbn [btx_output].
  rewrite txouts_size_app, !txouts_size_cons. cbn [txo_script_pubkey].
  rewrite length_app. cbn [length].
  rewrite !op_return_script_length; unfold be_bytes8;
    rewrite ?length_reverse, ?length_vec_to_list; [|lia..].
  change (txouts_size []) with 0%Z.
  rewrite (varint_size_spec (Z.of_nat (2 + 8))), (varint_size_spec (Z.of_nat (2 + 32))).
  change (Z.of_nat (2 + 8)) with 10%Z. change (Z.of_nat (2 + 32)) with 34%Z.
  replace (Z.of_nat (2 + length outs)) with (zlen outs + 2)%Z by lia. simpl. lia.
Qed.

Lemma WithdrawalBundle_new_fits `{!BtcTxLaws} height fee spend outs w :
  predict_weight (zlen outs) (txouts_size outs) = Some w →
  WithdrawalBundle_new height fee spend outs
  = Ok (mk_WithdrawalBundle spend (WithdrawalBundle_tx height fee spend outs)).
Proof.
  intros (-> & Hle & _)%predict_weight_Some; [|lia|apply txouts_size_nonneg].
  unfold WithdrawalBundle_new. rewrite WithdrawalBundle_tx_weight, max_standard_tx_weight_spec.
  unfold predicted_base_size in *.
  by destruct (Z.ltb_spec 400000
    (4 * (4 + 1 + varint_size (zlen outs + 2) + 62 + txouts_size outs + 4) + 2)); [lia|].
Qed.
End sizes.

(** ** Properties *)
Section properties.
Context `{E : Externals}.


(** A predicted bundle is never refused: if [predict_weight] accepts the
    number and the total size of the outputs, [WithdrawalBundle::new] succeeds
    on them and keeps the UTXOs it was given. *)
Theorem predicted_bundle_fits `{!ConsensusSizes, !BtcTxLaws} (height : Z) (fee : Amount)
    (spend : gmap OutPoint Output) (outs : list TxOut) (w : Z)
    (Hw : predict_weight (zlen outs) (txouts_size outs) = Some w) :
  ∃ b, WithdrawalBundle_new height fee spend outs = Ok b
       ∧ spend_utxos b = spend ∧ drop 2 (btx_output (bundle_tx b)) = outs.
Proof.
  rewrite (WithdrawalBundle_new_fits _ _ _ _ _ Hw). by eexists.
Qed.

(** The order of a bundle's outputs does not depend on the iteration
    order of the hash map that aggregated them: sorting any two permutations of
    the aggregated withdrawals (one per main address) gives the same list. *)
Theorem aggregated_order_canonical `{!AddressOrder} (l k : list AggregatedWithdrawal)
    (Hperm : l ≡ₚ k) (Hnd : NoDup (agg_main_address <$> l)) :
  sort_aggregated l = sort_aggregated k.
Proof.
  apply agg_sorted_unique.
  - apply StronglySorted_merge_sort; apply _.
  - apply StronglySorted_merge_sort; apply _.
  - unfold sort_aggregated. by rewrite !merge_sort_Permutation.
  - unfold sort_aggregated. by rewrite merge_sort_Permutation.
Qed.
End properties.

Module WithdrawalBundleToy.
#[local] Existing Instance Toy.externals.

#[export] Instance address_order : AddressOrder.
Proof.
  assert (∀ a b, main_address_cmp a b = bytes_cmp a b) as Hb.
  { done. }
  constructor.
  - intros a b. rewrite Hb. split; [apply bytes_cmp_eq | intros ->; apply bytes_cmp_refl].
  - intros a b. rewrite !Hb. apply bytes_cmp_antisym.
  - intros a b c. rewrite !Hb. apply bytes_cmp_lt_trans.
Qed.

#[export] Instance btc_tx_laws : BtcTxLaws.
Proof.
  constructor.
  - intros [v lt inp out] _. unfold Toy.weight, txouts_size. simpl. unfold Toy.weight. simpl.
    assert (∀ l : list TxOut, foldr (λ o a, 8 + Toy.varint (zlen (txo_script_pubkey o))
      + zlen (txo_script_pubkey o) + a)%Z 0%Z l
      = sumZ ((λ o, 8 + Toy.varint (zlen (txo_script_pubkey o))
                    + zlen (txo_script_pubkey o))%Z <$> l)) as ->; [|done].
    intros l. induction l as [|o l IH]; [done|]. csimpl. by rewrite sumZ_cons, IH.
  - intros d _. simpl. done.
Qed.

Definition outs : list TxOut := [mk_TxOut 500 [x01; x02; x03]; mk_TxOut 20 [x09]].


Lemma predicted_bundle_fits_witness :
  ∃ b, WithdrawalBundle_new 7 11 ∅ outs = Ok b
       ∧ spend_utxos b = ∅ ∧ drop 2 (btx_output (bundle_tx b)) = outs.
Proof. apply (predicted_bundle_fits 7 11 ∅ outs 540). vm_compute. reflexivity. Defined.

Definition agg (a : byte) (v f : Z) : AggregatedWithdrawal :=
  mk_AggregatedWithdrawal ∅ [a] v f.

Lemma aggregated_order_canonical_witness :
  sort_aggregated [agg x01 1 3; agg x02 3 2; agg x03 2 1]
  = sort_aggregated [agg x03 2 1; agg x01 1 3; agg x02 3 2].
Proof.
  apply aggregated_order_canonical.
  - symmetry. exact (Permutation_cons_append [agg x01 1 3; agg x02 3 2] (agg x03 2 1)).
  - apply (bool_decide_unpack _). vm_compute. exact I.
Defined.
End WithdrawalBundleToy.
