(* ===== verification/RollBack.v ===== *)
(** Values with a rollback history ([src/lib/state/rollback.rs]).

    [RollBack] is a non-empty stack of height-stamped values, earliest first:
    the head and the tail of the [NonEmpty] of the source. *)
From S2P Require Import Prelude.

Record HeightStamped (T : Type) := mk_HeightStamped { value : T; stamp_height : Z }.
Arguments mk_HeightStamped {T} _ _.
Arguments value {T} _.
Arguments stamp_height {T} _.

#[export] Instance HeightStamped_eq_dec `{EqDecision T} : EqDecision (HeightStamped T).
Proof. solve_decision. Defined.

Record RollBack (T : Type) := mk_RollBack {
  rb_head : HeightStamped T;
  rb_tail : list (HeightStamped T)
}.
Arguments mk_RollBack {T} _ _.
Arguments rb_head {T} _.
Arguments rb_tail {T} _.

#[export] Instance RollBack_eq_dec `{EqDecision T} : EqDecision (RollBack T).
Proof. solve_decision. Defined.

Section rollback.
Context {T : Type}.
Implicit Types (r : RollBack T) (v : T) (h : Z).

Definition RollBack_new (v : T) (h : Z) : RollBack T :=
  mk_RollBack (mk_HeightStamped v h) [].

(** [NonEmpty::pop]: the last element of the tail; the head never leaves. *)
Definition vec_pop {A} (l : list A) : option (list A * A) :=
  match last l with Some a => Some (removelast l, a) | None => None end.

Definition pop (r : RollBack T) : option (RollBack T) * HeightStamped T :=
  match vec_pop (rb_tail r) with
  | Some (tail, v) => (Some (mk_RollBack (rb_head r) tail), v)
  | None => (None, rb_head r)
  end.

Definition latest (r : RollBack T) : HeightStamped T :=
  default (rb_head r) (last (rb_tail r)).
Definition earliest (r : RollBack T) : HeightStamped T := rb_head r.
Definition iter (r : RollBack T) : list (HeightStamped T) := rb_head r :: rb_tail r.

(** Returns the value back when it is older than the latest one. *)
Definition push (r : RollBack T) (v : T) (h : Z) : Res T (RollBack T) :=
  if (h <? stamp_height (latest r))%Z then Err v
  else Ok (mk_RollBack (rb_head r) (rb_tail r ++ [mk_HeightStamped v h])).

(** [push(..).expect(..)] *)
Definition push_expect {E} (r : RollBack T) (v : T) (h : Z) : Res E (RollBack T) :=
  match push r v h with Ok r => Ok r | _ => Panic end.

(** The stack as its specification: the list of stamps, earliest first, with
    heights in order. *)
Definition stamps_sorted (l : list (HeightStamped T)) : Prop :=
  StronglySorted (λ a b, stamp_height a ≤ stamp_height b)%Z l.

Lemma vec_pop_snoc {A} (l : list A) a : vec_pop (l ++ [a]) = Some (l, a).
Proof. unfold vec_pop. by rewrite last_snoc, removelast_last. Qed.

Lemma vec_pop_nil {A} : vec_pop (@nil A) = None.
Proof. done. Qed.

Lemma latest_iter r : last (iter r) = Some (latest r).
Proof.
  destruct r as [a l]. unfold iter, latest. simpl.
  destruct l as [|b l] using rev_ind; [done|].
  by rewrite app_comm_cons, !last_snoc.
Qed.

Lemma push_Ok r v h r' :
  push r v h = Ok r' ↔
    (stamp_height (latest r) ≤ h)%Z ∧
    r' = mk_RollBack (rb_head r) (rb_tail r ++ [mk_HeightStamped v h]).
Proof.
  unfold push. destruct (Z.ltb_spec h (stamp_height (latest r))).
  - split; [done | lia].
  - split; [by intros [= <-] | by intros [_ ->]].
Qed.

Lemma push_expect_Ok {E} r v h r' : push_expect (E:=E) r v h = Ok r' ↔ push r v h = Ok r'.
Proof. unfold push_expect. destruct (push r v h); naive_solver. Qed.

Lemma pop_push r v h r' :
  push r v h = Ok r' → pop r' = (Some r, mk_HeightStamped v h).
Proof.
  intros [_ ->]%push_Ok. unfold pop. cbn [rb_tail rb_head].
  rewrite vec_pop_snoc. by destruct r.
Qed.

Lemma latest_push r v h r' : push r v h = Ok r' → latest r' = mk_HeightStamped v h.
Proof. intros [_ ->]%push_Ok. unfold latest. cbn [rb_tail]. by rewrite last_snoc. Qed.

Lemma latest_new v h : latest (RollBack_new v h) = mk_HeightStamped v h.
Proof. done. Qed.

Lemma pop_new v h : pop (RollBack_new v h) = (None, mk_HeightStamped v h).
Proof. done. Qed.

Lemma iter_push r v h r' : push r v h = Ok r' → iter r' = iter r ++ [mk_HeightStamped v h].
Proof. by intros [_ ->]%push_Ok. Qed.

Lemma push_sorted r v h r' :
  stamps_sorted (iter r) → push r v h = Ok r' → stamps_sorted (iter r').
Proof.
  intros Hs Hp. rewrite (iter_push _ _ _ _ Hp). apply push_Ok in Hp as [Hle _].
  pose proof (latest_iter r) as Hl. revert Hs Hl. generalize (iter r) as l.
  induction l as [|a l IH]; intros Hs Hl; [done|].
  apply StronglySorted_inv in Hs as [Hs Ha]. simpl. constructor.
  - destruct l as [|b l]; [by repeat constructor|]. by apply IH.
  - apply Forall_app. split; [done|]. constructor; [|done]. simpl.
    destruct l as [|b l]; [simpl in Hl; simplify_eq; done|].
    rewrite Forall_forall in Ha. etrans; [apply (Ha (latest r))|done].
    apply last_Some_elem_of. done.
Qed.
End rollback.

(** ** Properties *)

(** A [RollBack] is a stack with monotone heights: a successful [push]
    makes its value the latest one, [pop] then returns exactly that value and
    the previous history, the heights stay sorted, and a push below the latest
    height is refused and hands the value back unchanged. *)
Theorem rollback_push_pop {T} (r : RollBack T) (v : T) (h : Z) :
  match push r v h with
  | Ok r' =>
      pop r' = (Some r, mk_HeightStamped v h)
      ∧ latest r' = mk_HeightStamped v h
      ∧ earliest r' = earliest r
      ∧ iter r' = iter r ++ [mk_HeightStamped v h]
      ∧ (stamps_sorted (iter r) → stamps_sorted (iter r'))
  | Err v' => v' = v ∧ (h < stamp_height (latest r))%Z
  | Panic => False
  end.
Proof.
  destruct (push r v h) as [r'|v'|] eqn:Hp.
  - split_and!; eauto using pop_push, latest_push, iter_push, push_sorted.
    by apply push_Ok in Hp as [_ ->].
  - unfold push in Hp. destruct (Z.ltb_spec h (stamp_height (latest r))); naive_solver.
  - unfold push in Hp. by destruct (Z.ltb_spec h (stamp_height (latest r))).
Qed.
