(* ===== verification/Lineage.v ===== *)
(** Block lineages.

    The archive stores two trees of blocks, the sidechain and the mainchain,
    with the same three tables each: heights, parents, and ancestors at
    exponentially growing depths.  [Lineage] is the interface between the
    tables and the searches over them: jumping to the n-th ancestor, building
    the table of a new block, descent, and the last common ancestor.  The laws
    [LineageLaws] say what the tables promise; [ArchiveFacts.v] shows that the
    archive keeps the promise for both trees. *)
From S2P Require Import Prelude.

(** ** Tables and searches *)
Class Lineage (Er B : Type) := {
  lin_height : B → Res Er Z;
  lin_parent : B → Res Er B;
  lin_exp : B → Res Er (list B);
  lin_no_ancestor : B → Z → Er
}.

Section searches.
Context {Er B : Type} `{!EqDecision B} (L : Lineage Er B).

(** The loop clears the top bit of the depth [n], a [u32], each time round:
    33 rounds are enough. *)
Fixpoint nth_ancestor_loop (fuel : nat) (orig : B) (orig_n : Z) (b : B) (n : Z) : Res Er B :=
  match fuel with
  | O => Panic
  | S fuel =>
      if (n <=? 0)%Z then Ok b
      else
        height ← lin_height b;
        if (height <? n)%Z then Err (lin_no_ancestor orig orig_n)
        else if (n =? 1)%Z then lin_parent b
        else
          let exp_ancestor_index := (Z.log2 n - 1)%Z in
          l ← lin_exp b;
          b ← expect (l !! Z.to_nat exp_ancestor_index);
          nth_ancestor_loop fuel orig orig_n b (n - Z.shiftl 2 exp_ancestor_index)
  end.

Definition nth_ancestor (b : B) (n : Z) : Res Er B := nth_ancestor_loop 33 b n b n.

(** The table of a new block.  The depth is a [u64] that doubles each time
    round, up to the height, a [u32]: 32 rounds are enough. *)
Fixpoint exp_ancestors_loop (fuel : nat) (height : Z) (l : list B) (depth : Z) :
    Res Er (list B) :=
  match fuel with
  | O => Panic
  | S fuel =>
      if (depth <=? height)%Z then
        b ← expect (last l);
        a ← nth_ancestor b (wrap32 depth / 2);
        exp_ancestors_loop fuel height (l ++ [a]) (depth * 2)
      else Ok l
  end.

Definition exp_ancestors (height : Z) (parent : Res Er B) : Res Er (list B) :=
  if (2 <=? height)%Z then
    p ← parent;
    grandparent ← nth_ancestor p 1;
    exp_ancestors_loop 32 height [grandparent] 4
  else Ok [].

Definition descends (ancestor descendant : B) : Res Er bool :=
  if bool_decide (ancestor = descendant) then Ok true
  else
    ancestor_height ← lin_height ancestor;
    descendant_height ← lin_height descendant;
    if (descendant_height <? ancestor_height)%Z then Ok false
    else
      a ← nth_ancestor descendant (descendant_height - ancestor_height);
      Ok (bool_decide (ancestor = a)).

(** Move the higher block down to the height of the lower one. *)
Definition equalize (b0 b1 : B) (height0 height1 : Z) : Res Er (B * B * Z) :=
  match (height0 ?= height1)%Z with
  | Eq => Ok (b0, b1, height0)
  | Lt => b1 ← nth_ancestor b1 (height1 - height0); Ok (b0, b1, height0)
  | Gt => b0 ← nth_ancestor b0 (height0 - height1); Ok (b0, b1, height1)
  end.

(** Binary search for the least depth at which the ancestors agree; the
    depths are [u32]s, so 33 rounds are enough. *)
Fixpoint bisect_loop (fuel : nat) (b0 b1 : B) (lo_depth hi_depth : Z) : Res Er B :=
  match fuel with
  | O => Panic
  | S fuel =>
      if (lo_depth <? hi_depth)%Z then
        let mid_depth := (wrap32 (lo_depth + hi_depth) / 2)%Z in
        mid_ancestor0 ← nth_ancestor b0 mid_depth;
        mid_ancestor1 ← nth_ancestor b1 mid_depth;
        if bool_decide (mid_ancestor0 = mid_ancestor1)
        then bisect_loop fuel b0 b1 lo_depth mid_depth
        else bisect_loop fuel b0 b1 (mid_depth + 1) hi_depth
      else nth_ancestor b0 hi_depth
  end.
Definition bisect (b0 b1 : B) (height : Z) : Res Er B := bisect_loop 33 b0 b1 1 height.

(** ** Specification *)

(** The n-th ancestor, one parent at a time. *)
Fixpoint up (n : nat) (b : B) : Res Er B :=
  match n with O => Ok b | S n => p ← lin_parent b; up n p end.

Definition ancestor_of (c b : B) : Prop := ∃ n, up n b = Ok c.

(** A table with the ancestors at depths 2, 4, 8, ... up to the height. *)
Definition exp_table (b : B) (h : Z) (l : list B) : Prop :=
  ∀ i : nat, (2 ^ (Z.of_nat i + 1) ≤ h)%Z →
    ∃ c, l !! i = Some c ∧ up (2 ^ (i + 1)) b = Ok c.

Definition lineage_node (K : B → Prop) (b : B) (h : Z) : Prop :=
  lin_height b = Ok h ∧ (0 ≤ h < 2 ^ 32)%Z
  ∧ (h = 0%Z → is_ok (lin_parent b) = false)
  ∧ ((0 < h)%Z → ∃ p l, lin_parent b = Ok p ∧ K p ∧ lin_height p = Ok (h - 1)%Z
       ∧ lin_exp b = Ok l ∧ exp_table b h l).

(** The tables are right for all blocks that satisfy [K]. *)
Class LineageLaws (K : B → Prop) : Prop :=
  lineage_known b : K b → ∃ h, lineage_node K b h.
End searches.

Arguments up {Er B} L n b.
Arguments lineage_known {Er B} L {K _} b.

(** ** Correctness of the searches *)
Section correct.
Context {Er B : Type} `{!EqDecision B} (L : Lineage Er B).

Lemma up_add n m b : up L (n + m) b = (c ← up L n b; up L m c).
Proof.
  revert b. induction n as [|n IH]; intros b; [done|]. simpl.
  destruct (lin_parent b); [|done..]. apply IH.
Qed.

Lemma up_add_Ok n m b c : up L n b = Ok c → up L (n + m) b = up L m c.
Proof. intros Hn. by rewrite up_add, Hn. Qed.

Context (K : B → Prop) `{Laws : !LineageLaws L K}.

Lemma known_node b h : K b → lin_height b = Ok h → lineage_node L K b h.
Proof.
  intros Hb Hh. destruct (lineage_known L b Hb) as (h' & Hn).
  assert (h' = h) as -> by (destruct Hn; congruence). done.
Qed.

Lemma up_known n b h :
  K b → lin_height b = Ok h → (Z.of_nat n ≤ h)%Z →
  ∃ c, up L n b = Ok c ∧ K c ∧ lin_height c = Ok (h - Z.of_nat n)%Z.
Proof.
  revert b h. induction n as [|n IH]; intros b h Hb Hh Hn.
  { exists b. rewrite Z.sub_0_r. done. }
  destruct (known_node b h Hb Hh) as (_ & _ & _ & Hp).
  destruct Hp as (p & l & Hp & Kp & Hph & _); [lia|].
  destruct (IH p (h - 1)%Z Kp Hph) as (c & Hc & Kc & Hch); [lia|].
  exists c. simpl. rewrite Hp. split_and!; [done|done|]. rewrite Hch. f_equal. lia.
Qed.

(** Ancestors have different heights: a list of all blocks above height 0
    is at least as long as the greatest height. *)
Lemma height_le_blocks b h (D : list B) :
  K b → lin_height b = Ok h →
  (∀ c k, K c → lin_height c = Ok k → (0 < k)%Z → c ∈ D) → (h ≤ Z.of_nat (length D))%Z.
Proof.
  intros Hb Hh HD. destruct (known_node b h Hb Hh) as (_ & Hr & _).
  pose (anc n := match up L n b with Ok c => c | _ => b end).
  assert (∀ n, (Z.of_nat n ≤ h)%Z → K (anc n) ∧ lin_height (anc n) = Ok (h - Z.of_nat n)%Z) as Hanc.
  { intros n Hn. destruct (up_known n b h Hb Hh Hn) as (c & Hc & Kc & Hch).
    unfold anc. by rewrite Hc. }
  assert (NoDup (anc <$> seq 0 (Z.to_nat h))) as Hnd.
  { apply NoDup_fmap_2_strong; [|apply NoDup_seq]. intros x y Hx%elem_of_seq Hy%elem_of_seq Hxy.
    destruct (Hanc x) as [_ Hhx]; [lia|]. destruct (Hanc y) as [_ Hhy]; [lia|].
    rewrite Hxy, Hhy in Hhx. injection Hhx as ?. lia. }
  assert (anc <$> seq 0 (Z.to_nat h) ⊆ D) as Hsub.
  { intros c (n & -> & Hn%elem_of_seq)%list_elem_of_fmap.
    destruct (Hanc n) as [Kn Hhn]; [lia|]. by apply (HD _ _ Kn Hhn); lia. }
  apply (NoDup_submseteq _ _ Hnd) in Hsub. apply submseteq_length in Hsub.
  rewrite length_fmap, length_seq in Hsub. lia.
Qed.

Lemma up_depth n b h c :
  K b → lin_height b = Ok h → up L n b = Ok c →
  (Z.of_nat n ≤ h)%Z ∧ K c ∧ lin_height c = Ok (h - Z.of_nat n)%Z.
Proof.
  intros Hb Hh Hc. destruct (decide (Z.of_nat n ≤ h)%Z) as [Hn|Hn].
  { destruct (up_known n b h Hb Hh Hn) as (c' & Hc' & ?). rewrite Hc in Hc'. by simplify_eq. }
  exfalso. destruct (known_node b h Hb Hh) as (_ & Hr & _).
  destruct (up_known (Z.to_nat h) b h Hb Hh) as (g & Hg & Kg & Hgh); [lia|].
  destruct (known_node g _ Kg Hgh) as (_ & _ & Hroot & _).
  replace n with (Z.to_nat h + S (n - Z.to_nat h - 1)) in Hc by lia.
  rewrite (up_add_Ok _ _ _ _ Hg) in Hc. simpl in Hc.
  destruct (lin_parent g) eqn:Hpg; [|done..]. by discriminate Hroot; lia.
Qed.

(** Each jump of the loop goes where single steps would. *)
Lemma nth_ancestor_loop_ok k fuel orig orig_n b n h :
  K b → lin_height b = Ok h → (0 ≤ n < 2 ^ Z.of_nat k)%Z → (n ≤ h)%Z → k < fuel →
  nth_ancestor_loop L fuel orig orig_n b n = up L (Z.to_nat n) b.
Proof.
  revert fuel b n h. induction k as [k IH] using lt_wf_ind.
  intros [|fuel] b n h Hb Hh Hn Hnh Hf; [lia|]. cbn [nth_ancestor_loop].
  destruct (Z.leb_spec n 0) as [|Hpos]; [by replace n with 0%Z by lia|].
  rewrite Hh. cbn [mbind res_bind]. destruct (Z.ltb_spec h n); [lia|].
  destruct (known_node b h Hb Hh) as (_ & _ & _ & Hp).
  destruct Hp as (p & l & Hp & Kp & Hph & Hl & Hexp); [lia|].
  destruct (Z.eqb_spec n 1) as [->|Hn1]; [by rewrite Hp; simpl; rewrite Hp|].
  rewrite Hl. cbn [mbind res_bind].
  assert (1 ≤ Z.log2 n)%Z as Hlog by (apply Z.log2_le_pow2; lia).
  destruct (Z.log2_spec n Hpos) as [Hlo Hhi].
  assert (Z.log2 n < Z.of_nat k)%Z as Hlk by (apply Z.log2_lt_pow2; lia).
  set (j := Z.log2 n) in *.
  destruct (Hexp (Z.to_nat (j - 1))) as (c & Hc & Hup).
  { rewrite Z2Nat.id by lia. replace (j - 1 + 1)%Z with j by lia. lia. }
  rewrite Hc. cbn [expect mbind res_bind].
  assert (Z.shiftl 2 (j - 1) = 2 ^ j)%Z as ->.
  { rewrite Z.shiftl_mul_pow2 by lia. rewrite <- Z.pow_succ_r by lia. f_equal. lia. }
  replace (Z.to_nat (j - 1) + 1) with (Z.to_nat j) in Hup by lia.
  assert (Z.of_nat (2 ^ Z.to_nat j) = 2 ^ j)%Z as Hpow.
  { rewrite Nat2Z.inj_pow, Z2Nat.id by lia. done. }
  destruct (up_depth _ b h c Hb Hh Hup) as (_ & Kc & Hch). rewrite Hpow in Hch.
  rewrite Z.pow_succ_r in Hhi by lia.
  rewrite (IH (Z.to_nat j) ltac:(lia) fuel c (n - 2 ^ j)%Z _ Kc Hch)
    by (rewrite ?Z2Nat.id by lia; lia).
  replace (Z.to_nat n) with (2 ^ Z.to_nat j + Z.to_nat (n - 2 ^ j)) by lia.
  by rewrite (up_add_Ok _ _ _ _ Hup).
Qed.

Lemma nth_ancestor_up b n h :
  K b → lin_height b = Ok h → (0 ≤ n ≤ h)%Z → nth_ancestor L b n = up L (Z.to_nat n) b.
Proof.
  intros Hb Hh Hn. destruct (known_node b h Hb Hh) as (_ & Hr & _).
  unfold nth_ancestor. assert (0 ≤ n < 2 ^ Z.of_nat 32)%Z as Hn32.
  { change (Z.of_nat 32) with 32%Z. lia. }
  eapply nth_ancestor_loop_ok; [exact Hb|exact Hh|exact Hn32|lia|lia].
Qed.

Lemma nth_ancestor_Ok b n h :
  K b → lin_height b = Ok h → (0 ≤ n ≤ h)%Z →
  ∃ c, nth_ancestor L b n = Ok c ∧ up L (Z.to_nat n) b = Ok c ∧ K c
    ∧ lin_height c = Ok (h - n)%Z.
Proof.
  intros Hb Hh Hn. rewrite (nth_ancestor_up b n h) by done.
  destruct (up_known (Z.to_nat n) b h Hb Hh) as (c & Hc & Kc & Hch); [lia|].
  exists c. rewrite Hch. split_and!; [done..|]. f_equal. lia.
Qed.

Lemma nth_ancestor_too_deep b n h :
  lin_height b = Ok h → (0 ≤ h < n)%Z → nth_ancestor L b n = Err (lin_no_ancestor b n).
Proof.
  intros Hh Hn. unfold nth_ancestor. generalize 32 as fuel. intros fuel.
  cbn [nth_ancestor_loop].
  destruct (Z.leb_spec n 0); [lia|]. rewrite Hh. cbn [mbind res_bind].
  by destruct (Z.ltb_spec h n); [|lia].
Qed.
End correct.

(** ** The table of a new block *)
#[local] Opaque nth_ancestor.

Section table.
Context {Er B : Type} `{!EqDecision B} (L : Lineage Er B).
Context (K : B → Prop) `{Laws : !LineageLaws L K}.

(** The entries of a table, seen from the parent. *)
Definition parent_table (p : B) (h : Z) (l : list B) : Prop :=
  ∀ i : nat, (2 ^ (Z.of_nat i + 1) ≤ h)%Z →
    ∃ c, l !! i = Some c ∧ up L (2 ^ (i + 1) - 1) p = Ok c.

Lemma pow2_pos n : 1 ≤ 2 ^ n.
Proof. induction n; simpl; lia. Qed.
Lemma pow2_Z n : Z.of_nat (2 ^ n) = (2 ^ Z.of_nat n)%Z.
Proof. by rewrite Nat2Z.inj_pow. Qed.

Lemma depth_double k : (2 ^ (Z.of_nat k + 2) = 2 * Z.of_nat (2 ^ (k + 1)))%Z.
Proof.
  rewrite pow2_Z. replace (Z.of_nat k + 2)%Z with (Z.succ (Z.of_nat (k + 1))) by lia.
  by rewrite Z.pow_succ_r by lia.
Qed.

Lemma half_depth k : (2 ^ (Z.of_nat k + 2) < 2 ^ 32)%Z →
  (wrap32 (2 ^ (Z.of_nat k + 2)) / 2 = Z.of_nat (2 ^ (k + 1)))%Z.
Proof.
  intros Hk. unfold wrap32. rewrite Z.mod_small; [|split; [by apply Z.pow_nonneg|done]].
  by rewrite depth_double, Z.mul_comm, Z.div_mul by lia.
Qed.

Lemma up_double k p c a :
  up L (2 ^ (k + 1) - 1) p = Ok c → up L (2 ^ (k + 1)) c = Ok a →
  up L (2 ^ (k + 1 + 1) - 1) p = Ok a.
Proof.
  intros Hc Ha. pose proof (pow2_pos (k + 1)).
  replace (2 ^ (k + 1 + 1) - 1) with ((2 ^ (k + 1) - 1) + 2 ^ (k + 1)).
  - by rewrite (up_add_Ok _ _ _ _ _ Hc).
  - replace (k + 1 + 1) with (S (k + 1)) by lia. simpl. lia.
Qed.

Definition table_upto (p : B) (k : nat) (l : list B) : Prop :=
  length l = k + 1 ∧
  ∀ i, i ≤ k → ∃ c, l !! i = Some c ∧ up L (2 ^ (i + 1) - 1) p = Ok c.

Lemma table_upto_snoc p k l a :
  table_upto p k l → up L (2 ^ (k + 1 + 1) - 1) p = Ok a → table_upto p (k + 1) (l ++ [a]).
Proof.
  intros [Hlen Hl] Ha. split; [rewrite length_app; simpl; lia|]. intros i Hi.
  destruct (decide (i ≤ k)) as [Hik|].
  - destruct (Hl i Hik) as (c & Hc & ?). exists c. split; [|done]. by apply lookup_app_l_Some.
  - replace i with (k + 1) by lia. exists a. split; [|done].
    by rewrite lookup_app_r, Hlen, Nat.sub_diag by lia.
Qed.

Lemma table_upto_done p h k l :
  table_upto p k l → (h < 2 ^ (Z.of_nat k + 2))%Z → parent_table p h l.
Proof.
  intros [_ Hl] Hgt i Hi. apply Hl. destruct (decide (i ≤ k)); [done|]. exfalso.
  assert (2 ^ (Z.of_nat k + 2) ≤ 2 ^ (Z.of_nat i + 1))%Z by (apply Z.pow_le_mono_r; lia). lia.
Qed.

Lemma exp_ancestors_loop_ok p h k fuel l :
  K p → lin_height p = Ok (h - 1)%Z → (h < 2 ^ 32)%Z → (h < 2 ^ Z.of_nat (k + 1 + fuel))%Z →
  (2 ^ (Z.of_nat k + 1) ≤ h)%Z → table_upto p k l →
  ∃ l', exp_ancestors_loop L fuel h l (2 ^ (Z.of_nat k + 2)) = Ok l' ∧ parent_table p h l'.
Proof.
  intros Kp Hp Hh32. revert k l. induction fuel as [|fuel IH]; intros k l Hfuel Hkh Hl.
  { rewrite Nat.add_0_r in Hfuel. replace (Z.of_nat (k + 1)) with (Z.of_nat k + 1)%Z in Hfuel; lia. }
  cbn [exp_ancestors_loop]. destruct (Z.leb_spec (2 ^ (Z.of_nat k + 2)) h) as [Hle|Hgt].
  2: { exists l. split; [done|]. by eapply table_upto_done. }
  destruct (proj2 Hl k) as (c & Hc & Hup); [lia|].
  rewrite last_lookup, (proj1 Hl), Nat.add_1_r. cbn [pred]. rewrite Hc.
  rewrite expect_bind, half_depth by lia.
  destruct (up_depth L K _ p _ c Kp Hp Hup) as (_ & Kc & Hch).
  pose proof (pow2_pos (k + 1)). pose proof (depth_double k).
  destruct (nth_ancestor_Ok L K c (Z.of_nat (2 ^ (k + 1))) _ Kc Hch) as (a & -> & Hupa & _); [lia|].
  rewrite ok_bind, Nat2Z.id in *.
  replace (2 ^ (Z.of_nat k + 2) * 2)%Z with (2 ^ (Z.of_nat (k + 1) + 2))%Z.
  2: { replace (Z.of_nat (k + 1) + 2)%Z with (Z.succ (Z.of_nat k + 2)) by lia.
       rewrite Z.pow_succ_r by lia. lia. }
  apply IH.
  - by replace (k + 1 + 1 + fuel) with (k + 1 + S fuel) by lia.
  - by replace (Z.of_nat (k + 1) + 1)%Z with (Z.of_nat k + 2)%Z by lia.
  - apply table_upto_snoc; [done|]. by eapply up_double.
Qed.

Lemma exp_ancestors_ok p h :
  K p → lin_height p = Ok (h - 1)%Z → (0 < h < 2 ^ 32)%Z →
  ∃ l, exp_ancestors L h (Ok p) = Ok l ∧ parent_table p h l.
Proof.
  intros Kp Hp Hh. unfold exp_ancestors. destruct (Z.leb_spec 2 h) as [H2|H2].
  - destruct (nth_ancestor_Ok L K p 1 _ Kp Hp) as (g & Hg & Hup & _); [lia|].
    rewrite ok_bind, Hg, ok_bind.
    replace 4%Z with (2 ^ (Z.of_nat 0 + 2))%Z by done.
    apply exp_ancestors_loop_ok; try done; [lia| |].
    + change (Z.of_nat (0 + 1 + 32)) with 33%Z. lia.
    + split; [done|]. intros i Hi. replace i with 0 by lia. by exists g.
  - exists []. split; [done|]. intros i Hi. exfalso.
    assert (2 ^ 1 ≤ 2 ^ (Z.of_nat i + 1))%Z by (apply Z.pow_le_mono_r; lia). lia.
Qed.
End table.

(** ** Extending a lineage by a block *)
Section extend.
Context {Er B : Type} `{!EqDecision B} (L L' : Lineage Er B) (K : B → Prop).

(** [L'] has the tables of [L] at the known blocks. *)
Definition same_height_parent : Prop :=
  ∀ c, K c → lin_height (Lineage:=L') c = lin_height (Lineage:=L) c
    ∧ lin_parent (Lineage:=L') c = lin_parent (Lineage:=L) c.
Definition same_table (c : B) : Prop := lin_exp (Lineage:=L') c = lin_exp (Lineage:=L) c.

Lemma up_agree `{!LineageLaws L K} n c :
  same_height_parent → K c → up L' n c = up L n c.
Proof.
  intros Hsame. revert c. induction n as [|n IH]; intros c Kc; [done|]. simpl.
  destruct (Hsame c Kc) as [_ ->].
  destruct (lineage_known L c Kc) as (h & Hh & Hr & Hroot & Hp).
  destruct (decide (h = 0%Z)) as [H0|H0].
  - apply Hroot in H0. by destruct (lin_parent c).
  - destruct Hp as (p & l & -> & Kp & _); [lia|]. cbn [mbind res_bind]. by apply IH.
Qed.

Lemma node_agree `{!LineageLaws L K} c h :
  same_height_parent → same_table c → K c → lineage_node L K c h → lineage_node L' K c h.
Proof.
  intros Hsame Ht Kc (Hh & Hr & Hroot & Hp). destruct (Hsame c Kc) as [Eh Ep].
  split_and!; [by rewrite Eh|lia..|by rewrite Ep|]. intros Hpos.
  destruct (Hp Hpos) as (p & l & Hp' & Kp & Hph & Hl & Htab). exists p, l.
  rewrite Ep, (proj1 (Hsame p Kp)), Ht. split_and!; [done..|].
  intros i Hi. destruct (Htab i Hi) as (a & Ha & Hup). exists a.
  by rewrite up_agree.
Qed.

Lemma lineage_agree `{!LineageLaws L K} :
  same_height_parent → (∀ c, K c → same_table c) → LineageLaws L' K.
Proof.
  intros Hsame Ht c Kc. destruct (lineage_known L c Kc) as (h & Hn).
  exists h. by apply node_agree; auto.
Qed.

Lemma node_weaken (K' : B → Prop) c h :
  (∀ b, K b → K' b) → lineage_node L' K c h → lineage_node L' K' c h.
Proof.
  intros Hsub (Hh & Hr & Hroot & Hp). split_and!; [done|lia..|done|]. intros Hpos.
  destruct (Hp Hpos) as (p & l & ? & ? & ? & ? & ?). eexists _, _. eauto 10.
Qed.

(** A new block on a known parent, or a new root. *)
Lemma lineage_extend `{!LineageLaws L K} b h :
  same_height_parent → (∀ c, K c → c ≠ b → same_table c) →
  lin_height (Lineage:=L') b = Ok h → (0 ≤ h < 2 ^ 32)%Z →
  (h = 0%Z → is_ok (lin_parent (Lineage:=L') b) = false) →
  ((0 < h)%Z → ∃ p l, lin_parent (Lineage:=L') b = Ok p ∧ K p
     ∧ lin_height (Lineage:=L) p = Ok (h - 1)%Z
     ∧ lin_exp (Lineage:=L') b = Ok l ∧ parent_table L p h l) →
  LineageLaws L' (λ c, c = b ∨ K c).
Proof.
  intros Hsame Ht Hbh Hr Hroot Hnew c Hc.
  destruct (decide (c = b)) as [->|Hne].
  - exists h. split_and!; [done|lia..|done|]. intros Hpos.
    destruct (Hnew Hpos) as (p & l & Hp & Kp & Hph & Hl & Htab). exists p, l.
    split_and!; [done|by right|by rewrite (proj1 (Hsame p Kp))|done|].
    intros i Hi. destruct (Htab i Hi) as (a & Ha & Hup). exists a. split; [done|].
    pose proof (pow2_pos (i + 1)).
    replace (2 ^ (i + 1)) with (S (2 ^ (i + 1) - 1)) by lia. simpl.
    rewrite Hp. cbn [mbind res_bind]. by rewrite up_agree.
  - destruct Hc as [|Kc]; [done|]. destruct (lineage_known L c Kc) as (hc & Hn).
    exists hc. apply node_weaken; [by right|]. apply node_agree; auto.
Qed.
End extend.

(** ** Descent and common ancestors *)
Section common.
Context {Er B : Type} `{!EqDecision B} (L : Lineage Er B).
Context (K : B → Prop) `{Laws : !LineageLaws L K}.

Lemma descends_Ok a d :
  K a → K d → ∃ r, descends L a d = Ok r ∧ (r = true ↔ ancestor_of L a d).
Proof.
  intros Ka Kd. unfold descends. case_bool_decide as Had.
  { subst. exists true. split; [done|]. split; [|done]. intros _. by exists 0. }
  destruct (lineage_known L a Ka) as (ha & Hha & Hra & _).
  destruct (lineage_known L d Kd) as (hd & Hhd & Hrd & _).
  rewrite Hha, Hhd, !ok_bind. destruct (Z.ltb_spec hd ha) as [Hlt|Hge].
  - exists false. split; [done|]. split; [done|]. intros (n & Hn).
    destruct (up_depth L K n d hd a Kd Hhd Hn) as (_ & _ & Hah). rewrite Hha in Hah.
    injection Hah as ->. lia.
  - destruct (nth_ancestor_Ok L K d (hd - ha) hd Kd Hhd) as (c & Hc & Hup & Kc & Hch); [lia|].
    rewrite Hc, ok_bind. eexists. split; [done|].
    rewrite bool_decide_eq_true. split.
    + intros ->. by eexists.
    + intros (n & Hn). destruct (up_depth L K n d hd a Kd Hhd Hn) as (Hnh & _ & Hah).
      rewrite Hha in Hah. injection Hah as Hah.
      replace (Z.to_nat (hd - ha)) with n in Hup by lia. rewrite Hn in Hup. by injection Hup.
Qed.

(** Two blocks at the same height whose ancestors at some depth agree, agree
    from there on. *)
Lemma up_agree_below b0 b1 n m c :
  up L n b0 = Ok c → up L n b1 = Ok c → up L (n + m) b0 = up L (n + m) b1.
Proof. intros H0' H1'. by rewrite (up_add_Ok _ _ _ _ _ H0'), (up_add_Ok _ _ _ _ _ H1'). Qed.

Definition least_agreement (b0 b1 : B) (d : nat) (c : B) : Prop :=
  up L d b0 = Ok c ∧ up L d b1 = Ok c ∧ ∀ i, i < d → up L i b0 ≠ up L i b1.

Lemma bisect_loop_ok fuel b0 b1 H lo hi :
  K b0 → K b1 → lin_height b0 = Ok H → lin_height b1 = Ok H → (H < 2 ^ 31)%Z →
  (1 ≤ lo ≤ hi)%Z → (hi ≤ H)%Z → (hi - lo < 2 ^ (Z.of_nat fuel - 1))%Z → 0 < fuel →
  up L (Z.to_nat hi) b0 = up L (Z.to_nat hi) b1 →
  (∀ i, (Z.of_nat i < lo)%Z → up L i b0 ≠ up L i b1) →
  ∃ d c, bisect_loop L fuel b0 b1 lo hi = Ok c ∧ least_agreement b0 b1 d c.
Proof.
  intros K0 K1 Hh0 Hh1 HH. revert lo hi. induction fuel as [|fuel IH]; [lia|].
  intros lo hi Hlo Hhi Hgap _ Hagree Hdis. cbn [bisect_loop].
  destruct (Z.ltb_spec lo hi) as [Hlt|Hge].
  - set (mid := (wrap32 (lo + hi) / 2)%Z).
    assert (mid = (lo + hi) / 2)%Z as Hmid by (unfold mid, wrap32; rewrite Z.mod_small by lia; done).
    pose proof (Z.div_mod (lo + hi) 2 ltac:(lia)) as Hdiv.
    pose proof (Z.mod_pos_bound (lo + hi) 2 ltac:(lia)) as Hmod.
    assert (0 < fuel) as Hf.
    { destruct fuel; [|lia]. change (Z.of_nat 1 - 1)%Z with 0%Z in Hgap. lia. }
    assert (2 ^ (Z.of_nat (S fuel) - 1) = 2 * 2 ^ (Z.of_nat fuel - 1))%Z as Hpow.
    { rewrite <- Z.pow_succ_r by lia. f_equal. lia. }
    destruct (nth_ancestor_Ok L K b0 mid H K0 Hh0) as (c0 & Hc0 & Hu0 & _); [lia|].
    destruct (nth_ancestor_Ok L K b1 mid H K1 Hh1) as (c1 & Hc1 & Hu1 & _); [lia|].
    rewrite Hc0, ok_bind, Hc1, ok_bind. case_bool_decide as Heq.
    + apply IH; [lia..|congruence|done].
    + apply IH; [lia..|done|]. intros i Hi.
      destruct (decide (Z.of_nat i < lo)%Z); [by apply Hdis|]. intros Hup. apply Heq.
      destruct (up_known L K i b0 H K0 Hh0) as (ci & Hci & _); [lia|].
      pose proof (up_agree_below b0 b1 i (Z.to_nat mid - i) ci Hci
        ltac:(by rewrite <- Hup)) as Hb.
      replace (i + (Z.to_nat mid - i)) with (Z.to_nat mid) in Hb by lia. congruence.
  - replace lo with hi in * by lia.
    destruct (nth_ancestor_Ok L K b0 hi H K0 Hh0) as (c & Hc & Hu & _); [lia|].
    exists (Z.to_nat hi), c. split; [done|]. split_and!; [done|congruence|].
    intros i Hi. apply Hdis. lia.
Qed.

Lemma equalize_ok b0 b1 h0 h1 :
  K b0 → K b1 → lin_height b0 = Ok h0 → lin_height b1 = Ok h1 →
  ∃ c0 c1 n0 n1, equalize L b0 b1 h0 h1 = Ok (c0, c1, Z.min h0 h1)
    ∧ up L n0 b0 = Ok c0 ∧ up L n1 b1 = Ok c1 ∧ K c0 ∧ K c1
    ∧ lin_height c0 = Ok (Z.min h0 h1) ∧ lin_height c1 = Ok (Z.min h0 h1).
Proof.
  intros K0 K1 Hh0 Hh1. unfold equalize.
  destruct (known_node L K b0 h0 K0 Hh0) as (_ & Hr0 & _).
  destruct (known_node L K b1 h1 K1 Hh1) as (_ & Hr1 & _).
  destruct (Z.compare_spec h0 h1) as [->|Hlt|Hgt].
  - rewrite Z.min_id. by exists b0, b1, 0, 0.
  - destruct (nth_ancestor_Ok L K b1 (h1 - h0) h1 K1 Hh1) as (c & Hc & Hu & Kc & Hch); [lia|].
    rewrite Hc, ok_bind. rewrite Z.min_l by lia.
    replace (h1 - (h1 - h0))%Z with h0 in Hch by lia.
    exists b0, c, 0, (Z.to_nat (h1 - h0)). done.
  - destruct (nth_ancestor_Ok L K b0 (h0 - h1) h0 K0 Hh0) as (c & Hc & Hu & Kc & Hch); [lia|].
    rewrite Hc, ok_bind. rewrite Z.min_r by lia.
    replace (h0 - (h0 - h1))%Z with h1 in Hch by lia.
    exists c, b1, (Z.to_nat (h0 - h1)), 0. done.
Qed.

Lemma ancestor_trans a b c : ancestor_of L a b → ancestor_of L b c → ancestor_of L a c.
Proof. intros [n Hn] [m Hm]. exists (m + n). by rewrite (up_add_Ok _ _ _ _ _ Hm). Qed.

(** A common ancestor of two blocks is one of their equal-height ancestors. *)
Lemma ancestor_through a b c n h hc ha :
  K b → lin_height b = Ok h → up L n b = Ok c → lin_height c = Ok hc →
  ancestor_of L a b → lin_height a = Ok ha → (ha ≤ hc)%Z → ancestor_of L a c.
Proof.
  intros Kb Hb Hc Hch [m Hm] Hah Hle.
  destruct (up_depth L K n b h c Kb Hb Hc) as (? & _ & Hc').
  destruct (up_depth L K m b h a Kb Hb Hm) as (? & _ & Ha').
  rewrite Hch in Hc'. injection Hc' as ->. rewrite Hah in Ha'. injection Ha' as ->.
  exists (m - n). replace m with (n + (m - n)) in Hm by lia.
  by rewrite (up_add_Ok _ _ _ _ _ Hc) in Hm.
Qed.

(** The last common ancestor, by its defining property. *)
Definition greatest_common (b0 b1 c : B) : Prop :=
  ancestor_of L c b0 ∧ ancestor_of L c b1
  ∧ ∀ a, ancestor_of L a b0 → ancestor_of L a b1 → ancestor_of L a c.

Lemma least_agreement_greatest b0 b1 H d c :
  K b0 → K b1 → lin_height b0 = Ok H → lin_height b1 = Ok H →
  least_agreement b0 b1 d c → greatest_common b0 b1 c.
Proof.
  intros K0 K1 Hh0 Hh1 (H0' & H1' & Hmin). split_and!; [by exists d..|].
  intros a [n Hn] [m Hm].
  destruct (up_depth L K n b0 H a K0 Hh0 Hn) as (? & _ & Ha).
  destruct (up_depth L K m b1 H a K1 Hh1 Hm) as (? & _ & Ha'). rewrite Ha in Ha'.
  injection Ha' as Hnm. replace m with n in * by lia.
  destruct (decide (n < d)) as [Hlt|]; [by destruct (Hmin n Hlt); congruence|].
  exists (n - d). replace n with (d + (n - d)) in Hn by lia.
  by rewrite (up_add_Ok _ _ _ _ _ H0') in Hn.
Qed.

(** Searching from the equal-height ancestors is searching from the blocks. *)
Lemma greatest_common_lift b0 b1 c0 c1 n0 n1 h0 h1 c :
  K b0 → K b1 → lin_height b0 = Ok h0 → lin_height b1 = Ok h1 →
  up L n0 b0 = Ok c0 → up L n1 b1 = Ok c1 →
  lin_height c0 = Ok (Z.min h0 h1) → lin_height c1 = Ok (Z.min h0 h1) →
  greatest_common c0 c1 c → greatest_common b0 b1 c.
Proof.
  intros K0 K1 Hh0 Hh1 Hu0 Hu1 Hc0 Hc1 (Ha0 & Ha1 & Hg). split_and!.
  - eapply ancestor_trans; [exact Ha0|]. by exists n0.
  - eapply ancestor_trans; [exact Ha1|]. by exists n1.
  - intros a [m0 Hm0] [m1 Hm1].
    destruct (up_depth L K m0 b0 h0 a K0 Hh0 Hm0) as (? & _ & Hah0).
    destruct (up_depth L K m1 b1 h1 a K1 Hh1 Hm1) as (? & _ & Hah1).
    pose proof Hah1 as Hah. rewrite Hah0 in Hah. injection Hah as Hah.
    apply Hg; [eapply (ancestor_through a b0 c0 n0)|eapply (ancestor_through a b1 c1 n1)];
      try done; try (by eexists); lia.
Qed.

(** A block is known by what is above it: the last common ancestor is unique. *)
Lemma greatest_common_unique b0 b1 c c' :
  K b0 → greatest_common b0 b1 c → greatest_common b0 b1 c' → c = c'.
Proof.
  intros K0 (H0' & H1' & Hg) (H0'' & H1'' & Hg').
  destruct (lineage_known L b0 K0) as (h & Hh & _).
  destruct H0' as [n Hn]. destruct (up_depth L K n b0 h c K0 Hh Hn) as (_ & Kc & Hch).
  destruct (Hg' c) as [m Hm]; [by exists n|done|]. destruct (Hg c' H0'' H1'') as [m' Hm'].
  pose proof Hm' as Hsum.
  destruct (up_depth L K m' c _ c' Kc Hch Hm') as (? & Kc' & Hch').
  destruct (up_depth L K m c' _ c Kc' Hch' Hm) as (? & _ & Hch2).
  rewrite Hch in Hch2. injection Hch2 as ?. replace m' with 0 in Hm' by lia. by injection Hm'.
Qed.

Lemma greatest_common_sym b0 b1 c : greatest_common b0 b1 c → greatest_common b1 b0 c.
Proof. intros (? & ? & Hg). split_and!; [done..|]. auto. Qed.

Lemma bisect_ok b0 b1 H :
  K b0 → K b1 → lin_height b0 = Ok H → lin_height b1 = Ok H → (H < 2 ^ 31)%Z →
  b0 ≠ b1 → up L (Z.to_nat H) b0 = up L (Z.to_nat H) b1 →
  ∃ c, bisect L b0 b1 H = Ok c ∧ greatest_common b0 b1 c.
Proof.
  intros K0 K1 Hh0 Hh1 HH Hne Hagree.
  destruct (known_node L K b0 H K0 Hh0) as (_ & Hr & _).
  assert (0 < H)%Z as Hpos.
  { destruct (decide (0 < H)%Z); [done|]. replace H with 0%Z in Hagree by lia.
    injection Hagree. done. }
  unfold bisect. pose proof (Z.pow_le_mono_r 2 31 32).
  destruct (bisect_loop_ok 33 b0 b1 H 1 H) as (d & c & Hc & Hl); try done; [lia..| |lia| |].
  - change (Z.of_nat 33 - 1)%Z with 32%Z. lia.
  - intros i Hi. replace i with 0 by lia. simpl. congruence.
  - exists c. split; [done|]. by eapply least_agreement_greatest.
Qed.
End common.
