(* ===== verification/Keys.v ===== *)
(** Keys of LMDB tables.

    LMDB compares the bytes of keys; numbers are written big-endian, so that
    their bytes sort as the numbers ([bytes_cmp_be]).  [last_u32] is the last
    entry of a table with such keys. *)
From S2P Require Import Prelude.
From S2P Require Import Externals.
From S2P Require Import Types.

(** [u64::to_be_bytes], [u32::to_be_bytes] *)
Definition be_bytes (n : nat) (z : Z) : list byte := reverse (vec_to_list (le_vec n z)).
#[global] Arguments be_bytes : simpl never.
Definition from_be_bytes (l : list byte) : Z :=
  foldl (λ acc b, acc * 256 + Z_of_byte b)%Z 0%Z l.

(** The order of a table with [U32<BigEndian>] keys, and its last entry. *)
Definition u32_key_le {A} (a b : Z * A) : Prop :=
  bytes_cmp (be_bytes 4 a.1) (be_bytes 4 b.1) ≠ Gt.
#[export] Instance u32_key_le_dec {A} (a b : Z * A) : Decision (u32_key_le a b).
Proof. unfold u32_key_le. apply _. Defined.
Definition last_u32 {A} (m : gmap Z A) : option (Z * A) :=
  last (merge_sort u32_key_le (map_to_list m)).

(** ** Order of big-endian bytes *)
Lemma bytes_cmp_app a b c d :
  length a = length b → bytes_cmp (a ++ c) (b ++ d) = lex_cmp (bytes_cmp a b) (bytes_cmp c d).
Proof.
  revert b. induction a as [|x a IH]; intros [|y b] Hl; simplify_eq/=; [done|].
  destruct (Z_of_byte x ?= Z_of_byte y)%Z; [by apply IH|done..].
Qed.

Lemma be_bytes_S n z : be_bytes (S n) z = be_bytes n (z / 256) ++ [byte_of_Z z].
Proof.
  unfold be_bytes. change (le_vec (S n) z) with (byte_of_Z z ::: le_vec n (z / 256)).
  cbn [vec_to_list]. by rewrite reverse_cons.
Qed.

Lemma be_bytes_length n z : length (be_bytes n z) = n.
Proof. unfold be_bytes. by rewrite length_reverse, length_vec_to_list. Qed.

Lemma bytes_cmp_be n a b :
  (0 ≤ a < 256 ^ Z.of_nat n)%Z → (0 ≤ b < 256 ^ Z.of_nat n)%Z →
  bytes_cmp (be_bytes n a) (be_bytes n b) = (a ?= b)%Z.
Proof.
  revert a b. induction n as [|n IH]; intros a b Ha Hb.
  { simpl in *. replace a with 0%Z by lia. by replace b with 0%Z by lia. }
  rewrite Nat2Z.inj_succ, Z.pow_succ_r in Ha, Hb by lia.
  rewrite !be_bytes_S, bytes_cmp_app by by rewrite !be_bytes_length.
  assert (∀ z, 0 ≤ z < 256 * 256 ^ Z.of_nat n → 0 ≤ z / 256 < 256 ^ Z.of_nat n)%Z as Hdiv.
  { intros z Hz. split; [apply Z.div_pos; lia|]. apply Z.div_lt_upper_bound; lia. }
  rewrite IH by auto. cbn [bytes_cmp]. rewrite !Z_of_byte_of_Z.
  pose proof (Z.div_mod a 256 ltac:(lia)). pose proof (Z.div_mod b 256 ltac:(lia)).
  pose proof (Z.mod_pos_bound a 256 ltac:(lia)). pose proof (Z.mod_pos_bound b 256 ltac:(lia)).
  destruct (Z.compare_spec (a / 256) (b / 256)); cbn [lex_cmp];
    [destruct (Z.compare_spec (a mod 256) (b mod 256))|..]; symmetry;
    first [apply Z.compare_eq_iff; lia | apply Z.compare_lt_iff; lia | apply Z.compare_gt_iff; lia].
Qed.

Lemma from_be_bytes_be n z : from_be_bytes (be_bytes n z) = (z mod 256 ^ Z.of_nat n)%Z.
Proof.
  revert z. induction n as [|n IH]; intros z; [simpl; by rewrite Z.mod_1_r|].
  unfold from_be_bytes in *. rewrite be_bytes_S, foldl_app, IH. cbn [foldl].
  rewrite Z_of_byte_of_Z, Nat2Z.inj_succ, Z.pow_succ_r, Z.rem_mul_r by lia. lia.
Qed.

Lemma bytes_le_trans a b c : bytes_cmp a b ≠ Gt → bytes_cmp b c ≠ Gt → bytes_cmp a c ≠ Gt.
Proof.
  destruct (bytes_cmp a b) eqn:H1; [apply bytes_cmp_eq in H1 as ->; done| |done].
  destruct (bytes_cmp b c) eqn:H2; [apply bytes_cmp_eq in H2 as ->; by rewrite H1| |done].
  by rewrite (bytes_cmp_lt_trans _ _ _ H1 H2).
Qed.
Lemma bytes_le_total a b : bytes_cmp a b ≠ Gt ∨ bytes_cmp b a ≠ Gt.
Proof. rewrite (bytes_cmp_antisym a b). destruct (bytes_cmp a b); [left|left|right]; done. Qed.

(** ** The last entry *)
#[export] Instance u32_key_le_trans A : Transitive (u32_key_le (A := A)).
Proof. intros p q r. apply bytes_le_trans. Qed.
#[export] Instance u32_key_le_total A : Total (u32_key_le (A := A)).
Proof. intros p q. apply bytes_le_total. Qed.

Lemma sorted_last {A} (R : A → A → Prop) l x y :
  StronglySorted R l → last l = Some y → x ∈ l → x = y ∨ R x y.
Proof.
  intros Hs [l' ->]%last_Some [Hin|Hin]%elem_of_app;
    [|left; by apply list_elem_of_singleton in Hin].
  right. by apply (StronglySorted_app_1_elem_of R _ _ _ _ Hs); [|left].
Qed.

Lemma last_u32_Some {A} (m : gmap Z A) k x :
  last_u32 m = Some (k, x) → (∀ j, is_Some (m !! j) → (0 ≤ j < 2 ^ 32)%Z) →
  m !! k = Some x ∧ ∀ j, is_Some (m !! j) → (j ≤ k)%Z.
Proof.
  intros Hlast Hr.
  assert (m !! k = Some x) as Hk.
  { apply elem_of_map_to_list. rewrite <- (merge_sort_Permutation u32_key_le).
    apply last_Some in Hlast as [l Hl]. rewrite Hl. set_solver. }
  split; [done|]. intros j [y Hy].
  destruct (sorted_last u32_key_le _ (j, y) _ (StronglySorted_merge_sort u32_key_le _) Hlast) as [Heq|Hle].
  - rewrite merge_sort_Permutation. by apply elem_of_map_to_list.
  - injection Heq as -> _. lia.
  - unfold u32_key_le in Hle. cbn [fst snd] in Hle.
    pose proof (Hr j (ex_intro _ _ Hy)). pose proof (Hr k (ex_intro _ _ Hk)).
    rewrite (bytes_cmp_be 4) in Hle by lia. by rewrite Z.compare_gt_iff, Z.nlt_ge in Hle.
Qed.

Lemma last_u32_None {A} (m : gmap Z A) : last_u32 m = None → m = ∅.
Proof.
  intros H%last_None. apply map_to_list_empty_iff.
  pose proof (merge_sort_Permutation u32_key_le (map_to_list m)) as Hp. rewrite H in Hp.
  by apply Permutation_nil in Hp.
Qed.
