(* ===== verification/ShardTreeDb.v ===== *)
(** The storage of the wallet's note commitment tree
    ([src/lib/types/orchard/shardtree_db.rs]).

    The [shardtree] crate keeps a pruned Merkle tree and its checkpoints in a
    store; this is the store that the program implements over five LMDB
    tables.  Checkpoints are spread over three of them, which are kept inverse
    to each other ([checkpoints_wf]).  Tables are finite maps; where the order
    of a table matters it is the order of its key bytes. *)
From S2P Require Import Prelude.
From S2P Require Import Externals.
From S2P Require Import Types.
From S2P Require Import Keys.

(** [incrementalmerkletree::Address]: a level ([u8]) and an index ([u64]). *)
Record TreeAddress := mk_TreeAddress { level : Z; index : Z }.
#[export] Instance TreeAddress_eq_dec : EqDecision TreeAddress.
Proof. solve_decision. Defined.
#[export] Instance TreeAddress_countable : Countable TreeAddress.
Proof. apply (inj_countable' (λ a, (level a, index a)) (λ p, mk_TreeAddress p.1 p.2)). by intros []. Defined.

(** [shardtree::store::TreeState]: the position of the last leaf. *)
Inductive TreeState := TreeEmpty | AtPosition (position : Z).
#[export] Instance TreeState_eq_dec : EqDecision TreeState.
Proof. solve_decision. Defined.

(** The crates [shardtree], [incrementalmerkletree] and [bincode]. *)
Class ShardTreeExternals `{E : Externals} := {
  (** [shardtree::PrunableTree] and [LocatedPrunableTree] *)
  PrunableTree : Type;
  PrunableTree_empty : PrunableTree;
  LocatedPrunableTree : Type;
  from_parts : TreeAddress → PrunableTree → LocatedPrunableTree + TreeAddress;
  root_addr : LocatedPrunableTree → TreeAddress;
  root : LocatedPrunableTree → PrunableTree;
  (** [shardtree::store::Checkpoint] *)
  Checkpoint : Type;
  Checkpoint_from_parts : TreeState → gset Z → Checkpoint;
  tree_state : Checkpoint → TreeState;
  marks_removed : Checkpoint → gset Z;
  (** the bytes of an optional and of a pair, from the bytes of the parts *)
  bincode_option : option (list byte) → list byte;
  bincode_pair : list byte → list byte → list byte
}.

(** Documented behaviour of these crates. *)
Class CheckpointLaws `{ShardTreeExternals} : Prop := {
  tree_state_from_parts s m : tree_state (Checkpoint_from_parts s m) = s;
  marks_removed_from_parts s m : marks_removed (Checkpoint_from_parts s m) = m
}.
Class BincodeFormat `{ShardTreeExternals} : Prop := {
  bincode_option_format o :
    bincode_option o = match o with None => [x00] | Some l => x01 :: l end;
  bincode_pair_format a b : bincode_pair a b = a ++ b
}.

Section shardtree.
Context `{E : Externals} `{SE : !ShardTreeExternals}.

(** [Checkpoint::position], [Checkpoint::tree_empty] *)
Definition position (c : Checkpoint) : option Z :=
  match tree_state c with TreeEmpty => None | AtPosition p => Some p end.
Definition Checkpoint_tree_empty : Checkpoint := Checkpoint_from_parts TreeEmpty ∅.

(** ** Keys *)

(** [Address::serialize] and [deserialize]: levels are complemented and
    indexes big-endian. *)
Definition Address_serialize (a : TreeAddress) : list byte :=
  let level_inv := (255 - level a)%Z in
  let idx_be := be_bytes 8 (index a) in
  bincode_pair [byte_of_Z level_inv] idx_be.
Definition Address_deserialize (level_inv : byte) (idx_be : list byte) : TreeAddress :=
  let level := (255 - Z_of_byte level_inv)%Z in
  let idx := from_be_bytes idx_be in
  mk_TreeAddress level idx.

(** [PositionWrapper::serialize] and [deserialize] *)
Definition PositionWrapper_serialize (pos : Z) : list byte := be_bytes 8 pos.
Definition PositionWrapper_deserialize (pos_be : list byte) : Z := from_be_bytes pos_be.

(** [TreeStateRepr], [CheckpointRepr] and their conversions *)
Inductive TreeStateRepr := ReprEmpty | ReprAtPosition (pos : Z).
Definition TreeStateRepr_from (s : TreeState) : TreeStateRepr :=
  match s with TreeEmpty => ReprEmpty | AtPosition pos => ReprAtPosition pos end.
Definition TreeState_from (r : TreeStateRepr) : TreeState :=
  match r with ReprEmpty => TreeEmpty | ReprAtPosition pos => AtPosition pos end.
Record CheckpointRepr := mk_CheckpointRepr {
  cr_tree_state : TreeStateRepr;
  cr_marks_removed : gset Z
}.
Definition CheckpointRepr_from (c : Checkpoint) : CheckpointRepr :=
  mk_CheckpointRepr (TreeStateRepr_from (tree_state c)) (marks_removed c).
Definition Checkpoint_from (r : CheckpointRepr) : Checkpoint :=
  Checkpoint_from_parts (TreeState_from (cr_tree_state r)) (cr_marks_removed r).

(** ** The tables *)
Record ShardTreeDb := mk_ShardTreeDb {
  cap : option PrunableTree;
  checkpoint_seq_to_tip : gmap Z (option BlockHash);
  checkpoints : gmap (option BlockHash) (Checkpoint * Z);
  position_to_checkpoint_seq : gset (option Z * Z);
  shards : gmap TreeAddress PrunableTree
}.
Definition ShardTreeDb_empty_dbs : ShardTreeDb := mk_ShardTreeDb None ∅ ∅ ∅ ∅.
Definition with_cap (d : ShardTreeDb) c : ShardTreeDb :=
  mk_ShardTreeDb (Some c) (checkpoint_seq_to_tip d) (checkpoints d)
    (position_to_checkpoint_seq d) (shards d).
Definition with_checkpoints_tables (d : ShardTreeDb) seqs cps poss : ShardTreeDb :=
  mk_ShardTreeDb (cap d) seqs cps poss (shards d).
Definition with_shards (d : ShardTreeDb) s : ShardTreeDb :=
  mk_ShardTreeDb (cap d) (checkpoint_seq_to_tip d) (checkpoints d)
    (position_to_checkpoint_seq d) s.

Record CheckpointId := mk_CheckpointId {
  cid_pos : option Z;
  cid_seq : Z;
  cid_tip : option BlockHash
}.
#[export] Instance CheckpointId_eq_dec : EqDecision CheckpointId.
Proof. solve_decision. Defined.

Inductive StoreError :=
  | StoreDb
  | InvalidCheckpointIdPosition (pos checkpoint_pos : option Z)
  | InvalidCheckpointIdSeq (seq checkpoint_seq : Z)
  | NoRwTxn
  | NoTxn
  | LptFromParts (address : TreeAddress)
  | UpdateCheckpointPosition.

(** Iteration of [position_to_checkpoint_seq] through its duplicate values, and
    of [shards]: by key bytes, then value bytes. *)
Definition dup_key (p : option Z * Z) : list byte * list byte :=
  (bincode_option (PositionWrapper_serialize <$> p.1), be_bytes 4 p.2).
Definition dup_cmp (p q : option Z * Z) : comparison :=
  lex_cmp (bytes_cmp (dup_key p).1 (dup_key q).1) (bytes_cmp (dup_key p).2 (dup_key q).2).
Definition dup_le (p q : option Z * Z) : Prop := dup_cmp p q ≠ Gt.
#[export] Instance dup_le_dec p q : Decision (dup_le p q).
Proof. unfold dup_le. apply _. Defined.
Definition iter_through_duplicate_values (d : ShardTreeDb) : list (option Z * Z) :=
  merge_sort dup_le (elements (position_to_checkpoint_seq d)).
Definition rev_iter_through_duplicate_values (d : ShardTreeDb) : list (option Z * Z) :=
  reverse (iter_through_duplicate_values d).

Definition shard_key_le (a b : TreeAddress * PrunableTree) : Prop :=
  bytes_cmp (Address_serialize a.1) (Address_serialize b.1) ≠ Gt.
#[export] Instance shard_key_le_dec a b : Decision (shard_key_le a b).
Proof. unfold shard_key_le. apply _. Defined.
Definition shards_iter (d : ShardTreeDb) : list (TreeAddress * PrunableTree) :=
  merge_sort shard_key_le (map_to_list (shards d)).

(** [ShardTreeDb::new]: open the tables and fill in the initial entries. *)
Definition ShardTreeDb_new (dbs : ShardTreeDb) : ShardTreeDb :=
  let d := match cap dbs with Some _ => dbs | None => with_cap dbs PrunableTree_empty end in
  match checkpoints d !! None with
  | Some _ => d
  | None =>
      with_checkpoints_tables d (<[0%Z := None]> (checkpoint_seq_to_tip d))
        (<[None := (Checkpoint_tree_empty, 0%Z)]> (checkpoints d))
        ({[(None, 0%Z)]} ∪ position_to_checkpoint_seq d)
  end.

Definition try_get_checkpoint_id (d : ShardTreeDb) (tip : option BlockHash) : option CheckpointId :=
  match checkpoints d !! tip with
  | Some (checkpoint, seq) => Some (mk_CheckpointId (position checkpoint) seq tip)
  | None => None
  end.
Definition get_checkpoint_id (d : ShardTreeDb) (tip : option BlockHash) : Res StoreError CheckpointId :=
  '(checkpoint, seq) ← ok_or (checkpoints d !! tip) StoreDb;
  Ok (mk_CheckpointId (position checkpoint) seq tip).

Definition max_checkpoint_seq (d : ShardTreeDb) : option Z :=
  fst <$> last_u32 (checkpoint_seq_to_tip d).
Definition next_checkpoint_seq (d : ShardTreeDb) : Z :=
  match max_checkpoint_seq d with
  | Some max_seq => wrap32 (max_seq + 1)
  | None => 0
  end.

(** ** The store

    A store reads and writes through a transaction of its owner, which may be
    gone, absent, or read-only; the transaction is the contents it sees. *)
Inductive DbTxn :=
  | Ro (contents : ShardTreeDb)
  | Rw (contents : ShardTreeDb).
Definition DbTxn_as_ref (t : DbTxn) : ShardTreeDb := match t with Ro d | Rw d => d end.
Definition DbTxn_rwtxn (t : DbTxn) : Res StoreError ShardTreeDb :=
  match t with Ro _ => Err NoRwTxn | Rw rwtxn => Ok rwtxn end.

(** [txn] after [Weak::upgrade]: [None] when its owner is gone. *)
Record ShardTreeStore := mk_ShardTreeStore { txn : option (option DbTxn) }.

Definition read_with {T} (s : ShardTreeStore) (f : ShardTreeDb → Res StoreError T) :
    Res StoreError T :=
  match txn s with
  | Some txn => t ← ok_or txn NoTxn; f (DbTxn_as_ref t)
  | None => Err NoTxn
  end.
Definition write_with {T} (s : ShardTreeStore) (f : ShardTreeDb → Res StoreError (T * ShardTreeDb)) :
    Res StoreError (T * ShardTreeStore) :=
  match txn s with
  | Some txn =>
      t ← ok_or txn NoTxn;
      rwtxn ← DbTxn_rwtxn t;
      '(res, rwtxn) ← f rwtxn;
      Ok (res, mk_ShardTreeStore (Some (Some (Rw rwtxn))))
  | None => Err NoTxn
  end.

(** *** Shards and cap *)
Definition located (addr : TreeAddress) (tree : PrunableTree) : Res StoreError LocatedPrunableTree :=
  match from_parts addr tree with inl t => Ok t | inr address => Err (LptFromParts address) end.
Definition transpose {T} (o : option (Res StoreError T)) : Res StoreError (option T) :=
  match o with Some r => Some <$> r | None => Ok None end.

Definition get_shard (s : ShardTreeStore) (shard_root : TreeAddress) :
    Res StoreError (option LocatedPrunableTree) :=
  tree ← read_with s (λ rotxn, Ok (shards rotxn !! shard_root));
  transpose (located shard_root <$> tree).
Definition last_shard (s : ShardTreeStore) : Res StoreError (option LocatedPrunableTree) :=
  last ← read_with s (λ rotxn, Ok (last (shards_iter rotxn)));
  transpose ((λ '(addr, tree), located addr tree) <$> last).
Definition put_shard (s : ShardTreeStore) (subtree : LocatedPrunableTree) :
    Res StoreError (unit * ShardTreeStore) :=
  let addr := root_addr subtree in
  let tree := root subtree in
  write_with s (λ rwtxn, Ok (tt, with_shards rwtxn (<[addr := tree]> (shards rwtxn)))).
Definition get_shard_roots (s : ShardTreeStore) : Res StoreError (list TreeAddress) :=
  read_with s (λ rotxn, Ok (fst <$> shards_iter rotxn)).
Definition truncate_shards (s : ShardTreeStore) (shard_index : Z) :
    Res StoreError (unit * ShardTreeStore) :=
  write_with s (λ rwtxn,
    let addrs := fst <$> shards_iter rwtxn in
    Ok (tt, foldl (λ rwtxn addr,
      if (shard_index <=? index addr)%Z then with_shards rwtxn (delete addr (shards rwtxn))
      else rwtxn) rwtxn addrs)).
Definition get_cap (s : ShardTreeStore) : Res StoreError PrunableTree :=
  read_with s (λ rotxn, ok_or (cap rotxn) StoreDb).
Definition put_cap (s : ShardTreeStore) (c : PrunableTree) : Res StoreError (unit * ShardTreeStore) :=
  write_with s (λ rwtxn, Ok (tt, with_cap rwtxn c)).

(** *** Checkpoints *)
Definition checkpoint_id_at (d : ShardTreeDb) (e : option (option Z * Z)) :
    Res StoreError (option CheckpointId) :=
  match e with
  | None => Ok None
  | Some (pos, seq) =>
      tip ← ok_or (checkpoint_seq_to_tip d !! seq) StoreDb;
      Ok (Some (mk_CheckpointId pos seq tip))
  end.
Definition min_checkpoint_id (s : ShardTreeStore) : Res StoreError (option CheckpointId) :=
  read_with s (λ rotxn, checkpoint_id_at rotxn (head (iter_through_duplicate_values rotxn))).
Definition max_checkpoint_id (s : ShardTreeStore) : Res StoreError (option CheckpointId) :=
  read_with s (λ rotxn, checkpoint_id_at rotxn (last (iter_through_duplicate_values rotxn))).

Definition put_checkpoint (d : ShardTreeDb) (id : CheckpointId) (c : Checkpoint) : ShardTreeDb :=
  with_checkpoints_tables d
    (<[cid_seq id := cid_tip id]> (checkpoint_seq_to_tip d))
    (<[cid_tip id := (c, cid_seq id)]> (checkpoints d))
    ({[(cid_pos id, cid_seq id)]} ∪ position_to_checkpoint_seq d).
Definition delete_checkpoint (d : ShardTreeDb) (pos : option Z) (seq : Z) (tip : option BlockHash) :
    ShardTreeDb :=
  with_checkpoints_tables d
    (delete seq (checkpoint_seq_to_tip d))
    (delete tip (checkpoints d))
    (position_to_checkpoint_seq d ∖ {[(pos, seq)]}).

Definition add_checkpoint (s : ShardTreeStore) (checkpoint_id : CheckpointId) (checkpoint : Checkpoint) :
    Res StoreError (unit * ShardTreeStore) :=
  _ ← guard_err (bool_decide (position checkpoint = cid_pos checkpoint_id))
        (InvalidCheckpointIdPosition (cid_pos checkpoint_id) (position checkpoint));
  write_with s (λ rwtxn,
    match checkpoints rwtxn !! cid_tip checkpoint_id with
    | Some (original_checkpoint, original_seq) =>
        if bool_decide (tree_state original_checkpoint = tree_state checkpoint)
           && bool_decide (marks_removed original_checkpoint = marks_removed checkpoint)
        then Ok (tt, rwtxn)
        else
          let original_position := position original_checkpoint in
          _ ← guard_err (bool_decide (original_position = cid_pos checkpoint_id))
                (InvalidCheckpointIdPosition (cid_pos checkpoint_id) original_position);
          _ ← guard_err (bool_decide (original_seq = cid_seq checkpoint_id))
                (InvalidCheckpointIdSeq (cid_seq checkpoint_id) original_seq);
          let rwtxn := delete_checkpoint rwtxn original_position original_seq (cid_tip checkpoint_id) in
          Ok (tt, put_checkpoint rwtxn checkpoint_id checkpoint)
    | None => Ok (tt, put_checkpoint rwtxn checkpoint_id checkpoint)
    end).

Definition checkpoint_count (s : ShardTreeStore) : Res StoreError Z :=
  read_with s (λ rotxn, Ok (Z.of_nat (size (checkpoints rotxn)))).

(** The checkpoint that an entry of the position table stands for. *)
Definition checkpoint_of_entry (d : ShardTreeDb) (e : option Z * Z) :
    Res StoreError (CheckpointId * Checkpoint) :=
  let '(pos, seq) := e in
  tip ← ok_or (checkpoint_seq_to_tip d !! seq) StoreDb;
  '(checkpoint, _) ← ok_or (checkpoints d !! tip) StoreDb;
  Ok (mk_CheckpointId pos seq tip, checkpoint).

Definition get_checkpoint_at_depth (s : ShardTreeStore) (checkpoint_depth : nat) :
    Res StoreError (option (CheckpointId * Checkpoint)) :=
  read_with s (λ rotxn,
    match rev_iter_through_duplicate_values rotxn !! checkpoint_depth with
    | None => Ok None
    | Some e => Some <$> checkpoint_of_entry rotxn e
    end).

(** The id given must be the id of the stored checkpoint. *)
Definition check_id (checkpoint_id : CheckpointId) (checkpoint : Checkpoint) (seq : Z) :
    Res StoreError unit :=
  _ ← guard_err (bool_decide (seq = cid_seq checkpoint_id))
        (InvalidCheckpointIdSeq (cid_seq checkpoint_id) seq);
  guard_err (bool_decide (position checkpoint = cid_pos checkpoint_id))
    (InvalidCheckpointIdPosition (cid_pos checkpoint_id) (position checkpoint)).

Definition get_checkpoint (s : ShardTreeStore) (checkpoint_id : CheckpointId) :
    Res StoreError (option Checkpoint) :=
  read_with s (λ rotxn,
    match checkpoints rotxn !! cid_tip checkpoint_id with
    | None => Ok None
    | Some (checkpoint, seq) =>
        _ ← check_id checkpoint_id checkpoint seq; Ok (Some checkpoint)
    end).

(** A callback is a step on a state of its own; an error ends the iteration. *)
Definition for_each_checkpoint {T} (s : ShardTreeStore) (limit : nat)
    (callback : T → CheckpointId → Checkpoint → Res StoreError T) (t : T) : Res StoreError T :=
  read_with s (λ rotxn,
    foldR (λ t e,
        '(checkpoint_id, checkpoint) ← checkpoint_of_entry rotxn e;
        callback t checkpoint_id checkpoint)
      t (take limit (iter_through_duplicate_values rotxn))).
Definition with_checkpoints {T} (s : ShardTreeStore) (limit : nat)
    (callback : T → CheckpointId → Checkpoint → Res StoreError T) (t : T) : Res StoreError T :=
  for_each_checkpoint s limit callback t.

Definition update_checkpoint_with (s : ShardTreeStore) (checkpoint_id : CheckpointId)
    (update : Checkpoint → Res StoreError Checkpoint) : Res StoreError (bool * ShardTreeStore) :=
  write_with s (λ rwtxn,
    match checkpoints rwtxn !! cid_tip checkpoint_id with
    | None => Ok (false, rwtxn)
    | Some (checkpoint, seq) =>
        _ ← check_id checkpoint_id checkpoint seq;
        let original_position := position checkpoint in
        checkpoint ← update checkpoint;
        _ ← guard_err (bool_decide (position checkpoint = original_position))
              UpdateCheckpointPosition;
        Ok (true, with_checkpoints_tables rwtxn (checkpoint_seq_to_tip rwtxn)
              (<[cid_tip checkpoint_id := (checkpoint, seq)]> (checkpoints rwtxn))
              (position_to_checkpoint_seq rwtxn))
    end).

Definition remove_checkpoint (s : ShardTreeStore) (checkpoint_id : CheckpointId) :
    Res StoreError (unit * ShardTreeStore) :=
  write_with s (λ rwtxn,
    match checkpoints rwtxn !! cid_tip checkpoint_id with
    | None => Ok (tt, rwtxn)
    | Some (checkpoint, seq) =>
        _ ← check_id checkpoint_id checkpoint seq;
        Ok (tt, delete_checkpoint rwtxn (position checkpoint) seq (cid_tip checkpoint_id))
    end).

(** Derived [Ord] of [Option<Position>]. *)
Definition option_pos_cmp (a b : option Z) : comparison :=
  match a, b with
  | None, None => Eq
  | None, Some _ => Lt
  | Some _, None => Gt
  | Some a, Some b => (a ?= b)%Z
  end.
Definition pos_gtb (a b : option Z) : bool := bool_decide (option_pos_cmp a b = Gt).

Fixpoint take_while {A} (f : A → bool) (l : list A) : list A :=
  match l with
  | [] => []
  | a :: l => if f a then a :: take_while f l else []
  end.

Definition delete_entry (rwtxn : ShardTreeDb) (e : option Z * Z) : Res StoreError ShardTreeDb :=
  let '(pos, seq) := e in
  let rwtxn := with_checkpoints_tables rwtxn (checkpoint_seq_to_tip rwtxn) (checkpoints rwtxn)
                 (position_to_checkpoint_seq rwtxn ∖ {[(pos, seq)]}) in
  tip ← ok_or (checkpoint_seq_to_tip rwtxn !! seq) StoreDb;
  Ok (with_checkpoints_tables rwtxn (delete seq (checkpoint_seq_to_tip rwtxn))
        (delete tip (checkpoints rwtxn)) (position_to_checkpoint_seq rwtxn)).

Definition truncate_checkpoints_retaining (s : ShardTreeStore) (checkpoint_id : CheckpointId) :
    Res StoreError (unit * ShardTreeStore) :=
  write_with s (λ rwtxn,
    '(checkpoint, checkpoint_seq) ← ok_or (checkpoints rwtxn !! cid_tip checkpoint_id) StoreDb;
    let checkpoint_pos := position checkpoint in
    _ ← guard_err (bool_decide (cid_pos checkpoint_id = checkpoint_pos))
          (InvalidCheckpointIdPosition (cid_pos checkpoint_id) checkpoint_pos);
    _ ← guard_err (bool_decide (cid_seq checkpoint_id = checkpoint_seq))
          (InvalidCheckpointIdSeq (cid_seq checkpoint_id) checkpoint_seq);
    let checkpoints_to_delete :=
      take_while (λ '(pos, seq),
          pos_gtb pos checkpoint_pos
          || (bool_decide (pos = checkpoint_pos) && (checkpoint_seq <? seq)%Z))
        (rev_iter_through_duplicate_values rwtxn) in
    rwtxn ← foldR delete_entry rwtxn checkpoints_to_delete;
    Ok (tt, rwtxn)).

(** [SHARD_HEIGHT] *)
Definition SHARD_HEIGHT : Z := 2.
End shardtree.
