(* ===== verification/ShardTreeFacts.v ===== *)
(** The checkpoint store as a history ([ShardTreeDb.v]).

    The three checkpoint tables together hold one list of checkpoints, oldest
    first ([history]); the operations of the store are the obvious ones on
    that list.  The bytes of the keys sort as the numbers they encode. *)
From S2P Require Import Prelude.
From S2P Require Import Externals.
From S2P Require Import Toy.
From S2P Require Import Types.
From S2P Require Import Keys.
From S2P Require Import ShardTreeDb.

(** ** Sorted lists *)
Lemma StronglySorted_strict {A} (R S : A → A → Prop) l :
  StronglySorted R l → NoDup l → (∀ x y, x ∈ l → y ∈ l → x ≠ y → R x y → S x y) →
  StronglySorted S l.
Proof.
  induction 1 as [|x l Hl IH Hx]; intros Hnd HS; constructor; apply NoDup_cons in Hnd as [Hn Hnd].
  - apply IH; [done|]. intros y z Hy Hz. apply HS; by right.
  - rewrite Forall_forall in *. intros y Hy.
    apply HS; [by left|by right|by intros ->|by apply Hx].
Qed.

Lemma take_while_app {A} (f : A → bool) l x k :
  Forall (λ a, f a = true) l → f x = false → take_while f (l ++ x :: k) = l.
Proof. induction 1 as [|a l Ha _ IH]; intros Hx; simpl; [by rewrite Hx|]. rewrite Ha. by rewrite IH. Qed.

Section facts.
Context `{E : Externals} `{SE : !ShardTreeExternals}.

(** ** Entries of the position table *)
Definition entry_cmp (p q : option Z * Z) : comparison :=
  lex_cmp (option_pos_cmp p.1 q.1) (p.2 ?= q.2)%Z.
Definition entry_ok (p : option Z * Z) : Prop :=
  (0 ≤ p.2 < 2 ^ 32)%Z ∧ match p.1 with Some z => (0 ≤ z < 2 ^ 64)%Z | None => True end.

Lemma dup_cmp_entry `{!BincodeFormat} p q : entry_ok p → entry_ok q → dup_cmp p q = entry_cmp p q.
Proof.
  destruct p as [p a], q as [q b]. unfold entry_ok, dup_cmp, entry_cmp, dup_key. cbn [fst snd].
  intros [Ha Hp] [Hb Hq]. rewrite (bytes_cmp_be 4) by lia.
  rewrite !bincode_option_format. f_equal.
  destruct p as [p|], q as [q|]; [|done..]. cbn -[be_bytes].
  unfold PositionWrapper_serialize. by rewrite (bytes_cmp_be 8) by lia.
Qed.

Lemma dup_cmp_antisym p q : dup_cmp q p = CompOpp (dup_cmp p q).
Proof.
  unfold dup_cmp. rewrite (bytes_cmp_antisym (dup_key p).1), (bytes_cmp_antisym (dup_key p).2).
  by destruct (bytes_cmp (dup_key p).1 (dup_key q).1).
Qed.
#[export] Instance dup_le_total : Total dup_le.
Proof. intros p q. unfold dup_le. rewrite (dup_cmp_antisym p q). destruct (dup_cmp p q); [left|left|right]; done. Qed.
#[export] Instance dup_le_trans : Transitive dup_le.
Proof.
  intros p q r. unfold dup_le, dup_cmp.
  destruct (dup_key p) as [a x], (dup_key q) as [b y], (dup_key r) as [c z]. cbn [fst snd].
  destruct (bytes_cmp a b) eqn:H1; cbn [lex_cmp]; [apply bytes_cmp_eq in H1 as ->| |done].
  - destruct (bytes_cmp b c); cbn [lex_cmp]; [apply bytes_le_trans|done..].
  - destruct (bytes_cmp b c) eqn:H2; cbn [lex_cmp]; [apply bytes_cmp_eq in H2 as ->; by rewrite H1| |done].
    by rewrite (bytes_cmp_lt_trans _ _ _ H1 H2).
Qed.

Lemma option_pos_cmp_spec a b : CompareSpec (a = b) (option_pos_cmp a b = Lt) (option_pos_cmp b a = Lt) (option_pos_cmp a b).
Proof.
  destruct a as [a|], b as [b|]; simpl; try by constructor.
  rewrite (Z.compare_antisym a b). destruct (a ?= b)%Z eqn:H; constructor; [|done..].
  by apply Z.compare_eq_iff in H as ->.
Qed.
Lemma option_pos_cmp_refl a : option_pos_cmp a a = Eq.
Proof. destruct a; simpl; [apply Z.compare_refl|done]. Qed.
Lemma entry_cmp_spec p q : CompareSpec (p = q) (entry_cmp p q = Lt) (entry_cmp q p = Lt) (entry_cmp p q).
Proof.
  destruct p as [p a], q as [q b]. unfold entry_cmp. simpl.
  destruct (option_pos_cmp_spec p q) as [->|H|H]; cbn [lex_cmp];
    [|rewrite ?H; by constructor..].
  rewrite option_pos_cmp_refl. simpl.
  rewrite (Z.compare_antisym a b). destruct (a ?= b)%Z eqn:H; constructor; [|done..].
  by apply Z.compare_eq_iff in H as ->.
Qed.
Lemma option_pos_cmp_eq a b : option_pos_cmp a b = Eq → a = b.
Proof. destruct (option_pos_cmp_spec a b); done. Qed.
Lemma option_pos_cmp_trans a b c : option_pos_cmp a b = Lt → option_pos_cmp b c = Lt → option_pos_cmp a c = Lt.
Proof. destruct a, b, c; simpl; try done. rewrite !Z.compare_lt_iff. lia. Qed.
Lemma entry_lt_trans p q r : entry_cmp p q = Lt → entry_cmp q r = Lt → entry_cmp p r = Lt.
Proof.
  destruct p as [p a], q as [q b], r as [r c]. unfold entry_cmp. simpl.
  destruct (option_pos_cmp p q) eqn:H1, (option_pos_cmp q r) eqn:H2; cbn [lex_cmp]; try done.
  - apply option_pos_cmp_eq in H1 as ->. rewrite H2. cbn [lex_cmp]. rewrite !Z.compare_lt_iff. lia.
  - apply option_pos_cmp_eq in H1 as ->. by rewrite H2.
  - apply option_pos_cmp_eq in H2 as ->. by rewrite H1.
  - by rewrite (option_pos_cmp_trans _ _ _ H1 H2).
Qed.
Lemma option_pos_cmp_antisym a b : option_pos_cmp b a = CompOpp (option_pos_cmp a b).
Proof. destruct a, b; simpl; [apply Z.compare_antisym|done..]. Qed.
Lemma entry_gtb p q :
  entry_cmp p q = Lt → pos_gtb q.1 p.1 || (bool_decide (q.1 = p.1) && (p.2 <? q.2)%Z) = true.
Proof.
  unfold entry_cmp, pos_gtb. rewrite (option_pos_cmp_antisym p.1).
  destruct (option_pos_cmp p.1 q.1) eqn:H; cbn [lex_cmp CompOpp]; [|done..].
  apply option_pos_cmp_eq in H as ->. intros Hlt. rewrite (bool_decide_true (q.1 = q.1)) by done. rewrite orb_true_iff. right.
  by apply Z.ltb_lt.
Qed.
Lemma entry_lt_irrefl p : entry_cmp p p ≠ Lt.
Proof.
  destruct p as [p a]. unfold entry_cmp. simpl. destruct p; simpl; rewrite ?Z.compare_refl; done.
Qed.

(** ** Consistency of the tables *)
Record checkpoints_wf (d : ShardTreeDb) : Prop := {
  wf_checkpoint tip c seq : checkpoints d !! tip = Some (c, seq) →
    checkpoint_seq_to_tip d !! seq = Some tip ∧ (position c, seq) ∈ position_to_checkpoint_seq d;
  wf_seq seq tip : checkpoint_seq_to_tip d !! seq = Some tip →
    ∃ c, checkpoints d !! tip = Some (c, seq);
  wf_position pos seq : (pos, seq) ∈ position_to_checkpoint_seq d →
    ∃ tip c, checkpoints d !! tip = Some (c, seq) ∧ position c = pos;
  wf_range tip c seq : checkpoints d !! tip = Some (c, seq) → entry_ok (position c, seq);
  wf_cap : is_Some (cap d)
}.

(** The id under which a checkpoint is stored. *)
Definition id_ok (d : ShardTreeDb) (id : CheckpointId) : Prop :=
  ∃ c, checkpoints d !! cid_tip id = Some (c, cid_seq id) ∧ position c = cid_pos id.

Lemma wf_new_empty `{!CheckpointLaws} : checkpoints_wf (ShardTreeDb_new ShardTreeDb_empty_dbs).
Proof.
  assert (position Checkpoint_tree_empty = None) as Hp.
  { unfold position, Checkpoint_tree_empty. by rewrite tree_state_from_parts. }
  unfold ShardTreeDb_new, ShardTreeDb_empty_dbs. cbn [cap with_cap checkpoints].
  rewrite lookup_empty. split; simpl.
  - intros tip c seq [[<- [= <- <-]]|[? Hl]]%lookup_insert_Some; [|by rewrite lookup_empty in Hl].
    rewrite lookup_insert_eq, Hp. set_solver.
  - intros seq tip [[<- <-]|[? Hl]]%lookup_insert_Some; [|by rewrite lookup_empty in Hl].
    exists Checkpoint_tree_empty. by rewrite lookup_insert_eq.
  - intros pos seq Hin. assert (pos = None ∧ seq = 0%Z) as [-> ->] by set_solver.
    exists None, Checkpoint_tree_empty. by rewrite lookup_insert_eq.
  - intros tip c seq [[<- [= <- <-]]|[? Hl]]%lookup_insert_Some; [|by rewrite lookup_empty in Hl].
    rewrite Hp. unfold entry_ok. simpl. lia.
  - done.
Qed.

Lemma wf_with_shards d sh : checkpoints_wf d → checkpoints_wf (with_shards d sh).
Proof. by intros [? ? ? ? ?]. Qed.
Lemma wf_with_cap d c : checkpoints_wf d → checkpoints_wf (with_cap d c).
Proof. intros [? ? ? ? ?]. by split. Qed.

Lemma wf_seq_inj d t t' c c' seq :
  checkpoints_wf d → checkpoints d !! t = Some (c, seq) → checkpoints d !! t' = Some (c', seq) → t = t'.
Proof. intros Hwf [H _]%(wf_checkpoint d Hwf) [H' _]%(wf_checkpoint d Hwf). congruence. Qed.

Lemma wf_put d id c :
  checkpoints_wf d → checkpoints d !! cid_tip id = None → checkpoint_seq_to_tip d !! cid_seq id = None →
  position c = cid_pos id → entry_ok (cid_pos id, cid_seq id) → checkpoints_wf (put_checkpoint d id c).
Proof.
  intros Hwf Ht Hs Hpos Hok. split; simpl.
  - intros tip c' seq [[<- [= <- <-]]|[Hne Hl]]%lookup_insert_Some.
    { rewrite lookup_insert_eq, Hpos. set_solver. }
    apply (wf_checkpoint d Hwf) in Hl as [Hq Hin]. rewrite lookup_insert_ne by congruence.
    set_solver.
  - intros seq tip [[<- <-]|[Hne Hl]]%lookup_insert_Some.
    { exists c. by rewrite lookup_insert_eq. }
    apply (wf_seq d Hwf) in Hl as [c' Hc']. exists c'. rewrite lookup_insert_ne by congruence. done.
  - intros pos seq [[= -> ->]%elem_of_singleton|Hin]%elem_of_union.
    { exists (cid_tip id), c. by rewrite lookup_insert_eq. }
    apply (wf_position d Hwf) in Hin as (tip & c' & Hl & Hp). exists tip, c'.
    rewrite lookup_insert_ne by congruence. done.
  - intros tip c' seq [[<- [= <- <-]]|[Hne Hl]]%lookup_insert_Some; [by rewrite Hpos|].
    by apply (wf_range d Hwf) in Hl.
  - apply (wf_cap d Hwf).
Qed.

Lemma wf_delete d tip c seq :
  checkpoints_wf d → checkpoints d !! tip = Some (c, seq) →
  checkpoints_wf (delete_checkpoint d (position c) seq tip).
Proof.
  intros Hwf Ht. destruct (wf_checkpoint d Hwf _ _ _ Ht) as [Hs _]. split; simpl.
  - intros tip' c' seq' [Hne Hl]%lookup_delete_Some.
    assert (seq ≠ seq') as Hq by (intros <-; by apply Hne, (wf_seq_inj d _ _ c c' seq)).
    apply (wf_checkpoint d Hwf) in Hl as [Hq' Hin]. rewrite lookup_delete_ne by done.
    set_solver.
  - intros seq' tip' [Hne Hl]%lookup_delete_Some. destruct (wf_seq d Hwf _ _ Hl) as [c' Hc'].
    exists c'. rewrite lookup_delete_ne by congruence. done.
  - intros pos seq' [Hin Hn]%elem_of_difference.
    apply (wf_position d Hwf) in Hin as (tip' & c' & Hl & Hp). exists tip', c'.
    rewrite lookup_delete_ne; [done|]. intros <-. rewrite Ht in Hl. set_solver.
  - intros tip' c' seq' [_ Hl]%lookup_delete_Some. by apply (wf_range d Hwf) in Hl.
  - apply (wf_cap d Hwf).
Qed.

Lemma wf_update d tip c c' seq :
  checkpoints_wf d → checkpoints d !! tip = Some (c, seq) → position c' = position c →
  checkpoints_wf (with_checkpoints_tables d (checkpoint_seq_to_tip d)
    (<[tip := (c', seq)]> (checkpoints d)) (position_to_checkpoint_seq d)).
Proof.
  intros Hwf Ht Hpos. split; simpl.
  - intros tip' c1 seq' [[<- [= <- <-]]|[Hne Hl]]%lookup_insert_Some.
    + rewrite Hpos. by apply (wf_checkpoint d Hwf).
    + by apply (wf_checkpoint d Hwf) in Hl.
  - intros seq' tip' Hl. destruct (wf_seq d Hwf _ _ Hl) as [c1 Hc1].
    destruct (decide (tip = tip')) as [<-|Hne].
    + exists c'. rewrite lookup_insert_eq. congruence.
    + exists c1. by rewrite lookup_insert_ne.
  - intros pos seq' Hin. destruct (wf_position d Hwf _ _ Hin) as (tip' & c1 & Hl & Hp).
    destruct (decide (tip = tip')) as [<-|Hne].
    + exists tip, c'. rewrite lookup_insert_eq. rewrite Ht in Hl. injection Hl as <- <-.
      by rewrite Hpos.
    + exists tip', c1. by rewrite lookup_insert_ne.
  - intros tip' c1 seq' [[<- [= <- <-]]|[Hne Hl]]%lookup_insert_Some.
    + rewrite Hpos. by apply (wf_range d Hwf) in Ht.
    + by apply (wf_range d Hwf) in Hl.
  - apply (wf_cap d Hwf).
Qed.

(** ** The history *)
Abbreviation history_item := (CheckpointId * Checkpoint)%type.
Definition item_entry (x : history_item) : option Z * Z := (cid_pos x.1, cid_seq x.1).
Definition item_lt (x y : history_item) : Prop := entry_cmp (item_entry x) (item_entry y) = Lt.

(** The checkpoints of a store, oldest first. *)
Definition history (d : ShardTreeDb) : list history_item :=
  omap (λ e, match checkpoint_of_entry d e with Ok x => Some x | _ => None end)
    (iter_through_duplicate_values d).

Definition in_history (d : ShardTreeDb) (x : history_item) : Prop :=
  checkpoints d !! cid_tip x.1 = Some (x.2, cid_seq x.1) ∧ position x.2 = cid_pos x.1.

Lemma elem_of_iter d e : e ∈ iter_through_duplicate_values d ↔ e ∈ position_to_checkpoint_seq d.
Proof. unfold iter_through_duplicate_values. rewrite merge_sort_Permutation. apply elem_of_elements. Qed.

Lemma checkpoint_of_item d x :
  checkpoints_wf d → in_history d x → checkpoint_of_entry d (item_entry x) = Ok x.
Proof.
  destruct x as [[pos seq tip] c]. unfold in_history, item_entry. simpl. intros Hwf [Hl Hp].
  destruct (wf_checkpoint d Hwf _ _ _ Hl) as [-> _]. simpl. by rewrite Hl.
Qed.
Lemma entry_item d e :
  checkpoints_wf d → e ∈ position_to_checkpoint_seq d →
  ∃ x, in_history d x ∧ item_entry x = e.
Proof.
  destruct e as [pos seq]. intros Hwf (tip & c & Hl & Hp)%(wf_position d Hwf).
  by exists (mk_CheckpointId pos seq tip, c).
Qed.

Lemma entries_items d l :
  checkpoints_wf d → (∀ e, e ∈ l → e ∈ position_to_checkpoint_seq d) →
  let h := omap (λ e, match checkpoint_of_entry d e with Ok x => Some x | _ => None end) l in
  item_entry <$> h = l ∧ Forall (in_history d) h.
Proof.
  intros Hwf. induction l as [|e l IH]; intros Hl; [by split|].
  destruct (entry_item d e Hwf) as (x & Hx & <-); [apply Hl; by left|].
  cbn [omap list_omap]. rewrite (checkpoint_of_item d x Hwf Hx).
  destruct IH as [IHe IHh]; [intros; apply Hl; by right|]. split.
  - rewrite fmap_cons. f_equal. exact IHe.
  - by constructor.
Qed.

Lemma history_entries d :
  checkpoints_wf d → item_entry <$> history d = iter_through_duplicate_values d.
Proof. intros Hwf. apply entries_items; [done|]. intros e. apply elem_of_iter. Qed.

Lemma elem_of_history d x : checkpoints_wf d → x ∈ history d ↔ in_history d x.
Proof.
  intros Hwf. split.
  - destruct (entries_items d (iter_through_duplicate_values d) Hwf) as [_ Hf];
      [intros e; apply elem_of_iter|].
    rewrite Forall_forall in Hf. apply Hf.
  - intros Hx. unfold history. apply list_elem_of_omap. exists (item_entry x).
    rewrite (checkpoint_of_item d x Hwf Hx). split; [|done].
    apply elem_of_iter. destruct x as [[pos seq tip] c], Hx as [Hl Hp]. simpl in *.
    apply (wf_checkpoint d Hwf) in Hl as [_ Hin]. unfold item_entry. simpl. by rewrite <- Hp.
Qed.

Lemma in_history_inj d x y :
  checkpoints_wf d → in_history d x → in_history d y → item_entry x = item_entry y → x = y.
Proof.
  intros Hwf Hx Hy He. pose proof (checkpoint_of_item d x Hwf Hx) as H.
  rewrite He, (checkpoint_of_item d y Hwf Hy) in H. congruence.
Qed.

Lemma in_history_ok d x : checkpoints_wf d → in_history d x → entry_ok (item_entry x).
Proof.
  intros Hwf [Hl Hp]. apply (wf_range d Hwf) in Hl. unfold item_entry. by rewrite <- Hp.
Qed.

Lemma StronglySorted_fmap_inv {A B} (f : A → B) (R : B → B → Prop) l :
  StronglySorted R (f <$> l) → StronglySorted (λ x y, R (f x) (f y)) l.
Proof.
  induction l as [|x l IH]; rewrite ?fmap_cons; [constructor|].
  intros [Hs Hf]%StronglySorted_inv. constructor; [by apply IH|]. by rewrite Forall_fmap in Hf.
Qed.

Lemma history_sorted `{!BincodeFormat} d : checkpoints_wf d → StronglySorted item_lt (history d).
Proof.
  intros Hwf. apply (StronglySorted_fmap_inv item_entry (λ p q, entry_cmp p q = Lt)).
  rewrite history_entries by done. apply (StronglySorted_strict dup_le).
  - apply StronglySorted_merge_sort; apply _.
  - unfold iter_through_duplicate_values. rewrite merge_sort_Permutation. apply NoDup_elements.
  - intros p q Hp Hq Hne. rewrite elem_of_iter in Hp, Hq.
    destruct (entry_item d p Hwf Hp) as (x & Hx & <-), (entry_item d q Hwf Hq) as (y & Hy & <-).
    unfold dup_le. rewrite dup_cmp_entry by eauto using in_history_ok.
    destruct (entry_cmp_spec (item_entry x) (item_entry y)); done.
Qed.

Lemma sorted_NoDup l : StronglySorted item_lt l → NoDup l.
Proof.
  induction 1 as [|x l Hl IH Hx]; constructor; [|done].
  intros Hin. rewrite Forall_forall in Hx. by apply (entry_lt_irrefl (item_entry x)), Hx.
Qed.

(** A sorted list with the right members is the history. *)
Lemma history_unique `{!BincodeFormat} d l :
  checkpoints_wf d → StronglySorted item_lt l → (∀ x, x ∈ l ↔ in_history d x) → history d = l.
Proof.
  intros Hwf Hl Hmem. pose proof (history_sorted d Hwf) as Hs.
  apply (StronglySorted_unique_strong item_lt); [|done..|].
  - intros x y _ _ Hxy Hyx. by destruct (entry_lt_irrefl _ (entry_lt_trans _ _ _ Hxy Hyx)).
  - apply NoDup_Permutation; [by apply sorted_NoDup..|].
    intros x. by rewrite Hmem, elem_of_history.
Qed.

Lemma history_length d : checkpoints_wf d → length (history d) = size (checkpoints d).
Proof.
  intros Hwf.
  assert (NoDup (history d)) as Hnd.
  { apply (NoDup_fmap_1 item_entry). rewrite history_entries by done.
    unfold iter_through_duplicate_values. rewrite merge_sort_Permutation. apply NoDup_elements. }
  rewrite <- length_map_to_list.
  assert (Permutation ((λ x, (cid_tip x.1, (x.2, cid_seq x.1))) <$> history d) (map_to_list (checkpoints d))) as Hp.
  { apply NoDup_Permutation; [|apply NoDup_map_to_list|].
    - apply NoDup_fmap_2_strong; [|done]. intros x y Hx Hy Heq.
      apply elem_of_history in Hx as [_ Hpx], Hy as [_ Hpy]; [|done..].
      destruct x as [[px sx tx] cx], y as [[py sy ty] cy]; simplify_eq/=. done.
    - intros [tip [c seq]]. rewrite list_elem_of_fmap, elem_of_map_to_list. split.
      + intros (x & [= -> -> ->] & Hx). by apply elem_of_history in Hx as [? _].
      + intros Hl. exists (mk_CheckpointId (position c) seq tip, c).
        split; [done|]. by apply elem_of_history. }
  by rewrite <- Hp, length_fmap.
Qed.

(** ** Operations on a store with a write transaction *)
Definition rw (d : ShardTreeDb) : ShardTreeStore := mk_ShardTreeStore (Some (Some (Rw d))).

(** The smallest fresh number is above all numbers in use. *)
Lemma max_seq_spec d m :
  checkpoints_wf d → max_checkpoint_seq d = Some m →
  (∃ x, in_history d x ∧ cid_seq x.1 = m) ∧ ∀ x, in_history d x → (cid_seq x.1 ≤ m)%Z.
Proof.
  intros Hwf Hm. unfold max_checkpoint_seq in Hm. apply fmap_Some in Hm as ([m' tip] & Hlast & ->).
  destruct (last_u32_Some _ m' tip Hlast) as [Hl Hmax].
  { intros q [t [c Hc]%(wf_seq d Hwf)]. by apply (wf_range d Hwf) in Hc as [Hc _]. }
  split.
  - apply (wf_seq d Hwf) in Hl as [c Hc]. by exists (mk_CheckpointId (position c) m' tip, c).
  - intros x [Hx _]. apply Hmax. destruct (wf_checkpoint d Hwf _ _ _ Hx) as [-> _]. done.
Qed.

Lemma next_seq_above d x :
  checkpoints_wf d → (∀ y, y ∈ history d → (cid_seq y.1 < u32_max)%Z) → in_history d x →
  (cid_seq x.1 < next_checkpoint_seq d)%Z.
Proof.
  intros Hwf Hmax Hx. unfold next_checkpoint_seq.
  destruct (max_checkpoint_seq d) as [m|] eqn:Hm.
  - destruct (max_seq_spec d m Hwf Hm) as [(y & Hy & <-) Hle]. specialize (Hle x Hx).
    pose proof (proj1 (in_history_ok d y Hwf Hy)) as Hr. unfold item_entry in Hr. simpl in Hr.
    apply (elem_of_history d y Hwf), Hmax in Hy. unfold u32_max in Hy.
    unfold wrap32. rewrite Z.mod_small by lia. lia.
  - apply fmap_None, last_u32_None in Hm. destruct (wf_checkpoint d Hwf _ _ _ (proj1 Hx)) as [Hs _].
    by rewrite Hm, lookup_empty in Hs.
Qed.

(** The numbers are not used up: [max_seq + 1] does not wrap. *)
Definition seqs_left (d : ShardTreeDb) : Prop :=
  ∀ seq, is_Some (checkpoint_seq_to_tip d !! seq) → (seq < u32_max)%Z.
Lemma next_seq_fresh d :
  checkpoints_wf d → seqs_left d → checkpoint_seq_to_tip d !! next_checkpoint_seq d = None.
Proof.
  intros Hwf Hleft. apply eq_None_not_Some. intros [t [c Hc]%(wf_seq d Hwf)].
  pose proof (next_seq_above d (mk_CheckpointId (position c) (next_checkpoint_seq d) t, c) Hwf) as Habove.
  simpl in Habove. enough (next_checkpoint_seq d < next_checkpoint_seq d)%Z by lia. apply Habove; [|done].
  intros y [Hy _]%(elem_of_history d y Hwf). apply Hleft.
  destruct (wf_checkpoint d Hwf _ _ _ Hy) as [-> _]. done.
Qed.

Lemma next_seq_range d : (0 ≤ next_checkpoint_seq d < 2 ^ 32)%Z.
Proof.
  unfold next_checkpoint_seq. destruct (max_checkpoint_seq d); [|lia].
  apply Z.mod_pos_bound. lia.
Qed.

(** Deleting the items of a list one after the other. *)
Lemma delete_entry_item d x :
  checkpoints_wf d → in_history d x →
  delete_entry d (item_entry x) = Ok (delete_checkpoint d (cid_pos x.1) (cid_seq x.1) (cid_tip x.1)).
Proof.
  intros Hwf [Hl Hp]. unfold delete_entry, item_entry. cbn [checkpoint_seq_to_tip with_checkpoints_tables].
  destruct (wf_checkpoint d Hwf _ _ _ Hl) as [-> _]. done.
Qed.

Lemma in_history_delete d x y :
  checkpoints_wf d → in_history d x →
  in_history (delete_checkpoint d (cid_pos x.1) (cid_seq x.1) (cid_tip x.1)) y ↔ in_history d y ∧ y ≠ x.
Proof.
  intros Hwf [Hl Hp]. unfold in_history. cbn [checkpoints delete_checkpoint with_checkpoints_tables].
  rewrite lookup_delete_Some. split.
  - intros [[Hne Hy] Hpy]. split_and!; [done..|]. by intros ->.
  - intros [[Hy Hpy] Hne]. split; [|done]. split; [|done]. intros Heq. apply Hne.
    destruct x as [[px sx tx] cx], y as [[py sy ty] cy]. simpl in *. subst.
    rewrite Hl in Hy. by injection Hy as -> ->.
Qed.

Lemma delete_entries d l :
  checkpoints_wf d → NoDup l → (∀ x, x ∈ l → in_history d x) →
  ∃ d', foldR delete_entry d (item_entry <$> l) = Ok d' ∧ checkpoints_wf d'
    ∧ cap d' = cap d ∧ shards d' = shards d
    ∧ ∀ y, in_history d' y ↔ in_history d y ∧ y ∉ l.
Proof.
  revert d. induction l as [|x l IH]; intros d Hwf Hnd Hl.
  { exists d. split_and!; [done..|]. intros y. set_solver. }
  apply NoDup_cons in Hnd as [Hx Hnd].
  assert (in_history d x) as Hdx by (apply Hl; by left).
  rewrite fmap_cons. cbn [foldR]. rewrite delete_entry_item, ok_bind by done.
  destruct (IH (delete_checkpoint d (cid_pos x.1) (cid_seq x.1) (cid_tip x.1)))
    as (d' & Hd' & Hwf' & Hc & Hs & Hy); [|done|..].
  - rewrite <- (proj2 Hdx). apply (wf_delete d _ _ _ Hwf). apply Hdx.
  - intros y Hy. apply in_history_delete; [done..|]. split; [apply Hl; by right|]. by intros ->.
  - exists d'. split_and!; [done..|]. intros y. rewrite Hy, in_history_delete by done. set_solver.
Qed.

(** ** One operation at a time *)
Section operations.
Context `{!BincodeFormat} (d : ShardTreeDb) (Hwf : checkpoints_wf d).

Lemma checkpoint_id_at_history (e : option history_item) :
  (∀ x, e = Some x → x ∈ history d) →
  checkpoint_id_at d (item_entry <$> e) = Ok (fst <$> e).
Proof.
  intros He. destruct e as [[[pos seq tip] c]|]; [|done].
  destruct (proj1 (elem_of_history d _ Hwf) (He _ eq_refl)) as [Hl Hp]. simpl in *.
  by destruct (wf_checkpoint d Hwf _ _ _ Hl) as [-> _].
Qed.

Lemma get_at_depth_history k : get_checkpoint_at_depth (rw d) k = Ok (reverse (history d) !! k).
Proof.
  unfold get_checkpoint_at_depth, read_with. cbn [txn rw ok_or mbind res_bind DbTxn_as_ref].
  unfold rev_iter_through_duplicate_values. rewrite <- history_entries, <- fmap_reverse, list_lookup_fmap by done.
  destruct (reverse (history d) !! k) as [x|] eqn:Hx; [|done]. cbn [fmap option_fmap option_map].
  assert (in_history d x) as Hin.
  { apply (elem_of_history d x Hwf). apply list_elem_of_lookup_2 in Hx. by rewrite elem_of_reverse in Hx. }
  by rewrite (checkpoint_of_item d x Hwf Hin).
Qed.

Lemma min_max_history :
  min_checkpoint_id (rw d) = Ok (fst <$> head (history d))
  ∧ max_checkpoint_id (rw d) = Ok (fst <$> last (history d)).
Proof.
  unfold min_checkpoint_id, max_checkpoint_id, read_with. cbn [txn rw ok_or mbind res_bind DbTxn_as_ref].
  rewrite <- history_entries by done. split.
  - assert (head (item_entry <$> history d) = item_entry <$> head (history d)) as ->
      by by destruct (history d).
    apply checkpoint_id_at_history. intros x Hx. by apply head_Some_elem_of.
  - rewrite fmap_last. apply checkpoint_id_at_history. intros x Hx. by apply last_Some_elem_of.
Qed.

Lemma get_checkpoint_history id c :
  (id, c) ∈ history d → get_checkpoint (rw d) id = Ok (Some c).
Proof.
  intros [Hl Hp]%(elem_of_history d _ Hwf). simpl in *.
  unfold get_checkpoint, read_with. cbn [txn rw ok_or mbind res_bind DbTxn_as_ref]. rewrite Hl.
  unfold check_id. by rewrite !bool_decide_true.
Qed.

Lemma for_each_history {T} limit (callback : T → CheckpointId → Checkpoint → Res StoreError T) t :
  for_each_checkpoint (rw d) limit callback t
  = foldR (λ t x, callback t x.1 x.2) t (take limit (history d)).
Proof.
  unfold for_each_checkpoint, read_with. cbn [txn rw ok_or mbind res_bind DbTxn_as_ref].
  rewrite <- history_entries, <- fmap_take by done.
  assert (Forall (in_history d) (take limit (history d))) as Hf.
  { apply Forall_take, Forall_forall. intros x. by apply elem_of_history. }
  revert t. induction Hf as [|x l Hx Hl IH]; intros t; [done|].
  rewrite fmap_cons. cbn [foldR]. rewrite (checkpoint_of_item d x Hwf Hx), ok_bind.
  destruct x as [id c]. cbn [fst snd]. apply res_bind_ext, IH.
Qed.

Lemma add_history id c :
  position c = cid_pos id → cid_seq id = next_checkpoint_seq d →
  match cid_pos id with Some p => (0 ≤ p < 2 ^ 64)%Z | None => True end →
  checkpoints d !! cid_tip id = None →
  Forall (λ x, cid_seq x.1 < u32_max ∧ option_pos_cmp (cid_pos x.1) (cid_pos id) ≠ Gt)%Z (history d) →
  ∃ d', add_checkpoint (rw d) id c = Ok (tt, rw d') ∧ checkpoints_wf d'
    ∧ cap d' = cap d ∧ shards d' = shards d ∧ history d' = history d ++ [(id, c)].
Proof.
  intros Hp Hs Hr Ht Hf. rewrite Forall_forall in Hf.
  assert (∀ x, in_history d x → cid_seq x.1 < cid_seq id)%Z as Hlt.
  { intros x Hx. rewrite Hs. apply next_seq_above; [done| |done]. intros y Hy. by apply Hf. }
  assert (checkpoint_seq_to_tip d !! cid_seq id = None) as Hfresh.
  { apply eq_None_not_Some. intros [t [c' Hc]%(wf_seq d Hwf)].
    specialize (Hlt (mk_CheckpointId (position c') (cid_seq id) t, c') (conj Hc eq_refl)).
    simpl in Hlt. lia. }
  assert (checkpoints_wf (put_checkpoint d id c)) as Hwf'.
  { apply wf_put; [done..|]. split; [simpl; rewrite Hs; apply next_seq_range|done]. }
  exists (put_checkpoint d id c). split_and!; [|done..|].
  - unfold add_checkpoint. rewrite bool_decide_true by done. cbn [guard_err mbind res_bind].
    unfold write_with. cbn [txn rw ok_or mbind res_bind DbTxn_rwtxn]. by rewrite Ht.
  - apply history_unique; [done|..].
    + apply StronglySorted_app_2; [|by apply history_sorted|by repeat constructor].
      intros x y Hx ->%list_elem_of_singleton. destruct (Hf x Hx) as [_ Hle].
      apply (elem_of_history d x Hwf), Hlt in Hx. unfold item_lt, entry_cmp, item_entry. simpl.
      destruct (option_pos_cmp (cid_pos x.1) (cid_pos id)); [|done..]. by apply Z.compare_lt_iff.
    + intros x. rewrite elem_of_app, elem_of_history, list_elem_of_singleton by done.
      unfold in_history. cbn [checkpoints put_checkpoint with_checkpoints_tables].
      rewrite lookup_insert_Some. split.
      * intros [[Hx Hpx]| ->]; [|by split; [left|]]. split; [|done]. right. split; [|done].
        intros Heq. rewrite <- Heq in Hx. congruence.
      * intros [[[Heq [= Hc Hq]]|[Hne Hx]] Hpx]; [right|by left].
        destruct x as [[px sx tx] cx], id; simplify_eq/=. done.
Qed.

Lemma truncate_history h1 x h2 :
  history d = h1 ++ x :: h2 →
  ∃ d', truncate_checkpoints_retaining (rw d) x.1 = Ok (tt, rw d') ∧ checkpoints_wf d'
    ∧ cap d' = cap d ∧ shards d' = shards d ∧ history d' = h1 ++ [x].
Proof.
  intros Hh. pose proof (history_sorted d Hwf) as Hsort. pose proof (sorted_NoDup _ Hsort) as Hnd.
  assert (in_history d x) as Hx.
  { apply elem_of_history; [done|]. rewrite Hh. set_solver. }
  assert (∀ y, y ∈ h2 → in_history d y) as Hin2.
  { intros y Hy. apply elem_of_history; [done|]. rewrite Hh. set_solver. }
  assert (∀ y, y ∈ h2 → item_lt x y) as Hgt.
  { intros y Hy. rewrite Hh in Hsort. apply StronglySorted_app_1_r, StronglySorted_inv in Hsort as [_ Hf].
    rewrite Forall_forall in Hf. by apply Hf. }
  rewrite Hh in Hnd. apply NoDup_app in Hnd as (_ & _ & [Hx2 Hnd2]%NoDup_cons).
  destruct (delete_entries d (reverse h2) Hwf) as (d' & Hd' & Hwf' & Hc & Hsh & Hmem).
  { by rewrite reverse_Permutation. }
  { intros y Hy. by apply Hin2; rewrite elem_of_reverse in Hy. }
  exists d'. split_and!; [|done..|].
  - unfold truncate_checkpoints_retaining, write_with.
    cbn [txn rw ok_or mbind res_bind DbTxn_rwtxn]. destruct Hx as [Hxl Hxp]. rewrite Hxl.
    cbn [ok_or mbind res_bind]. rewrite !bool_decide_true by done. cbn [guard_err mbind res_bind].
    unfold rev_iter_through_duplicate_values. rewrite <- history_entries, Hh by done.
    rewrite fmap_app, fmap_cons, reverse_app, reverse_cons, <- app_assoc, <- fmap_reverse.
    cbn [app]. rewrite take_while_app.
    + by rewrite Hd'.
    + rewrite Forall_fmap, Forall_forall. intros y Hy. rewrite elem_of_reverse in Hy. apply Hgt in Hy.
      rewrite Hxp. exact (entry_gtb _ _ Hy).
    + unfold item_entry. rewrite Hxp. unfold pos_gtb. rewrite option_pos_cmp_refl. simpl.
      rewrite bool_decide_true by done. simpl. apply Z.ltb_irrefl.
  - apply history_unique; [done|..].
    + rewrite Hh, cons_middle, app_assoc in Hsort. by apply StronglySorted_app_1_l in Hsort.
    + intros y. rewrite Hmem, <- (elem_of_history d y Hwf), Hh, elem_of_reverse.
      rewrite !elem_of_app, !elem_of_cons, elem_of_nil. split.
      * intros [Hy|[->|[]]]; (split; [tauto|]); [|done]. intros Hy2. rewrite Hh in Hsort.
        apply (entry_lt_irrefl (item_entry y)).
        by apply (StronglySorted_app_1_elem_of item_lt _ _ _ _ Hsort); [|right].
      * tauto.
Qed.
End operations.
End facts.

(** ** Properties *)
Section properties.
Context `{E : Externals} `{SE : !ShardTreeExternals}.

Definition position_ok (pos : option Z) : Prop :=
  match pos with Some p => (0 ≤ p < 2 ^ 64)%Z | None => True end.

(** A successful write through a store, as the [shardtree] crate makes them.
    A checkpoint has a 64-bit position; that of a new tip has the number which
    the wallet takes for it, [next_checkpoint_seq], while there are any left. *)
Inductive store_step (d d' : ShardTreeDb) : Prop :=
  | Step_put_shard subtree (H : put_shard (rw d) subtree = Ok (tt, rw d'))
  | Step_truncate_shards i (H : truncate_shards (rw d) i = Ok (tt, rw d'))
  | Step_put_cap c (H : put_cap (rw d) c = Ok (tt, rw d'))
  | Step_add id c (Hpos : position_ok (cid_pos id))
      (Hseq : cid_seq id = next_checkpoint_seq d ∧ seqs_left d ∨ is_Some (checkpoints d !! cid_tip id))
      (H : add_checkpoint (rw d) id c = Ok (tt, rw d'))
  | Step_update id f b (H : update_checkpoint_with (rw d) id f = Ok (b, rw d'))
  | Step_remove id (H : remove_checkpoint (rw d) id = Ok (tt, rw d'))
  | Step_truncate id (H : truncate_checkpoints_retaining (rw d) id = Ok (tt, rw d')).

Lemma write_with_rw {T} d (f : ShardTreeDb → Res StoreError (T * ShardTreeDb)) t d' :
  write_with (rw d) f = Ok (t, rw d') ↔ f d = Ok (t, d').
Proof.
  unfold write_with. cbn [txn rw ok_or mbind res_bind DbTxn_rwtxn].
  destruct (f d) as [[t1 d1]| |]; simpl; [|done..]. split; [by intros [= -> ->]|by intros [= -> ->]].
Qed.

Lemma add_checkpoint_wf d id c d' :
  checkpoints_wf d → position_ok (cid_pos id) →
  cid_seq id = next_checkpoint_seq d ∧ seqs_left d ∨ is_Some (checkpoints d !! cid_tip id) →
  add_checkpoint (rw d) id c = Ok (tt, rw d') → checkpoints_wf d'.
Proof.
  intros Hwf Hpos Hseq H. unfold add_checkpoint in H. res_step H. res_step Hv.
  apply bool_decide_eq_true in Hv. apply write_with_rw in H.
  destruct (checkpoints d !! cid_tip id) as [[oc os]|] eqn:Ht.
  - pose proof (wf_range d Hwf _ _ _ Ht) as [Hrange _].
    destruct (_ && _); [by injection H as <-|]. res_step H. res_step Hv0. apply bool_decide_eq_true in Hv0.
    res_step H. res_step Hv1. apply bool_decide_eq_true in Hv1. injection H as <-. subst os.
    apply wf_put; [by apply wf_delete|..]; [| |done|by split]; simpl; apply lookup_delete_eq.
  - injection H as <-. destruct Hseq as [[Hseq Hleft]|[? Hseq]]; [|done].
    apply wf_put; [done|done| |done|split; [|done]]; simpl; rewrite Hseq; [by apply next_seq_fresh|].
    apply next_seq_range.
Qed.

Lemma truncate_wf d id d' :
  checkpoints_wf d → truncate_checkpoints_retaining (rw d) id = Ok (tt, rw d') → checkpoints_wf d'.
Proof.
  intros Hwf H. unfold truncate_checkpoints_retaining in H. apply write_with_rw in H.
  res_step H. destruct v as [c seq]. do 3 (res_step H). injection H as <-.
  clear Hv0 Hv1 Hv. set (f := λ '(_, _), _) in Hv2.
  assert (NoDup (take_while f (rev_iter_through_duplicate_values d))
    ∧ ∀ e, e ∈ take_while f (rev_iter_through_duplicate_values d) → e ∈ position_to_checkpoint_seq d) as [Hnd Hin].
  { assert (NoDup (rev_iter_through_duplicate_values d)) as Hnd.
    { unfold rev_iter_through_duplicate_values, iter_through_duplicate_values.
      rewrite reverse_Permutation, merge_sort_Permutation. apply NoDup_elements. }
    assert (∀ e, e ∈ rev_iter_through_duplicate_values d → e ∈ position_to_checkpoint_seq d) as Hin.
    { intros e. unfold rev_iter_through_duplicate_values. by rewrite elem_of_reverse, elem_of_iter. }
    revert Hnd Hin. generalize (rev_iter_through_duplicate_values d). intros l.
    induction 1 as [|x l Hx Hl IH]; intros Hin; simpl; [by split; [constructor|]|].
    destruct (f x); [|split; [constructor|by intros e ?%elem_of_nil]].
    destruct IH as [IH1 IH2]; [intros e He; apply Hin; by right|]. split.
    - constructor; [|done]. intros H. apply Hx. clear -H.
      induction l as [|y l IH]; simpl in H; [done|]. destruct (f y); [|by apply elem_of_nil in H].
      apply elem_of_cons in H as [->|H]; [by left|right; auto].
    - intros e [->|He]%elem_of_cons; [apply Hin; by left|by apply IH2]. }
  destruct (entries_items d _ Hwf Hin) as [Hitems Hf].
  set (h := omap _ _) in *. rewrite <- Hitems in Hv2, Hnd. rewrite Forall_forall in Hf.
  destruct (delete_entries d h Hwf) as (d1 & Hd1 & Hwf1 & _); [by apply NoDup_fmap_1 in Hnd|done|].
  rewrite Hd1 in Hv2. by injection Hv2 as <-.
Qed.

Lemma store_step_wf d d' : checkpoints_wf d → store_step d d' → checkpoints_wf d'.
Proof.
  intros Hwf Hstep. destruct Hstep.
  - apply write_with_rw in H. injection H as <-. by apply wf_with_shards.
  - apply write_with_rw in H. injection H as <-. revert Hwf. generalize (shards_iter d).*1.
    intros l. revert d. induction l as [|a l IH]; intros d Hwf; [done|]. apply IH.
    destruct (i <=? index a)%Z; [by apply wf_with_shards|done].
  - apply write_with_rw in H. injection H as <-. by apply wf_with_cap.
  - by eapply add_checkpoint_wf.
  - apply write_with_rw in H. destruct (checkpoints d !! cid_tip id) as [[c seq]|] eqn:Ht;
      [|by injection H as _ <-].
    res_step H. cbn zeta in H. res_step H. res_step H. res_step Hv1. apply bool_decide_eq_true in Hv1.
    injection H as _ <-. by apply (wf_update d _ c).
  - apply write_with_rw in H. destruct (checkpoints d !! cid_tip id) as [[c seq]|] eqn:Ht;
      [|by injection H as <-].
    res_step H. injection H as <-. by apply wf_delete.
  - by eapply truncate_wf.
Qed.

(** C28: The three checkpoint tables stay consistent: from a new store,
    whatever writes succeed on it ([store_step]), if a checkpoint of a new tip
    takes the number [next_checkpoint_seq] gives and this never passes the last
    [u32], and positions have 64 bits, then every checkpoint is
    found under its tip, its number and its position, no entry of one table
    lacks its entries in the others, and the cap is present.  (The store itself
    accepts a used number for a new tip; the wallet never takes one.) *)
Theorem checkpoint_tables_invariant `{!CheckpointLaws} (d : ShardTreeDb)
    (Hreach : rtc store_step (ShardTreeDb_new ShardTreeDb_empty_dbs) d) :
  checkpoints_wf d.
Proof.
  refine (rtc_ind_r checkpoints_wf _ wf_new_empty _ d Hreach).
  intros d1 d2 _ Hstep Hwf. by eapply store_step_wf.
Qed.

(** The store implements a list of checkpoints, oldest first. On
    consistent tables the checkpoint at a depth is found by counting from the
    end; the least and greatest ids are those of the ends; an id of the list
    is found; an iteration visits the list in order; adding a checkpoint with
    the next number, at a position not before the others, appends it; and
    truncating to an id keeps exactly the list up to it, with shards and cap
    untouched: truncation undoes every later addition. *)
Theorem checkpoint_store_refines_history `{!BincodeFormat} (d : ShardTreeDb)
    (Hwf : checkpoints_wf d) :
  (∀ depth, get_checkpoint_at_depth (rw d) depth = Ok (reverse (history d) !! depth))
  ∧ min_checkpoint_id (rw d) = Ok (fst <$> head (history d))
  ∧ max_checkpoint_id (rw d) = Ok (fst <$> last (history d))
  ∧ checkpoint_count (rw d) = Ok (zlen (history d))
  ∧ (∀ id c, (id, c) ∈ history d → get_checkpoint (rw d) id = Ok (Some c))
  ∧ (∀ T limit (callback : T → CheckpointId → Checkpoint → Res StoreError T) t,
      for_each_checkpoint (rw d) limit callback t
      = foldR (λ t x, callback t x.1 x.2) t (take limit (history d)))
  ∧ (∀ id c,
      position c = cid_pos id → cid_seq id = next_checkpoint_seq d →
      match cid_pos id with Some p => (0 ≤ p < 2 ^ 64)%Z | None => True end →
      checkpoints d !! cid_tip id = None →
      Forall (λ x, cid_seq x.1 < u32_max ∧ option_pos_cmp (cid_pos x.1) (cid_pos id) ≠ Gt)%Z (history d) →
      ∃ d', add_checkpoint (rw d) id c = Ok (tt, rw d') ∧ checkpoints_wf d'
        ∧ cap d' = cap d ∧ shards d' = shards d ∧ history d' = history d ++ [(id, c)])
  ∧ (∀ h1 x h2, history d = h1 ++ x :: h2 →
      ∃ d', truncate_checkpoints_retaining (rw d) x.1 = Ok (tt, rw d') ∧ checkpoints_wf d'
        ∧ cap d' = cap d ∧ shards d' = shards d ∧ history d' = h1 ++ [x]).
Proof.
  pose proof (min_max_history d Hwf) as [Hmin Hmax]. split_and!; try done.
  - intros depth. by apply get_at_depth_history.
  - unfold checkpoint_count, read_with. cbn [txn rw ok_or mbind res_bind DbTxn_as_ref].
    by rewrite history_length.
  - intros id c. by apply get_checkpoint_history.
  - intros T limit callback t. by apply for_each_history.
  - intros id c. by apply add_history.
  - intros h1 x h2. by apply truncate_history.
Qed.
End properties.

(** ** Witness *)
Module ShardTreeToy.
#[export] Existing Instance Toy.externals.

(** Trees are lists of leaves; the other types are given by their parts. *)
#[export] Instance shard_externals : ShardTreeExternals := {|
  PrunableTree := list Z; PrunableTree_empty := [];
  LocatedPrunableTree := TreeAddress * list Z;
  from_parts a t := inl (a, t); root_addr := fst; root := snd;
  Checkpoint := TreeState * gset Z; Checkpoint_from_parts s m := (s, m);
  tree_state := fst; marks_removed := snd;
  bincode_option o := match o with None => [x00] | Some l => x01 :: l end;
  bincode_pair a b := a ++ b
|}.
#[export] Instance checkpoint_laws : CheckpointLaws.
Proof. by constructor. Qed.
#[export] Instance bincode_format : BincodeFormat.
Proof. by constructor. Qed.

Definition checkpoint1 : Checkpoint := Checkpoint_from_parts (AtPosition 300) ∅.
Definition id1 : CheckpointId := mk_CheckpointId (Some 300%Z) 1 (Some (le_vec 32 7)).
Definition db0 : ShardTreeDb := ShardTreeDb_new ShardTreeDb_empty_dbs.
Definition db1 : ShardTreeDb := put_checkpoint db0 id1 checkpoint1.

Example id1_seq : cid_seq id1 = next_checkpoint_seq db0.
Proof. vm_compute. reflexivity. Qed.

Lemma add1 : add_checkpoint (rw db0) id1 checkpoint1 = Ok (tt, rw db1).
Proof. reflexivity. Qed.

Lemma checkpoint_tables_invariant_witness : checkpoints_wf db1.
Proof.
  apply (checkpoint_tables_invariant db1). apply rtc_once.
  apply (Step_add _ _ id1 checkpoint1); [|left; split; [exact id1_seq|]|exact add1].
  - split; simpl; lia.
  - intros seq [t Ht]. assert (({[0%Z := None]} : gmap Z (option BlockHash)) !! seq = Some t) as Hs by exact Ht.
    apply lookup_singleton_Some in Hs as [<- _]. reflexivity.
Defined.

Lemma checkpoint_store_refines_history_witness :
  ∃ d', truncate_checkpoints_retaining (rw db1)
      (mk_CheckpointId None 0 None) = Ok (tt, rw d') ∧ length (history d') = 1
    ∧ length (history db1) = 2.
Proof.
  assert (checkpoints_wf db1) as Hwf.
  { apply wf_put; [apply wf_new_empty|reflexivity..|]. split; simpl; lia. }
  destruct (checkpoint_store_refines_history db1 Hwf) as (_ & _ & _ & _ & _ & _ & _ & Htrunc).
  assert (history db1 = [] ++ (mk_CheckpointId None 0 None, Checkpoint_tree_empty) :: [(id1, checkpoint1)]) as Hh.
  { vm_compute. reflexivity. }
  destruct (Htrunc _ _ _ Hh) as (d' & Hd' & _ & _ & _ & Hl).
  exists d'. rewrite Hl, Hh. split_and!; [exact Hd'|reflexivity..].
Defined.
End ShardTreeToy.
