(* ===== verification/Authorization.v ===== *)
(** Authorizations ([src/lib/authorization.rs]): addresses, signing, and the
    verification of one transaction and of a whole body.

    The body verifies its signatures in chunks of [CHUNK_SIZE], over messages
    that are repeated once per input.  [verify_authorizations_spec] shows that
    this accepts exactly the bodies that split into authorized transactions
    each of which verifies on its own. *)
From S2P Require Import Prelude Borsh Externals Toy Types.

Section authorization.
Context `{E : Externals}.

Definition get_address (verifying_key : VerifyingKey) : TransparentAddress :=
  blake3_xof20 (vec_to_list (vk_bytes verifying_key)).

Inductive AuthError :=
  | DalekError
  | NotEnoughAuthorizations
  | TooManyAuthorizations
  | OrchardProof
  | OrchardSignature
  | WrongKeyForAddress (address hash_verifying_key : TransparentAddress).

#[export] Instance Authorization_serialize : BorshSerialize Authorization := λ a,
  borsh (vk_bytes (verifying_key a)) ++ borsh (sig_bytes (signature a)).

Definition Authorization_get_address (a : Authorization) : TransparentAddress :=
  get_address (verifying_key a).

(** Verify the orchard authorization of a transaction: binding signature,
    spend authorizations, proof. *)
Definition verify_orchard (tx : Transaction) : Res AuthError unit :=
  match orchard_bundle tx with
  | Some orchard_bundle =>
      let txid := vec_to_list (txid tx) in
      _ ← guard_err (bundle_verify_binding orchard_bundle txid) OrchardSignature;
      _ ← guard_err (bundle_verify_spend_auth orchard_bundle txid) OrchardSignature;
      guard_err (bundle_verify_proof orchard_bundle) OrchardProof
  | None => Ok tt
  end.

(** The [match authorizations.len().cmp(required)] of both verifiers. *)
Definition check_count (n required : nat) : Res AuthError unit :=
  match Nat.compare n required with
  | Lt => Err NotEnoughAuthorizations
  | Eq => Ok tt
  | Gt => Err TooManyAuthorizations
  end.

Definition verify_authorized_transaction (t : AuthorizedTransaction) : Res AuthError unit :=
  let auths := authorizations t in
  _ ← check_count (length auths) (length (inputs (at_transaction t)));
  _ ← verify_orchard (at_transaction t);
  let tx_bytes_canonical := borsh (at_transaction t) in
  let messages := replicate (length auths) tx_bytes_canonical in
  guard_err (verify_batch messages (signature <$> auths) (verifying_key <$> auths)) DalekError.

Definition CHUNK_SIZE : nat := 2 ^ 14.

(** [slice::chunks]; [length l] chunks are enough. *)
Fixpoint chunks_fuel {A} (fuel n : nat) (l : list A) : list (list A) :=
  match fuel, l with
  | O, _ | _, [] => []
  | S fuel, _ => take n l :: chunks_fuel fuel n (drop n l)
  end.
Definition chunks {A} (n : nat) (l : list A) : list (list A) := chunks_fuel (length l) n l.

(** [try_for_each] *)
Definition for_each {A} (f : A → Res AuthError unit) (l : list A) : Res AuthError unit :=
  foldR (λ _, f) tt l.

Definition verify_chunk (chunk : list (Authorization * list byte)) : Res AuthError unit :=
  guard_err (verify_batch (snd <$> chunk) (signature ∘ fst <$> chunk)
               (verifying_key ∘ fst <$> chunk)) DalekError.

Definition verify_authorizations (body : Body) : Res AuthError unit :=
  _ ← for_each verify_orchard (transactions body);
  let verifications_required := sum_list ((λ tx, length (inputs tx)) <$> transactions body) in
  _ ← check_count (length (body_authorizations body)) verifications_required;
  if bool_decide (verifications_required = 0) then Ok tt
  else
    let messages := mjoin ((λ tx, replicate (length (inputs tx)) (borsh tx))
                           <$> transactions body) in
    let pairs := zip (body_authorizations body) messages in
    _ ← assert_true (bool_decide (length pairs = length (body_authorizations body)));
    for_each verify_chunk (chunks CHUNK_SIZE pairs).

Definition sign (signing_key : SigningKey) (tx : Transaction) : Signature :=
  sign_bytes signing_key (borsh tx).

Definition authorize (addresses_signing_keys : list (TransparentAddress * SigningKey))
    (tx : Transaction) : Res AuthError AuthorizedTransaction :=
  let tx_bytes_canonical := borsh tx in
  authorizations ← foldR (λ auths '(address, signing_key),
      let hash_verifying_key := get_address (verifying_key_of signing_key) in
      _ ← guard_err (bool_decide (address = hash_verifying_key))
            (WrongKeyForAddress address hash_verifying_key);
      Ok (auths ++ [mk_Authorization (verifying_key_of signing_key)
                      (sign_bytes signing_key tx_bytes_canonical)]))
    [] addresses_signing_keys;
  Ok (mk_AuthorizedTransaction tx authorizations).

(** Documented behaviour of the [ed25519_dalek] crate: a batch verifies when
    every member does, and a signature verifies under the key that made it. *)
Class BatchVerify : Prop := {
  verify_batch_spec (l : list (list byte * Signature * VerifyingKey)) :
    verify_batch l.*1.*1 l.*1.*2 l.*2
    = forallb (λ p, verify_batch [p.1.1] [p.1.2] [p.2]) l
}.
Class SignVerify : Prop := {
  verify_sign k m : verify_batch [m] [sign_bytes k m] [verifying_key_of k] = true
}.

(** *** Lemmas *)
Lemma foldR_unit_Ok {A} (f : A → Res AuthError unit) l :
  for_each f l = Ok tt ↔ Forall (λ a, f a = Ok tt) l.
Proof.
  unfold for_each. induction l as [|a l IH]; simpl; [by split; [constructor|]|].
  rewrite Forall_cons, bind_Ok, <- IH. split.
  - intros ([] & ? & ?). done.
  - intros [? ?]. by exists tt.
Qed.

Lemma check_count_Ok n m : check_count n m = Ok tt ↔ n = m.
Proof.
  unfold check_count. destruct (Nat.compare_spec n m); split; intros; try done; lia.
Qed.

Lemma chunks_fuel_concat {A} fuel n (l : list A) :
  0 < n → length l ≤ fuel → mjoin (chunks_fuel fuel n l) = l.
Proof.
  intros Hn. revert l. induction fuel as [|fuel IH]; intros l Hl; simpl.
  - destruct l; simpl in *; [done|lia].
  - destruct l as [|a l]; [done|]. cbn [mjoin list_join].
    rewrite IH; [apply take_drop|]. rewrite length_drop. simpl in *. lia.
Qed.

Lemma chunks_concat {A} n (l : list A) : 0 < n → mjoin (chunks n l) = l.
Proof. intros. by apply chunks_fuel_concat. Qed.

Lemma Forall_mjoin {A} (P : A → Prop) (ls : list (list A)) :
  Forall P (mjoin ls) ↔ Forall (Forall P) ls.
Proof.
  induction ls as [|l ls IH]; [by split; constructor|].
  cbn [mjoin list_join]. by rewrite Forall_app, Forall_cons, IH.
Qed.

Definition pair_ok (p : Authorization * list byte) : Prop :=
  verify_batch [p.2] [signature p.1] [verifying_key p.1] = true.

Lemma verify_chunk_Ok `{!BatchVerify} chunk :
  verify_chunk chunk = Ok tt ↔ Forall pair_ok chunk.
Proof.
  unfold verify_chunk. rewrite guard_err_Ok.
  pose proof (verify_batch_spec
    ((λ p, (p.2, signature p.1, verifying_key p.1)) <$> chunk)) as Hb.
  rewrite <- !list_fmap_compose in Hb.
  change (verify_batch (snd <$> chunk) (signature ∘ fst <$> chunk)
    (verifying_key ∘ fst <$> chunk) = forallb (λ p, verify_batch [p.1.1] [p.1.2] [p.2])
      ((λ p, (p.2, signature p.1, verifying_key p.1)) <$> chunk)) in Hb.
  rewrite Hb, forallb_forall, Forall_forall. split.
  - intros Hall p Hp. apply (Hall (p.2, signature p.1, verifying_key p.1)).
    apply list_elem_of_In. apply list_elem_of_fmap. eauto.
  - intros Hall x Hx. apply list_elem_of_In, list_elem_of_fmap in Hx as (p & -> & Hp).
    by apply Hall.
Qed.

Lemma chunks_verify `{!BatchVerify} n pairs :
  0 < n →
  for_each verify_chunk (chunks n pairs) = Ok tt ↔ Forall pair_ok pairs.
Proof.
  intros Hn. rewrite foldR_unit_Ok. rewrite <- (chunks_concat n pairs) at 2 by done.
  rewrite Forall_mjoin. apply Forall_iff. intros c. apply verify_chunk_Ok.
Qed.

(** One transaction, as its pairs. *)
Lemma verify_authorized_transaction_Ok `{!BatchVerify} t :
  verify_authorized_transaction t = Ok tt ↔
    length (authorizations t) = length (inputs (at_transaction t)) ∧
    verify_orchard (at_transaction t) = Ok tt ∧
    Forall pair_ok (zip (authorizations t)
      (replicate (length (inputs (at_transaction t))) (borsh (at_transaction t)))).
Proof.
  unfold verify_authorized_transaction. rewrite bind_Ok.
  assert (∀ m : list byte, verify_chunk (zip (authorizations t)
     (replicate (length (authorizations t)) m)) = guard_err (verify_batch
     (replicate (length (authorizations t)) m) (signature <$> authorizations t)
     (verifying_key <$> authorizations t)) DalekError) as Hv.
  { intros m. unfold verify_chunk. rewrite !list_fmap_compose, fst_zip, snd_zip;
      [done|rewrite length_replicate; lia..]. }
  split.
  - intros ([] & Hc & Hok). apply check_count_Ok in Hc. apply bind_Ok in Hok as ([] & Ho & Hok).
    rewrite <- Hv in Hok. apply verify_chunk_Ok in Hok. by rewrite <- Hc.
  - intros (Hc & Ho & Hok). exists tt. split; [by apply check_count_Ok|].
    rewrite Ho. cbn [mbind res_bind]. rewrite <- Hv. apply verify_chunk_Ok.
    by rewrite Hc.
Qed.

Lemma take_unwrap_Ok {A} n (l : list A) :
  n ≤ length l → take_unwrap n l = Ok (take n l, drop n l).
Proof.
  revert l. induction n as [|n IH]; intros l Hl; [done|].
  destruct l as [|a l]; simpl in *; [lia|]. by rewrite IH by lia.
Qed.

Lemma authorized_transactions_split txs auths :
  length auths = sum_list ((λ tx, length (inputs tx)) <$> txs) →
  ∃ ats, authorized_transactions_loop txs auths = Ok ats
    ∧ at_transaction <$> ats = txs ∧ mjoin (authorizations <$> ats) = auths
    ∧ Forall (λ a, length (authorizations a) = length (inputs (at_transaction a))) ats.
Proof.
  revert auths. induction txs as [|tx txs IH]; intros auths Hl; csimpl in *.
  - apply length_zero_iff_nil in Hl as ->. by exists [].
  - rewrite take_unwrap_Ok by lia. cbn [mbind res_bind].
    destruct (IH (drop (length (inputs tx)) auths)) as (ats & -> & Ht & Hm & Hf);
      [rewrite length_drop; lia|].
    cbn [mbind res_bind]. eexists. split; [done|]. csimpl. split_and!.
    + by rewrite Ht.
    + rewrite Hm. apply take_drop.
    + constructor; [|done]. simpl. rewrite length_take. lia.
Qed.

Lemma zip_messages ats :
  Forall (λ a, length (authorizations a) = length (inputs (at_transaction a))) ats →
  zip (mjoin (authorizations <$> ats))
    (mjoin ((λ tx, replicate (length (inputs tx)) (borsh tx)) <$> (at_transaction <$> ats)))
  = mjoin ((λ a, zip (authorizations a)
      (replicate (length (inputs (at_transaction a))) (borsh (at_transaction a)))) <$> ats).
Proof.
  induction 1 as [|a ats Ha _ IH]; [done|]. csimpl.
  rewrite zip_with_app by (by rewrite length_replicate). f_equal. apply IH.
Qed.

Lemma verify_authorizations_Ok `{!BatchVerify} body :
  verify_authorizations body = Ok tt ↔
    Forall (λ tx, verify_orchard tx = Ok tt) (transactions body) ∧
    length (body_authorizations body) = sum_list ((λ tx, length (inputs tx)) <$> transactions body) ∧
    Forall pair_ok (zip (body_authorizations body)
      (mjoin ((λ tx, replicate (length (inputs tx)) (borsh tx)) <$> transactions body))).
Proof.
  unfold verify_authorizations. rewrite bind_Ok.
  assert (length (mjoin ((λ tx, replicate (length (inputs tx)) (borsh tx))
    <$> transactions body)) = sum_list ((λ tx, length (inputs tx)) <$> transactions body)) as Hlen.
  { induction (transactions body) as [|tx txs IH]; [done|]. csimpl.
    by rewrite length_app, length_replicate, IH. }
  set (msgs := mjoin _) in *. set (req := sum_list _) in *.
  assert (∀ a : list Authorization, length a = req → length (zip a msgs) = length a) as Hz.
  { intros a Ha. rewrite length_zip_with. lia. }
  split.
  - intros ([] & Ho & Hok). apply foldR_unit_Ok in Ho. apply bind_Ok in Hok as ([] & Hc & Hok).
    apply check_count_Ok in Hc. split_and!; [done..|].
    case_bool_decide as H0.
    + rewrite H0 in Hc. apply length_zero_iff_nil in Hc. rewrite Hc. constructor.
    + apply bind_Ok in Hok as ([] & _ & Hok). apply chunks_verify in Hok; [done|].
      unfold CHUNK_SIZE. apply Nat.neq_0_lt_0, Nat.pow_nonzero. lia.
  - intros (Ho & Hc & Hp). exists tt. split; [by apply foldR_unit_Ok|].
    rewrite (proj2 (check_count_Ok _ _) Hc). cbn [mbind res_bind].
    case_bool_decide; [done|]. rewrite Hz by done. rewrite bool_decide_true by done.
    cbn [assert_true mbind res_bind]. apply chunks_verify; [|done].
    unfold CHUNK_SIZE. apply Nat.neq_0_lt_0, Nat.pow_nonzero. lia.
Qed.
End authorization.

(** ** Properties *)
Section properties.
Context `{E : Externals}.

(** C27: The batched, chunked verification of a body is equivalent to the
    per-transaction one: [verify_authorizations] accepts a body exactly when
    [Body::authorized_transactions] splits it into its transactions, using up
    all the authorizations, and each of them passes
    [verify_authorized_transaction]. *)
Theorem verify_authorizations_spec `{!BatchVerify} (body : Body) :
  verify_authorizations body = Ok tt ↔
    ∃ ats, authorized_transactions body = Ok ats
      ∧ mjoin (authorizations <$> ats) = body_authorizations body
      ∧ Forall (λ a, verify_authorized_transaction a = Ok tt) ats.
Proof.
  destruct body as [cb txs auths].
  unfold authorized_transactions. rewrite verify_authorizations_Ok. simpl. split.
  - intros (Ho & Hl & Hp).
    destruct (authorized_transactions_split txs auths Hl) as (ats & Hok & Ht & Hm & Hf).
    exists ats. split_and!; [done..|]. rewrite <- Ht in Ho, Hp. rewrite <- Hm in Hp.
    rewrite zip_messages, Forall_mjoin in Hp by done. rewrite Forall_fmap in Ho. rewrite Forall_fmap in Hp.
    rewrite Forall_forall in *. intros a Ha.
    apply verify_authorized_transaction_Ok. split_and!;
      [by apply Hf | by apply (Ho a) | by apply (Hp a)].
  - intros (ats & Hok & Hm & Hv).
    assert (Hf : Forall (λ a, length (authorizations a) = length (inputs (at_transaction a))) ats).
    { eapply Forall_impl; [exact Hv|]. intros a Ha.
      by apply verify_authorized_transaction_Ok in Ha as (? & _). }
    assert (Ht : at_transaction <$> ats = txs).
    { clear Hm Hv Hf. revert auths ats Hok.
      induction txs as [|tx txs IH]; intros auths ats Hok; cbn [authorized_transactions_loop] in Hok.
      - by injection Hok as <-.
      - apply bind_Ok in Hok as ([mine rest] & _ & Hok).
        apply bind_Ok in Hok as (ats' & Hr & Hok). injection Hok as <-.
        csimpl. f_equal. by eapply IH. }
    rewrite <- Ht, <- Hm, zip_messages, Forall_mjoin, !Forall_fmap by done.
    split_and!.
    + eapply Forall_impl; [exact Hv|]. intros a Ha.
      by apply verify_authorized_transaction_Ok in Ha as (_ & ? & _).
    + clear -Hf. induction Hf as [|a ats Ha _ IH]; [done|]. csimpl.
      rewrite length_app. lia.
    + eapply Forall_impl; [exact Hv|]. intros a Ha.
      by apply verify_authorized_transaction_Ok in Ha as (_ & _ & ?).
Qed.

(** Signing is complete: when every given address is the address of the
    key given with it, [authorize] succeeds with one authorization per key for
    that address, and, given one key per input, the authorized transaction
    passes [verify_authorized_transaction]. *)
Theorem authorize_verifies `{!BatchVerify, !SignVerify} (tx : Transaction)
    (keys : list SigningKey)
    (Hlen : length keys = length (inputs tx)) (Horchard : verify_orchard tx = Ok tt) :
  ∃ t, authorize ((λ k, (get_address (verifying_key_of k), k)) <$> keys) tx = Ok t
    ∧ at_transaction t = tx
    ∧ Authorization_get_address <$> authorizations t
      = (λ k, get_address (verifying_key_of k)) <$> keys
    ∧ verify_authorized_transaction t = Ok tt.
Proof.
  pose (auth k := mk_Authorization (verifying_key_of k) (sign_bytes k (borsh tx))).
  exists (mk_AuthorizedTransaction tx (auth <$> keys)). split_and!.
  - unfold authorize.
    assert (∀ acc, foldR (λ auths '(address, signing_key),
        _ ← guard_err (bool_decide (address = get_address (verifying_key_of signing_key)))
              (WrongKeyForAddress address (get_address (verifying_key_of signing_key)));
        Ok (auths ++ [mk_Authorization (verifying_key_of signing_key)
                      (sign_bytes signing_key (borsh tx))])) acc
        ((λ k, (get_address (verifying_key_of k), k)) <$> keys)
      = Ok (acc ++ (auth <$> keys))) as Hloop.
    { clear Hlen. induction keys as [|k keys IH]; intros acc; csimpl.
      - by rewrite app_nil_r.
      - rewrite bool_decide_true by done. cbn [guard_err mbind res_bind].
        by rewrite IH, <- app_assoc. }
    by rewrite Hloop.
  - done.
  - simpl. rewrite <- list_fmap_compose. done.
  - apply verify_authorized_transaction_Ok. simpl. rewrite length_fmap.
    split_and!; [done..|]. rewrite <- Hlen. clear Hlen.
    induction keys as [|k keys IH]; csimpl; constructor; [apply verify_sign|done].
Qed.
End properties.

Module AuthorizationToy.
#[local] Existing Instance Toy.externals.

#[export] Instance batch_verify : BatchVerify.
Proof.
  constructor. intros l. cbn [verify_batch Toy.externals].
  apply eq_true_iff_eq. rewrite bool_decide_eq_true, forallb_forall.
  setoid_rewrite bool_decide_eq_true. split.
  - intros Heq x Hx. f_equal. induction l as [|y l IH]; [done|]. csimpl in Heq.
    injection Heq as Hy Heq. destruct Hx as [<-|Hx]; [done|auto].
  - intros Hall. induction l as [|y l IH]; [done|]. csimpl. f_equal.
    + pose proof (Hall y (or_introl eq_refl)) as Hy. by injection Hy.
    + apply IH. intros x Hx. apply Hall. by right.
Qed.

#[export] Instance sign_verify : SignVerify.
Proof. constructor. intros k m. cbn. by apply bool_decide_true. Qed.

Definition tx : Transaction :=
  mk_Transaction [(Regular (le_vec 32 1) (u32_of_Z 0), le_vec 32 5);
                  (Regular (le_vec 32 2) (u32_of_Z 1), le_vec 32 6)] [] [] None.
Definition keys : list SigningKey := [11%Z; 12%Z].
Definition auth (k : SigningKey) : Authorization :=
  mk_Authorization (verifying_key_of k) (sign k tx).

Lemma verify_authorizations_spec_witness :
  verify_authorizations (mk_Body [] [tx] (auth <$> keys)) = Ok tt.
Proof.
  apply (proj2 (verify_authorizations_spec (mk_Body [] [tx] (auth <$> keys)))).
  exists [mk_AuthorizedTransaction tx (auth <$> keys)].
  split_and!; [reflexivity|reflexivity|].
  constructor; [reflexivity|constructor].
Defined.

Lemma authorize_verifies_witness :
  ∃ t, authorize ((λ k, (get_address (verifying_key_of k), k)) <$> keys) tx = Ok t
    ∧ at_transaction t = tx
    ∧ Authorization_get_address <$> authorizations t
      = (λ k, get_address (verifying_key_of k)) <$> keys
    ∧ verify_authorized_transaction t = Ok tt.
Proof. apply (authorize_verifies tx keys); reflexivity. Defined.
End AuthorizationToy.
