(* ===== verification/Wallet.v ===== *)
(** The wallet ([src/lib/wallet/mod.rs]).

    A wallet is the contents of its LMDB tables.  Keys are derived from the
    seed by the [bitcoin] and [orchard] crates, notes are decrypted and bundles
    built by [orchard], and the note commitment tree is the [shardtree] crate's
    over the store of [ShardTreeDb.v]: all of these are parameters
    ([WalletExternals]).  Random choices are parameters too.  A function of the
    source that commits a write transaction of its own returns the wallet
    afterwards; on an error nothing is committed. *)
From S2P Require Import Prelude.
From S2P Require Import Borsh.
From S2P Require Import Externals.
From S2P Require Import Types.
From S2P Require Import AccumulatorDiff.
From S2P Require Import Authorization.
From S2P Require Import Keys.
From S2P Require Import ShardTreeDb.

(** [bitcoin::bip32::ChildNumber] *)
Inductive ChildNumber := Hardened (index : Z) | Normal (index : Z).
(** [zip32::Scope] *)
Inductive Scope := External | Internal.
(** [incrementalmerkletree::Retention], as far as it is used *)
Inductive Retention := Marked | Ephemeral.
(** [orchard::builder::OutputError] *)
Inductive OutputError := OutputsDisabled | OtherOutputError.
(** [orchard::builder::BuildError] *)
Inductive BuildError := BuildOutputsDisabled | OtherBuildError.

Class WalletExternals `{E : Externals} `{SE : !ShardTreeExternals} := {
  (** *** [bitcoin::bip32] and [ed25519_dalek] *)
  Xpriv : Type;
  new_master : list byte → option Xpriv;
  derive_priv : Xpriv → list ChildNumber → option Xpriv;
  secret_bytes : Xpriv → vec byte 32;
  signing_key_from : vec byte 32 → SigningKey;

  (** *** [orchard::keys], [orchard::zip32] *)
  SpendingKey : Type;
  from_zip32_seed : vec byte 32 → Z → Z → option SpendingKey;
  SpendAuthorizingKey : Type;
  spend_authorizing_key : SpendingKey → SpendAuthorizingKey;
  FullViewingKey : Type;
  full_viewing_key : SpendingKey → FullViewingKey;
  IncomingViewingKey : Type;
  to_ivk : FullViewingKey → Scope → IncomingViewingKey;
  OutgoingViewingKey : Type;
  to_ovk : FullViewingKey → Scope → OutgoingViewingKey;
  OrchardAddress : Type;
  OrchardAddress_eq_dec :: EqDecision OrchardAddress;
  OrchardAddress_countable :: Countable OrchardAddress;
  address_at : FullViewingKey → Z → Scope → OrchardAddress;

  (** *** notes, as wrapped by [types::orchard] *)
  Note : Type;
  note_value : Note → Amount;
  note_nullifier : Note → FullViewingKey → Nullifier;
  nullifier_cmp : Nullifier → Nullifier → comparison;
  (** index of the action, note and memo *)
  decrypt_outputs_with_keys : Bundle → list IncomingViewingKey → list (nat * Note * list byte);
  recover_outputs_with_ovks : Bundle → list OutgoingViewingKey → list (nat * Note * list byte);
  merkle_hash_from_cmx : ExtractedNoteCommitment → MerkleHashOrchard;

  (** *** [orchard::builder] *)
  MerklePath : Type;
  BundleFlags : Type;
  FLAGS_ENABLED : BundleFlags;
  FLAGS_SPENDS_DISABLED : BundleFlags;
  Builder : Type;
  builder_new : BundleFlags → bool → Anchor → Builder;
  builder_add_spend : Builder → FullViewingKey → Note → MerklePath → option Builder;
  builder_add_output : Builder → option OutgoingViewingKey → OrchardAddress → Z → list byte →
    Builder + OutputError;
  builder_spends : Builder → nat;
  builder_outputs : Builder → nat;
  builder_value_balance : Builder → option Z;
  UnprovenBundle : Type;
  orchard_build : Builder → option (option UnprovenBundle);
  UnauthorizedBundle : Type;
  create_proof : UnprovenBundle → option UnauthorizedBundle;
  unauthorized_ser_without_auth : UnauthorizedBundle → list byte;
  apply_signatures : UnauthorizedBundle → Hash → list SpendAuthorizingKey → option Bundle;

  (** *** [shardtree] *)
  ShardTree : Type;
  ShardTreeError : Type;
  caching_store_load : ShardTreeStore → Res StoreError ShardTree;
  caching_store_flush : ShardTree → ShardTreeStore → Res StoreError ShardTreeStore;
  max_leaf_position : ShardTree → Res ShardTreeError (option Z);
  tree_append : ShardTree → MerkleHashOrchard → Retention → Res ShardTreeError ShardTree;
  tree_checkpoint : ShardTree → CheckpointId → Res ShardTreeError (bool * ShardTree);
  truncate_to_checkpoint : ShardTree → CheckpointId → Res ShardTreeError (bool * ShardTree);
  root_at_checkpoint_depth : ShardTree → nat → Res ShardTreeError (option MerkleHashOrchard);
  witness_at_checkpoint_depth : ShardTree → Z → nat → Res ShardTreeError (option MerklePath);

  (** *** sorting, and the random choices of [rand] *)
  sort_unstable_by_value : list (OutPoint * Output) → list (OutPoint * Output);
  shuffle : list Nullifier → list Nullifier;
  choose : list Nullifier → option Nullifier;
  dummy_address : nat → OrchardAddress
}.

Section wallet.
Context `{E : Externals} `{SE : !ShardTreeExternals} `{WE : !WalletExternals}.

Abbreviation NotePosition := (Note * Z)%type.

(** ** Errors *)
Inductive WalletError :=
  | W_AddressDoesNotExist (address : TransparentAddress)
  | W_AmountOverflow
  | W_AmountUnderflow
  | W_Authorization
  | W_Bip32
  | W_Db
  | W_NoIndex (address : TransparentAddress)
  | W_NoSeed
  | W_NotEnoughFunds
  | W_NoUtxo
  | W_OrchardBalance
  | W_OrchardBuilder (e : BuildError)
  | W_OrchardOutput (e : OutputError)
  | W_OrchardShardTree (e : ShardTreeError)
  | W_OrchardShardTreeTruncate (checkpoint : option BlockHash)
  | W_OrchardShardTreeStore (e : StoreError)
  | W_OrchardSpend
  | W_ParseMnemonic
  | W_SeedAlreadyExists
  | W_Utreexo
  | W_Zip32.

Record Balance := mk_Balance {
  total_shielded : Amount;
  total_transparent : Amount;
  available_shielded : Amount;
  available_transparent : Amount
}.
(** [Balance::total], [Balance::available]: the sums panic on overflow. *)
Definition Balance_total {Er} (b : Balance) : Res Er Amount :=
  expect (checked_add (total_shielded b) (total_transparent b)).
Definition Balance_available {Er} (b : Balance) : Res Er Amount :=
  expect (checked_add (available_shielded b) (available_transparent b)).

(** ** The tables *)
Record Wallet := mk_Wallet {
  w_seed : option (list byte);
  w_address_to_index : gmap TransparentAddress Z;
  w_index_to_address : gmap Z TransparentAddress;
  w_orchard_address_to_index : gmap OrchardAddress Z;
  w_orchard_index_to_address : gmap Z OrchardAddress;
  w_orchard_memos : gmap (Txid * Z) (list byte);
  w_orchard_note_commitments : ShardTreeDb;
  w_orchard_notes : gmap Nullifier NotePosition;
  w_orchard_notes_unconfirmed : gmap Nullifier Note;
  w_orchard_spent_notes : gmap (Txid * Z) NotePosition;
  w_orchard_spent_notes_unconfirmed : gmap (Txid * Z) NotePosition;
  w_utxos : gmap OutPoint Output;
  w_utxos_unconfirmed : gmap OutPoint Output;
  w_stxos : gmap OutPoint SpentOutput;
  w_stxos_unconfirmed : gmap OutPoint SpentOutput;
  w_tip : option BlockHash
}.

(** [put], [delete] and [clear] on one or more tables. *)
Definition with_seed (w : Wallet) s : Wallet :=
  mk_Wallet s (w_address_to_index w) (w_index_to_address w) (w_orchard_address_to_index w)
    (w_orchard_index_to_address w) (w_orchard_memos w) (w_orchard_note_commitments w)
    (w_orchard_notes w) (w_orchard_notes_unconfirmed w) (w_orchard_spent_notes w)
    (w_orchard_spent_notes_unconfirmed w) (w_utxos w) (w_utxos_unconfirmed w) (w_stxos w)
    (w_stxos_unconfirmed w) (w_tip w).
Definition with_addresses (w : Wallet) a i : Wallet :=
  mk_Wallet (w_seed w) a i (w_orchard_address_to_index w) (w_orchard_index_to_address w)
    (w_orchard_memos w) (w_orchard_note_commitments w) (w_orchard_notes w)
    (w_orchard_notes_unconfirmed w) (w_orchard_spent_notes w) (w_orchard_spent_notes_unconfirmed
    w) (w_utxos w) (w_utxos_unconfirmed w) (w_stxos w) (w_stxos_unconfirmed w) (w_tip w).
Definition with_orchard_addresses (w : Wallet) a i : Wallet :=
  mk_Wallet (w_seed w) (w_address_to_index w) (w_index_to_address w) a i (w_orchard_memos w)
    (w_orchard_note_commitments w) (w_orchard_notes w) (w_orchard_notes_unconfirmed w)
    (w_orchard_spent_notes w) (w_orchard_spent_notes_unconfirmed w) (w_utxos w)
    (w_utxos_unconfirmed w) (w_stxos w) (w_stxos_unconfirmed w) (w_tip w).
Definition with_memos (w : Wallet) m : Wallet :=
  mk_Wallet (w_seed w) (w_address_to_index w) (w_index_to_address w)
    (w_orchard_address_to_index w) (w_orchard_index_to_address w) m (w_orchard_note_commitments
    w) (w_orchard_notes w) (w_orchard_notes_unconfirmed w) (w_orchard_spent_notes w)
    (w_orchard_spent_notes_unconfirmed w) (w_utxos w) (w_utxos_unconfirmed w) (w_stxos w)
    (w_stxos_unconfirmed w) (w_tip w).
Definition with_note_commitments (w : Wallet) d : Wallet :=
  mk_Wallet (w_seed w) (w_address_to_index w) (w_index_to_address w)
    (w_orchard_address_to_index w) (w_orchard_index_to_address w) (w_orchard_memos w) d
    (w_orchard_notes w) (w_orchard_notes_unconfirmed w) (w_orchard_spent_notes w)
    (w_orchard_spent_notes_unconfirmed w) (w_utxos w) (w_utxos_unconfirmed w) (w_stxos w)
    (w_stxos_unconfirmed w) (w_tip w).
Definition with_notes (w : Wallet) n u : Wallet :=
  mk_Wallet (w_seed w) (w_address_to_index w) (w_index_to_address w)
    (w_orchard_address_to_index w) (w_orchard_index_to_address w) (w_orchard_memos w)
    (w_orchard_note_commitments w) n u (w_orchard_spent_notes w)
    (w_orchard_spent_notes_unconfirmed w) (w_utxos w) (w_utxos_unconfirmed w) (w_stxos w)
    (w_stxos_unconfirmed w) (w_tip w).
Definition with_spent_notes (w : Wallet) s u : Wallet :=
  mk_Wallet (w_seed w) (w_address_to_index w) (w_index_to_address w)
    (w_orchard_address_to_index w) (w_orchard_index_to_address w) (w_orchard_memos w)
    (w_orchard_note_commitments w) (w_orchard_notes w) (w_orchard_notes_unconfirmed w) s u
    (w_utxos w) (w_utxos_unconfirmed w) (w_stxos w) (w_stxos_unconfirmed w) (w_tip w).
Definition with_utxos (w : Wallet) u v : Wallet :=
  mk_Wallet (w_seed w) (w_address_to_index w) (w_index_to_address w)
    (w_orchard_address_to_index w) (w_orchard_index_to_address w) (w_orchard_memos w)
    (w_orchard_note_commitments w) (w_orchard_notes w) (w_orchard_notes_unconfirmed w)
    (w_orchard_spent_notes w) (w_orchard_spent_notes_unconfirmed w) u v (w_stxos w)
    (w_stxos_unconfirmed w) (w_tip w).
Definition with_stxos (w : Wallet) s t : Wallet :=
  mk_Wallet (w_seed w) (w_address_to_index w) (w_index_to_address w)
    (w_orchard_address_to_index w) (w_orchard_index_to_address w) (w_orchard_memos w)
    (w_orchard_note_commitments w) (w_orchard_notes w) (w_orchard_notes_unconfirmed w)
    (w_orchard_spent_notes w) (w_orchard_spent_notes_unconfirmed w) (w_utxos w)
    (w_utxos_unconfirmed w) s t (w_tip w).
Definition with_wallet_tip (w : Wallet) t : Wallet :=
  mk_Wallet (w_seed w) (w_address_to_index w) (w_index_to_address w)
    (w_orchard_address_to_index w) (w_orchard_index_to_address w) (w_orchard_memos w)
    (w_orchard_note_commitments w) (w_orchard_notes w) (w_orchard_notes_unconfirmed w)
    (w_orchard_spent_notes w) (w_orchard_spent_notes_unconfirmed w) (w_utxos w)
    (w_utxos_unconfirmed w) (w_stxos w) (w_stxos_unconfirmed w) t.

(** [Wallet::new]: open the tables. *)
Definition Wallet_new (dbs : Wallet) : Wallet :=
  with_note_commitments dbs (ShardTreeDb_new (w_orchard_note_commitments dbs)).
Definition Wallet_empty_dbs : Wallet :=
  mk_Wallet None ∅ ∅ ∅ ∅ ∅ ShardTreeDb_empty_dbs ∅ ∅ ∅ ∅ ∅ ∅ ∅ ∅ None.

Definition try_get_tip (w : Wallet) : option BlockHash := w_tip w.
Definition put_tip (w : Wallet) (tip : BlockHash) : Wallet := with_wallet_tip w (Some tip).

(** ** The note commitment tree *)
Definition store_of (w : Wallet) : ShardTreeStore :=
  mk_ShardTreeStore (Some (Some (Rw (w_orchard_note_commitments w)))).
Definition load_shard_tree (store : ShardTreeStore) : Res StoreError ShardTree :=
  caching_store_load store.
Definition store_shard_tree (tree : ShardTree) (store : ShardTreeStore) : Res StoreError ShardTreeStore :=
  caching_store_flush tree store.
Definition get_shard_tree (w : Wallet) : Res WalletError ShardTree :=
  map_err W_OrchardShardTreeStore (load_shard_tree (store_of w)).
Definition put_shard_tree (w : Wallet) (tree : ShardTree) : Res WalletError (option Wallet) :=
  store ← map_err W_OrchardShardTreeStore (store_shard_tree tree (store_of w));
  match txn store with
  | None => Ok None
  | Some db_txn =>
      lock ← expect db_txn;
      Ok (match lock with Ro _ => None | Rw d => Some (with_note_commitments w d) end)
  end.

(** ** Keys and addresses *)
Definition get_master_xpriv (w : Wallet) : Res WalletError Xpriv :=
  seed_bytes ← ok_or (w_seed w) W_NoSeed;
  ok_or (new_master seed_bytes) W_Bip32.

Definition get_orchard_spending_key (w : Wallet) : Res WalletError SpendingKey :=
  master_xpriv ← get_master_xpriv w;
  let derivation_path := [Hardened 2; Hardened 0; Normal 0] in
  xpriv ← ok_or (derive_priv master_xpriv derivation_path) W_Bip32;
  ok_or (from_zip32_seed (secret_bytes xpriv) 0 0) W_Zip32.
Definition get_orchard_full_viewing_key (w : Wallet) : Res WalletError FullViewingKey :=
  full_viewing_key <$> get_orchard_spending_key w.
Definition get_orchard_incoming_viewing_keys (w : Wallet) : Res WalletError (list IncomingViewingKey) :=
  fvk ← get_orchard_full_viewing_key w;
  let external := to_ivk fvk External in
  let internal := to_ivk fvk Internal in
  Ok [external; internal].
Definition get_orchard_outgoing_viewing_keys (w : Wallet) : Res WalletError (list OutgoingViewingKey) :=
  fvk ← get_orchard_full_viewing_key w;
  let external := to_ovk fvk External in
  let internal := to_ovk fvk Internal in
  Ok [external; internal].

(** [last(rwtxn)?.map(|(idx, _)| idx + 1).unwrap_or(0)] *)
Definition next_index {A} (m : gmap Z A) : Z :=
  match last_u32 m with Some (idx, _) => wrap32 (idx + 1) | None => 0 end.

Definition get_new_orchard_address (w : Wallet) : Res WalletError (Wallet * OrchardAddress) :=
  let next_index := next_index (w_orchard_index_to_address w) in
  full_viewing_key ← get_orchard_full_viewing_key w;
  let address := address_at full_viewing_key next_index External in
  Ok (with_orchard_addresses w (<[address := next_index]> (w_orchard_address_to_index w))
        (<[next_index := address]> (w_orchard_index_to_address w)), address).

Definition get_tx_signing_key (w : Wallet) (index : Z) : Res WalletError SigningKey :=
  master_xpriv ← get_master_xpriv w;
  let derivation_path := [Hardened 0; Normal index] in
  xpriv ← ok_or (derive_priv master_xpriv derivation_path) W_Bip32;
  Ok (signing_key_from (secret_bytes xpriv)).

Definition get_new_transparent_address (w : Wallet) : Res WalletError (Wallet * TransparentAddress) :=
  let next_index := next_index (w_index_to_address w) in
  tx_signing_key ← get_tx_signing_key w next_index;
  let address := get_address (verifying_key_of tx_signing_key) in
  Ok (with_addresses w (<[address := next_index]> (w_address_to_index w))
        (<[next_index := address]> (w_index_to_address w)), address).

Definition try_get_last_orchard_address (w : Wallet) : option OrchardAddress :=
  snd <$> last_u32 (w_orchard_index_to_address w).
Definition try_get_last_transparent_address (w : Wallet) : option TransparentAddress :=
  snd <$> last_u32 (w_index_to_address w).
Definition get_or_generate_last_orchard_address (w : Wallet) : Res WalletError (Wallet * OrchardAddress) :=
  match try_get_last_orchard_address w with
  | Some address => Ok (w, address)
  | None => get_new_orchard_address w
  end.
Definition get_or_generate_last_transparent_address (w : Wallet) :
    Res WalletError (Wallet * TransparentAddress) :=
  match try_get_last_transparent_address w with
  | Some address => Ok (w, address)
  | None => get_new_transparent_address w
  end.
Definition get_num_addresses (w : Wallet) : Z :=
  let '(last_index, _) := default (0%Z, vreplicate 20 x00) (last_u32 (w_index_to_address w)) in
  last_index.
Definition get_transparent_addresses (w : Wallet) : gset TransparentAddress :=
  list_to_set (snd <$> map_to_list (w_index_to_address w)).
Definition get_shielded_addresses (w : Wallet) : gset OrchardAddress :=
  list_to_set (snd <$> map_to_list (w_orchard_index_to_address w)).

(** ** The seed *)
Definition overwrite_seed (w : Wallet) (seed : list byte) : Wallet :=
  let w := with_seed w (Some seed) in
  let w := with_addresses w ∅ ∅ in
  let w := with_utxos w ∅ ∅ in
  with_stxos w ∅ ∅.
Definition has_seed (w : Wallet) : bool :=
  match w_seed w with Some _ => true | None => false end.
Definition set_seed (w : Wallet) (seed : list byte) : Res WalletError Wallet :=
  match w_seed w with
  | Some current_seed =>
      if bool_decide (current_seed = seed) then Ok w else Err W_SeedAlreadyExists
  | None => Ok (overwrite_seed w seed)
  end.

(** ** Coins *)
Fixpoint select_loop (value : Amount) (utxos : list (OutPoint * Output)) (total : Amount)
    (selected : list (OutPoint * Output)) : Res WalletError (Amount * list (OutPoint * Output)) :=
  match utxos with
  | [] => Ok (total, selected)
  | (outpoint, output) :: utxos =>
      if is_withdrawal (content output) then select_loop value utxos total selected
      else if (value <? total)%Z then Ok (total, selected)
      else
        total ← ok_or (checked_add total (get_value output)) W_AmountOverflow;
        select_loop value utxos total (selected ++ [(outpoint, output)])
  end.
Definition select_transparent_coins (w : Wallet) (value : Amount) :
    Res WalletError (Amount * list (OutPoint * Output)) :=
  let utxos := sort_unstable_by_value (map_to_list (w_utxos w)) in
  '(total, selected) ← select_loop value utxos 0%Z [];
  _ ← guard_err (negb (total <? value)%Z) W_NotEnoughFunds;
  Ok (total, selected).

(** The deepest depth, at most [max_depth], that has a checkpoint. *)
Fixpoint deepest_available_anchor_depth {Er} (depth : nat) (has_checkpoint_at_depth : nat → Res Er bool) :
    Res Er (option nat) :=
  has ← has_checkpoint_at_depth depth;
  if (has : bool) then Ok (Some depth)
  else match depth with
       | O => Ok None
       | S depth => deepest_available_anchor_depth depth has_checkpoint_at_depth
       end.
Definition ANCHOR_CHECKPOINT_DEPTH : nat := 3.

Definition is_some_opt {A} (o : option A) : bool := match o with Some _ => true | None => false end.
Definition has_root (tree : ShardTree) (depth : nat) : Res WalletError bool :=
  root ← map_err W_OrchardShardTree (root_at_checkpoint_depth tree depth);
  Ok (is_some_opt root).

Definition nullifier_le {A} (a b : Nullifier * A) : Prop := nullifier_cmp a.1 b.1 ≠ Gt.
#[export] Instance nullifier_le_dec {A} (a b : Nullifier * A) : Decision (nullifier_le a b).
Proof. unfold nullifier_le. apply _. Defined.
(** [BTreeMap::into_values] *)
Definition into_values {A} (m : gmap Nullifier A) : list A :=
  snd <$> merge_sort nullifier_le (map_to_list m).

Fixpoint select_notes_loop (w : Wallet) (tree : ShardTree) (anchor_depth : nat) (value : Amount)
    (nullifiers : list Nullifier) (total : Amount) (selected : gmap Nullifier (Note * MerklePath)) :
    Res WalletError (Amount * gmap Nullifier (Note * MerklePath)) :=
  match nullifiers with
  | [] => Ok (total, selected)
  | nullifier :: nullifiers =>
      if (value <=? total)%Z then Ok (total, selected)
      else
        '(note, position) ← ok_or (w_orchard_notes w !! nullifier) W_Db;
        path ← map_err W_OrchardShardTree (witness_at_checkpoint_depth tree position anchor_depth);
        match path with
        | None => select_notes_loop w tree anchor_depth value nullifiers total selected
        | Some path =>
            total ← ok_or (checked_add total (note_value note)) W_AmountOverflow;
            select_notes_loop w tree anchor_depth value nullifiers total
              (<[nullifier := (note, path)]> selected)
        end
  end.
Definition select_shielded_coins (w : Wallet) (value : Amount) :
    Res WalletError (Amount * Anchor * gmap Nullifier (Note * MerklePath)) :=
  let nullifiers := shuffle (fst <$> map_to_list (w_orchard_notes w)) in
  commitments_tree ← get_shard_tree w;
  anchor_depth ← deepest_available_anchor_depth ANCHOR_CHECKPOINT_DEPTH (has_root commitments_tree);
  anchor ← match anchor_depth with
    | Some depth =>
        root ← map_err W_OrchardShardTree (root_at_checkpoint_depth commitments_tree depth);
        root ← expect root;
        Ok (anchor_from root)
    | None =>
        _ ← assert_true (bool_decide (nullifiers = []));
        Ok anchor_empty_tree
    end;
  let anchor_depth := default 0 anchor_depth in
  '(total, selected) ← select_notes_loop w commitments_tree anchor_depth value nullifiers 0%Z ∅;
  _ ← guard_err (negb (total <? value)%Z) W_NotEnoughFunds;
  Ok (total, anchor, selected).

(** ** Transactions *)
Definition hash_inputs (coins : list (OutPoint * Output)) : list (OutPoint * Hash) :=
  (λ '(outpoint, output), (outpoint, hash_with_scratch_buffer (mk_PointedOutput outpoint output)))
  <$> coins.
Definition input_utxo_hashes (inputs : list (OutPoint * Hash)) : list NodeHash :=
  (λ i, node_hash i.2) <$> inputs.
(** [a - b] of amounts: panics on underflow. *)
Definition amount_sub {Er} (a b : Amount) : Res Er Amount := expect (checked_sub a b).

Definition create_transaction (w : Wallet) (accumulator : Accumulator) (address : TransparentAddress)
    (value fee : Amount) : Res WalletError (Wallet * Transaction) :=
  target ← ok_or (checked_add value fee) W_AmountOverflow;
  '(total, coins) ← select_transparent_coins w target;
  change ← amount_sub total value;
  change ← amount_sub change fee;
  let inputs := hash_inputs coins in
  proof ← ok_or (prove accumulator (input_utxo_hashes inputs)) W_Utreexo;
  '(w, change_address) ← get_new_transparent_address w;
  let outputs := [mk_Output address (Value value); mk_Output change_address (Value change)] in
  Ok (w, mk_Transaction inputs proof outputs None).

Definition create_withdrawal (w : Wallet) (accumulator : Accumulator) (main_address : MainAddress)
    (value main_fee fee : Amount) : Res WalletError (Wallet * Transaction) :=
  target ← ok_or (checked_add value fee) W_AmountOverflow;
  target ← ok_or (checked_add target main_fee) W_AmountOverflow;
  '(total, coins) ← select_transparent_coins w target;
  change ← amount_sub total value;
  change ← amount_sub change fee;
  change ← amount_sub change main_fee;
  let inputs := hash_inputs coins in
  proof ← ok_or (prove accumulator (input_utxo_hashes inputs)) W_Utreexo;
  '(w, withdrawal_address) ← get_new_transparent_address w;
  '(w, change_address) ← get_new_transparent_address w;
  let outputs := [mk_Output withdrawal_address (Withdrawal value main_fee main_address);
                  mk_Output change_address (Value change)] in
  Ok (w, mk_Transaction inputs proof outputs None).

(** *** Bundles *)
Definition builder_add_output_ (b : Builder) ovk address value memo : Res WalletError Builder :=
  match builder_add_output b ovk address value memo with
  | inl b => Ok b
  | inr e => Err (W_OrchardOutput e)
  end.
Definition builder_add_spend_ (b : Builder) fvk note path : Res WalletError Builder :=
  ok_or (builder_add_spend b fvk note path) W_OrchardSpend.
Definition NO_MEMO : list byte := replicate 512 x00.

(** [Builder::add_dummy_output] and [Builder::build]: pad with dummy outputs. *)
Definition add_dummy_output (b : Builder) (k : nat) (ovk : option OutgoingViewingKey) :
    Builder + OutputError :=
  builder_add_output b ovk (dummy_address k) 0 NO_MEMO.
Definition build_dummy_output (ovk : OutgoingViewingKey) (b : Builder) (k : nat) : Res BuildError Builder :=
  match add_dummy_output b k (Some ovk) with
  | inl b => Ok b
  | inr OutputsDisabled => Err BuildOutputsDisabled
  | inr OtherOutputError => Panic
  end.
Definition builder_build (b : Builder) (ovk : option OutgoingViewingKey) :
    Res BuildError (option UnprovenBundle) :=
  b ← match ovk with
    | Some ovk =>
        let min_outputs_needed := Nat.max 2 (builder_spends b) in
        let dummy_outputs_needed := min_outputs_needed - builder_outputs b in
        foldR (build_dummy_output ovk) b (seq 0 dummy_outputs_needed)
    | None => Ok b
    end;
  ok_or (orchard_build b) OtherBuildError.

(** [build], then [create_proof] *)
Definition build_and_prove (b : Builder) (ovk : option OutgoingViewingKey) :
    Res WalletError (option UnauthorizedBundle) :=
  built ← map_err W_OrchardBuilder (builder_build b ovk);
  match built with
  | None => Ok None
  | Some bundle =>
      bundle ← ok_or (create_proof bundle) (W_OrchardBuilder OtherBuildError);
      Ok (Some bundle)
  end.

(** [authorization::sign_orchard], on a transaction whose bundle is not yet
    signed; the signature hash is its txid. *)
Definition sign_orchard (signing_keys : list SpendAuthorizingKey) (inputs : list (OutPoint * Hash))
    (proof : UtreexoProof) (outputs : list Output) (orchard_bundle : option UnauthorizedBundle) :
    Res BuildError Transaction :=
  let sighash := blake3 (borsh inputs ++ borsh outputs
    ++ match orchard_bundle with Some b => unauthorized_ser_without_auth b | None => [] end) in
  orchard_bundle ← match orchard_bundle with
    | Some bundle =>
        Some <$> ok_or (apply_signatures bundle sighash signing_keys) OtherBuildError
    | None => Ok None
    end;
  Ok (mk_Transaction inputs proof outputs orchard_bundle).
Definition authorize_orchard_bundle (w : Wallet) inputs proof outputs
    (orchard_bundle : option UnauthorizedBundle) : Res WalletError Transaction :=
  spending_key ← get_orchard_spending_key w;
  let spend_auth_key := spend_authorizing_key spending_key in
  map_err W_OrchardBuilder (sign_orchard [spend_auth_key] inputs proof outputs orchard_bundle).

Definition add_spends (fvk : FullViewingKey) (b : Builder) (coins : list (Note * MerklePath)) :
    Res WalletError Builder :=
  foldR (λ b '(note, path), builder_add_spend_ b fvk note path) b coins.

Definition create_shielded_transaction (w : Wallet) (accumulator : Accumulator)
    (address : OrchardAddress) (value fee : Amount) (memo : list byte) :
    Res WalletError (Wallet * Transaction) :=
  '(w, change_addr) ← get_new_orchard_address w;
  orchard_spending_key ← get_orchard_spending_key w;
  target ← ok_or (checked_add value fee) W_AmountOverflow;
  '(value_in, anchor, coins) ← select_shielded_coins w target;
  change ← amount_sub value_in value;
  change ← amount_sub change fee;
  utreexo_proof ← ok_or (prove accumulator []) W_Utreexo;
  let fvk := full_viewing_key orchard_spending_key in
  let builder := builder_new FLAGS_ENABLED false anchor in
  let ovk := to_ovk fvk Internal in
  builder ← builder_add_output_ builder (Some ovk) address value memo;
  builder ← builder_add_output_ builder (Some ovk) change_addr change NO_MEMO;
  builder ← add_spends fvk builder (into_values coins);
  orchard_bundle ← build_and_prove builder (Some ovk);
  let spend_auth_key := spend_authorizing_key orchard_spending_key in
  res ← map_err W_OrchardBuilder (sign_orchard [spend_auth_key] [] utreexo_proof [] orchard_bundle);
  Ok (w, res).

(** The note that a shielding transaction spends, when it has a witness at the
    chosen anchor. *)
Definition consolidation_note (w : Wallet) : Res WalletError (option (MerkleHashOrchard * Note * MerklePath)) :=
  let nullifiers := fst <$> map_to_list (w_orchard_notes w) in
  match choose nullifiers with
  | None => Ok None
  | Some nullifier =>
      '(spend_note, position) ← ok_or (w_orchard_notes w !! nullifier) W_Db;
      shard_tree ← get_shard_tree w;
      anchor_depth ← deepest_available_anchor_depth ANCHOR_CHECKPOINT_DEPTH (has_root shard_tree);
      match anchor_depth with
      | Some depth =>
          root ← map_err W_OrchardShardTree (root_at_checkpoint_depth shard_tree depth);
          root ← expect root;
          path ← map_err W_OrchardShardTree (witness_at_checkpoint_depth shard_tree position depth);
          Ok (match path with Some path => Some (root, spend_note, path) | None => None end)
      | None => Ok None
      end
  end.

Definition create_shield_transaction_from_utxos (w : Wallet) (accumulator : Accumulator)
    (shield_amount fee : Amount) (coins : list (OutPoint * Output)) :
    Res WalletError (Wallet * Transaction) :=
  value_in ← ok_or (checked_sum ((λ c, get_value c.2) <$> coins)) W_AmountOverflow;
  change ← ok_or (value ← checked_sub value_in shield_amount; checked_sub value fee) W_NotEnoughFunds;
  let inputs := hash_inputs coins in
  utreexo_proof ← ok_or (prove accumulator (input_utxo_hashes inputs)) W_Utreexo;
  '(w, outputs) ← if bool_decide (change ≠ 0%Z) then
      '(w, change_address) ← get_new_transparent_address w;
      Ok (w, [mk_Output change_address (Value change)])
    else Ok (w, []);
  '(w, shielded_addr) ← get_new_orchard_address w;
  orchard_spending_key ← get_orchard_spending_key w;
  let fvk := full_viewing_key orchard_spending_key in
  let ovk := to_ovk fvk Internal in
  consolidation ← consolidation_note w;
  builder ← match consolidation with
    | Some (root, spend_note, merkle_path) =>
        builder_add_spend_ (builder_new FLAGS_ENABLED false (anchor_from root)) fvk spend_note merkle_path
    | None => Ok (builder_new FLAGS_SPENDS_DISABLED true anchor_empty_tree)
    end;
  value_balance ← ok_or (builder_value_balance builder) W_OrchardBalance;
  value_balance ← expect (if (0 <=? value_balance)%Z then Some value_balance else None);
  output_note_value ← expect (checked_add shield_amount value_balance);
  builder ← builder_add_output_ builder (Some ovk) shielded_addr output_note_value NO_MEMO;
  orchard_bundle ← build_and_prove builder (Some ovk);
  let spend_auth_key := spend_authorizing_key orchard_spending_key in
  res ← map_err W_OrchardBuilder
          (sign_orchard [spend_auth_key] inputs utreexo_proof outputs orchard_bundle);
  Ok (w, res).

Definition create_shield_transaction (w : Wallet) (accumulator : Accumulator)
    (shield_amount fee : Amount) : Res WalletError (Wallet * Transaction) :=
  target ← ok_or (checked_add shield_amount fee) W_AmountOverflow;
  '(_, coins) ← select_transparent_coins w target;
  create_shield_transaction_from_utxos w accumulator shield_amount fee coins.

Definition create_unshield_transaction (w : Wallet) (accumulator : Accumulator) (value fee : Amount) :
    Res WalletError (Wallet * Transaction) :=
  utreexo_proof ← ok_or (prove accumulator []) W_Utreexo;
  '(w, address) ← get_new_transparent_address w;
  let outputs := [mk_Output address (Value value)] in
  '(w, shielded_addr) ← get_new_orchard_address w;
  orchard_spending_key ← get_orchard_spending_key w;
  target ← ok_or (checked_add value fee) W_AmountOverflow;
  '(value_in, anchor, coins) ← select_shielded_coins w target;
  change ← amount_sub value_in value;
  change ← amount_sub change fee;
  let fvk := full_viewing_key orchard_spending_key in
  let builder := builder_new FLAGS_ENABLED true anchor in
  let ovk := to_ovk fvk Internal in
  builder ← builder_add_output_ builder (Some ovk) shielded_addr change NO_MEMO;
  builder ← add_spends fvk builder (into_values coins);
  orchard_bundle ← build_and_prove builder (Some ovk);
  let spend_auth_key := spend_authorizing_key orchard_spending_key in
  res ← map_err W_OrchardBuilder
          (sign_orchard [spend_auth_key] [] utreexo_proof outputs orchard_bundle);
  Ok (w, res).

Definition Wallet_authorize (w : Wallet) (transaction : Transaction) : Res WalletError AuthorizedTransaction :=
  authorizations ← foldR (λ authorizations '(outpoint, _),
      spent_utxo ← ok_or (w_utxos w !! outpoint) W_NoUtxo;
      index ← ok_or (w_address_to_index w !! address spent_utxo) (W_NoIndex (address spent_utxo));
      signing_key ← get_tx_signing_key w index;
      let signature := sign signing_key transaction in
      Ok (authorizations ++ [mk_Authorization (verifying_key_of signing_key) signature]))
    [] (inputs transaction);
  Ok (mk_AuthorizedTransaction transaction authorizations).

(** ** Spending and storing outputs *)
Definition delete_utxos (w : Wallet) (outpoints : list OutPoint) : Wallet :=
  foldl (λ w outpoint, with_utxos w (delete outpoint (w_utxos w)) (w_utxos_unconfirmed w)) w outpoints.

Definition spend_utxo_confirmed (w : Wallet) (spent : OutPoint * InPoint) : Wallet :=
  let '(outpoint, inpoint) := spent in
  let output :=
    match w_utxos w !! outpoint with
    | Some output => Some output
    | None => so_output <$> w_stxos_unconfirmed w !! outpoint
    end in
  match output with
  | None => w
  | Some output =>
      let w := with_utxos w (delete outpoint (w_utxos w)) (w_utxos_unconfirmed w) in
      with_stxos w (<[outpoint := mk_SpentOutput output inpoint]> (w_stxos w))
        (delete outpoint (w_stxos_unconfirmed w))
  end.
Definition spend_utxos_confirmed (w : Wallet) (spent : list (OutPoint * InPoint)) : Wallet :=
  foldl spend_utxo_confirmed w spent.

Definition spend_utxo_unconfirmed (w : Wallet) (spent : OutPoint * InPoint) : Wallet :=
  let '(outpoint, inpoint) := spent in
  match w_utxos w !! outpoint with
  | None => w
  | Some output =>
      let w := with_utxos w (delete outpoint (w_utxos w)) (w_utxos_unconfirmed w) in
      with_stxos w (w_stxos w)
        (<[outpoint := mk_SpentOutput output inpoint]> (w_stxos_unconfirmed w))
  end.
Definition spend_utxos_unconfirmed (w : Wallet) (spent : list (OutPoint * InPoint)) : Wallet :=
  foldl spend_utxo_unconfirmed w spent.

(** The loops over a [HashMap] run in the order of [map_to_list]; its keys are
    distinct, so any other order gives the same tables. *)
Definition owns (w : Wallet) (output : Output) : bool :=
  is_some_opt (w_address_to_index w !! address output).
Definition put_utxo_confirmed (w : Wallet) (utxo : OutPoint * Output) : Wallet :=
  let '(outpoint, output) := utxo in
  if owns w output then
    let w := with_utxos w (w_utxos w) (delete outpoint (w_utxos_unconfirmed w)) in
    match w_stxos_unconfirmed w !! outpoint with
    | Some _ => w
    | None => with_utxos w (<[outpoint := output]> (w_utxos w)) (w_utxos_unconfirmed w)
    end
  else w.
Definition put_utxos_confirmed (w : Wallet) (utxos : gmap OutPoint Output) : Wallet :=
  foldl put_utxo_confirmed w (map_to_list utxos).

Definition put_utxo_unconfirmed (w : Wallet) (utxo : OutPoint * Output) : Wallet :=
  let '(outpoint, output) := utxo in
  if owns w output then with_utxos w (w_utxos w) (<[outpoint := output]> (w_utxos_unconfirmed w))
  else w.
Definition put_utxos_unconfirmed (w : Wallet) (utxos : gmap OutPoint Output) : Wallet :=
  foldl put_utxo_unconfirmed w (map_to_list utxos).

Definition add_value (total : Amount) (value : Amount) : Res WalletError Amount :=
  ok_or (checked_add total value) W_AmountOverflow.
Definition get_balance (w : Wallet) : Res WalletError Balance :=
  '(total_transparent, available_transparent) ← foldR (λ '(total, available) '(_, utxo),
      let value := get_value utxo in
      total ← add_value total value;
      available ← if negb (is_withdrawal (content utxo)) then add_value available value
                  else Ok available;
      Ok (total, available))
    (0, 0)%Z (map_to_list (w_utxos w));
  total_transparent ← foldR (λ total '(_, spent_output), add_value total (get_value (so_output spent_output)))
    total_transparent (map_to_list (w_stxos_unconfirmed w));
  '(total_shielded, available_shielded) ← foldR (λ '(total, available) '(_, (note, _)),
      let value := note_value note in
      total ← add_value total value;
      available ← add_value available value;
      Ok (total, available))
    (0, 0)%Z (map_to_list (w_orchard_notes w));
  total_shielded ← foldR (λ total '(_, (note, _)), add_value total (note_value note))
    total_shielded (map_to_list (w_orchard_spent_notes_unconfirmed w));
  Ok (mk_Balance total_shielded total_transparent available_shielded available_transparent).

(** ** Notes *)
Definition with_note (w : Wallet) nf n : Wallet :=
  with_notes w (<[nf := n]> (w_orchard_notes w)) (w_orchard_notes_unconfirmed w).
Definition without_note (w : Wallet) nf : Wallet :=
  with_notes w (delete nf (w_orchard_notes w)) (w_orchard_notes_unconfirmed w).
Definition with_spent_note (w : Wallet) key n : Wallet :=
  with_spent_notes w (<[key := n]> (w_orchard_spent_notes w)) (w_orchard_spent_notes_unconfirmed w).
Definition without_spent_note (w : Wallet) key : Wallet :=
  with_spent_notes w (delete key (w_orchard_spent_notes w)) (w_orchard_spent_notes_unconfirmed w).
Definition with_unconfirmed_spent_note (w : Wallet) key n : Wallet :=
  with_spent_notes w (w_orchard_spent_notes w) (<[key := n]> (w_orchard_spent_notes_unconfirmed w)).
Definition without_unconfirmed_spent_note (w : Wallet) key : Wallet :=
  with_spent_notes w (w_orchard_spent_notes w) (delete key (w_orchard_spent_notes_unconfirmed w)).

Definition spend_orchard_notes_unconfirmed (w : Wallet) (spent : list (Nullifier * Txid * Z)) : Wallet :=
  foldl (λ w '(nf, txid, idx),
      match w_orchard_notes w !! nf with
      | None => w
      | Some note => with_unconfirmed_spent_note (without_note w nf) (txid, idx) note
      end) w spent.

Definition connect_incoming (fvk : FullViewingKey) (next_leaf_position : option Z) (txid : Txid)
    (w : Wallet) (incoming : nat * Note * list byte) : Wallet :=
  let '(idx, note, memo) := incoming in
  let w := if bool_decide (memo ≠ NO_MEMO)
           then with_memos w (<[(txid, wrap32 (Z.of_nat idx)) := memo]> (w_orchard_memos w)) else w in
  if bool_decide (note_value note ≠ 0%Z) then
    let nullifier := note_nullifier note fvk in
    match next_leaf_position with
    | Some next_leaf_position =>
        let position := (next_leaf_position + Z.of_nat idx)%Z in
        with_notes w (<[nullifier := (note, position)]> (w_orchard_notes w))
          (delete nullifier (w_orchard_notes_unconfirmed w))
    | None =>
        with_notes w (w_orchard_notes w) (<[nullifier := note]> (w_orchard_notes_unconfirmed w))
    end
  else w.

(** The note with a nullifier, unspent or spent by this action unconfirmed. *)
Definition find_note (w : Wallet) (nf : Nullifier) (key : Txid * Z) : option NotePosition :=
  match w_orchard_notes w !! nf with
  | Some n => Some n
  | None => w_orchard_spent_notes_unconfirmed w !! key
  end.

Definition connect_outgoing (confirmed : bool) (txid : Txid) (bundle : Bundle)
    (w : Wallet) (outgoing : nat * Note * list byte) : Res WalletError Wallet :=
  let '(idx, _, _) := outgoing in
  action ← expect (bundle_actions bundle !! idx);
  let nf := action_nullifier action in
  let key := (txid, wrap32 (Z.of_nat idx)) in
  match find_note w nf key with
  | None => Ok w
  | Some spent_note =>
      let w := without_note w nf in
      Ok (if confirmed then with_spent_note (without_unconfirmed_spent_note w key) key spent_note
          else with_unconfirmed_spent_note w key spent_note)
  end.

Definition connect_action (incoming_idxs outgoing_idxs : list nat) (txid : Txid)
    (s : Wallet * option ShardTree) (indexed : nat * Action) : Res WalletError (Wallet * option ShardTree) :=
  let '(w, shard_tree) := s in
  let '(idx, action) := indexed in
  let retention := if bool_decide (idx ∈ incoming_idxs) then Marked else Ephemeral in
  shard_tree ← match shard_tree with
    | Some shard_tree =>
        Some <$> map_err W_OrchardShardTree
          (tree_append shard_tree (merkle_hash_from_cmx (action_cmx action)) retention)
    | None => Ok None
    end;
  if bool_decide (idx ∈ outgoing_idxs) then Ok (w, shard_tree)
  else
    let nf := action_nullifier action in
    let key := (txid, wrap32 (Z.of_nat idx)) in
    match find_note w nf key with
    | None => Ok (w, shard_tree)
    | Some spent_note =>
        let w := without_unconfirmed_spent_note (without_note w nf) key in
        Ok (match shard_tree with
            | Some _ => with_spent_note w key spent_note
            | None => with_unconfirmed_spent_note w key spent_note
            end, shard_tree)
    end.

Definition enumerate {A} (l : list A) : list (nat * A) := imap pair l.

Definition connect_orchard_bundle (w : Wallet) (fvk : FullViewingKey) (ivks : list IncomingViewingKey)
    (ovks : list OutgoingViewingKey) (shard_tree : option ShardTree) (txid : Txid)
    (orchard_bundle : Bundle) : Res WalletError (Wallet * option ShardTree) :=
  next_leaf_position ← match shard_tree with
    | Some shard_tree =>
        pos ← map_err W_OrchardShardTree (max_leaf_position shard_tree);
        Ok (Some (match pos with None => 0 | Some pos => pos + 1 end)%Z)
    | None => Ok None
    end;
  let decrypted_incoming_notes := decrypt_outputs_with_keys orchard_bundle ivks in
  let decrypted_incoming_note_idxs := (λ n, n.1.1) <$> decrypted_incoming_notes in
  let w := foldl (connect_incoming fvk next_leaf_position txid) w decrypted_incoming_notes in
  let decrypted_outgoing_notes := recover_outputs_with_ovks orchard_bundle ovks in
  let decrypted_outgoing_note_idxs := (λ n, n.1.1) <$> decrypted_outgoing_notes in
  w ← foldR (connect_outgoing (is_some_opt shard_tree) txid orchard_bundle) w decrypted_outgoing_notes;
  foldR (connect_action decrypted_incoming_note_idxs decrypted_outgoing_note_idxs txid)
    (w, shard_tree) (enumerate (bundle_actions orchard_bundle)).

Definition connect_orchard_bundle_confirmed w fvk ivks ovks (shard_tree : ShardTree) txid orchard_bundle :
    Res WalletError (Wallet * ShardTree) :=
  '(w, shard_tree) ← connect_orchard_bundle w fvk ivks ovks (Some shard_tree) txid orchard_bundle;
  shard_tree ← expect shard_tree;
  Ok (w, shard_tree).
Definition connect_orchard_bundle_unconfirmed (w : Wallet) (txid : Txid) (orchard_bundle : Bundle) :
    Res WalletError Wallet :=
  fvk ← get_orchard_full_viewing_key w;
  ivks ← get_orchard_incoming_viewing_keys w;
  ovks ← get_orchard_outgoing_viewing_keys w;
  '(w, _) ← connect_orchard_bundle w fvk ivks ovks None txid orchard_bundle;
  Ok w.

(** [put_shard_tree(..)?.unwrap()] *)
Definition put_shard_tree_unwrap (w : Wallet) (tree : ShardTree) : Res WalletError Wallet :=
  rwtxn ← put_shard_tree w tree; expect rwtxn.

Definition connect_orchard_block (w : Wallet) (header : Header) (body : Body) : Res WalletError Wallet :=
  _ ← assert_true (bool_decide (try_get_tip w = prev_side_hash header));
  _ ← assert_true (bool_decide (compute_merkle_root body = merkle_root header));
  fvk ← get_orchard_full_viewing_key w;
  ivks ← get_orchard_incoming_viewing_keys w;
  ovks ← get_orchard_outgoing_viewing_keys w;
  shard_tree ← get_shard_tree w;
  '(w, shard_tree) ← foldR (λ '(w, shard_tree) tx,
      match orchard_bundle tx with
      | Some orchard_bundle =>
          connect_orchard_bundle_confirmed w fvk ivks ovks shard_tree (txid tx) orchard_bundle
      | None => Ok (w, shard_tree)
      end)
    (w, shard_tree) (transactions body);
  let block_hash := Header_hash header in
  let w := put_tip w block_hash in
  pos ← map_err W_OrchardShardTree (max_leaf_position shard_tree);
  let checkpoint_id := mk_CheckpointId pos (next_checkpoint_seq (w_orchard_note_commitments w))
                         (Some block_hash) in
  '(_, shard_tree) ← map_err W_OrchardShardTree (tree_checkpoint shard_tree checkpoint_id);
  put_shard_tree_unwrap w shard_tree.

Definition disconnect_outgoing (txid : Txid) (bundle : Bundle) (w : Wallet)
    (outgoing : nat * Note * list byte) : Res WalletError Wallet :=
  let '(idx, note, _) := outgoing in
  action ← expect (bundle_actions bundle !! idx);
  let nf := action_nullifier action in
  let key := (txid, wrap32 (Z.of_nat idx)) in
  match w_orchard_spent_notes w !! key with
  | None => Ok w
  | Some (_, position) => Ok (with_note (without_spent_note w key) nf (note, position))
  end.
Definition disconnect_action (outgoing_idxs : list nat) (txid : Txid) (w : Wallet)
    (indexed : nat * Action) : Wallet :=
  let '(idx, action) := indexed in
  if bool_decide (idx ∈ outgoing_idxs) then w
  else
    let nf := action_nullifier action in
    let key := (txid, wrap32 (Z.of_nat idx)) in
    match w_orchard_spent_notes w !! key with
    | None => w
    | Some spent_note => with_note (without_spent_note w key) nf spent_note
    end.
Definition disconnect_orchard_bundle (w : Wallet) (fvk : FullViewingKey) (ivks : list IncomingViewingKey)
    (ovks : list OutgoingViewingKey) (txid : Txid) (orchard_bundle : Bundle) : Res WalletError Wallet :=
  let decrypted_incoming_notes := decrypt_outputs_with_keys orchard_bundle ivks in
  let w := foldl (λ w '(_, note, _), without_note w (note_nullifier note fvk)) w
             (reverse decrypted_incoming_notes) in
  let decrypted_outgoing_notes := recover_outputs_with_ovks orchard_bundle ovks in
  let decrypted_outgoing_note_idxs := (λ n, n.1.1) <$> decrypted_outgoing_notes in
  w ← foldR (disconnect_outgoing txid orchard_bundle) w (reverse decrypted_outgoing_notes);
  Ok (foldl (disconnect_action decrypted_outgoing_note_idxs txid) w
        (reverse (enumerate (bundle_actions orchard_bundle)))).

Definition disconnect_orchard_block (w : Wallet) (header : Header) (body : Body) : Res WalletError Wallet :=
  _ ← assert_true (bool_decide (try_get_tip w = Some (Header_hash header)));
  _ ← assert_true (bool_decide (compute_merkle_root body = merkle_root header));
  fvk ← get_orchard_full_viewing_key w;
  ivks ← get_orchard_incoming_viewing_keys w;
  ovks ← get_orchard_outgoing_viewing_keys w;
  w ← foldR (λ w tx,
      match orchard_bundle tx with
      | None => Ok w
      | Some orchard_bundle => disconnect_orchard_bundle w fvk ivks ovks (txid tx) orchard_bundle
      end)
    w (reverse (transactions body));
  let prev_tip := prev_side_hash header in
  let w := with_wallet_tip w prev_tip in
  shard_tree ← get_shard_tree w;
  prev_checkpoint_id ← map_err (λ _, W_Db) (get_checkpoint_id (w_orchard_note_commitments w) prev_tip);
  '(truncated, shard_tree) ← map_err W_OrchardShardTree (truncate_to_checkpoint shard_tree prev_checkpoint_id);
  _ ← guard_err truncated (W_OrchardShardTreeTruncate prev_tip);
  put_shard_tree_unwrap w shard_tree.
End wallet.
