(* ===== verification/WalletFacts.v ===== *)
(** Properties of the wallet ([Wallet.v]): its tables stay consistent, coin
    selection agrees with the balance, and what it creates and signs the node
    accepts. *)
From S2P Require Import Prelude.
From S2P Require Import Borsh.
From S2P Require Import Externals.
From S2P Require Import Toy.
From S2P Require Import Types.
From S2P Require Import AccumulatorDiff.
From S2P Require Import Authorization.
From S2P Require Import Keys.
From S2P Require Import ShardTreeDb.
From S2P Require Import ShardTreeFacts.
From S2P Require Import Wallet.

Section facts.
Context `{E : Externals} `{SE : !ShardTreeExternals} `{WE : !WalletExternals}.

(** ** Consistency *)

(** An output that the wallet stores in one of its four output tables. *)
Definition stored (w : Wallet) (output : Output) : Prop :=
  ∃ outpoint, w_utxos w !! outpoint = Some output
    ∨ w_utxos_unconfirmed w !! outpoint = Some output
    ∨ so_output <$> w_stxos w !! outpoint = Some output
    ∨ so_output <$> w_stxos_unconfirmed w !! outpoint = Some output.

Record wallet_wf (w : Wallet) : Prop := {
  wf_index i a : w_index_to_address w !! i = Some a →
    (0 ≤ i < 2 ^ 32)%Z
    ∧ (∃ k, get_tx_signing_key w i = Ok k ∧ get_address (verifying_key_of k) = a)
    ∧ is_Some (w_address_to_index w !! a);
  wf_address a i : w_address_to_index w !! a = Some i → w_index_to_address w !! i = Some a;
  wf_stored output : stored w output → is_Some (w_address_to_index w !! address output);
  wf_unspent outpoint : is_Some (w_utxos w !! outpoint) → w_stxos_unconfirmed w !! outpoint = None
}.

(** The tables that consistency speaks of. *)
Definition same_transparent (w w' : Wallet) : Prop :=
  w_seed w' = w_seed w ∧ w_address_to_index w' = w_address_to_index w
  ∧ w_index_to_address w' = w_index_to_address w ∧ w_utxos w' = w_utxos w
  ∧ w_utxos_unconfirmed w' = w_utxos_unconfirmed w ∧ w_stxos w' = w_stxos w
  ∧ w_stxos_unconfirmed w' = w_stxos_unconfirmed w.

#[export] Instance same_transparent_refl : Reflexive same_transparent.
Proof. done. Qed.
#[export] Instance same_transparent_trans : Transitive same_transparent.
Proof. unfold same_transparent. intros w1 w2 w3. intuition congruence. Qed.

Lemma signing_key_seed w w' i : w_seed w' = w_seed w → get_tx_signing_key w' i = get_tx_signing_key w i.
Proof. unfold get_tx_signing_key, get_master_xpriv. by intros ->. Qed.

Lemma wf_same w w' : same_transparent w w' → wallet_wf w → wallet_wf w'.
Proof.
  intros (Hs & Ha & Hi & Hu & Hv & Hx & Hy) [Hwi Hwa Hws Hwu].
  split; unfold stored; rewrite ?Ha, ?Hi, ?Hu, ?Hv, ?Hx, ?Hy; [|done..].
  intros i a. rewrite (signing_key_seed w w' i Hs). apply Hwi.
Qed.

Lemma wf_new : wallet_wf (Wallet_new Wallet_empty_dbs).
Proof.
  split; simpl.
  - intros i a. by rewrite lookup_empty.
  - intros a i. by rewrite lookup_empty.
  - intros output (o & H). simpl in H. rewrite !lookup_empty in H. naive_solver.
  - intros o. rewrite lookup_empty. by intros [? ?].
Qed.

(** *** Addresses *)
Lemma next_index_range {A} (m : gmap Z A) : (0 ≤ next_index m < 2 ^ 32)%Z.
Proof.
  unfold next_index. destruct (last_u32 m) as [[i a]|]; [|lia]. apply Z.mod_pos_bound. lia.
Qed.

Lemma new_transparent_Ok w w' a :
  get_new_transparent_address w = Ok (w', a) →
  ∃ k, let i := next_index (w_index_to_address w) in
    get_tx_signing_key w i = Ok k ∧ a = get_address (verifying_key_of k)
    ∧ w' = with_addresses w (<[a := i]> (w_address_to_index w)) (<[i := a]> (w_index_to_address w)).
Proof.
  unfold get_new_transparent_address. intros H. res_step H. injection H as <- <-. by exists v.
Qed.

Lemma new_transparent_wf w w' a :
  wallet_wf w → get_new_transparent_address w = Ok (w', a) → wallet_wf w'.
Proof.
  intros [Hwi Hwa Hws Hwu] (k & Hk & Ha & ->)%new_transparent_Ok.
  set (n := next_index (w_index_to_address w)) in *.
  assert (∀ i k', get_tx_signing_key (with_addresses w (<[a:=n]> (w_address_to_index w))
    (<[n:=a]> (w_index_to_address w))) i = Ok k' ↔ get_tx_signing_key w i = Ok k') as Hkey by done.
  assert (∀ b, is_Some (w_address_to_index w !! b) → is_Some (<[a:=n]> (w_address_to_index w) !! b)) as Hmono.
  { intros b Hb. destruct (decide (a = b)) as [<-|]; [by rewrite lookup_insert_eq|by rewrite lookup_insert_ne]. }
  split; simpl.
  - intros i b [[<- <-]|[Hne Hi]]%lookup_insert_Some.
    + split; [apply next_index_range|]. split; [by exists k|]. by rewrite lookup_insert_eq.
    + destruct (Hwi i b Hi) as (Hr & (k' & Hk' & Hb) & Hsome).
      split; [done|]. split; [by exists k'|]. by apply Hmono.
  - intros b i [[<- <-]|[Hne Hb]]%lookup_insert_Some; [by rewrite lookup_insert_eq|].
    apply Hwa in Hb as Hi. destruct (decide (n = i)) as [<-|]; [|by rewrite lookup_insert_ne].
    destruct (Hwi n b Hi) as (_ & (k' & Hk' & Hkb) & _). exfalso. apply Hne.
    rewrite Hk in Hk'. injection Hk' as <-. congruence.
  - intros output Ho. apply Hmono, Hws. exact Ho.
  - apply Hwu.
Qed.

Lemma new_orchard_same w w' a : get_new_orchard_address w = Ok (w', a) → same_transparent w w'.
Proof. unfold get_new_orchard_address. intros H. res_step H. injection H as <- _. done. Qed.

Lemma overwrite_seed_wf w seed : wallet_wf (overwrite_seed w seed).
Proof.
  split; simpl.
  - intros i a. by rewrite lookup_empty.
  - intros a i. by rewrite lookup_empty.
  - intros output (o & H). simpl in H. rewrite !lookup_empty in H. naive_solver.
  - intros o. rewrite lookup_empty. by intros [? ?].
Qed.

(** *** Outputs *)
Lemma put_confirmed_wf w l : wallet_wf w → wallet_wf (foldl put_utxo_confirmed w l).
Proof.
  revert w. induction l as [|[o out] l IH]; intros w Hwf; [done|]. apply IH. clear IH.
  unfold put_utxo_confirmed, owns. destruct (w_address_to_index w !! address out) as [i|] eqn:Ha; [|done].
  destruct Hwf as [Hwi Hwa Hws Hwu]. simpl.
  assert (∀ out', (∃ o', w_utxos w !! o' = Some out' ∨ delete o (w_utxos_unconfirmed w) !! o' = Some out'
      ∨ so_output <$> w_stxos w !! o' = Some out' ∨ so_output <$> w_stxos_unconfirmed w !! o' = Some out') →
    stored w out') as Hst.
  { intros out' (o' & [H|[[_ H]%lookup_delete_Some|[H|H]]]); exists o'; auto. }
  destruct (w_stxos_unconfirmed w !! o) as [x|] eqn:Hx; simpl.
  - split; [apply Hwi|apply Hwa| |apply Hwu]. intros out' H. apply Hws, Hst, H.
  - split; [apply Hwi|apply Hwa|..].
    + unfold stored. simpl.
      intros out' (o' & [[[<- <-]|[_ H]]%lookup_insert_Some|H]); [by rewrite Ha|..];
        apply Hws, Hst; exists o'; simpl in *; tauto.
    + simpl. intros o' [out' [[<- _]|[_ H]]%lookup_insert_Some]; [done|]. apply Hwu. by exists out'.
Qed.

Lemma put_unconfirmed_wf w l : wallet_wf w → wallet_wf (foldl put_utxo_unconfirmed w l).
Proof.
  revert w. induction l as [|[o out] l IH]; intros w Hwf; [done|]. apply IH. clear IH.
  unfold put_utxo_unconfirmed, owns. destruct (w_address_to_index w !! address out) as [i|] eqn:Ha; [|done].
  destruct Hwf as [Hwi Hwa Hws Hwu]. split; [apply Hwi|apply Hwa| |apply Hwu]. unfold stored. simpl.
  intros out' (o' & [H|[[[<- <-]|[_ H]]%lookup_insert_Some|H]]); [|by rewrite Ha|..];
    apply Hws; exists o'; simpl in *; tauto.
Qed.

Lemma spend_unconfirmed_wf w l : wallet_wf w → wallet_wf (spend_utxos_unconfirmed w l).
Proof.
  unfold spend_utxos_unconfirmed. revert w. induction l as [|[o i] l IH]; intros w Hwf; [done|]. apply IH.
  clear IH. unfold spend_utxo_unconfirmed. destruct (w_utxos w !! o) as [out|] eqn:Ho; [|done].
  destruct Hwf as [Hwi Hwa Hws Hwu]. split; [apply Hwi|apply Hwa|..]; unfold stored; simpl.
  - intros out' (o' & [[_ H]%lookup_delete_Some|[H|[H|H]]]); simpl in H;
      try (apply Hws; exists o'; tauto).
    destruct (decide (o = o')) as [<-|Hne].
    + rewrite lookup_insert_eq in H. injection H as <-. apply Hws. exists o. by left.
    + rewrite lookup_insert_ne in H by done. apply Hws. exists o'. tauto.
  - intros o' [out' [Hne H]%lookup_delete_Some]. rewrite lookup_insert_ne by done. apply Hwu. by exists out'.
Qed.

Lemma spend_confirmed_wf w l : wallet_wf w → wallet_wf (spend_utxos_confirmed w l).
Proof.
  unfold spend_utxos_confirmed. revert w. induction l as [|[o i] l IH]; intros w Hwf; [done|]. apply IH.
  clear IH. unfold spend_utxo_confirmed.
  destruct (match w_utxos w !! o with Some x => Some x | None => _ end) as [out|] eqn:Ho; [|done].
  destruct Hwf as [Hwi Hwa Hws Hwu]. split; [apply Hwi|apply Hwa|..]; unfold stored; simpl.
  - assert (stored w out) as Hout.
    { exists o. destruct (w_utxos w !! o); [left; congruence|]. auto. }
    intros out' (o' & [[_ H]%lookup_delete_Some|[H|[H|H]]]); simpl in H;
      try (apply Hws; exists o'; tauto).
    + destruct (decide (o = o')) as [<-|Hne].
      * rewrite lookup_insert_eq in H. injection H as <-. by apply Hws.
      * rewrite lookup_insert_ne in H by done. apply Hws. exists o'. tauto.
    + destruct (decide (o = o')) as [<-|Hne]; [by rewrite lookup_delete_eq in H|].
      rewrite lookup_delete_ne in H by done. apply Hws. exists o'. tauto.
  - intros o' [out' [Hne H]%lookup_delete_Some]. rewrite lookup_delete_ne by done. apply Hwu. by exists out'.
Qed.

Lemma delete_utxos_wf w l : wallet_wf w → wallet_wf (delete_utxos w l).
Proof.
  unfold delete_utxos. revert w. induction l as [|o l IH]; intros w Hwf; [done|]. apply IH. clear IH.
  destruct Hwf as [Hwi Hwa Hws Hwu]. split; [apply Hwi|apply Hwa|..]; unfold stored; simpl.
  - intros out' (o' & [[_ H]%lookup_delete_Some|H]); apply Hws; exists o'; simpl in *; tauto.
  - intros o' [out' [Hne H]%lookup_delete_Some]. apply Hwu. by exists out'.
Qed.

(** *** Creating transactions *)
Lemma create_transaction_Ok w acc address value fee w' tx :
  create_transaction w acc address value fee = Ok (w', tx) →
  ∃ total coins a,
    select_transparent_coins w (value + fee) = Ok (total, coins)
    ∧ (value + fee ≤ amount_max)%Z ∧ (value + fee ≤ total)%Z
    ∧ get_new_transparent_address w = Ok (w', a)
    ∧ inputs tx = hash_inputs coins
    ∧ outputs tx = [mk_Output address (Value value); mk_Output a (Value (total - value - fee))]
    ∧ orchard_bundle tx = None.
Proof.
  unfold create_transaction, amount_sub. intros H.
  res_step H. res_step Hv. apply checked_add_Some in Hv as [-> Hmax].
  res_step H. destruct v as [total coins].
  res_step H. res_step Hv0. apply checked_sub_Some in Hv0 as [-> H1].
  res_step H. res_step Hv0. apply checked_sub_Some in Hv0 as [-> H2]. cbn zeta in H.
  res_step H. res_step H. destruct v0 as [w1 a]. injection H as <- <-.
  exists total, coins, a. split_and!; try done; lia.
Qed.

Lemma create_withdrawal_Ok w acc main_address value main_fee fee w' tx :
  create_withdrawal w acc main_address value main_fee fee = Ok (w', tx) →
  ∃ total coins w1 a1 a2,
    select_transparent_coins w (value + fee + main_fee) = Ok (total, coins)
    ∧ (value + fee + main_fee ≤ amount_max)%Z ∧ (value + fee + main_fee ≤ total)%Z
    ∧ get_new_transparent_address w = Ok (w1, a1) ∧ get_new_transparent_address w1 = Ok (w', a2)
    ∧ inputs tx = hash_inputs coins
    ∧ outputs tx = [mk_Output a1 (Withdrawal value main_fee main_address);
                    mk_Output a2 (Value (total - value - fee - main_fee))]
    ∧ orchard_bundle tx = None.
Proof.
  unfold create_withdrawal, amount_sub. intros H.
  res_step H. res_step Hv. apply checked_add_Some in Hv as [-> Hmax].
  res_step H. res_step Hv. apply checked_add_Some in Hv as [-> Hmax'].
  res_step H. destruct v as [total coins].
  res_step H. res_step Hv0. apply checked_sub_Some in Hv0 as [-> H1].
  res_step H. res_step Hv0. apply checked_sub_Some in Hv0 as [-> H2].
  res_step H. res_step Hv0. apply checked_sub_Some in Hv0 as [-> H3]. cbn zeta in H.
  res_step H. res_step H. destruct v0 as [w1 a1]. res_step H. destruct v0 as [w2 a2].
  injection H as <- <-. exists total, coins, w1, a1, a2. split_and!; try done; lia.
Qed.

Lemma create_shielded_transaction_same w acc address value fee memo w' tx :
  create_shielded_transaction w acc address value fee memo = Ok (w', tx) → same_transparent w w'.
Proof.
  unfold create_shielded_transaction. intros H. res_step H. destruct v as [w1 a].
  apply new_orchard_same in Hv. res_inv. done.
Qed.

Lemma create_unshield_transaction_wf w acc value fee w' tx :
  wallet_wf w → create_unshield_transaction w acc value fee = Ok (w', tx) → wallet_wf w'.
Proof.
  intros Hwf. unfold create_unshield_transaction. intros H. res_step H.
  res_step H. destruct v0 as [w1 a]. res_step H. destruct v0 as [w2 b].
  apply (new_transparent_wf w w1 a Hwf) in Hv0. apply new_orchard_same in Hv1. res_inv.
  by apply (wf_same w1 w').
Qed.

Lemma create_shield_transaction_from_utxos_wf w acc amount fee coins w' tx :
  wallet_wf w → create_shield_transaction_from_utxos w acc amount fee coins = Ok (w', tx) → wallet_wf w'.
Proof.
  intros Hwf. unfold create_shield_transaction_from_utxos. intros H.
  res_step H. res_step H. cbn zeta in H. res_step H. res_step H. destruct v2 as [w1 outs].
  res_step H. destruct v2 as [w2 b]. apply new_orchard_same in Hv3.
  assert (wallet_wf w1) as Hwf1.
  { case_bool_decide; [|by injection Hv2 as <- _]. res_step Hv2. destruct v2 as [w3 c].
    injection Hv2 as <- _. by eapply new_transparent_wf. }
  assert (w' = w2) as ->; [|by apply (wf_same w1 w2)].
  clear -H. res_inv. done.
Qed.

(** *** Notes *)
Lemma foldl_same {A} (f : Wallet → A → Wallet) l w :
  (∀ w a, same_transparent w (f w a)) → same_transparent w (foldl f w l).
Proof. intros Hf. revert w. induction l as [|a l IH]; intros w; [done|]. simpl. etransitivity; [apply Hf|apply IH]. Qed.
Lemma foldR_same {S A} (get : S → Wallet) (f : S → A → Res WalletError S) l s s' :
  (∀ s a s', f s a = Ok s' → same_transparent (get s) (get s')) →
  foldR f s l = Ok s' → same_transparent (get s) (get s').
Proof.
  intros Hf. revert s. induction l as [|a l IH]; intros s H; simpl in H; [by injection H as ->|].
  res_step H. etransitivity; [by eapply Hf|by apply IH].
Qed.

Lemma connect_orchard_bundle_same w fvk ivks ovks tree tx_id b w' tree' :
  connect_orchard_bundle w fvk ivks ovks tree tx_id b = Ok (w', tree') → same_transparent w w'.
Proof.
  unfold connect_orchard_bundle. intros H. res_step H. cbn zeta in H. res_step H.
  etransitivity; [|etransitivity].
  - apply (foldl_same (connect_incoming fvk v tx_id)). intros w1 [[idx note] memo].
    unfold connect_incoming. destruct (bool_decide (memo ≠ NO_MEMO)), (bool_decide (note_value note ≠ 0%Z)), v; done.
  - apply (foldR_same (λ w, w)) in Hv0; [exact Hv0|]. intros w1 [[idx note] memo] w2 H2.
    unfold connect_outgoing in H2. res_step H2. cbn zeta in H2.
    destruct (find_note _ _ _); injection H2 as <-; [|done]. by destruct (is_some_opt tree).
  - apply (foldR_same fst) in H; [exact H|]. intros [w1 t1] [idx action] [w2 t2] H2.
    unfold connect_action in H2. cbn zeta in H2. res_step H2.
    destruct (bool_decide _) in H2; [by injection H2 as <- _|].
    destruct (find_note _ _ _) in H2; injection H2 as <- _; [|done]. by destruct v1.
Qed.

Lemma put_shard_tree_same w tree w' : put_shard_tree_unwrap w tree = Ok w' → same_transparent w w'.
Proof.
  unfold put_shard_tree_unwrap, put_shard_tree. intros H. res_step H. res_step H. subst v.
  res_step Hv. destruct (txn v); [|done]. res_step Hv. injection Hv as Hv. by destruct v0; simplify_eq.
Qed.

Lemma connect_orchard_block_same w header body w' :
  connect_orchard_block w header body = Ok w' → same_transparent w w'.
Proof.
  unfold connect_orchard_block. intros H. do 6 (res_step H). res_step H. destruct v5 as [w1 tree].
  cbn zeta in H. res_step H. res_step H. destruct v6 as [b tree']. apply put_shard_tree_same in H.
  etransitivity; [|exact H]. change (same_transparent w w1).
  apply (foldR_same fst) in Hv5; [exact Hv5|]. intros [w2 t2] tx [w3 t3] H3.
  destruct (orchard_bundle tx); [|by injection H3 as <- _].
  unfold connect_orchard_bundle_confirmed in H3. apply bind_Ok in H3 as ([w4 t4] & H4 & H3).
  res_step H3. injection H3 as <- _. by eapply connect_orchard_bundle_same.
Qed.

Lemma disconnect_orchard_block_same w header body w' :
  disconnect_orchard_block w header body = Ok w' → same_transparent w w'.
Proof.
  unfold disconnect_orchard_block. intros H. do 5 (res_step H). res_step H. cbn zeta in H.
  do 2 (res_step H). res_step H. destruct v7 as [b tree]. res_step H. apply put_shard_tree_same in H.
  etransitivity; [|exact H]. change (same_transparent w v4).
  apply (foldR_same (λ w, w)) in Hv4; [exact Hv4|]. intros w2 tx w3 H3.
  destruct (orchard_bundle tx) as [b'|]; [|by injection H3 as <-].
  unfold disconnect_orchard_bundle in H3. cbn zeta in H3.
  apply bind_Ok in H3 as (w8 & H8 & H3). injection H3 as <-.
  etransitivity; [|etransitivity; [apply (foldR_same (λ w, w)) in H8; [exact H8|]|]].
  - apply foldl_same. by intros w4 [[idx note] memo].
  - intros w4 [[idx note] memo] w5 H5. unfold disconnect_outgoing in H5. res_step H5. cbn zeta in H5.
    destruct (w_orchard_spent_notes w4 !! _) as [[n p]|] in H5; by injection H5 as <-.
  - apply foldl_same. intros w4 [idx action]. unfold disconnect_action.
    destruct (bool_decide (idx ∈ _)); [done|]. cbn zeta. by destruct (w_orchard_spent_notes w4 !! _).
Qed.
End facts.

(** ** Coin selection *)

(** Documented behaviour of [par_sort_unstable_by_key]. *)
Class SortUnstable `{WalletExternals} : Prop := {
  sort_unstable_perm l : sort_unstable_by_value l ≡ₚ l;
  sort_unstable_sorted l :
    StronglySorted (λ a b, get_value a.2 ≤ get_value b.2)%Z (sort_unstable_by_value l)
}.

Section coins.
Context `{E : Externals} `{SE : !ShardTreeExternals} `{WE : !WalletExternals}.

Abbreviation coin := (OutPoint * Output)%type.
Definition coin_value (c : coin) : Amount := get_value c.2.
Definition coins_value (l : list coin) : Z := sumZ (coin_value <$> l).
Definition spendable (c : coin) : Prop := is_withdrawal (content c.2) = false.
#[export] Instance spendable_dec c : Decision (spendable c).
Proof. unfold spendable. apply _. Defined.

Lemma filter_withdrawal o out l :
  is_withdrawal (content out) = true → filter spendable ((o, out) :: l) = filter spendable l.
Proof. intros H. apply filter_cons_False. unfold spendable. simpl. by rewrite H. Qed.
Lemma filter_spendable o out l :
  is_withdrawal (content out) = false → filter spendable ((o, out) :: l) = (o, out) :: filter spendable l.
Proof. intros H. by apply filter_cons_True. Qed.
Lemma coins_value_nil : coins_value [] = 0%Z.
Proof. done. Qed.
Lemma coins_value_app l k : coins_value (l ++ k) = (coins_value l + coins_value k)%Z.
Proof. unfold coins_value. by rewrite fmap_app, sumZ_app. Qed.
Lemma coins_value_nonneg l : Forall (λ c, 0 ≤ coin_value c)%Z l → (0 ≤ coins_value l)%Z.
Proof. intros H. apply sumZ_nonneg. by rewrite Forall_fmap. Qed.
Lemma coins_value_filter l :
  Forall (λ c, 0 ≤ coin_value c)%Z l → (0 ≤ coins_value (filter spendable l) ≤ coins_value l)%Z.
Proof.
  induction 1 as [|c l Hc Hl IH]; [done|]. unfold coins_value in *. rewrite filter_cons.
  destruct (decide (spendable c)); rewrite ?fmap_cons, ?sumZ_cons; lia.
Qed.

Lemma select_loop_Ok value l total sel t s :
  select_loop value l total sel = Ok (t, s) →
  ∃ k rest, s = sel ++ k ∧ filter spendable l = k ++ rest ∧ t = (total + coins_value k)%Z
    ∧ (rest = [] ∨ value < t)%Z
    ∧ ∀ k' c, k = k' ++ [c] → (total + coins_value k' ≤ value)%Z.
Proof.
  revert total sel. induction l as [|[o out] l IH]; intros total sel H; simpl in H.
  - injection H as <- <-. exists [], []. rewrite app_nil_r. rewrite coins_value_nil.
    split_and!; auto; [lia|]. by intros [|? ?] ? ?.
  - destruct (is_withdrawal (content out)) eqn:Hw; [rewrite filter_withdrawal by done; by apply IH|].
    rewrite filter_spendable by done. destruct (Z.ltb_spec value total) as [Hlt|Hge].
    + injection H as <- <-. exists [], ((o, out) :: filter spendable l). rewrite app_nil_r.
      rewrite coins_value_nil. split_and!; auto; [lia|]. by intros [|? ?] ? ?.
    + res_step H. res_step Hv. apply checked_add_Some in Hv as [-> Hmax].
      destruct (IH _ _ H) as (k & rest & -> & Hf & -> & Hend & Hpre).
      exists ((o, out) :: k), rest. rewrite <- app_assoc, Hf.
      unfold coins_value in *. rewrite fmap_cons, sumZ_cons. change (coin_value (o, out)) with (get_value out).
      split_and!; [done..|lia| |].
      * destruct Hend; [by left|right; lia].
      * intros [|c' k'] c Hk; [change (sumZ (coin_value <$> [])) with 0%Z; lia|]. injection Hk as <- Hk.
        rewrite fmap_cons, sumZ_cons. change (coin_value (o, out)) with (get_value out).
        specialize (Hpre _ _ Hk). lia.
Qed.

Lemma select_loop_total value l total sel :
  Forall (λ c, 0 ≤ coin_value c)%Z l → (total + coins_value (filter spendable l) ≤ amount_max)%Z →
  ∃ r, select_loop value l total sel = Ok r.
Proof.
  intros Hl. revert total sel. induction Hl as [|[o out] l Hc Hl IH]; intros total sel Hmax; simpl; [eauto|].
  destruct (is_withdrawal (content out)) eqn:Hw; [rewrite filter_withdrawal in Hmax by done; by apply IH|].
  rewrite filter_spendable in Hmax by done. unfold coins_value in Hmax. rewrite fmap_cons, sumZ_cons in Hmax.
  pose proof (coins_value_filter l Hl) as Hf. unfold coins_value, coin_value in *. simpl in *.
  destruct (value <? total)%Z; [eauto|].
  assert (checked_add total (get_value out) = Some (total + get_value out)%Z) as ->
    by (apply checked_add_Some; lia).
  cbn [ok_or mbind res_bind]. apply IH. lia.
Qed.

(** *** The balance *)
Lemma add_values_loop {A} (f : A → Amount) l t t' :
  foldR (λ total x, add_value total (f x)) t l = Ok t' →
  t' = (t + sumZ (f <$> l))%Z.
Proof.
  revert t. induction l as [|x l IH]; intros t H; simpl in H; [injection H as <-; change (sumZ (f <$> [])) with 0%Z; lia|].
  res_step H. unfold add_value in Hv. res_step Hv. apply checked_add_Some in Hv as [-> _].
  apply IH in H. rewrite fmap_cons, sumZ_cons. lia.
Qed.

Lemma balance_transparent_loop l t a t' a' :
  (a ≤ amount_max)%Z →
  foldR (λ '(total, available) '(_, utxo),
      let value := get_value utxo in
      total ← add_value total value;
      available ← if negb (is_withdrawal (content utxo)) then add_value available value
                  else Ok available;
      Ok (total, available))
    (t, a) (l : list coin) = Ok (t', a') →
  t' = (t + coins_value l)%Z ∧ a' = (a + coins_value (filter spendable l))%Z ∧ (a' ≤ amount_max)%Z.
Proof.
  revert t a. induction l as [|[o out] l IH]; intros t a Ha H; simpl in H.
  - injection H as <- <-. change (filter spendable []) with (@nil coin). rewrite coins_value_nil. lia.
  - simpl. apply bind_Ok in H as ([t1 a1] & H1 & H).
    apply bind_Ok in H1 as (t2 & Ht & H1). unfold add_value in *. res_step Ht.
    apply checked_add_Some in Ht as [-> _]. unfold coins_value in *. rewrite fmap_cons, sumZ_cons.
    change (coin_value (o, out)) with (get_value out).
    destruct (is_withdrawal (content out)) eqn:Hw; simpl in H1.
    + injection H1 as <- <-. rewrite filter_withdrawal by done. apply IH in H; [|done]. lia.
    + res_step H1. res_step Hv. apply checked_add_Some in Hv as [-> Hmax]. injection H1 as <- <-.
      rewrite filter_spendable, fmap_cons, sumZ_cons by done. apply IH in H; [|done].
      change (coin_value (o, out)) with (get_value out). lia.
Qed.

Lemma get_balance_available `{HA : !AmountLaws} w b :
  get_balance w = Ok b →
  available_transparent b = coins_value (filter spendable (map_to_list (w_utxos w)))
  ∧ (available_transparent b ≤ amount_max)%Z.
Proof.
  intros Hg. pose proof amount_max_range. unfold get_balance in Hg.
  apply bind_Ok in Hg as ([t a] & H1 & Hg). apply bind_Ok in Hg as (t' & _ & Hg).
  apply bind_Ok in Hg as ([ts as'] & _ & Hg). apply bind_Ok in Hg as (ts' & _ & Hg).
  injection Hg as <-. simpl. apply balance_transparent_loop in H1; [|lia]. lia.
Qed.

Lemma coins_value_perm l k : l ≡ₚ k → coins_value l = coins_value k.
Proof. intros H. unfold coins_value. by apply sumZ_perm, fmap_Permutation. Qed.

Lemma select_coins_perm `{HS : !SortUnstable} w :
  filter spendable (sort_unstable_by_value (map_to_list (w_utxos w)))
  ≡ₚ filter spendable (map_to_list (w_utxos w)).
Proof. by rewrite sort_unstable_perm. Qed.

Lemma select_Ok `{HS : !SortUnstable} w value total coins :
  select_transparent_coins w value = Ok (total, coins) →
  ∃ rest, filter spendable (sort_unstable_by_value (map_to_list (w_utxos w))) = coins ++ rest
    ∧ total = coins_value coins ∧ (value ≤ total)%Z
    ∧ ∀ k c, coins = k ++ [c] → (coins_value k ≤ value)%Z.
Proof.
  unfold select_transparent_coins. intros H. cbn zeta in H. apply bind_Ok in H as ([t s] & Hs & H).
  res_step H. injection H as <- <-. res_step Hv. rewrite negb_true_iff, Z.ltb_ge in Hv.
  apply select_loop_Ok in Hs as (k & rest & -> & Hf & -> & _ & Hpre). exists rest. cbn [app] in *.
  split_and!; [done|lia|lia|]. intros k' c Hk. apply Hpre in Hk. lia.
Qed.

Lemma select_elements `{HS : !SortUnstable} w value total coins :
  select_transparent_coins w value = Ok (total, coins) →
  NoDup coins.*1
  ∧ Forall (λ c, w_utxos w !! c.1 = Some c.2 ∧ is_withdrawal (content c.2) = false) coins.
Proof.
  intros (rest & Hf & _)%select_Ok. split.
  - assert (NoDup (filter spendable (map_to_list (w_utxos w))).*1) as Hnd.
    { clear Hf. pose proof (NoDup_fst_map_to_list (w_utxos w)) as H. revert H.
      induction (map_to_list (w_utxos w)) as [|c l IH]; [done|]. rewrite fmap_cons, NoDup_cons, filter_cons.
      intros [Hn Hl]. destruct (decide (spendable c)); [|by apply IH]. rewrite fmap_cons, NoDup_cons.
      split; [|by apply IH]. intros (c' & Hc & Hin)%list_elem_of_fmap. apply Hn, list_elem_of_fmap.
      exists c'. split; [done|]. by apply list_elem_of_filter in Hin as [_ ?]. }
    rewrite <- select_coins_perm, Hf, fmap_app in Hnd. by apply NoDup_app in Hnd as [? _].
  - rewrite Forall_forall. intros c Hc.
    assert (c ∈ filter spendable (map_to_list (w_utxos w))) as Hin.
    { rewrite <- select_coins_perm, Hf. set_solver. }
    apply list_elem_of_filter in Hin as [Hs Hin]. destruct c as [o out].
    split; [by apply elem_of_map_to_list|done].
Qed.

Lemma sorted_prefix {A} (R : A → A → Prop) P `{∀ x, Decision (P x)} (l k rest : list A) :
  StronglySorted R l → filter P l = k ++ rest → ∀ x y, x ∈ k → y ∈ rest → R x y.
Proof.
  intros Hs Hf. assert (StronglySorted R (filter P l)) as Hs'.
  { clear Hf. induction Hs as [|x l Hl IH Hx]; [constructor|]. rewrite filter_cons.
    destruct (decide (P x)); [|done]. constructor; [done|]. rewrite Forall_forall in *.
    intros y [_ Hy]%list_elem_of_filter. by apply Hx. }
  rewrite Hf in Hs'. intros x y. by apply (StronglySorted_app_1_elem_of R).
Qed.

(** C30: Coin selection agrees with the balance: for amounts that are not
    negative, selecting coins for a value succeeds exactly when the available
    transparent balance covers it, and fails only for lack of funds.  The
    coins selected are distinct outputs of the wallet, no withdrawals among
    them, worth at least the value; every spendable output left out is worth
    at least as much as each of them; and without the last one they are worth
    at most the value. *)
Theorem coin_selection_spec `{HA : !AmountLaws, HS : !SortUnstable} (w : Wallet) (b : Balance) (value : Amount)
    (Hbalance : get_balance w = Ok b)
    (Hamounts : ∀ outpoint output, w_utxos w !! outpoint = Some output → (0 ≤ get_value output)%Z) :
  match select_transparent_coins w value with
  | Ok (total, coins) =>
      (value ≤ available_transparent b)%Z
      ∧ (value ≤ total)%Z ∧ total = coins_value coins
      ∧ NoDup coins.*1
      ∧ Forall (λ c, w_utxos w !! c.1 = Some c.2 ∧ is_withdrawal (content c.2) = false) coins
      ∧ (∀ c outpoint output, c ∈ coins → w_utxos w !! outpoint = Some output →
          is_withdrawal (content output) = false → (outpoint, output) ∉ coins →
          (coin_value c ≤ get_value output)%Z)
      ∧ (∀ k c, coins = k ++ [c] → (coins_value k ≤ value)%Z)
  | Err e => e = W_NotEnoughFunds ∧ (available_transparent b < value)%Z
  | Panic => False
  end.
Proof.
  destruct (get_balance_available w b Hbalance) as [Hb Hmax].
  assert (∀ l, l ≡ₚ map_to_list (w_utxos w) → Forall (λ c, 0 ≤ coin_value c)%Z l) as Hpos.
  { intros l ->. rewrite Forall_forall. intros [o out] Hin%elem_of_map_to_list. by eapply Hamounts. }
  pose proof (coins_value_perm _ _ (select_coins_perm w)) as Hv. rewrite <- Hb in Hv.
  destruct (select_transparent_coins w value) as [[total coins]|e|] eqn:Hsel.
  - destruct (select_elements w value total coins Hsel) as [Hnd Hall].
    destruct (select_Ok w value total coins Hsel) as (rest & Hf & -> & Hle & Hpre).
    assert (0 ≤ coins_value rest)%Z.
    { apply coins_value_nonneg. pose proof (Hpos _ (sort_unstable_perm _)) as Hp.
      rewrite Forall_forall in *. intros c Hc. apply Hp.
      assert (c ∈ filter spendable (sort_unstable_by_value (map_to_list (w_utxos w)))) as Hin
        by (rewrite Hf; set_solver).
      by apply list_elem_of_filter in Hin as [_ ?]. }
    rewrite Hf, coins_value_app in Hv. split_and!; [lia|done..| |done].
    intros c o out Hc Ho Hw Hn.
    apply (sorted_prefix _ _ _ coins rest (sort_unstable_sorted (map_to_list (w_utxos w))) Hf c (o, out) Hc).
    assert ((o, out) ∈ coins ++ rest) as Hin; [|set_solver].
    rewrite <- Hf, select_coins_perm. apply list_elem_of_filter. split; [done|]. by apply elem_of_map_to_list.
  - unfold select_transparent_coins in Hsel. cbn zeta in Hsel.
    destruct (select_loop_total value (sort_unstable_by_value (map_to_list (w_utxos w))) 0 [])
      as [[t s] Ht]; [by apply Hpos, sort_unstable_perm|lia|].
    rewrite Ht, ok_bind in Hsel.
    apply select_loop_Ok in Ht as (k & rest & -> & Hf & -> & Hend & _).
    destruct (Z.ltb_spec (0 + coins_value k) value); [|done]. injection Hsel as <-. split; [done|].
    destruct Hend as [->|]; [|lia]. rewrite app_nil_r in Hf. rewrite Hf in Hv. lia.
  - unfold select_transparent_coins in Hsel. cbn zeta in Hsel.
    destruct (select_loop_total value (sort_unstable_by_value (map_to_list (w_utxos w))) 0 [])
      as [[t s] Ht]; [by apply Hpos, sort_unstable_perm|lia|].
    rewrite Ht, ok_bind in Hsel. by destruct (negb _).
Qed.
End coins.

(** ** The wallet as a state machine *)
Section machine.
Context `{E : Externals} `{SE : !ShardTreeExternals} `{WE : !WalletExternals}.

(** Every operation that changes the wallet, when it succeeds. *)
Inductive wallet_step (w w' : Wallet) : Prop :=
  | Step_set_seed seed (H : set_seed w seed = Ok w')
  | Step_overwrite_seed seed (H : w' = overwrite_seed w seed)
  | Step_orchard_address a (H : get_or_generate_last_orchard_address w = Ok (w', a))
  | Step_new_orchard_address a (H : get_new_orchard_address w = Ok (w', a))
  | Step_transparent_address a (H : get_or_generate_last_transparent_address w = Ok (w', a))
  | Step_new_transparent_address a (H : get_new_transparent_address w = Ok (w', a))
  | Step_transaction acc address value fee tx
      (H : create_transaction w acc address value fee = Ok (w', tx))
  | Step_withdrawal acc main_address value main_fee fee tx
      (H : create_withdrawal w acc main_address value main_fee fee = Ok (w', tx))
  | Step_shielded acc address value fee memo tx
      (H : create_shielded_transaction w acc address value fee memo = Ok (w', tx))
  | Step_shield acc amount fee tx (H : create_shield_transaction w acc amount fee = Ok (w', tx))
  | Step_shield_utxos acc amount fee coins tx
      (H : create_shield_transaction_from_utxos w acc amount fee coins = Ok (w', tx))
  | Step_unshield acc value fee tx (H : create_unshield_transaction w acc value fee = Ok (w', tx))
  | Step_delete_utxos outpoints (H : w' = delete_utxos w outpoints)
  | Step_spend_notes spent (H : w' = spend_orchard_notes_unconfirmed w spent)
  | Step_spend_confirmed spent (H : w' = spend_utxos_confirmed w spent)
  | Step_spend_unconfirmed spent (H : w' = spend_utxos_unconfirmed w spent)
  | Step_put_tip tip (H : w' = put_tip w tip)
  | Step_bundle tx_id bundle (H : connect_orchard_bundle_unconfirmed w tx_id bundle = Ok w')
  | Step_connect header body (H : connect_orchard_block w header body = Ok w')
  | Step_disconnect header body (H : disconnect_orchard_block w header body = Ok w')
  | Step_put_confirmed utxos (H : w' = put_utxos_confirmed w utxos)
  | Step_put_unconfirmed utxos (H : w' = put_utxos_unconfirmed w utxos).

Lemma wallet_step_wf w w' : wallet_wf w → wallet_step w w' → wallet_wf w'.
Proof.
  intros Hwf Hstep. destruct Hstep; subst.
  - unfold set_seed in H. destruct (w_seed w); [|injection H as <-; apply overwrite_seed_wf].
    case_bool_decide; [by injection H as <-|done].
  - apply overwrite_seed_wf.
  - unfold get_or_generate_last_orchard_address in H.
    destruct (try_get_last_orchard_address w); [by injection H as <- _|].
    apply new_orchard_same in H. by apply (wf_same w).
  - apply new_orchard_same in H. by apply (wf_same w).
  - unfold get_or_generate_last_transparent_address in H.
    destruct (try_get_last_transparent_address w); [by injection H as <- _|by eapply new_transparent_wf].
  - by eapply new_transparent_wf.
  - apply create_transaction_Ok in H as (? & ? & ? & _ & _ & _ & H & _). by eapply new_transparent_wf.
  - apply create_withdrawal_Ok in H as (? & ? & w1 & ? & ? & _ & _ & _ & H1 & H2 & _).
    apply (new_transparent_wf w1 w' _) in H2; [done|]. by eapply new_transparent_wf.
  - apply create_shielded_transaction_same in H. by apply (wf_same w).
  - unfold create_shield_transaction in H. apply bind_Ok in H as (? & _ & H).
    apply bind_Ok in H as ([? ?] & _ & H). by eapply create_shield_transaction_from_utxos_wf.
  - by eapply create_shield_transaction_from_utxos_wf.
  - by eapply create_unshield_transaction_wf.
  - by apply delete_utxos_wf.
  - apply (wf_same w); [|done]. apply (foldl_same _ spent w). intros w1 [[nf t] i].
    by destruct (w_orchard_notes w1 !! nf).
  - by apply spend_confirmed_wf.
  - by apply spend_unconfirmed_wf.
  - by apply (wf_same w).
  - unfold connect_orchard_bundle_unconfirmed in H. do 3 (apply bind_Ok in H as (? & _ & H)).
    apply bind_Ok in H as ([w1 t1] & H1 & H). injection H as <-.
    apply connect_orchard_bundle_same in H1. by apply (wf_same w).
  - apply connect_orchard_block_same in H. by apply (wf_same w).
  - apply disconnect_orchard_block_same in H. by apply (wf_same w).
  - by apply put_confirmed_wf.
  - by apply put_unconfirmed_wf.
Qed.

(** C29: The wallet's tables stay consistent: from an empty database, through
    any sequence of its operations, the two address tables point at each
    other, the address stored under an index is that of the key derived at the
    index, every stored output pays one of these addresses (so its key can be
    derived), and no output is both unspent and spent by an unconfirmed
    transaction. *)
Theorem wallet_invariant (w : Wallet) (Hreach : rtc wallet_step (Wallet_new Wallet_empty_dbs) w) :
  wallet_wf w.
Proof.
  refine (rtc_ind_r wallet_wf _ wf_new _ w Hreach).
  intros w1 w2 _ Hstep Hwf. by eapply wallet_step_wf.
Qed.
End machine.

(** ** Notes of disconnected blocks *)
Section notes.
Context `{E : Externals} `{SE : !ShardTreeExternals} `{WE : !WalletExternals}.

Lemma foldR_keep {Er S A} (P : S → Prop) (f : S → A → Res Er S) l s s' :
  (∀ s a s', a ∈ l → P s → f s a = Ok s' → P s') → P s → foldR f s l = Ok s' → P s'.
Proof.
  revert s. induction l as [|a l IH]; intros s Hf Hs H; simpl in H; [by injection H as <-|].
  apply bind_Ok in H as (s1 & H1 & H). apply (IH s1); [|by eapply Hf; [left| |]|done].
  intros s2 b s3 Hb. apply Hf. by right.
Qed.
Lemma foldl_keep {S A} (P : S → Prop) (f : S → A → S) l s :
  (∀ s a, a ∈ l → P s → P (f s a)) → P s → P (foldl f s l).
Proof.
  revert s. induction l as [|a l IH]; intros s Hf Hs; [done|]. simpl. apply IH; [|by apply Hf; [left|]].
  intros s2 b Hb. apply Hf. by right.
Qed.

Context (tx_id : Txid) (b : Bundle) (idx : nat) (action : Action).
Hypothesis Haction : bundle_actions b !! idx = Some action.
Hypothesis Hnullifiers : NoDup (action_nullifier <$> bundle_actions b).
Hypothesis Hlength : (zlen (bundle_actions b) ≤ 2 ^ 32)%Z.
Let nf := action_nullifier action.
Let key : Txid * Z := (tx_id, wrap32 (Z.of_nat idx)).

Lemma other_action i a :
  bundle_actions b !! i = Some a → i ≠ idx →
  action_nullifier a ≠ nf ∧ (tx_id, wrap32 (Z.of_nat i)) ≠ key.
Proof.
  intros Ha Hi. split.
  - intros Heq. apply Hi. eapply (NoDup_lookup (action_nullifier <$> bundle_actions b)); [done|..].
    + by rewrite list_lookup_fmap, Ha.
    + rewrite list_lookup_fmap, Haction. simpl. by rewrite Heq.
  - intros [= Heq]. apply lookup_lt_Some in Ha, Haction. apply Hi. unfold wrap32 in Heq.
    rewrite !Z.mod_small in Heq by lia. lia.
Qed.

(** What is known of the wallet while the bundle is processed. *)
Definition note_at (x y : option (Note * Z)) (w : Wallet) : Prop :=
  w_orchard_notes w !! nf = x ∧ w_orchard_spent_notes w !! key = y.

Lemma connect_outgoing_other confirmed x y w i n m w' :
  i ≠ idx → note_at x y w → connect_outgoing confirmed tx_id b w (i, n, m) = Ok w' → note_at x y w'.
Proof.
  intros Hi [Hx Hy] H. unfold connect_outgoing in H. apply bind_Ok in H as (a & Ha & H).
  apply expect_Ok in Ha. destruct (other_action i a Ha Hi) as [Hnf Hkey]. cbn zeta in H.
  destruct (find_note _ _ _) in H; injection H as <-; [|done].
  destruct confirmed; split; simpl; rewrite ?lookup_insert_ne, ?lookup_delete_ne; done.
Qed.
Lemma connect_outgoing_own w n m pos w' :
  w_orchard_notes w !! nf = Some pos → connect_outgoing true tx_id b w (idx, n, m) = Ok w' →
  note_at None (Some pos) w'.
Proof.
  intros Hn H. unfold connect_outgoing in H. rewrite Haction in H. cbn [expect] in H. rewrite ok_bind in H.
  cbn zeta in H. unfold find_note in H. fold nf in H. rewrite Hn in H. injection H as <-.
  split; simpl; [apply lookup_delete_eq|apply lookup_insert_eq].
Qed.
Lemma connect_action_other ins outs x y s i a s' :
  bundle_actions b !! i = Some a → idx ∈ outs → note_at x y s.1 →
  connect_action ins outs tx_id s (i, a) = Ok s' → note_at x y s'.1.
Proof.
  intros Ha Hout [Hx Hy] H. destruct s as [w tree]. unfold connect_action in H. cbn zeta in H.
  apply bind_Ok in H as (tree' & _ & H). case_bool_decide as Hi; [by injection H as <-|].
  assert (i ≠ idx) as Hne by (by intros ->).
  destruct (other_action i a Ha Hne) as [Hnf Hkey].
  destruct (find_note _ _ _) in H; injection H as <-; [|done].
  destruct tree'; split; simpl; rewrite ?lookup_insert_ne, ?lookup_delete_ne; done.
Qed.
Lemma connect_incoming_other fvk p x y w i n m :
  note_nullifier n fvk ≠ nf → note_at x y w → note_at x y (connect_incoming fvk p tx_id w (i, n, m)).
Proof.
  intros Hn [Hx Hy]. unfold connect_incoming. cbn zeta.
  destruct (bool_decide (m ≠ NO_MEMO)), (bool_decide (note_value n ≠ 0%Z)), p;
    split; simpl; rewrite ?lookup_insert_ne; done.
Qed.

Lemma elem_of_enumerate {A} (l : list A) i a : (i, a) ∈ enumerate l → l !! i = Some a.
Proof. unfold enumerate. intros (j & x & [= -> ->] & Hj)%elem_of_lookup_imap. done. Qed.

(** Connecting the bundle moves the note of the action to the spent ones. *)
Lemma connect_bundle_spends fvk ivks ovks w tree pos n m w' tree' :
  (idx, n, m) ∈ recover_outputs_with_ovks b ovks →
  NoDup ((λ o, o.1.1) <$> recover_outputs_with_ovks b ovks) →
  Forall (λ i, note_nullifier i.1.2 fvk ≠ nf) (decrypt_outputs_with_keys b ivks) →
  w_orchard_notes w !! nf = Some pos →
  connect_orchard_bundle w fvk ivks ovks (Some tree) tx_id b = Ok (w', tree') →
  w_orchard_spent_notes w' !! key = Some pos.
Proof.
  intros Hin Hnd Hins Hn H. unfold connect_orchard_bundle in H.
  apply bind_Ok in H as (p & _ & H). cbn zeta in H. apply bind_Ok in H as (w1 & H1 & H).
  set (w0 := foldl _ w _) in H1.
  assert (w_orchard_notes w0 !! nf = Some pos) as Hn0.
  { unfold w0. apply (foldl_keep (λ w, w_orchard_notes w !! nf = Some pos)); [|done].
    intros w2 [[i n2] m2] Hi Hw2. rewrite Forall_forall in Hins.
    by apply (connect_incoming_other fvk p (Some pos) _ w2 i n2 m2 (Hins _ Hi) (conj Hw2 eq_refl)). }
  apply list_elem_of_split in Hin as (l1 & l2 & Hl). rewrite Hl in H1, Hnd.
  rewrite fmap_app, fmap_cons in Hnd. apply NoDup_app in Hnd as (_ & Hnd1 & [Hnd2 _]%NoDup_cons).
  rewrite foldR_app in H1. apply bind_Ok in H1 as (w2 & H2 & H1).
  assert (w_orchard_notes w2 !! nf = Some pos) as Hn2.
  { apply (foldR_keep (λ w, w_orchard_notes w !! nf = Some pos)) in H2; [done| |done].
    intros w3 [[i n3] m3] w4 Hi Hw3 H4. assert (i ≠ idx) as Hne.
    { intros ->. apply (Hnd1 idx); [|by left]. apply list_elem_of_fmap. by exists (idx, n3, m3). }
    by apply (connect_outgoing_other true (Some pos) _ w3 i n3 m3 w4 Hne (conj Hw3 eq_refl)). }
  simpl in H1. apply bind_Ok in H1 as (w3 & H3 & H1).
  apply (connect_outgoing_own w2 n m pos w3 Hn2) in H3.
  assert (note_at None (Some pos) w1) as Hw1.
  { apply (foldR_keep (note_at None (Some pos))) in H1; [done| |done].
    intros w4 [[i n4] m4] w5 Hi Hw4. apply connect_outgoing_other; [|done].
    intros ->. apply Hnd2. apply list_elem_of_fmap. by exists (idx, n4, m4). }
  apply (foldR_keep (λ s, note_at None (Some pos) s.1)) in H; [by destruct H| |done].
  intros s [i a] s' Hi Hs. apply connect_action_other; [by apply elem_of_enumerate| |done].
  rewrite Hl, fmap_app, fmap_cons. set_solver.
Qed.

(** Disconnecting it puts a note back under the nullifier: the recovered one. *)
Lemma disconnect_bundle_restores fvk ivks ovks w note pos n m w' :
  (idx, n, m) ∈ recover_outputs_with_ovks b ovks →
  NoDup ((λ o, o.1.1) <$> recover_outputs_with_ovks b ovks) →
  w_orchard_spent_notes w !! key = Some (note, pos) →
  disconnect_orchard_bundle w fvk ivks ovks tx_id b = Ok w' →
  w_orchard_notes w' !! nf = Some (n, pos).
Proof.
  intros Hin Hnd Hs H. unfold disconnect_orchard_bundle in H. cbn zeta in H.
  apply bind_Ok in H as (w1 & H1 & H). injection H as <-. set (w0 := foldl _ w _) in H1.
  assert (w_orchard_spent_notes w0 !! key = Some (note, pos)) as Hs0.
  { unfold w0. apply (foldl_keep (λ w, w_orchard_spent_notes w !! key = Some (note, pos))); [|done].
    by intros w2 [[i n2] m2] _. }
  apply (foldl_keep (λ w, w_orchard_notes w !! nf = Some (n, pos))).
  { intros w2 [i a] Hi Hw2. rewrite elem_of_reverse in Hi. apply elem_of_enumerate in Hi.
    unfold disconnect_action. case_bool_decide as Hout; [done|]. cbn zeta.
    destruct (w_orchard_spent_notes w2 !! _); [|done]. simpl. rewrite lookup_insert_ne; [done|].
    destruct (other_action i a Hi) as [Hnf _]; [|done]. intros ->. apply Hout.
    apply list_elem_of_fmap. by exists (idx, n, m). }
  assert ((idx, n, m) ∈ reverse (recover_outputs_with_ovks b ovks)) as Hin' by by rewrite elem_of_reverse.
  assert (NoDup ((λ o : nat * Note * list byte, o.1.1) <$> reverse (recover_outputs_with_ovks b ovks))) as Hnd'
    by by rewrite reverse_Permutation.
  apply list_elem_of_split in Hin' as (l1 & l2 & Hl). rewrite Hl in H1, Hnd'.
  rewrite fmap_app, fmap_cons in Hnd'. apply NoDup_app in Hnd' as (_ & Hnd1 & [Hnd2 _]%NoDup_cons).
  assert (∀ w2 i n2 m2 w3, i ≠ idx → disconnect_outgoing tx_id b w2 (i, n2, m2) = Ok w3 →
    w_orchard_notes w3 !! nf = w_orchard_notes w2 !! nf
    ∧ w_orchard_spent_notes w3 !! key = w_orchard_spent_notes w2 !! key) as Hother.
  { intros w2 i n2 m2 w3 Hi H3. unfold disconnect_outgoing in H3. apply bind_Ok in H3 as (a & Ha & H3).
    apply expect_Ok in Ha. destruct (other_action i a Ha Hi) as [Hnf Hkey]. cbn zeta in H3.
    destruct (w_orchard_spent_notes w2 !! _) as [[? ?]|] in H3; injection H3 as <-; [|done].
    simpl. by rewrite lookup_insert_ne, lookup_delete_ne. }
  rewrite foldR_app in H1. apply bind_Ok in H1 as (w2 & H2 & H1). simpl in H1.
  apply bind_Ok in H1 as (w3 & H3 & H1).
  apply (foldR_keep (λ w, w_orchard_spent_notes w !! key = Some (note, pos))) in H2; [|clear H2 H3 H1|done].
  2:{ intros w4 [[i n4] m4] w5 Hi Hw4 H5. destruct (Hother w4 i n4 m4 w5) as [_ ->]; [|done..].
      intros ->. apply (Hnd1 idx); [|by left]. apply list_elem_of_fmap. by exists (idx, n4, m4). }
  assert (w_orchard_notes w3 !! nf = Some (n, pos)) as Hn3.
  { unfold disconnect_outgoing in H3. rewrite Haction in H3. cbn [expect] in H3. rewrite ok_bind in H3.
    cbn zeta in H3. fold nf key in H3. rewrite H2 in H3. injection H3 as <-. simpl. apply lookup_insert_eq. }
  apply (foldR_keep (λ w, w_orchard_notes w !! nf = Some (n, pos))) in H1; [done| |done].
  intros w4 [[i n4] m4] w5 Hi Hw4 H5. destruct (Hother w4 i n4 m4 w5) as [-> _]; [|done..].
  intros ->. apply Hnd2. apply list_elem_of_fmap. by exists (idx, n4, m4).
Qed.
End notes.

Section disconnect.
Context `{E : Externals} `{SE : !ShardTreeExternals} `{WE : !WalletExternals}.

Lemma orchard_keys_seed w w' :
  w_seed w' = w_seed w →
  get_orchard_full_viewing_key w' = get_orchard_full_viewing_key w
  ∧ get_orchard_incoming_viewing_keys w' = get_orchard_incoming_viewing_keys w
  ∧ get_orchard_outgoing_viewing_keys w' = get_orchard_outgoing_viewing_keys w.
Proof.
  intros Hs. unfold get_orchard_incoming_viewing_keys, get_orchard_outgoing_viewing_keys,
    get_orchard_full_viewing_key, get_orchard_spending_key, get_master_xpriv. by rewrite Hs.
Qed.

Lemma put_shard_tree_notes w tree w' :
  put_shard_tree_unwrap w tree = Ok w' →
  w_orchard_notes w' = w_orchard_notes w ∧ w_orchard_spent_notes w' = w_orchard_spent_notes w.
Proof.
  unfold put_shard_tree_unwrap, put_shard_tree. intros H. res_step H. res_step H. subst v.
  res_step Hv. destruct (txn v); [|done]. res_step Hv. injection Hv as Hv. by destruct v0; simplify_eq.
Qed.

(** C33: Disconnecting a block does not give a spent note back.  Let the
    block hold one transaction, whose action [idx] spends a note of the wallet
    and creates an output [n] that the wallet's outgoing keys recover, as in
    every transaction that the wallet builds.  After the block is connected
    and disconnected the wallet holds, under the nullifier of the note it had
    spent, the output [n] in place of the note: an output that no longer
    exists, whose value is another one. *)
Theorem disconnect_restores_output_note (w w1 w2 : Wallet) (header : Header) (body : Body)
    (tx : Transaction) (b : Bundle) (idx : nat) (action : Action) (n note : Note) (memo : list byte)
    (pos : Z) (fvk : FullViewingKey) (ivks : list IncomingViewingKey) (ovks : list OutgoingViewingKey)
    (Hbody : transactions body = [tx]) (Hbundle : orchard_bundle tx = Some b)
    (Hfvk : get_orchard_full_viewing_key w = Ok fvk)
    (Hivks : get_orchard_incoming_viewing_keys w = Ok ivks)
    (Hovks : get_orchard_outgoing_viewing_keys w = Ok ovks)
    (Hactions : (zlen (bundle_actions b) ≤ 2 ^ 32)%Z)
    (Hnullifiers : NoDup (action_nullifier <$> bundle_actions b))
    (Haction : bundle_actions b !! idx = Some action)
    (Hrecovered : (idx, n, memo) ∈ recover_outputs_with_ovks b ovks)
    (Hindexes : NoDup ((λ o, o.1.1) <$> recover_outputs_with_ovks b ovks))
    (Hincoming : Forall (λ i, note_nullifier i.1.2 fvk ≠ action_nullifier action)
       (decrypt_outputs_with_keys b ivks))
    (Hnote : w_orchard_notes w !! action_nullifier action = Some (note, pos))
    (Hconnect : connect_orchard_block w header body = Ok w1)
    (Hdisconnect : disconnect_orchard_block w1 header body = Ok w2) :
  w_orchard_notes w2 !! action_nullifier action = Some (n, pos).
Proof.
  destruct (orchard_keys_seed w w1) as (Hf & Hi & Ho).
  { by apply connect_orchard_block_same in Hconnect as [? _]. }
  unfold connect_orchard_block in Hconnect. do 2 (apply bind_Ok in Hconnect as (? & _ & Hconnect)).
  rewrite Hfvk, Hivks, Hovks, !ok_bind in Hconnect. apply bind_Ok in Hconnect as (tree & _ & Hconnect).
  rewrite Hbody in Hconnect. apply bind_Ok in Hconnect as ([w3 tree3] & H3 & Hconnect).
  simpl in H3. rewrite Hbundle in H3. apply bind_Ok in H3 as ([w4 tree4] & H4 & [= <- <-]).
  unfold connect_orchard_bundle_confirmed in H4. apply bind_Ok in H4 as ([w5 tree5] & H5 & H4).
  apply bind_Ok in H4 as (tree6 & _ & [= <- <-]).
  apply (connect_bundle_spends (txid tx) b idx action Haction Hnullifiers Hactions _ _ _ _ _ (note, pos) n memo)
    in H5; [|done..].
  cbn zeta in Hconnect. apply bind_Ok in Hconnect as (? & _ & Hconnect).
  apply bind_Ok in Hconnect as ([? tree7] & _ & Hconnect). apply put_shard_tree_notes in Hconnect as [_ Hs1].
  change (w_orchard_spent_notes (put_tip w5 (Header_hash header))) with (w_orchard_spent_notes w5) in Hs1.
  unfold disconnect_orchard_block in Hdisconnect.
  do 2 (apply bind_Ok in Hdisconnect as (? & _ & Hdisconnect)).
  rewrite Hf, Hi, Ho, Hfvk, Hivks, Hovks, !ok_bind in Hdisconnect.
  apply bind_Ok in Hdisconnect as (w6 & H6 & Hdisconnect). rewrite Hbody in H6. simpl in H6.
  rewrite Hbundle in H6. apply bind_Ok in H6 as (w7 & H7 & [= <-]).
  rewrite <- Hs1 in H5.
  apply (disconnect_bundle_restores (txid tx) b idx action Haction Hnullifiers Hactions _ _ _ _ note pos n memo)
    in H7; [|done..].
  cbn zeta in Hdisconnect. do 2 (apply bind_Ok in Hdisconnect as (? & _ & Hdisconnect)).
  apply bind_Ok in Hdisconnect as ([? tree8] & _ & Hdisconnect).
  apply bind_Ok in Hdisconnect as (? & _ & Hdisconnect).
  apply put_shard_tree_notes in Hdisconnect as [-> _]. exact H7.
Qed.
End disconnect.
