(* ===== verification/WalletToy.v ===== *)
(** A small executable instance of [WalletExternals], and the witnesses of the
    wallet's theorems.

    Keys are numbers derived from a hash of the seed; a note is its value and
    nullifier; the output of an action with a positive commitment is decrypted
    by every key, to the note with that value; a tree is the number of its
    leaves with the store it was loaded from and the checkpoint operations
    still to be flushed. *)
From S2P Require Import Prelude.
From S2P Require Import Borsh.
From S2P Require Import Externals.
From S2P Require Import Toy.
From S2P Require Import Types.
From S2P Require Import AccumulatorDiff.
From S2P Require Import Authorization.
From S2P Require Import Keys.
From S2P Require Import ShardTreeDb.
From S2P Require Import ShardTreeFacts.
From S2P Require Import Wallet.
From S2P Require Import WalletFacts.

Module WalletToy.
#[export] Existing Instances Toy.externals ShardTreeToy.shard_externals.

Definition toy_derive (x : Z) (path : list ChildNumber) : Z :=
  foldl (λ a c, match c with Hardened i => a * 31 + 2 * i + 1 | Normal i => a * 31 + 2 * i end)%Z x path.

(** Notes that the keys of an action's output open. *)
Definition toy_outputs (b : Toy.bundle) : list (nat * (Z * Z) * list byte) :=
  omap (λ '(i, a), if (0 <? a.1)%Z then Some (i, (a.1, a.1 + 1000)%Z, (replicate 512 x00)) else None)
    (imap pair (Toy.b_actions b)).

Record toy_tree := mk_toy_tree {
  tt_store : ShardTreeStore;
  tt_leaves : Z;
  tt_pending : list (CheckpointId * bool)
}.
Definition leaves_of (pos : option Z) : Z := match pos with None => 0 | Some p => p + 1 end.
Definition pos_of (leaves : Z) : option Z := if (leaves =? 0)%Z then None else Some (leaves - 1)%Z.
Definition toy_load (s : ShardTreeStore) : Res StoreError toy_tree :=
  last ← max_checkpoint_id s;
  Ok (mk_toy_tree s (match last with None => 0 | Some id => leaves_of (cid_pos id) end) []).
Definition toy_flush (t : toy_tree) (s : ShardTreeStore) : Res StoreError ShardTreeStore :=
  foldR (λ s '(id, add),
      if (add : bool) then
        snd <$> add_checkpoint s id
          (Checkpoint_from_parts (match cid_pos id with None => TreeEmpty | Some p => AtPosition p end) ∅)
      else snd <$> truncate_checkpoints_retaining s id)
    s (tt_pending t).
Definition toy_checkpoint_pos (t : toy_tree) (depth : nat) : option (option Z) :=
  match get_checkpoint_at_depth (tt_store t) depth with
  | Ok (Some (id, _)) => Some (cid_pos id)
  | _ => None
  end.

Record toy_builder := mk_toy_builder {
  tb_enabled : bool;
  tb_anchor : list Z;
  tb_spends : list (Z * Z);
  tb_outputs : list Z
}.
Definition toy_balance (b : toy_builder) : Z := sumZ (fst <$> tb_spends b) - sumZ (tb_outputs b).
Definition toy_bundle (b : toy_builder) : Toy.bundle :=
  Toy.mk_bundle
    (imap (λ i v, (v, match tb_spends b !! i with Some s => s.2 | None => 100 + Z.of_nat i end)%Z) (tb_outputs b))
    (tb_enabled b) (toy_balance b) (tb_anchor b) true.

Definition value_le (a b : OutPoint * Output) : Prop := (get_value a.2 ≤ get_value b.2)%Z.
#[export] Instance value_le_dec a b : Decision (value_le a b).
Proof. unfold value_le. apply _. Defined.
#[export] Instance value_le_trans : Transitive value_le.
Proof. intros a b c. unfold value_le. lia. Qed.
#[export] Instance value_le_total : Total value_le.
Proof. intros a b. unfold value_le. lia. Qed.

#[export] Instance wallet_externals : WalletExternals := {|
  Xpriv := Z; new_master seed := Some (Toy.poly_hash seed);
  derive_priv x path := Some (toy_derive x path);
  secret_bytes x := le_vec 32 x; signing_key_from v := le_val v;
  SpendingKey := Z; from_zip32_seed v _ _ := Some (le_val v);
  SpendAuthorizingKey := Z; spend_authorizing_key k := k;
  FullViewingKey := Z; full_viewing_key k := k;
  IncomingViewingKey := Z * Scope; to_ivk k s := (k, s);
  OutgoingViewingKey := Z * Scope; to_ovk k s := (k, s);
  OrchardAddress := Z; address_at k i _ := (k * 1000 + i)%Z;
  Note := Z * Z; note_value n := n.1; note_nullifier n _ := n.2; nullifier_cmp := Z.compare;
  decrypt_outputs_with_keys b _ := toy_outputs b;
  recover_outputs_with_ovks b _ := toy_outputs b;
  merkle_hash_from_cmx c := [c];
  MerklePath := unit; BundleFlags := bool; FLAGS_ENABLED := true; FLAGS_SPENDS_DISABLED := false;
  Builder := toy_builder;
  builder_new flags _ anchor := mk_toy_builder flags anchor [] [];
  builder_add_spend b _ n _ :=
    Some (mk_toy_builder (tb_enabled b) (tb_anchor b) (tb_spends b ++ [n]) (tb_outputs b));
  builder_add_output b _ _ v _ :=
    inl (mk_toy_builder (tb_enabled b) (tb_anchor b) (tb_spends b) (tb_outputs b ++ [v]));
  builder_spends b := length (tb_spends b); builder_outputs b := length (tb_outputs b);
  builder_value_balance b := Some (toy_balance b);
  UnprovenBundle := toy_builder; orchard_build b := Some (Some b);
  UnauthorizedBundle := toy_builder; create_proof b := Some b;
  unauthorized_ser_without_auth b := Toy.ser_bundle (toy_bundle b);
  apply_signatures b _ _ := Some (toy_bundle b);
  ShardTree := toy_tree; ShardTreeError := Empty_set;
  caching_store_load := toy_load; caching_store_flush := toy_flush;
  max_leaf_position t := Ok (pos_of (tt_leaves t));
  tree_append t _ _ := Ok (mk_toy_tree (tt_store t) (tt_leaves t + 1) (tt_pending t));
  tree_checkpoint t id := Ok (true, mk_toy_tree (tt_store t) (tt_leaves t) (tt_pending t ++ [(id, true)]));
  truncate_to_checkpoint t id :=
    Ok (true, mk_toy_tree (tt_store t) (leaves_of (cid_pos id)) (tt_pending t ++ [(id, false)]));
  root_at_checkpoint_depth t depth :=
    Ok (match toy_checkpoint_pos t depth with Some pos => Some [leaves_of pos] | None => None end);
  witness_at_checkpoint_depth t pos depth :=
    Ok (match toy_checkpoint_pos t depth with
        | Some p => if (pos <? leaves_of p)%Z then Some tt else None
        | None => None
        end);
  sort_unstable_by_value := merge_sort value_le;
  shuffle l := l; choose := head; dummy_address _ := 0%Z
|}.

#[export] Instance sort_unstable : SortUnstable.
Proof.
  constructor; intros l.
  - apply merge_sort_Permutation.
  - apply (StronglySorted_merge_sort value_le); apply _.
Qed.

(** ** A wallet with a seed, an address and three outputs *)
Definition wallet0 : Wallet := Wallet_new Wallet_empty_dbs.
Definition wallet1 : Wallet := overwrite_seed wallet0 [x01; x02].
Definition ok_or_default {A} (d : A) (r : Res WalletError A) : A := match r with Ok a => a | _ => d end.
Definition wallet2 : Wallet := (ok_or_default (wallet1, vreplicate 20 x00) (get_new_transparent_address wallet1)).1.
Definition own_address : TransparentAddress :=
  (ok_or_default (wallet1, vreplicate 20 x00) (get_new_transparent_address wallet1)).2.
Definition op (z : Z) : OutPoint := Regular (le_vec 32 z) (u32_of_Z 0).
Definition confirmed : gmap OutPoint Output :=
  list_to_map [(op 1, mk_Output own_address (Value 500)); (op 2, mk_Output own_address (Value 300));
               (op 3, mk_Output own_address (Withdrawal 900 10 []))].
Definition wallet3 : Wallet := put_utxos_confirmed wallet2 confirmed.

Lemma new_address2 : get_new_transparent_address wallet1 = Ok (wallet2, own_address).
Proof. reflexivity. Qed.
Lemma wallet3_reach : rtc wallet_step wallet0 wallet3.
Proof.
  eapply rtc_l; [apply (Step_overwrite_seed wallet0 wallet1 [x01; x02] eq_refl)|].
  eapply rtc_l; [exact (Step_new_transparent_address wallet1 wallet2 own_address new_address2)|].
  apply rtc_once. exact (Step_put_confirmed wallet2 wallet3 confirmed eq_refl).
Qed.

Lemma wallet_invariant_witness : wallet_wf wallet3 ∧ length (map_to_list (w_utxos wallet3)) = 3.
Proof. split; [exact (wallet_invariant wallet3 wallet3_reach)|vm_compute; reflexivity]. Defined.

Definition balance3 : Balance := mk_Balance 0 1710 0 800.
#[export] Instance Balance_eq_dec : EqDecision Balance.
Proof. solve_decision. Defined.
Lemma balance3_ok : get_balance wallet3 = Ok balance3.
Proof. vm_ok. Qed.
Lemma amounts3 o out : w_utxos wallet3 !! o = Some out → (0 ≤ get_value out)%Z.
Proof.
  intros H. apply Z.leb_le. revert H.
  apply (map_all_lookup (λ _ out, (0 <=? get_value out)%Z)). vm_compute. reflexivity.
Qed.

Lemma coin_selection_spec_witness :
  is_ok (select_transparent_coins wallet3 800) = true ∧ select_transparent_coins wallet3 801 = Err W_NotEnoughFunds.
Proof.
  split; [vm_compute; reflexivity|].
  pose proof (coin_selection_spec wallet3 balance3 801 balance3_ok amounts3) as H.
  destruct (select_transparent_coins wallet3 801) as [[total coins]|e|]; [|by destruct H as [-> _]|done].
  destruct H as [H _]. simpl in H. lia.
Defined.

(** ** A note of 700 is received in one block and spent in the next, with an
    output of 600 back to the wallet; the second block is disconnected. *)
Definition orchard_tx (actions : list (Z * Z)) : Transaction :=
  mk_Transaction [] [] [] (Some (Toy.mk_bundle actions true 0 [] true)).
Definition orchard_body (actions : list (Z * Z)) : Body := mk_Body [] [orchard_tx actions] [].
Definition orchard_header (prev : option BlockHash) (actions : list (Z * Z)) : Header :=
  mk_Header (compute_merkle_root (orchard_body actions)) prev (le_vec 32 9) [].
Definition receive : list (Z * Z) := [(700, 99)%Z].
Definition spend : list (Z * Z) := [(600, 1700)%Z].
Definition header1 : Header := orchard_header None receive.
Definition header2 : Header := orchard_header (Some (Header_hash header1)) spend.
Definition connected (r : Res WalletError Wallet) : Wallet := ok_or_default wallet0 r.
Definition wallet4 : Wallet := connected (connect_orchard_block wallet3 header1 (orchard_body receive)).
Definition wallet5 : Wallet := connected (connect_orchard_block wallet4 header2 (orchard_body spend)).
Definition wallet6 : Wallet := connected (disconnect_orchard_block wallet5 header2 (orchard_body spend)).

Lemma ok_or_default_ok {A} (d : A) r : is_ok r = true → r = Ok (ok_or_default d r).
Proof. by destruct r. Qed.
Definition fvk : FullViewingKey := ok_or_default 0%Z (get_orchard_full_viewing_key wallet4).
Definition ivks : list IncomingViewingKey := ok_or_default [] (get_orchard_incoming_viewing_keys wallet4).
Definition ovks : list OutgoingViewingKey := ok_or_default [] (get_orchard_outgoing_viewing_keys wallet4).

Lemma disconnect_restores_output_note_witness :
  w_orchard_notes wallet4 !! 1700%Z = Some ((700, 1700)%Z, 0%Z)
  ∧ w_orchard_notes wallet6 !! 1700%Z = Some ((600, 1600)%Z, 0%Z).
Proof.
  assert (w_orchard_notes wallet4 !! 1700%Z = Some ((700, 1700)%Z, 0%Z)) as Hnote by (vm_compute; reflexivity).
  split; [exact Hnote|].
  refine (disconnect_restores_output_note wallet4 wallet5 wallet6 header2 (orchard_body spend)
    (orchard_tx spend) (Toy.mk_bundle spend true 0 [] true) 0 (600, 1700)%Z (600, 1600)%Z (700, 1700)%Z
    NO_MEMO 0 fvk ivks ovks
    eq_refl eq_refl _ _ _ _ _ eq_refl _ _ _ Hnote _ _).
  - apply ok_or_default_ok. vm_compute. reflexivity.
  - apply ok_or_default_ok. vm_compute. reflexivity.
  - apply ok_or_default_ok. vm_compute. reflexivity.
  - vm_compute. discriminate.
  - apply (bool_decide_unpack _). vm_compute. exact I.
  - apply list_elem_of_singleton. reflexivity.
  - apply (bool_decide_unpack _). vm_compute. exact I.
  - apply (bool_decide_unpack _). vm_compute. exact I.
  - apply ok_or_default_ok. vm_compute. reflexivity.
  - apply ok_or_default_ok. vm_compute. reflexivity.
Defined.
End WalletToy.
