(* ===== verification/Bills.v ===== *)
(** Bills ([schedule_bills], [Cast] and [MeltBatch] of
    [src/lib/wallet/mod.rs]): an amount that enters or leaves the shielded pool
    is split into powers of two, each with a day and a random time.

    The calendar is the [chrono] crate's ([Chrono]), a [DateTime<Utc>] is
    compared by its [timestamp] in nanoseconds; random numbers come from a
    function of the number of the draw. *)
From S2P Require Import Prelude.
From S2P Require Import Externals.
From S2P Require Import Toy.
From S2P Require Import Types.
From S2P Require Import AccumulatorDiff.
From S2P Require Import ShardTreeDb.
From S2P Require Import ShardTreeFacts.
From S2P Require Import Wallet.
From S2P Require Import WalletToy.

(** [chrono::Weekday] *)
Inductive Weekday := Mon | Tue | Wed | Thu | Fri | Sat | Sun.
#[export] Instance Weekday_eq_dec : EqDecision Weekday.
Proof. solve_decision. Defined.

Class Chrono := {
  DateTime : Type;
  NaiveDate : Type;
  timestamp : DateTime → Z;
  weekday : DateTime → Weekday;
  days_since : Weekday → Weekday → Z;
  date_naive : DateTime → NaiveDate;
  add_days : NaiveDate → Z → NaiveDate;
  num_seconds_from_midnight : DateTime → Z;
  (** a date and the seconds from its midnight *)
  from_utc_datetime : NaiveDate → Z → DateTime
}.

Section bills.
Context `{C : Chrono}.
(** [OsRng.gen_range(lo..=hi)], by the number of the draw *)
Context (gen_range : nat → Z → Z → Z).

Definition STANDARD_FEE : Amount := 1000.

Definition bill_exponent_to_weekday {Er} (exp : Z) : Res Er Weekday :=
  match (exp mod 7)%Z with
  | 0%Z => Ok Sat | 1%Z => Ok Fri | 2%Z => Ok Thu | 3%Z => Ok Wed
  | 4%Z => Ok Tue | 5%Z => Ok Mon | 6%Z => Ok Sun | _ => Panic
  end.

(** The time of day, and the number of draws so far. *)
Definition time_of_day (now : DateTime) (on_weekday : Weekday) (draws : nat) : Z * nat :=
  if bool_decide (weekday now = on_weekday) then
    (gen_range draws (num_seconds_from_midnight now) 86399, draws + 1)
  else
    ((gen_range draws 0 23 * 3600 + gen_range (draws + 1)%nat 0 59 * 60 + gen_range (draws + 2)%nat 0 59)%Z, draws + 3).

(** [from_fn]: an amount has 64 bits, so there are at most 64 bills. *)
Fixpoint bills_loop {Er} (fuel : nat) (now : DateTime) (draws : nat) (amount_remaining : Z) :
    Res Er (list (Z * DateTime)) :=
  if (amount_remaining =? 0)%Z then Ok []
  else
    match fuel with
    | O => Panic
    | S fuel =>
        let bill_exponent := Z.log2 amount_remaining in
        let amount_remaining := (amount_remaining - Z.shiftl 1 bill_exponent)%Z in
        on_weekday ← bill_exponent_to_weekday bill_exponent;
        let days_from_now := days_since on_weekday (weekday now) in
        let on_date := add_days (date_naive now) days_from_now in
        let '(secs, draws) := time_of_day now on_weekday draws in
        let timestamp := from_utc_datetime on_date secs in
        rest ← bills_loop fuel now draws amount_remaining;
        Ok ((bill_exponent, timestamp) :: rest)
    end.

Definition bill_le (a b : Z * DateTime) : Prop := (timestamp a.2 ≤ timestamp b.2)%Z.
#[export] Instance bill_le_dec a b : Decision (bill_le a b).
Proof. unfold bill_le. apply _. Defined.
#[export] Instance bill_le_trans : Transitive bill_le.
Proof. intros a b c. unfold bill_le. lia. Qed.
#[export] Instance bill_le_total : Total bill_le.
Proof. intros a b. unfold bill_le. lia. Qed.

Definition schedule_bills {Er} (now : DateTime) (amount : Amount) : Res Er (list (Z * DateTime)) :=
  bill_exponents_with_timestamps ← bills_loop 64 now 0 amount;
  Ok (merge_sort bill_le bill_exponents_with_timestamps).

(** ** Casts and melts

    Both are queues of bills.  [next_tx] sleeps until the first bill is due and
    returns how to create its transaction: here the nanoseconds to sleep, from
    the time of the call, the queue afterwards, and the transaction as a
    function of the accumulator and the wallet. *)
Definition next_bill (now : DateTime) (bills : list (Z * DateTime)) :
    option (Z * list (Z * DateTime) * Amount) :=
  match bills with
  | [] => None
  | (bill_exponent, ts) :: rest =>
      let sleep_duration := Z.max (timestamp ts - timestamp now) 0 in
      let amount := Z.shiftl 1 bill_exponent in
      Some (sleep_duration, rest, amount)
  end.

Context `{E : Externals} `{SE : !ShardTreeExternals} `{WE : !WalletExternals}.
Definition Transact := Accumulator → Wallet → Res WalletError (Wallet * Transaction).

Record Cast := mk_Cast { cast_bill_exponents_with_timestamps : list (Z * DateTime) }.
Definition Cast_tx_fee : Amount := STANDARD_FEE.
Definition Cast_new {Er} (now : DateTime) (amount : Amount) : Res Er Cast :=
  mk_Cast <$> schedule_bills now amount.
Definition Cast_next_tx (now : DateTime) (c : Cast) : option (Z * Cast * Transact) :=
  '(sleep, bills, amount) ← next_bill now (cast_bill_exponents_with_timestamps c);
  let fee := Cast_tx_fee in
  Some (sleep, mk_Cast bills,
    λ accumulator wallet, create_unshield_transaction wallet accumulator amount fee).

Record MeltBatch := mk_MeltBatch { melt_bill_exponents_with_timestamps : list (Z * DateTime) }.
Definition MeltBatch_tx_fee : Amount := STANDARD_FEE.
Definition MeltBatch_new {Er} (now : DateTime) (amount : Amount) : Res Er MeltBatch :=
  mk_MeltBatch <$> schedule_bills now amount.
Definition MeltBatch_next_tx (now : DateTime) (m : MeltBatch) : option (Z * MeltBatch * Transact) :=
  '(sleep, bills, amount) ← next_bill now (melt_bill_exponents_with_timestamps m);
  let fee := MeltBatch_tx_fee in
  Some (sleep, mk_MeltBatch bills,
    λ accumulator wallet, create_shield_transaction wallet accumulator amount fee).
End bills.

(** ** Properties *)

(** Documented behaviour of [chrono]. *)
Class ChronoLaws `{Chrono} : Prop := {
  days_since_range a b : (0 ≤ days_since a b < 7)%Z;
  days_since_zero a b : days_since a b = 0%Z ↔ a = b;
  weekday_in now w secs : (0 ≤ secs < 86400)%Z →
    weekday (from_utc_datetime (add_days (date_naive now) (days_since w (weekday now))) secs) = w;
  timestamp_in date days secs : (0 ≤ secs < 86400)%Z →
    timestamp (from_utc_datetime (add_days date days) secs)
    = (timestamp (from_utc_datetime date 0) + (days * 86400 + secs) * 10 ^ 9)%Z;
  seconds_in_day t : (0 ≤ num_seconds_from_midnight t < 86400)%Z;
  timestamp_now t :
    (num_seconds_from_midnight t * 10 ^ 9
     ≤ timestamp t - timestamp (from_utc_datetime (date_naive t) 0)
     < (num_seconds_from_midnight t + 1) * 10 ^ 9)%Z
}.

(** [gen_range] stays in the range. *)
Definition in_range (gen_range : nat → Z → Z → Z) : Prop :=
  ∀ i lo hi, (lo ≤ hi → lo ≤ gen_range i lo hi ≤ hi)%Z.

Section properties.
Context `{CL : ChronoLaws}.
Context (gen_range : nat → Z → Z → Z) (Hgen : in_range gen_range).

Lemma weekday_total {Er} e : ∃ w, bill_exponent_to_weekday (Er:=Er) e = Ok w.
Proof.
  unfold bill_exponent_to_weekday. pose proof (Z.mod_pos_bound e 7 ltac:(lia)) as Hm.
  assert (e mod 7 = 0 ∨ e mod 7 = 1 ∨ e mod 7 = 2 ∨ e mod 7 = 3 ∨ e mod 7 = 4 ∨ e mod 7 = 5 ∨ e mod 7 = 6)%Z
    as Hc by lia.
  destruct Hc as [->|[->|[->|[->|[->|[->| ->]]]]]]; by eexists.
Qed.

(** A bill is due on the day of its denomination, in less than a week. *)
Definition bill_ok (now : DateTime) (b : Z * DateTime) : Prop :=
  bill_exponent_to_weekday (Er:=Empty_set) b.1 = Ok (weekday b.2)
  ∧ (timestamp now - 10 ^ 9 < timestamp b.2 < timestamp now + 7 * 86400 * 10 ^ 9)%Z.

Lemma time_of_day_range now w draws :
  (0 ≤ (time_of_day gen_range now w draws).1 < 86400)%Z
  ∧ (weekday now = w → num_seconds_from_midnight now ≤ (time_of_day gen_range now w draws).1)%Z.
Proof.
  unfold time_of_day. pose proof (seconds_in_day now). case_bool_decide; simpl.
  - pose proof (Hgen draws (num_seconds_from_midnight now) 86399%Z ltac:(lia)). lia.
  - pose proof (Hgen draws 0%Z 23%Z ltac:(lia)). pose proof (Hgen (draws + 1) 0%Z 59%Z ltac:(lia)).
    pose proof (Hgen (draws + 2) 0%Z 59%Z ltac:(lia)). split; [lia|done].
Qed.

Lemma timestamp_week now w secs :
  (0 ≤ secs < 86400)%Z → (weekday now = w → num_seconds_from_midnight now ≤ secs)%Z →
  let t := from_utc_datetime (add_days (date_naive now) (days_since w (weekday now))) secs in
  weekday t = w ∧ (timestamp now - 10 ^ 9 < timestamp t < timestamp now + 7 * 86400 * 10 ^ 9)%Z.
Proof.
  intros Hs Hnow t. split; [by apply weekday_in|]. unfold t. rewrite timestamp_in by done.
  pose proof (timestamp_now now) as Hn. pose proof (seconds_in_day now) as Hd.
  pose proof (days_since_range w (weekday now)) as Hr.
  destruct (decide (days_since w (weekday now) = 0)%Z) as [H0|].
  - rewrite H0. apply days_since_zero in H0. specialize (Hnow (eq_sym H0)). lia.
  - lia.
Qed.

Lemma log2_rest n : (0 < n)%Z → (0 ≤ n - Z.shiftl 1 (Z.log2 n) < 2 ^ Z.log2 n)%Z.
Proof.
  intros Hn. rewrite Z.shiftl_1_l. pose proof (Z.log2_spec n Hn) as Hs.
  rewrite Z.pow_succ_r in Hs by apply Z.log2_nonneg. lia.
Qed.

Lemma bills_loop_ok {Er} now k fuel draws n :
  k ≤ fuel → (0 ≤ n < 2 ^ Z.of_nat k)%Z →
  ∃ l, bills_loop (Er:=Er) gen_range fuel now draws n = Ok l
    ∧ sumZ ((λ b, 2 ^ b.1)%Z <$> l) = n ∧ NoDup l.*1
    ∧ Forall (λ b, (0 ≤ b.1 < Z.of_nat k)%Z ∧ bill_ok now b) l.
Proof.
  revert k draws n. induction fuel as [|fuel IH]; intros k draws n Hk Hn; simpl;
    (destruct (Z.eqb_spec n 0) as [->|Hne]; [by exists []; split_and!; try constructor|]).
  { replace k with 0 in Hn by lia. simpl in Hn. lia. }
  pose proof (log2_rest n ltac:(lia)) as Hrest. set (e := Z.log2 n) in *.
  assert (0 ≤ e < Z.of_nat k)%Z as He.
  { split; [apply Z.log2_nonneg|]. apply Z.log2_lt_pow2; lia. }
  destruct (weekday_total (Er:=Er) e) as [w Hw]. rewrite Hw, ok_bind. cbn zeta.
  pose proof (time_of_day_range now w draws) as [Ht1 Ht2].
  destruct (time_of_day gen_range now w draws) as [secs draws']. simpl in Ht1, Ht2.
  destruct (IH (Z.to_nat e) draws' (n - Z.shiftl 1 e)%Z) as (l & Hl & Hsum & Hnd & Hall);
    [lia|by rewrite Z2Nat.id by lia|].
  rewrite Hl, ok_bind. eexists. split; [done|]. rewrite Z2Nat.id in Hall by lia. split_and!.
  - rewrite fmap_cons, sumZ_cons. simpl. rewrite Hsum, Z.shiftl_1_l. lia.
  - rewrite fmap_cons, NoDup_cons. split; [|done]. simpl.
    intros (b & -> & Hb)%list_elem_of_fmap. rewrite Forall_forall in Hall. apply Hall in Hb as [? _]. lia.
  - constructor.
    + split; [done|]. unfold bill_ok. simpl. destruct (timestamp_week now w secs Ht1 Ht2) as [-> Hts].
      split; [|done]. destruct (weekday_total (Er:=Empty_set) e) as [w' Hw']. rewrite Hw'. f_equal.
      unfold bill_exponent_to_weekday in Hw, Hw'. destruct (e mod 7)%Z as [|p|]; try done; [congruence|].
      repeat (destruct p as [p|p|]; try done); congruence.
    + eapply Forall_impl; [exact Hall|]. intros b [? ?]. split; [lia|done].
Qed.

(** Bills add up: scheduling an amount of satoshis succeeds, the bills are distinct
    powers of two that sum to the amount, in the order of their times; each
    falls on the weekday of its denomination, not more than a second before
    now and less than a week after. *)
Theorem schedule_bills_spec {Er} (now : DateTime) (amount : Amount) (Hamount : (0 ≤ amount < 2 ^ 64)%Z) :
  ∃ bills, schedule_bills (Er:=Er) gen_range now amount = Ok bills
    ∧ sumZ ((λ b, 2 ^ b.1)%Z <$> bills) = amount
    ∧ NoDup bills.*1 ∧ StronglySorted bill_le bills
    ∧ Forall (λ b, (0 ≤ b.1 < 64)%Z ∧ bill_ok now b) bills.
Proof.
  destruct (bills_loop_ok (Er:=Er) now 64 64 0 amount) as (l & Hl & Hsum & Hnd & Hall); [done..|].
  unfold schedule_bills. rewrite Hl, ok_bind. eexists. split; [done|].
  pose proof (merge_sort_Permutation bill_le l) as Hp. split_and!.
  - rewrite <- Hsum. by apply sumZ_perm, fmap_Permutation.
  - by rewrite Hp.
  - apply (StronglySorted_merge_sort bill_le); apply _.
  - by rewrite Hp.
Qed.

(** *** A queue that is run until it is empty *)
Context `{E : Externals} `{SE : !ShardTreeExternals} `{WE : !WalletExternals}.

(** The transactions of calls of [next_tx] at the given times. *)
Fixpoint next_txs {Q} (next_tx : DateTime → Q → option (Z * Q * Transact)) (nows : list DateTime) (q : Q) :
    list Transact :=
  match nows with
  | [] => []
  | now :: nows =>
      match next_tx now q with
      | None => []
      | Some (_, q, transact) => transact :: next_txs next_tx nows q
      end
  end.
Definition bill_amount (b : Z * DateTime) : Amount := Z.shiftl 1 b.1.

Lemma melt_txs_bills nows bills : length bills ≤ length nows →
  next_txs MeltBatch_next_tx nows (mk_MeltBatch bills)
  = (λ b accumulator wallet, create_shield_transaction wallet accumulator (bill_amount b) STANDARD_FEE) <$> bills.
Proof.
  revert bills. induction nows as [|now nows IH]; intros [|[e ts] bills] Hlen; simpl in *; try done; [lia|].
  f_equal. apply IH. lia.
Qed.
Lemma cast_txs_bills nows bills : length bills ≤ length nows →
  next_txs Cast_next_tx nows (mk_Cast bills)
  = (λ b accumulator wallet, create_unshield_transaction wallet accumulator (bill_amount b) STANDARD_FEE) <$> bills.
Proof.
  revert bills. induction nows as [|now nows IH]; intros [|[e ts] bills] Hlen; simpl in *; try done; [lia|].
  f_equal. apply IH. lia.
Qed.

(** An amount of 64 bits has at most 64 bills. *)
Lemma bills_length {P : Z * DateTime → Prop} (bills : list (Z * DateTime)) :
  NoDup bills.*1 → Forall (λ b, (0 ≤ b.1 < 64)%Z ∧ P b) bills → length bills ≤ 64.
Proof.
  intros Hnd Hall. rewrite <- (length_fmap fst). change 64 with (length (seqZ 0 64)).
  apply submseteq_length, NoDup_submseteq; [done|].
  intros e (b & -> & Hb)%list_elem_of_fmap. rewrite Forall_forall in Hall. apply Hall in Hb as [He _].
  apply elem_of_seqZ. lia.
Qed.

(** A melt shields, and a cast unshields, exactly the amount it was made
    for: after at most 64 calls of [next_tx], whenever they are made, the queue
    is empty, and the transactions were created for powers of two that add up
    to the amount, all with the standard fee. *)
Theorem melt_and_cast_move_amount {Er} (now : DateTime) (amount : Amount) (nows : list DateTime)
    (Hamount : (0 ≤ amount < 2 ^ 64)%Z) (Hcalls : 64 ≤ length nows) :
  ∃ m c amounts, MeltBatch_new (Er:=Er) gen_range now amount = Ok m
    ∧ Cast_new (Er:=Er) gen_range now amount = Ok c
    ∧ sumZ amounts = amount ∧ Forall (λ a, ∃ e, (0 ≤ e < 64 ∧ a = 2 ^ e)%Z) amounts
    ∧ next_txs MeltBatch_next_tx nows m
      = (λ a accumulator wallet, create_shield_transaction wallet accumulator a STANDARD_FEE) <$> amounts
    ∧ next_txs Cast_next_tx nows c
      = (λ a accumulator wallet, create_unshield_transaction wallet accumulator a STANDARD_FEE) <$> amounts.
Proof.
  destruct (bills_loop_ok (Er:=Er) now 64 64 0 amount) as (l & Hl & Hsum & Hnd & Hall); [done..|].
  set (bills := merge_sort bill_le l). assert (bills ≡ₚ l) as Hp by apply (merge_sort_Permutation bill_le).
  rewrite <- Hp in Hnd, Hall. pose proof (bills_length _ Hnd Hall) as Hlen.
  exists (mk_MeltBatch bills), (mk_Cast bills), (bill_amount <$> bills).
  unfold MeltBatch_new, Cast_new, schedule_bills. rewrite Hl. split_and!; [done|done| | | |].
  - rewrite <- Hsum. transitivity (sumZ ((λ b : Z * DateTime, 2 ^ b.1)%Z <$> bills)).
    + f_equal. apply list_fmap_ext. intros i b _. apply Z.shiftl_1_l.
    + by apply sumZ_perm, fmap_Permutation.
  - apply Forall_fmap. eapply Forall_impl; [exact Hall|]. intros b [He _]. exists b.1. split; [done|].
    apply Z.shiftl_1_l.
  - rewrite melt_txs_bills by lia. by rewrite <- list_fmap_compose.
  - rewrite cast_txs_bills by lia. by rewrite <- list_fmap_compose.
Qed.
End properties.

(** ** Witness: days counted from 1 January 1970, a Thursday *)
Module BillsToy.
#[local] Existing Instances Toy.externals ShardTreeToy.shard_externals WalletToy.wallet_externals.
Definition weekday_num (w : Weekday) : Z :=
  match w with Thu => 0 | Fri => 1 | Sat => 2 | Sun => 3 | Mon => 4 | Tue => 5 | Wed => 6 end%Z.
Definition num_weekday (n : Z) : Weekday :=
  match n with
  | 0%Z => Thu | 1%Z => Fri | 2%Z => Sat | 3%Z => Sun | 4%Z => Mon | 5%Z => Tue | _ => Wed
  end.
Definition day : Z := 86400 * 10 ^ 9.
#[local] Instance civil : Chrono := {|
  DateTime := Z;
  NaiveDate := Z;
  timestamp := id;
  weekday t := num_weekday ((t / day) mod 7);
  days_since a b := ((weekday_num a - weekday_num b) mod 7)%Z;
  date_naive t := (t / day)%Z;
  add_days d n := (d + n)%Z;
  num_seconds_from_midnight t := (t mod day / 10 ^ 9)%Z;
  from_utc_datetime d secs := ((d * 86400 + secs) * 10 ^ 9)%Z
|}.

Lemma weekday_num_range w : (0 ≤ weekday_num w < 7)%Z.
Proof. by destruct w. Qed.
Lemma num_weekday_num w : num_weekday (weekday_num w) = w.
Proof. by destruct w. Qed.
Lemma weekday_num_weekday n : (0 ≤ n < 7)%Z → weekday_num (num_weekday n) = n.
Proof.
  intros. assert (n = 0 ∨ n = 1 ∨ n = 2 ∨ n = 3 ∨ n = 4 ∨ n = 5 ∨ n = 6)%Z as Hc by lia.
  by destruct Hc as [->|[->|[->|[->|[->|[->| ->]]]]]].
Qed.
Lemma day_of d secs : (0 ≤ secs < 86400)%Z → ((d * 86400 + secs) * 10 ^ 9 / day = d)%Z.
Proof.
  intros. symmetry. apply (Z.div_unique _ _ _ (secs * 10 ^ 9)); unfold day; [left|]; lia.
Qed.

#[local] Instance civil_laws : ChronoLaws.
Proof.
  split; simpl; unfold id.
  - intros. apply Z.mod_pos_bound. lia.
  - intros a b. by destruct a, b.
  - intros now w secs Hs. rewrite day_of by done.
    rewrite weekday_num_weekday by (apply Z.mod_pos_bound; lia).
    rewrite Zplus_mod_idemp_r, Z.add_comm, Z.add_mod by lia.
    rewrite <- (num_weekday_num w) at 2. f_equal.
    pose proof (weekday_num_range w). rewrite Zminus_mod, Zmod_mod, <- Zminus_mod, <- Z.add_mod by lia.
    replace (weekday_num w - now / day + now / day)%Z with (weekday_num w) by lia.
    by apply Z.mod_small.
  - intros. lia.
  - intros t. assert (0 < day)%Z by done. pose proof (Z.mod_pos_bound t day ltac:(done)).
    unfold day in *. split; [apply Z.div_pos; lia|]. apply Z.div_lt_upper_bound; lia.
  - intros t. rewrite Z.add_0_r. pose proof (Z.div_mod t day ltac:(done)) as Ht.
    pose proof (Z.div_mod (t mod day) (10 ^ 9) ltac:(done)) as Hs.
    pose proof (Z.mod_pos_bound (t mod day) (10 ^ 9) ltac:(lia)). unfold day in *. lia.
Qed.

Definition lowest (_ : nat) (lo _ : Z) : Z := lo.
Lemma lowest_in_range : in_range lowest.
Proof. intros i lo hi. unfold lowest. lia. Qed.

(** A twentieth of a bitcoin, on 14 March 2025 at noon. *)
Definition noon : @DateTime civil := (1741953600 * 10 ^ 9)%Z.
Lemma schedule_bills_spec_witness :
  ∃ bills, schedule_bills (Er:=Empty_set) lowest noon 5000000 = Ok bills
    ∧ sumZ ((λ b, 2 ^ b.1)%Z <$> bills) = 5000000%Z
    ∧ NoDup bills.*1 ∧ StronglySorted bill_le bills
    ∧ Forall (λ b, (0 ≤ b.1 < 64)%Z ∧ bill_ok noon b) bills.
Proof. apply (schedule_bills_spec lowest lowest_in_range noon 5000000). split; reflexivity || lia. Defined.

Lemma melt_and_cast_move_amount_witness :
  ∃ m c amounts, MeltBatch_new (Er:=Empty_set) lowest noon 5000000 = Ok m
    ∧ Cast_new (Er:=Empty_set) lowest noon 5000000 = Ok c
    ∧ sumZ amounts = 5000000%Z ∧ Forall (λ a, ∃ e, (0 ≤ e < 64 ∧ a = 2 ^ e)%Z) amounts
    ∧ next_txs MeltBatch_next_tx (replicate 64 noon) m
      = (λ a accumulator wallet, create_shield_transaction wallet accumulator a STANDARD_FEE) <$> amounts
    ∧ next_txs Cast_next_tx (replicate 64 noon) c
      = (λ a accumulator wallet, create_unshield_transaction wallet accumulator a STANDARD_FEE) <$> amounts.
Proof.
  apply (melt_and_cast_move_amount lowest lowest_in_range noon 5000000); [split; reflexivity || lia|].
  apply Nat.leb_le. reflexivity.
Defined.

(** 14 March 2025 was a Friday: the bill of 2^22 is due that day at noon, the
    others later in the week. *)
Example bills_of_a_small_amount :
  schedule_bills (Er:=Empty_set) lowest noon (2 ^ 22 + 2 ^ 7 + 5) =
  Ok [(22, 1741953600 * 10 ^ 9); (7, 1741996800 * 10 ^ 9); (0, 1741996800 * 10 ^ 9); (2, 1742428800 * 10 ^ 9)]%Z.
Proof. vm_compute. reflexivity. Qed.
End BillsToy.
