(* ===== verification/Limits.v ===== *)
(** Consensus limits on block bodies ([body_sigops_limit] and
    [body_size_limit] of [src/lib/state/mod.rs]).

    The limits grow by four percent a month in [f64] arithmetic.  The [f64]
    values are the binary64 numbers of the Standard Library's [SpecFloat]:
    products round to nearest even, [powi] is the square-and-multiply loop of
    the compiler's runtime, and the cast to [usize] truncates and saturates. *)
From S2P Require Import Prelude.
From Stdlib Require Import Floats.SpecFloat.

(** ** [f64] *)
Definition f64_mul : spec_float → spec_float → spec_float := SFmul 53 1024.
Definition f64_of_usize (z : Z) : spec_float := binary_normalize 53 1024 z 0 false.

(** The binary64 number nearest to 1.04: [0x1.0a3d70a3d70a4p+0]. *)
Definition LIMIT_GROWTH_EXPONENT : spec_float := S754_finite false 4683743612465316 (-52).

(** [f64::powi] for a nonnegative [i32] exponent. *)
Fixpoint powi_loop (fuel : nat) (a r : spec_float) (b : Z) : spec_float :=
  match fuel with
  | O => r
  | S fuel =>
      let r := if Z.odd b then f64_mul r a else r in
      let b := (b / 2)%Z in
      if (b =? 0)%Z then r else powi_loop fuel (f64_mul a a) r b
  end.
Definition powi (a : spec_float) (b : Z) : spec_float :=
  powi_loop 32 a (f64_of_usize 1) b.

(** [x.floor() as usize] *)
Definition floor_as_usize (f : spec_float) : Z :=
  match f with
  | S754_finite false m e =>
      let v := if (0 <=? e)%Z then Z.shiftl (Zpos m) e else Z.shiftr (Zpos m) (- e) in
      Z.min v (2 ^ 64 - 1)
  | S754_infinity false => 2 ^ 64 - 1
  | _ => 0
  end.

(** ** The limits *)
Definition grown_limit (START month : Z) : Z :=
  floor_as_usize (f64_mul (f64_of_usize START) (powi LIMIT_GROWTH_EXPONENT month)).

Definition body_sigops_limit (height : Z) : Z :=
  let START := 42800%Z in
  let month := (height / (6 * 24 * 30))%Z in
  if (month <? 120)%Z then grown_limit START month else (START * 111)%Z.

Definition body_size_limit (height : Z) : Z :=
  let START := (8 * 1024 * 1024)%Z in
  let month := (height / (6 * 24 * 30))%Z in
  if (month <? 120)%Z then grown_limit START month else (START * 111)%Z.

(** ** Growth of the limits, by evaluation of the 120 months *)
Definition months (n : nat) : list Z := Z.of_nat <$> seq 0 n.

Definition growth_ok (START : Z) : bool :=
  forallb (λ m, (grown_limit START m <=? grown_limit START (m + 1))%Z
                && (Z.abs (grown_limit START m * 100 ^ m - START * 104 ^ m) <=? 100 ^ m)%Z
                && (grown_limit START m <=? START * 111)%Z) (months 120)
  && (grown_limit START 0 =? START)%Z.

Lemma elem_of_months m n : (0 ≤ m < Z.of_nat n)%Z → m ∈ months n.
Proof.
  intros Hm. unfold months. apply list_elem_of_fmap. exists (Z.to_nat m).
  split; [lia|]. apply elem_of_seq. lia.
Qed.

Section growth.
Context (START : Z) (Hok : growth_ok START = true).

Lemma growth_month m :
  (0 ≤ m < 120)%Z →
  (grown_limit START m ≤ grown_limit START (m + 1))%Z ∧ (grown_limit START m ≤ START * 111)%Z
  ∧ (Z.abs (grown_limit START m * 100 ^ m - START * 104 ^ m) ≤ 100 ^ m)%Z.
Proof.
  intros Hm. unfold growth_ok in Hok. apply andb_true_iff in Hok as [Hall _].
  rewrite forallb_forall in Hall. specialize (Hall m).
  rewrite <- list_elem_of_In in Hall. specialize (Hall (elem_of_months m 120 Hm)).
  rewrite !andb_true_iff, !Z.leb_le in Hall. tauto.
Qed.

Lemma growth_mono m k :
  (0 ≤ m)%Z → (m ≤ k)%Z → (k ≤ 120)%Z → (grown_limit START m ≤ grown_limit START k)%Z.
Proof.
  intros Hm Hmk. replace k with (m + Z.of_nat (Z.to_nat (k - m)))%Z by lia.
  induction (Z.to_nat (k - m)) as [|n IH]; intros Hk; [by rewrite Z.add_0_r|].
  etrans; [apply IH; lia|].
  pose proof (growth_month (m + Z.of_nat n)%Z ltac:(lia)) as [Hstep _].
  by replace (m + Z.of_nat (S n))%Z with (m + Z.of_nat n + 1)%Z by lia.
Qed.

Lemma growth_start : grown_limit START 0 = START.
Proof. unfold growth_ok in Hok. apply andb_true_iff in Hok as [_ H0]. lia. Qed.

Definition limit (height : Z) : Z :=
  let month := (height / (6 * 24 * 30))%Z in
  if (month <? 120)%Z then grown_limit START month else (START * 111)%Z.

Lemma limit_mono h k : (0 ≤ h ≤ k)%Z → (limit h ≤ limit k)%Z.
Proof.
  intros Hhk. unfold limit.
  pose proof (Z.div_le_mono h k (6 * 24 * 30) ltac:(lia) ltac:(lia)).
  pose proof (Z.div_pos h (6 * 24 * 30) ltac:(lia) ltac:(lia)).
  destruct (Z.ltb_spec (h / (6 * 24 * 30)) 120), (Z.ltb_spec (k / (6 * 24 * 30)) 120);
    [apply growth_mono; lia | apply growth_month; lia | lia | lia].
Qed.

Lemma limit_accurate h :
  (0 ≤ h < 518400)%Z → let m := (h / 4320)%Z in
  (Z.abs (limit h * 100 ^ m - START * 104 ^ m) ≤ 100 ^ m)%Z.
Proof.
  intros Hh m. unfold limit. change (6 * 24 * 30)%Z with 4320%Z. fold m.
  assert (0 ≤ m < 120)%Z as Hm.
  { split; [apply Z.div_pos; lia|]. apply Z.div_lt_upper_bound; lia. }
  destruct (Z.ltb_spec m 120); [|lia]. by apply growth_month.
Qed.

Lemma limit_bounds h : (0 ≤ h)%Z → (START ≤ limit h ≤ START * 111)%Z.
Proof.
  intros Hh. split.
  - rewrite <- growth_start at 1. apply (limit_mono 0 h). lia.
  - unfold limit. destruct (Z.ltb_spec (h / (6 * 24 * 30)) 120); [|lia].
    apply growth_month. split; [apply Z.div_pos; lia|lia].
Qed.
End growth.

Lemma sigops_growth_ok : growth_ok 42800 = true.
Proof. vm_compute. reflexivity. Qed.
Lemma size_growth_ok : growth_ok (8 * 1024 * 1024) = true.
Proof. vm_compute. reflexivity. Qed.

(** ** Properties *)

(** The consensus limits never shrink and never overflow: in spite of the
    floating-point growth, both limits are monotone in the height, start at
    their constants (42800 signature operations, 8 MiB), and are at most 111
    times those, which they reach from month 120 on; before that they are
    within one unit of the exact [START * 1.04 ^ month].  So no limit check of
    a later block is stricter than one of an earlier block. *)
Theorem body_limits_monotone (h k : Z) (Hhk : (0 ≤ h ≤ k)%Z) :
  (42800 ≤ body_sigops_limit h ≤ body_sigops_limit k)%Z
  ∧ (body_sigops_limit k ≤ 4750800)%Z
  ∧ (8388608 ≤ body_size_limit h ≤ body_size_limit k)%Z
  ∧ (body_size_limit k ≤ 931135488)%Z
  ∧ ((518400 ≤ h)%Z → body_sigops_limit h = 4750800%Z ∧ body_size_limit h = 931135488%Z)
  ∧ ((h < 518400)%Z → let m := (h / 4320)%Z in
     (Z.abs (body_sigops_limit h * 100 ^ m - 42800 * 104 ^ m) ≤ 100 ^ m)%Z
     ∧ (Z.abs (body_size_limit h * 100 ^ m - 8388608 * 104 ^ m) ≤ 100 ^ m)%Z).
Proof.
  pose proof (limit_mono _ sigops_growth_ok h k Hhk).
  pose proof (limit_mono _ size_growth_ok h k Hhk).
  pose proof (limit_bounds _ sigops_growth_ok h ltac:(lia)).
  pose proof (limit_bounds _ sigops_growth_ok k ltac:(lia)).
  pose proof (limit_bounds _ size_growth_ok h ltac:(lia)).
  pose proof (limit_bounds _ size_growth_ok k ltac:(lia)).
  pose proof (limit_accurate _ sigops_growth_ok h) as Ha1.
  pose proof (limit_accurate _ size_growth_ok h) as Ha2.
  unfold limit in *. unfold body_sigops_limit, body_size_limit. cbn zeta.
  split_and!; try lia; intros Hh.
  all: pose proof (Z.div_le_mono 518400 h (6 * 24 * 30) ltac:(lia) Hh) as Hm.
  all: change (518400 / (6 * 24 * 30))%Z with 120%Z in Hm.
  all: destruct (Z.ltb_spec (h / (6 * 24 * 30)) 120); [lia|]; done.
Qed.

Module LimitsWitness.
Lemma body_limits_monotone_witness :
  body_sigops_limit 4320 = 44512%Z ∧ (body_sigops_limit 4320 ≤ body_sigops_limit 600000)%Z.
Proof.
  split; [vm_compute; reflexivity|].
  exact (proj2 (proj1 (body_limits_monotone 4320 600000 ltac:(lia)))).
Defined.
End LimitsWitness.
