(* ===== verification/Orchard.v ===== *)
(** The orchard databases of the state ([src/lib/state/orchard.rs]).

    Each LMDB database is a finite map; an entry under [()] is an option.  The
    tables [block_hash_to_root] and [historical_roots] are kept inverse to
    each other ([Orchard_wf]). *)
From S2P Require Import Prelude Borsh Externals Toy Types.

Section orchard.
Context `{E : Externals}.

(** [error::Orchard] *)
Inductive OrchardError :=
  | AppendCommitment
  | OrchardDb
  | EmptyAnchor
  | InvalidAnchor (anchor : Anchor)
  | MissingNullifier (nullifier : Nullifier)
  | NullifierDoubleSpent (nullifier : Nullifier).

Record Orchard := mk_Orchard {
  block_hash_to_root : gmap (option BlockHash) Anchor;
  frontier : option Frontier;
  historical_roots : gmap Anchor (option BlockHash);
  nullifiers : gset Nullifier
}.

Definition Orchard_empty_dbs : Orchard := mk_Orchard ∅ None ∅ ∅.

(** [Orchard::new]: open the databases and fill in the initial entries. *)
Definition Orchard_new {Err} (dbs : Orchard) : Res Err Orchard :=
  let res := match frontier dbs with
    | Some _ => dbs
    | None => mk_Orchard (block_hash_to_root dbs) (Some frontier_empty)
                (historical_roots dbs) (nullifiers dbs)
    end in
  let res :=
    if bool_decide (size (historical_roots res) = 0) then
      let empty_root := anchor_from (frontier_root frontier_empty) in
      mk_Orchard (<[None := empty_root]> (block_hash_to_root res)) (frontier res)
        (<[empty_root := None]> (historical_roots res)) (nullifiers res)
    else res in
  _ ← assert_true (bool_decide (size (block_hash_to_root res) ≠ 0));
  Ok res.

Definition put_frontier (o : Orchard) (f : Frontier) : Orchard :=
  mk_Orchard (block_hash_to_root o) (Some f) (historical_roots o) (nullifiers o).

(** Store a historical root if it is new; the flag tells if it was. *)
Definition put_historical_root (o : Orchard) (block_hash : BlockHash)
    (root : MerkleHashOrchard) : Orchard * bool :=
  let root := anchor_from root in
  match historical_roots o !! root with
  | Some _ => (o, false)
  | None =>
      (mk_Orchard (<[Some block_hash := root]> (block_hash_to_root o)) (frontier o)
         (<[root := Some block_hash]> (historical_roots o)) (nullifiers o), true)
  end.

Definition put_nullifier (o : Orchard) (nullifier : Nullifier) : Orchard :=
  mk_Orchard (block_hash_to_root o) (frontier o) (historical_roots o)
    ({[nullifier]} ∪ nullifiers o).

Definition delete_historical_root (o : Orchard) (block_hash : BlockHash) : Orchard * bool :=
  match block_hash_to_root o !! Some block_hash with
  | None => (o, false)
  | Some root =>
      (mk_Orchard (delete (Some block_hash) (block_hash_to_root o)) (frontier o)
         (delete root (historical_roots o)) (nullifiers o), true)
  end.

Definition delete_nullifier (o : Orchard) (nullifier : Nullifier) : Orchard * bool :=
  (mk_Orchard (block_hash_to_root o) (frontier o) (historical_roots o)
     (nullifiers o ∖ {[nullifier]}), bool_decide (nullifier ∈ nullifiers o)).

(** The frontier always exists, the two root tables are inverse, and the
    entry of the empty tree ([None]) is never lost. *)
Definition Orchard_wf (o : Orchard) : Prop :=
  is_Some (frontier o)
  ∧ is_Some (block_hash_to_root o !! None)
  ∧ ∀ b r, block_hash_to_root o !! b = Some r ↔ historical_roots o !! r = Some b.

Lemma Orchard_new_wf : ∃ o, Orchard_new (Err:=Empty_set) Orchard_empty_dbs = Ok o ∧ Orchard_wf o.
Proof.
  unfold Orchard_new, Orchard_empty_dbs. simpl.
  rewrite bool_decide_true by done. simpl.
  rewrite bool_decide_true by (rewrite map_size_insert_None by done; done). simpl.
  eexists. split; [done|]. unfold Orchard_wf; simpl. split_and!.
  - eauto.
  - rewrite lookup_insert_eq. eauto.
  - intros b r. rewrite !lookup_insert_Some, !lookup_empty. naive_solver.
Qed.

Lemma put_frontier_wf o f : Orchard_wf o → Orchard_wf (put_frontier o f).
Proof. intros (? & ? & ?). unfold Orchard_wf. simpl. eauto. Qed.

Lemma put_nullifier_wf o n : Orchard_wf o → Orchard_wf (put_nullifier o n).
Proof. done. Qed.

Lemma delete_nullifier_wf o n : Orchard_wf o → Orchard_wf (delete_nullifier o n).1.
Proof. done. Qed.

Lemma put_historical_root_wf o b r :
  Orchard_wf o → block_hash_to_root o !! Some b = None →
  Orchard_wf (put_historical_root o b r).1.
Proof.
  intros (Hf & Hn & Hinv) Hb. unfold put_historical_root.
  destruct (historical_roots o !! anchor_from r) as [b'|] eqn:Hr; [done|].
  unfold Orchard_wf; simpl. split_and!; [done| |].
  - rewrite lookup_insert_ne by done. done.
  - intros b' r'. rewrite !lookup_insert_Some. specialize (Hinv b' r'). naive_solver.
Qed.

Lemma delete_historical_root_wf o b :
  Orchard_wf o → Orchard_wf (delete_historical_root o b).1.
Proof.
  intros (Hf & Hn & Hinv). unfold delete_historical_root.
  destruct (block_hash_to_root o !! Some b) as [r|] eqn:Hr; [|done].
  unfold Orchard_wf; simpl. split_and!; [done| |].
  - by rewrite lookup_delete_ne.
  - intros b' r'. rewrite !lookup_delete_Some. apply Hinv in Hr as Hr'.
    split; intros [Hne H]; split; try by apply Hinv.
    + intros ->. apply Hinv in H. naive_solver.
    + intros <-. apply Hinv in H. naive_solver.
Qed.

Lemma delete_put_historical_root o b r :
  block_hash_to_root o !! Some b = None →
  delete_historical_root (put_historical_root o b r).1 b = (o, (put_historical_root o b r).2).
Proof.
  intros Hb. unfold put_historical_root, delete_historical_root.
  destruct (historical_roots o !! anchor_from r) as [b'|] eqn:Hr; simpl; [by rewrite Hb|].
  rewrite lookup_insert_eq, !delete_insert_id by done. by destruct o.
Qed.

Lemma delete_put_nullifier o n :
  n ∉ nullifiers o → delete_nullifier (put_nullifier o n) n = (o, true).
Proof.
  intros Hn. unfold delete_nullifier, put_nullifier; simpl. f_equal.
  - destruct o as [b f h ns]; simpl in *. f_equal. set_solver.
  - apply bool_decide_true. set_solver.
Qed.
End orchard.

(** ** Properties *)
Section properties.
Context `{E : Externals}.

(** The orchard databases keep their invariant: opening empty databases
    establishes it, and every operation preserves it (for a block hash that is
    not recorded yet), in particular no sequence of deletions ever loses the
    root of the empty tree. *)
Theorem orchard_operations_preserve_wf (o : Orchard) (b : BlockHash)
    (r : MerkleHashOrchard) (f : Frontier) (n : Nullifier)
    (Hwf : Orchard_wf o) (Hfresh : block_hash_to_root o !! Some b = None) :
  Orchard_new (Err:=Empty_set) o = Ok o
  ∧ Orchard_wf (put_frontier o f) ∧ Orchard_wf (put_nullifier o n)
  ∧ Orchard_wf (put_historical_root o b r).1
  ∧ (∀ b', Orchard_wf (delete_historical_root o b').1)
  ∧ Orchard_wf (delete_nullifier o n).1
  ∧ (∀ b', block_hash_to_root (delete_historical_root o b').1 !! None
           = block_hash_to_root o !! None).
Proof.
  split_and!; eauto using put_frontier_wf, put_nullifier_wf, put_historical_root_wf,
    delete_historical_root_wf, delete_nullifier_wf.
  - destruct Hwf as ([f' Hf] & [a Ha] & Hinv). unfold Orchard_new. rewrite Hf.
    apply Hinv in Ha as Ha'.
    assert (size (historical_roots o) ≠ 0 ∧ size (block_hash_to_root o) ≠ 0) as [Hs1 Hs2].
    { split; intros H0%map_size_empty_inv; rewrite H0, lookup_empty in *; done. }
    by rewrite bool_decide_false, bool_decide_true.
  - intros b'. unfold delete_historical_root. case_match; [|done]. simpl.
    by rewrite lookup_delete_ne.
Qed.
End properties.

Module OrchardToy.
#[local] Existing Instance Toy.externals.
Definition root1 : MerkleHashOrchard := [4%Z].
Definition dbs : Orchard :=
  mk_Orchard {[None := anchor_from (frontier_root frontier_empty)]} (Some frontier_empty)
    {[anchor_from (frontier_root frontier_empty) := None]} {[(3%Z : Nullifier)]}.

Lemma dbs_wf : Orchard_wf dbs.
Proof.
  unfold Orchard_wf, dbs; simpl. split_and!; [eauto|by eexists|].
  intros b r. rewrite !lookup_singleton_Some. naive_solver.
Qed.

Lemma dbs_fresh : block_hash_to_root dbs !! Some (le_vec 32 9 : BlockHash) = None.
Proof. unfold dbs; simpl. by rewrite lookup_singleton_ne. Qed.

Lemma orchard_operations_preserve_wf_witness :
  Orchard_wf (put_historical_root dbs (le_vec 32 9) root1).1.
Proof.
  exact (proj1 (proj2 (proj2 (proj2 (orchard_operations_preserve_wf dbs (le_vec 32 9) root1
    frontier_empty (5%Z : Nullifier) dbs_wf dbs_fresh))))).
Defined.
End OrchardToy.
