(* ===== verification/State.v ===== *)
(** The chain state and the validation of transactions
    ([src/lib/state/mod.rs], [src/lib/state/error.rs]).

    A [State] holds the contents of the LMDB databases of the source: a
    database is a finite map, a database with the single key [()] an option.
    A function of the source that takes a write transaction returns the new
    contents in its [Ok] value. *)
From S2P Require Import Prelude.
From S2P Require Import Borsh.
From S2P Require Import Externals.
From S2P Require Import Toy.
From S2P Require Import Types.
From S2P Require Import AccumulatorDiff.
From S2P Require Import WithdrawalBundle.
From S2P Require Import RollBack.
From S2P Require Import Authorization.
From S2P Require Import Limits.
From S2P Require Import Orchard.

Abbreviation BundleStatus := (RollBack WithdrawalBundleStatus).

Definition WITHDRAWAL_BUNDLE_FAILURE_GAP : Z := 4.

(** Iteration of a database in key order. *)
Definition key_le {A} (a b : OutPointKey * A) : Prop := OutPointKey_cmp a.1 b.1 ≠ Gt.
#[export] Instance key_le_dec {A} (a b : OutPointKey * A) : Decision (key_le a b).
Proof. unfold key_le. apply _. Defined.
Definition db_iter {A} (m : gmap OutPointKey A) : list (OutPointKey * A) :=
  merge_sort key_le (map_to_list m).

Section state.
Context `{E : Externals}.

(** ** Errors *)
Record InvalidBody := mk_InvalidBody { ib_expected : MerkleRoot; ib_computed : MerkleRoot }.

Inductive InvalidHeader :=
  | IH_BlockHash (expected computed : BlockHash)
  | IH_PrevSideHash (expected received : option BlockHash).

Inductive ConnectTransactionError :=
  | CT_Db
  | CT_NoUtxo (outpoint : OutPoint)
  | CT_Orchard (e : OrchardError)
  | CT_UtreexoProofFailed.

Inductive ConnectWithdrawalBundleSubmittedError :=
  | ConfirmedResubmitted (event_block_hash : BtcBlockHash) (m6id : M6id)
  | CWBS_Db
  | DroppedPending (m6id : M6id)
  | CWBS_NoUtxo (outpoint : OutPoint)
  | CWBS_PendingWithdrawalBundleUnknown (m6id : M6id)
  | Resubmitted (event_block_hash : BtcBlockHash) (m6id : M6id) (submitted_block_height : Z)
  | UnknownConfirmedFailed (m6id : M6id) (failed_block_height : Z)
  | UnknownDropped (m6id : M6id) (dropped_block_height : Z)
  | UnknownPending (m6id : M6id) (pending_block_height : Z).

Inductive Error :=
  | AuthorizationError
  | AmountOverflow
  | AmountUnderflow
  | BodyTooLarge
  | BorshSerializeError
  | ConnectBlock (e : ConnectBlockError)
  | ConnectWithdrawalBundleSubmitted (e : ConnectWithdrawalBundleSubmittedError)
  | Db
  | EInvalidBody (e : InvalidBody)
  | EInvalidHeader (e : InvalidHeader)
  | NoDepositBlock
  | NotEnoughFees
  | NoTip
  | NoStxo (outpoint : OutPoint)
  | NotEnoughValueIn
  | NoUtxo (outpoint : OutPoint)
  | NoWithdrawalBundleEventBlock
  | EOrchard (e : OrchardError)
  | PendingWithdrawalBundleUnknown (m6id : M6id)
  | Utreexo
  | UtreexoProofFailed (txid : Txid)
  | UtreexoRootsMismatch
  | UtxoDoubleSpent
  | UtxoHashMismatch (computed : Hash) (outpoint : OutPoint) (input_hash : Hash)
  | TooManySigops
  | UnexpectedWithdrawalBundleInsolvency (event_block_hash : BtcBlockHash) (m6id : M6id)
      (outpoint : OutPoint)
  | UnknownWithdrawalBundle (m6id : M6id)
  | UnknownWithdrawalBundleConfirmed (event_block_hash : BtcBlockHash) (m6id : M6id)
  | UnknownWithdrawalBundleReconfirmed (event_block_hash : BtcBlockHash) (m6id : M6id)
  | WrongPubKeyForAddress
  | EWithdrawalBundle (e : WithdrawalBundleError)
with ConnectBlockError :=
  | CB_ConnectTransaction (txid : Txid) (source : ConnectTransactionError)
  | CB_Db
  | CB_InvalidBody (e : InvalidBody)
  | CB_InvalidHeader (e : InvalidHeader)
  | CB_Orchard (e : OrchardError)
  | CB_Utreexo
  | CB_AuthorizationError
  | CB_NotEnoughFees
  | CB_WrongPubKeyForAddress
  | CB_UtreexoRootsMismatch
  | CB_TooManySigops
  | CB_BodyTooLarge
  | CB_UtxoDoubleSpent
  | CB_Other (e : Error).

(** ** Data *)
Record PrevalidatedBlock := mk_PrevalidatedBlock {
  filled_transactions : list FilledTransaction;
  computed_merkle_root : MerkleRoot;
  total_fees : Amount;
  coinbase_value : Amount;
  next_height : Z;
  accumulator_diff : AccumulatorDiff
}.

Inductive WithdrawalBundleInfo :=
  | Known (bundle : WithdrawalBundle)
  | Unknown
  | UnknownConfirmed (spend_utxos : gmap OutPoint Output).

#[export] Instance WithdrawalBundleInfo_eq_dec : EqDecision WithdrawalBundleInfo.
Proof. solve_decision. Defined.

Record State := mk_State {
  tip : option BlockHash;
  height : option Z;
  utxos : gmap OutPointKey Output;
  stxos : gmap OutPointKey SpentOutput;
  pending_withdrawal_bundle : option M6id;
  latest_failed_withdrawal_bundle : option (RollBack M6id);
  withdrawal_bundles : gmap M6id (WithdrawalBundleInfo * BundleStatus);
  deposit_blocks : gmap Z (BtcBlockHash * Z);
  withdrawal_bundle_event_blocks : gmap Z (BtcBlockHash * Z);
  orchard : Orchard;
  utreexo_accumulator : option Accumulator
}.

(** [put] and [delete] on one database. *)
Definition with_tip_height (s : State) (t : option BlockHash) (h : option Z) : State :=
  mk_State t h (utxos s) (stxos s) (pending_withdrawal_bundle s)
    (latest_failed_withdrawal_bundle s) (withdrawal_bundles s) (deposit_blocks s)
    (withdrawal_bundle_event_blocks s) (orchard s) (utreexo_accumulator s).
Definition with_txos (s : State) (u : gmap OutPointKey Output)
    (x : gmap OutPointKey SpentOutput) : State :=
  mk_State (tip s) (height s) u x (pending_withdrawal_bundle s)
    (latest_failed_withdrawal_bundle s) (withdrawal_bundles s) (deposit_blocks s)
    (withdrawal_bundle_event_blocks s) (orchard s) (utreexo_accumulator s).
Definition with_pending (s : State) (p : option M6id) : State :=
  mk_State (tip s) (height s) (utxos s) (stxos s) p
    (latest_failed_withdrawal_bundle s) (withdrawal_bundles s) (deposit_blocks s)
    (withdrawal_bundle_event_blocks s) (orchard s) (utreexo_accumulator s).
Definition with_latest_failed (s : State) (f : option (RollBack M6id)) : State :=
  mk_State (tip s) (height s) (utxos s) (stxos s) (pending_withdrawal_bundle s)
    f (withdrawal_bundles s) (deposit_blocks s)
    (withdrawal_bundle_event_blocks s) (orchard s) (utreexo_accumulator s).
Definition with_bundles (s : State)
    (b : gmap M6id (WithdrawalBundleInfo * BundleStatus)) : State :=
  mk_State (tip s) (height s) (utxos s) (stxos s) (pending_withdrawal_bundle s)
    (latest_failed_withdrawal_bundle s) b (deposit_blocks s)
    (withdrawal_bundle_event_blocks s) (orchard s) (utreexo_accumulator s).
Definition with_event_blocks (s : State) (d w : gmap Z (BtcBlockHash * Z)) : State :=
  mk_State (tip s) (height s) (utxos s) (stxos s) (pending_withdrawal_bundle s)
    (latest_failed_withdrawal_bundle s) (withdrawal_bundles s) d w
    (orchard s) (utreexo_accumulator s).
Definition with_orchard (s : State) (o : Orchard) : State :=
  mk_State (tip s) (height s) (utxos s) (stxos s) (pending_withdrawal_bundle s)
    (latest_failed_withdrawal_bundle s) (withdrawal_bundles s) (deposit_blocks s)
    (withdrawal_bundle_event_blocks s) o (utreexo_accumulator s).
Definition with_accumulator (s : State) (a : Accumulator) : State :=
  mk_State (tip s) (height s) (utxos s) (stxos s) (pending_withdrawal_bundle s)
    (latest_failed_withdrawal_bundle s) (withdrawal_bundles s) (deposit_blocks s)
    (withdrawal_bundle_event_blocks s) (orchard s) (Some a).

(** [State::new]: open the databases, fill in the initial entries. *)
Definition State_new (dbs : State) : Res Error State :=
  o ← Orchard_new (orchard dbs);
  let s := with_orchard dbs o in
  match utreexo_accumulator s with
  | Some _ => Ok s
  | None => Ok (with_accumulator s Accumulator_default)
  end.

Definition State_empty_dbs : State :=
  mk_State None None ∅ ∅ None None ∅ ∅ ∅ Orchard_empty_dbs None.

(** ** Queries *)
Definition get_utxos (s : State) : Res Error (list (OutPoint * Output)) :=
  mapR (λ '(outpoint_key, output),
    outpoint ← OutPoint_from outpoint_key; Ok (outpoint, output)) (db_iter (utxos s)).

Definition get_utxos_by_addresses (s : State) (addresses : gset TransparentAddress) :
    Res Error (list (OutPoint * Output)) :=
  mapR (λ '(outpoint_key, output),
    outpoint ← OutPoint_from outpoint_key; Ok (outpoint, output))
    (filter (λ kv, address kv.2 ∈ addresses) (db_iter (utxos s))).

(** The latest [Failed] entry of a status history. *)
Definition find_failed (status : BundleStatus) : option Z :=
  stamp_height <$>
    head (filter (λ st, value st = Failed) (reverse (iter status))).

Definition get_latest_failed_withdrawal_bundle (s : State) :
    Res Error (option (Z * M6id)) :=
  match latest_failed_withdrawal_bundle s with
  | None => Ok None
  | Some latest_failed_m6id =>
      let latest_failed_m6id := value (latest latest_failed_m6id) in
      '(_, bundle_status) ← expect (withdrawal_bundles s !! latest_failed_m6id);
      failed_height ← expect (find_failed bundle_status);
      Ok (Some (failed_height, latest_failed_m6id))
  end.

Definition get_accumulator (s : State) : Accumulator :=
  default Accumulator_default (utreexo_accumulator s).

Definition regenerate_proof (s : State) (tx : Transaction) : Res Error Transaction :=
  let accumulator := get_accumulator s in
  let targets := (λ i, node_hash i.2) <$> inputs tx in
  proof ← ok_or (prove accumulator targets) Utreexo;
  Ok (mk_Transaction (inputs tx) proof (outputs tx) (orchard_bundle tx)).

Definition get_utreexo_proof (s : State) (utxos : list PointedOutput) :
    Res Error UtreexoProof :=
  let accumulator := get_accumulator s in
  let targets := PointedOutput_node_hash <$> utxos in
  ok_or (prove accumulator targets) Utreexo.

Definition fill_transaction (s : State) (transaction : Transaction) :
    Res Error FilledTransaction :=
  spent_utxos ← foldR (λ spent_utxos '(outpoint, _),
      utxo ← ok_or (utxos s !! OutPointKey_from outpoint) (NoUtxo outpoint);
      Ok (spent_utxos ++ [utxo])) [] (inputs transaction);
  Ok (mk_FilledTransaction transaction spent_utxos).

Definition try_get_pending_withdrawal_bundle (s : State) :
    Res Error (option (WithdrawalBundle * Z)) :=
  match pending_withdrawal_bundle s with
  | None => Ok None
  | Some m6id =>
      '(bundle_info, bundle_status) ← ok_or (withdrawal_bundles s !! m6id) Db;
      bundle ← match bundle_info with
        | Known bundle => Ok bundle
        | Unknown | UnknownConfirmed _ => Err (PendingWithdrawalBundleUnknown m6id)
        end;
      Ok (Some (bundle, stamp_height (latest bundle_status)))
  end.

(** ** Validation of a transaction *)
Definition validate_utxo_hashes (t : FilledTransaction) : Res Error unit :=
  foldR (λ _ '(outpoint, utxo_hash, output),
      let computed_utxo_hash := hash (mk_PointedOutput outpoint output) in
      guard_err (bool_decide (utxo_hash = computed_utxo_hash))
        (UtxoHashMismatch computed_utxo_hash outpoint utxo_hash))
    tt (filled_inputs t).

Definition add_values (l : list Output) : Res Error Amount :=
  foldR (λ total o, ok_or (checked_add total (get_value o)) AmountOverflow) 0%Z l.

Definition validate_filled_transaction (t : FilledTransaction) : Res Error Amount :=
  _ ← validate_utxo_hashes t;
  value_in ← add_values (spent_utxos t);
  value_out ← add_values (outputs (transaction t));
  '(value_in, value_out) ←
    match orchard_bundle (transaction t) with
    | Some orchard_bundle =>
        let value_balance := bundle_value_balance orchard_bundle in
        if (0 <? value_balance)%Z then
          value_in ← ok_or (checked_add value_in (Z.abs value_balance)) AmountOverflow;
          Ok (value_in, value_out)
        else
          value_out ← ok_or (checked_add value_out (Z.abs value_balance)) AmountOverflow;
          Ok (value_in, value_out)
    | None => Ok (value_in, value_out)
    end;
  _ ← guard_err (negb (value_in <? value_out)%Z) NotEnoughValueIn;
  ok_or (checked_sub value_in value_out) AmountUnderflow.

Definition validate_orchard_anchor (s : State) (orchard_bundle : Bundle) : Res Error unit :=
  let anchor := bundle_anchor orchard_bundle in
  if bool_decide (anchor = anchor_empty_tree) && bundle_spends_enabled orchard_bundle
  then Err (EOrchard EmptyAnchor)
  else guard_err (bool_decide (is_Some (historical_roots (orchard s) !! anchor)))
         (EOrchard (InvalidAnchor anchor)).

(** The owners of the spent outputs must be the signers, pairwise. *)
Definition check_addresses (authorizations : list Authorization) (spent_utxos : list Output) :
    Res Error unit :=
  foldR (λ _ '(authorization, spent_utxo),
      guard_err (bool_decide (Authorization_get_address authorization = address spent_utxo))
        WrongPubKeyForAddress)
    tt (zip authorizations spent_utxos).

Definition validate_transaction (s : State) (t : AuthorizedTransaction) : Res Error Amount :=
  filled_transaction ← fill_transaction s (at_transaction t);
  _ ← check_addresses (authorizations t) (spent_utxos filled_transaction);
  _ ← match orchard_bundle (at_transaction t) with
      | Some orchard_bundle => validate_orchard_anchor s orchard_bundle
      | None => Ok tt
      end;
  _ ← map_err (λ _, AuthorizationError) (verify_authorized_transaction t);
  validate_filled_transaction filled_transaction.

(** ** Mainchain event blocks and wealth *)
Definition seq_key_le (a b : Z * (BtcBlockHash * Z)) : Prop :=
  bytes_cmp (bincode_u32 a.1) (bincode_u32 b.1) ≠ Gt.
#[export] Instance seq_key_le_dec a b : Decision (seq_key_le a b).
Proof. unfold seq_key_le. apply _. Defined.

(** [DatabaseUnique::last]: the entry with the greatest key bytes. *)
Definition seq_last (m : gmap Z (BtcBlockHash * Z)) : option (Z * (BtcBlockHash * Z)) :=
  last (merge_sort seq_key_le (map_to_list m)).

Definition get_last_deposit_block_hash (s : State) : option BtcBlockHash :=
  (λ e, e.2.1) <$> seq_last (deposit_blocks s).
Definition get_last_withdrawal_bundle_event_block_hash (s : State) : option BtcBlockHash :=
  (λ e, e.2.1) <$> seq_last (withdrawal_bundle_event_blocks s).

Definition is_deposit (o : OutPoint) : bool :=
  match o with Deposit _ => true | _ => false end.
Definition is_withdrawal_inpoint (i : InPoint) : bool :=
  match i with InWithdrawal _ => true | _ => false end.

Definition add_if (c : bool) (total v : Amount) : Res Error Amount :=
  if c then ok_or (checked_add total v) AmountOverflow else Ok total.

Definition sidechain_wealth (s : State) : Res Error Amount :=
  total_deposit_utxo_value ← foldR (λ total '(outpoint, output),
      outpoint ← OutPoint_from outpoint;
      add_if (is_deposit outpoint) total (get_value output))
    0%Z (db_iter (utxos s));
  '(total_deposit_stxo_value, total_withdrawal_stxo_value) ←
    foldR (λ '(deposits, withdrawals) '(outpoint, spent_output),
      outpoint ← OutPoint_from outpoint;
      deposits ← add_if (is_deposit outpoint) deposits (get_value (so_output spent_output));
      withdrawals ← add_if (is_withdrawal_inpoint (inpoint spent_output)) withdrawals
                      (get_value (so_output spent_output));
      Ok (deposits, withdrawals))
    (0, 0)%Z (db_iter (stxos s));
  total ← ok_or (checked_add total_deposit_utxo_value total_deposit_stxo_value) AmountOverflow;
  ok_or (checked_sub total total_withdrawal_stxo_value) AmountOverflow.
End state.

(** ** Lemmas *)

(** Sum over the entries of a database. *)
Definition msum {A} (f : OutPointKey → A → Z) (m : gmap OutPointKey A) : Z :=
  sumZ (uncurry f <$> map_to_list m).

Section msum.
Context {A : Type} (f : OutPointKey → A → Z).

Lemma msum_empty : msum f ∅ = 0%Z.
Proof. unfold msum. by rewrite map_to_list_empty. Qed.

Lemma msum_insert m k v : m !! k = None → msum f (<[k:=v]> m) = (f k v + msum f m)%Z.
Proof. intros Hk. unfold msum. by rewrite (sumZ_perm _ _ (fmap_Permutation _ _ _ (map_to_list_insert m k v Hk))). Qed.

Lemma msum_delete m k v : m !! k = Some v → msum f (delete k m) = (msum f m - f k v)%Z.
Proof.
  intros Hk. rewrite <- (insert_delete_id m k v Hk) at 2.
  rewrite msum_insert by apply lookup_delete_eq. lia.
Qed.

Lemma msum_db_iter m : sumZ (uncurry f <$> db_iter m) = msum f m.
Proof. apply sumZ_perm, fmap_Permutation, merge_sort_Permutation. Qed.
End msum.

Lemma elem_of_db_iter {A} (m : gmap OutPointKey A) k v : (k, v) ∈ db_iter m ↔ m !! k = Some v.
Proof. unfold db_iter. rewrite merge_sort_Permutation. apply elem_of_map_to_list. Qed.

(** The outpoint a key stands for; keys made by [OutPointKey_from] decode. *)
Definition outpoint_of (k : OutPointKey) : option OutPoint :=
  fst <$> deborsh (vec_to_list (key_bytes k)).

Lemma outpoint_of_key o : outpoint_of (OutPointKey_from o) = Some o.
Proof.
  pose proof (OutPoint_from_key (E:=unit) o) as H. unfold OutPoint_from in H.
  by apply expect_Ok in H.
Qed.

(** Every stored key is the key of an outpoint. *)
Definition keys_canonical {A} (m : gmap OutPointKey A) : Prop :=
  ∀ k, is_Some (m !! k) → is_Some (outpoint_of k).

Section state_facts.
Context `{E : Externals}.

Lemma fill_transaction_Ok s tx t :
  fill_transaction s tx = Ok t ↔
    transaction t = tx ∧
    Forall2 (λ i o, utxos s !! OutPointKey_from i.1 = Some o) (inputs tx) (spent_utxos t).
Proof.
  unfold fill_transaction.
  assert (∀ l acc r, foldR (λ spent_utxos '(outpoint, _),
      utxo ← ok_or (utxos s !! OutPointKey_from outpoint) (NoUtxo outpoint);
      Ok (spent_utxos ++ [utxo])) acc l = Ok r ↔
    ∃ k, r = acc ++ k ∧
      Forall2 (λ (i : OutPoint * Hash) o, utxos s !! OutPointKey_from i.1 = Some o) l k) as Hl.
  { induction l as [|[o h] l IH]; intros acc r; simpl.
    - split; [intros [= <-]; exists []; by rewrite app_nil_r|].
      intros (k & -> & ->%Forall2_nil_inv_l). by rewrite app_nil_r.
    - rewrite !bind_Ok. split.
      + intros (r' & H & Hr). apply bind_Ok in H as (u & Hu%ok_or_Ok & H).
        injection H as <-. apply IH in Hr as (k & -> & Hk).
        exists (u :: k). rewrite <- app_assoc. split; [done|]. by constructor.
      + intros (k & -> & Hk). apply Forall2_cons_inv_l in Hk as (u & k' & Hu & Hk & ->).
        simpl in Hu. exists (acc ++ [u]). rewrite Hu. split; [done|]. apply IH.
        exists k'. by rewrite <- app_assoc. }
  rewrite bind_Ok. split.
  - intros (r & Hr & H). injection H as <-. apply Hl in Hr as (k & -> & Hk). done.
  - destruct t as [tx' k]. simpl. intros [-> Hk]. exists k. split; [|done].
    apply Hl. by exists k.
Qed.

(** Running sums of nonnegative values stop exactly at an overflow. *)
Lemma add_loop_spec `{!AmountLaws} {A} (f : A → Amount) (l : list A) t :
  Forall (λ a, 0 ≤ f a)%Z l → (0 ≤ t ≤ amount_max)%Z →
  foldR (λ total a, ok_or (checked_add total (f a)) AmountOverflow) t l
  = if (t + sumZ (f <$> l) <=? amount_max)%Z then Ok (t + sumZ (f <$> l))%Z
    else Err AmountOverflow.
Proof.
  intros Hl. revert t. induction Hl as [|a l Ha Hl IH]; intros t Ht; csimpl.
  - change (sumZ []) with 0%Z. rewrite Z.add_0_r.
    destruct (Z.leb_spec t amount_max); [done|lia].
  - rewrite sumZ_cons, Z.add_assoc. unfold checked_add at 2.
    pose proof (sumZ_nonneg (f <$> l) ltac:(by apply Forall_fmap)).
    destruct (Z.leb_spec (t + f a) amount_max).
    + cbn [ok_or mbind res_bind]. apply IH. lia.
    + cbn [ok_or mbind res_bind].
      destruct (Z.leb_spec (t + f a + sumZ (f <$> l)) amount_max); [lia|done].
Qed.

Lemma add_values_spec `{!AmountLaws} (l : list Output) :
  Forall (λ o, 0 ≤ get_value o)%Z l →
  add_values l = if (sumZ (get_value <$> l) <=? amount_max)%Z then Ok (sumZ (get_value <$> l))
                 else Err AmountOverflow.
Proof.
  intros Hl. unfold add_values. rewrite add_loop_spec; [done|done|].
  pose proof amount_max_range. lia.
Qed.

Lemma validate_utxo_hashes_Ok t :
  validate_utxo_hashes t = Ok tt ↔
    Forall (λ i, i.1.2 = hash (mk_PointedOutput i.1.1 i.2)) (filled_inputs t).
Proof.
  unfold validate_utxo_hashes. induction (filled_inputs t) as [|[[o h] u] l IH]; simpl.
  - by split; [constructor|].
  - rewrite Forall_cons, <- IH, bind_Ok. simpl. split.
    + intros ([] & H%guard_err_Ok & Hl). by apply bool_decide_eq_true in H.
    + intros [H Hl]. exists tt. by rewrite guard_err_Ok, bool_decide_eq_true.
Qed.

Lemma check_addresses_Ok auths utxos :
  check_addresses auths utxos = Ok tt ↔
    Forall (λ p, Authorization_get_address p.1 = address p.2) (zip auths utxos).
Proof.
  unfold check_addresses. induction (zip auths utxos) as [|[a u] l IH]; simpl.
  - by split; [constructor|].
  - rewrite Forall_cons, <- IH, bind_Ok. simpl. split.
    + intros ([] & H%guard_err_Ok & Hl). by apply bool_decide_eq_true in H.
    + intros [H Hl]. exists tt. by rewrite guard_err_Ok, bool_decide_eq_true.
Qed.

(** Value entering and leaving a transaction through its orchard bundle. *)
Definition value_balance (tx : Transaction) : Z :=
  match orchard_bundle tx with Some b => bundle_value_balance b | None => 0 end.
Definition total_in (t : FilledTransaction) : Z :=
  sumZ (get_value <$> spent_utxos t) + Z.max 0 (value_balance (transaction t)).
Definition total_out (t : FilledTransaction) : Z :=
  sumZ (get_value <$> outputs (transaction t)) + Z.max 0 (- value_balance (transaction t)).

Definition values_ok (t : FilledTransaction) : Prop :=
  Forall (λ o, 0 ≤ get_value o)%Z (spent_utxos t)
  ∧ Forall (λ o, 0 ≤ get_value o)%Z (outputs (transaction t)).

Lemma validate_filled_transaction_Ok `{!AmountLaws} t fee :
  values_ok t →
  validate_filled_transaction t = Ok fee ↔
    validate_utxo_hashes t = Ok tt
    ∧ (total_in t ≤ amount_max)%Z ∧ (total_out t ≤ amount_max)%Z
    ∧ (0 ≤ fee)%Z ∧ total_in t = (total_out t + fee)%Z.
Proof.
  intros [Hin Hout]. unfold validate_filled_transaction, total_in, total_out, value_balance.
  rewrite !add_values_spec by done.
  pose proof (sumZ_nonneg _ (proj2 (Forall_fmap _ _ _) Hin)).
  pose proof (sumZ_nonneg _ (proj2 (Forall_fmap _ _ _) Hout)).
  set (vin := sumZ _) in *. set (vout := sumZ (_ <$> outputs _)) in *.
  destruct (validate_utxo_hashes t) as [[]|e|]; cbn [mbind res_bind]; [|naive_solver..].
  destruct (Z.leb_spec vin amount_max); cbn [mbind res_bind];
    [|split; [done|intros; exfalso; destruct (orchard_bundle (transaction t)); lia]].
  destruct (Z.leb_spec vout amount_max); cbn [mbind res_bind];
    [|split; [done|intros; exfalso; destruct (orchard_bundle (transaction t)); lia]].
  assert (∀ a b, (0 ≤ a)%Z → (_ ← guard_err (negb (a <? b)%Z) NotEnoughValueIn;
      ok_or (checked_sub a b) AmountUnderflow) = Ok fee ↔ (0 ≤ fee ∧ a = b + fee)%Z) as Hend.
  { intros a b Ha. destruct (Z.ltb_spec a b); cbn [negb guard_err mbind res_bind];
      [split; [done|lia]|]. rewrite ok_or_Ok, checked_sub_Some. lia. }
  destruct (orchard_bundle (transaction t)) as [b|]; 
    [|cbn [mbind res_bind]; rewrite Hend by lia; by split; intros; destruct_and?; split_and?; lia || done].
  unfold checked_add. destruct (Z.ltb_spec 0 (bundle_value_balance b)).
  - destruct (Z.leb_spec (vin + Z.abs (bundle_value_balance b)) amount_max);
      cbn [ok_or mbind res_bind];
      [rewrite Hend by lia; by split; intros; destruct_and?; split_and?; lia || done
      |split; [done|lia]].
  - destruct (Z.leb_spec (vout + Z.abs (bundle_value_balance b)) amount_max);
      cbn [ok_or mbind res_bind];
      [rewrite Hend by lia; by split; intros; destruct_and?; split_and?; lia || done
      |split; [done|lia]].
Qed.
End state_facts.

(** *** Wealth, as sums over the databases *)
Section wealth.
Context `{E : Externals}.

Definition key_is_deposit (k : OutPointKey) : bool :=
  match outpoint_of k with Some o => is_deposit o | None => false end.

Definition deposit_value (k : OutPointKey) (o : Output) : Z :=
  if key_is_deposit k then get_value o else 0.
Definition spent_deposit_value (k : OutPointKey) (o : SpentOutput) : Z :=
  deposit_value k (so_output o).
Definition withdrawn_value (_ : OutPointKey) (o : SpentOutput) : Z :=
  if is_withdrawal_inpoint (inpoint o) then get_value (so_output o) else 0.

(** Deposits that ever were outputs, minus what mainchain withdrawals spent. *)
Definition wealth (s : State) : Z :=
  msum deposit_value (utxos s) + msum spent_deposit_value (stxos s)
  - msum withdrawn_value (stxos s).

Definition state_values_ok (s : State) : Prop :=
  (∀ k o, utxos s !! k = Some o → 0 ≤ get_value o)%Z
  ∧ (∀ k o, stxos s !! k = Some o → 0 ≤ get_value (so_output o))%Z.

Lemma add_if_loop {A} (f : A → Amount) (c : A → bool) (l : list A) t :
  (t ≤ amount_max)%Z →
  foldR (λ total a, add_if (c a) total (f a)) t l
  = foldR (λ total a, ok_or (checked_add total (if c a then f a else 0%Z)) AmountOverflow) t l.
Proof.
  revert t. induction l as [|a l IH]; intros t Ht; [done|]. cbn [foldR]. destruct (c a); cbn [add_if].
  - destruct (checked_add t (f a)) as [t'|] eqn:Hc; cbn [ok_or mbind res_bind]; [|done].
    apply IH. apply checked_add_Some in Hc. lia.
  - rewrite (proj2 (checked_add_Some t 0 t)) by lia. cbn [ok_or mbind res_bind]. by apply IH.
Qed.

Lemma msum_loop `{!AmountLaws} {A} (m : gmap OutPointKey A) (c : OutPointKey * A → bool)
    (v : OutPointKey * A → Amount) (f : OutPointKey → A → Z) r :
  (∀ k a, f k a = if c (k, a) then v (k, a) else 0%Z) →
  (∀ k a, m !! k = Some a → 0 ≤ v (k, a))%Z →
  foldR (λ t kv, add_if (c kv) t (v kv)) 0%Z (db_iter m) = Ok r ↔
    r = msum f m ∧ (0 ≤ r ≤ amount_max)%Z.
Proof.
  intros Hf Hv. pose proof amount_max_range. rewrite add_if_loop by lia.
  assert (Forall (λ kv, 0 ≤ if c kv then v kv else 0)%Z (db_iter m)) as Hpos.
  { apply Forall_forall. intros [k a] Hin%elem_of_db_iter. destruct (c _); [eauto|done]. }
  assert (sumZ ((λ kv, if c kv then v kv else 0%Z) <$> db_iter m) = msum f m) as Hs.
  { rewrite <- msum_db_iter. f_equal. apply list_fmap_ext. intros ? [k a] _. simpl. auto. }
  pose proof (sumZ_nonneg _ (proj2 (Forall_fmap _ _ _) Hpos)) as Hnn.
  rewrite (add_loop_spec _ _ 0%Z Hpos) by lia. unfold compose in Hnn.
  rewrite Z.add_0_l, Hs in *. destruct (Z.leb_spec (msum f m) amount_max); split;
    [intros [= <-]; lia | intros [-> ?]; done | done | lia].
Qed.

(** A loop over two independent sums is the pair of the two loops, when both
    succeed. *)
Lemma foldR_ok_pair {A} (f g : A → Amount) (c d : A → bool) (l : list A) t u t' u' :
  foldR (λ '(t, u) a, t ← add_if (c a) t (f a); u ← add_if (d a) u (g a); Ok (t, u))
    (t, u) l = Ok (t', u') ↔
  foldR (λ t a, add_if (c a) t (f a)) t l = Ok t' ∧
  foldR (λ u a, add_if (d a) u (g a)) u l = Ok u'.
Proof.
  revert t u. induction l as [|a l IH]; intros t u; cbn [foldR].
  - naive_solver.
  - destruct (add_if (c a) t (f a)) as [t1|e|]; cbn [mbind res_bind]; [|naive_solver..].
    destruct (add_if (d a) u (g a)) as [u1|e|]; cbn [mbind res_bind]; [|naive_solver..].
    apply IH.
Qed.

Lemma foldR_ext {Er S A} (f g : S → A → Res Er S) s l :
  (∀ s a, a ∈ l → f s a = g s a) → foldR f s l = foldR g s l.
Proof.
  revert s. induction l as [|a l IH]; intros s Hfg; [done|]. cbn [foldR].
  rewrite Hfg by (by left). destruct (g s a); cbn [mbind res_bind]; [|done..].
  apply IH. intros s' b Hb. apply Hfg. by right.
Qed.

Lemma sidechain_wealth_Ok `{!AmountLaws} s w :
  state_values_ok s → keys_canonical (utxos s) → keys_canonical (stxos s) →
  sidechain_wealth s = Ok w ↔
    w = wealth s ∧ (0 ≤ w)%Z
    ∧ (msum deposit_value (utxos s) + msum spent_deposit_value (stxos s) ≤ amount_max)%Z
    ∧ (msum withdrawn_value (stxos s) ≤ amount_max)%Z.
Proof.
  intros [Hu Hx] Hku Hkx. pose proof amount_max_range as Hmax.
  assert (∀ A (m : gmap OutPointKey A) k v, keys_canonical m → (k, v) ∈ db_iter m →
    ∃ o, OutPoint_from (E:=Error) k = Ok o ∧ is_deposit o = key_is_deposit k) as Hkey.
  { intros A m k v Hk Hin%elem_of_db_iter. destruct (Hk k ltac:(by eexists)) as [o Ho].
    exists o. unfold OutPoint_from, key_is_deposit. unfold outpoint_of in *. by rewrite Ho. }
  unfold sidechain_wealth, wealth.
  rewrite (foldR_ext _ (λ t (a : OutPointKey * Output),
    add_if (key_is_deposit a.1) t (get_value a.2))).
  2:{ intros t [k o] Hin. destruct (Hkey _ _ _ _ Hku Hin) as (o' & -> & Hd). cbn [fst snd mbind res_bind]. by rewrite Hd. }
  rewrite (foldR_ext _ (λ '(t, u) (a : OutPointKey * SpentOutput),
    t ← add_if (key_is_deposit a.1) t (get_value (so_output a.2));
    u ← add_if (is_withdrawal_inpoint (inpoint a.2)) u (get_value (so_output a.2)); Ok (t, u))).
  2:{ intros [t u] [k o] Hin. destruct (Hkey _ _ _ _ Hkx Hin) as (o' & -> & Hd). cbn [fst snd mbind res_bind]. by rewrite Hd. }
  assert (∀ r, foldR (λ t (a : OutPointKey * Output),
      add_if (key_is_deposit a.1) t (get_value a.2)) 0%Z (db_iter (utxos s)) = Ok r ↔
      r = msum deposit_value (utxos s) ∧ (0 ≤ r ≤ amount_max)%Z) as H1
    by (intros r; by apply msum_loop).
  assert (∀ r, foldR (λ t (a : OutPointKey * SpentOutput),
      add_if (key_is_deposit a.1) t (get_value (so_output a.2))) 0%Z (db_iter (stxos s)) = Ok r ↔
      r = msum spent_deposit_value (stxos s) ∧ (0 ≤ r ≤ amount_max)%Z) as H2
    by (intros r; by apply msum_loop).
  assert (∀ r, foldR (λ t (a : OutPointKey * SpentOutput),
      add_if (is_withdrawal_inpoint (inpoint a.2)) t (get_value (so_output a.2))) 0%Z
      (db_iter (stxos s)) = Ok r ↔
      r = msum withdrawn_value (stxos s) ∧ (0 ≤ r ≤ amount_max)%Z) as H3
    by (intros r; by apply msum_loop).
  assert (0 ≤ msum deposit_value (utxos s) ∧ 0 ≤ msum spent_deposit_value (stxos s)
    ∧ 0 ≤ msum withdrawn_value (stxos s))%Z as (P1 & P2 & P3).
  { split_and!; apply sumZ_nonneg, Forall_fmap, Forall_forall;
      intros [k o] Hin%elem_of_map_to_list; simpl;
      unfold spent_deposit_value, withdrawn_value, deposit_value; case_match; eauto; lia. }
  split.
  - intros Hok. apply bind_Ok in Hok as (d & Hd%H1 & Hok).
    apply bind_Ok in Hok as ([x y] & Hxy & Hok).
    apply foldR_ok_pair in Hxy as [Hx'%H2 Hy%H3].
    apply bind_Ok in Hok as (z & Hz%ok_or_Ok & Hok%ok_or_Ok).
    apply checked_add_Some in Hz. apply checked_sub_Some in Hok. lia.
  - intros (-> & Hw & Hd & Hy).
    rewrite (proj2 (H1 (msum deposit_value (utxos s)))) by lia. cbn [mbind res_bind].
    rewrite (proj2 (foldR_ok_pair _ _ _ _ _ _ _ (msum spent_deposit_value (stxos s))
      (msum withdrawn_value (stxos s)))) by (by rewrite H2, H3; lia).
    cbn [mbind res_bind]. apply bind_Ok.
    exists (msum deposit_value (utxos s) + msum spent_deposit_value (stxos s))%Z.
    rewrite !ok_or_Ok, checked_add_Some, checked_sub_Some. lia.
Qed.
End wealth.

(** ** Properties *)
Section properties.
Context `{E : Externals}.

(** A transaction conserves value, shielded value included: the fee that
    [validate_filled_transaction] returns is exactly what enters (spent
    outputs, and the value an orchard bundle moves out of the shielded pool)
    minus what leaves (outputs, and the value moved into the pool), no sum
    overflows an amount, and every input commits to the output it spends.
    Conversely every transaction for which this holds is accepted. *)
Theorem validate_filled_transaction_spec `{!AmountLaws} (t : FilledTransaction) (fee : Amount)
    (Hval : values_ok t) :
  validate_filled_transaction t = Ok fee ↔
    Forall (λ i, i.1.2 = hash (mk_PointedOutput i.1.1 i.2)) (filled_inputs t)
    ∧ (total_in t ≤ amount_max)%Z ∧ (total_out t ≤ amount_max)%Z
    ∧ (0 ≤ fee)%Z ∧ total_in t = (total_out t + fee)%Z.
Proof. by rewrite validate_filled_transaction_Ok, validate_utxo_hashes_Ok. Qed.

(** What [validate_transaction] accepts is authorized and funded: every
    input is in the UTXO set and commits to its output, there is one
    authorization per input and it is for the address that owns the output,
    the signatures and the orchard bundle verify, a bundle's anchor is a
    historical root (and not the empty one when it spends notes), and inputs
    cover outputs plus the returned fee. *)
Theorem validate_transaction_sound `{!AmountLaws} (s : State) (t : AuthorizedTransaction)
    (fee : Amount)
    (Hval : ∀ k o, utxos s !! k = Some o → (0 ≤ get_value o)%Z)
    (Hout : Forall (λ o, 0 ≤ get_value o)%Z (outputs (at_transaction t)))
    (Hok : validate_transaction s t = Ok fee) :
  ∃ spent,
    Forall2 (λ i o, utxos s !! OutPointKey_from i.1 = Some o
                    ∧ i.2 = hash (mk_PointedOutput i.1 o)) (inputs (at_transaction t)) spent
    ∧ Authorization_get_address <$> authorizations t = address <$> spent
    ∧ verify_authorized_transaction t = Ok tt
    ∧ (∀ b, orchard_bundle (at_transaction t) = Some b →
        is_Some (historical_roots (orchard s) !! bundle_anchor b)
        ∧ (bundle_spends_enabled b = true → bundle_anchor b ≠ anchor_empty_tree))
    ∧ (0 ≤ fee)%Z
    ∧ total_in (mk_FilledTransaction (at_transaction t) spent)
      = (total_out (mk_FilledTransaction (at_transaction t) spent) + fee)%Z.
Proof.
  apply bind_Ok in Hok as ([tx spent] & [Htx Hfill]%fill_transaction_Ok & Hok).
  apply bind_Ok in Hok as ([] & Haddr%check_addresses_Ok & Hok).
  apply bind_Ok in Hok as ([] & Hanchor & Hok).
  apply bind_Ok in Hok as ([] & Hver%map_err_Ok & Hok). simpl in *. subst tx.
  assert (values_ok (mk_FilledTransaction (at_transaction t) spent)) as Hvals.
  { split; [|done]. simpl. clear -Hfill Hval.
    induction Hfill; constructor; eauto. }
  apply validate_filled_transaction_Ok in Hok as (Hh & _ & _ & Hfee & Heq); [|done].
  apply validate_utxo_hashes_Ok in Hh. unfold filled_inputs in Hh. simpl in Hh.
  exists spent.
  split_and!; [| |done| |done|done].
  - clear -Hfill Hh. induction Hfill as [|[o h] u l k Hu _ IH]; constructor.
    + simpl in Hh. by apply Forall_cons in Hh as [? _].
    + apply IH. simpl in Hh. by apply Forall_cons in Hh as [_ ?].
  - assert (length (authorizations t) = length spent) as Hlen.
    { rewrite <- (Forall2_length _ _ _ Hfill). unfold verify_authorized_transaction in Hver.
      apply bind_Ok in Hver as ([] & Hc & _). by apply check_count_Ok in Hc. }
    clear Hfill Hvals Heq Hh. revert spent Haddr Hlen.
    induction (authorizations t) as [|a l IH]; intros [|u spent] Ha Hl; try done.
    csimpl. simpl in Ha. apply Forall_cons in Ha as [Ha Has]. simpl in Ha. rewrite Ha.
    f_equal. apply IH; [done|]. by injection Hl.
  - intros b Hb. rewrite Hb in Hanchor. unfold validate_orchard_anchor in Hanchor.
    destruct (bool_decide _ && _) eqn:Hc; [done|].
    apply guard_err_Ok, bool_decide_eq_true in Hanchor. split; [done|].
    intros Hs Ha. rewrite Hs, andb_true_r in Hc. by apply bool_decide_eq_false in Hc.
Qed.

(** [sidechain_wealth] computes the deposits ever made minus the value
    withdrawals spent: on canonical databases it succeeds exactly when the
    three sums fit and the balance is not negative, in whatever order the
    database is iterated, and then returns that balance. *)
Theorem sidechain_wealth_spec `{!AmountLaws} (s : State) (w : Amount)
    (Hval : state_values_ok s) (Hu : keys_canonical (utxos s)) (Hx : keys_canonical (stxos s)) :
  sidechain_wealth s = Ok w ↔
    w = wealth s ∧ (0 ≤ w)%Z
    ∧ (msum deposit_value (utxos s) + msum spent_deposit_value (stxos s) ≤ amount_max)%Z
    ∧ (msum withdrawn_value (stxos s) ≤ amount_max)%Z.
Proof. by apply sidechain_wealth_Ok. Qed.
End properties.

(** A small chain state for the witnesses. *)
Module StateToy.
#[local] Existing Instance Toy.externals.
Definition h (z : Z) : Hash := le_vec 32 z.
Definition alice : SigningKey := 5%Z.
Definition alice_addr : TransparentAddress := get_address (verifying_key_of alice).
Definition op (z : Z) : OutPoint := Regular (h z) (u32_of_Z 0).
Definition dep (z : Z) : OutPoint := Deposit (mk_BtcOutPoint (h z) (u32_of_Z 1)).
Definition coin (v : Z) : Output := mk_Output alice_addr (Value v).
Definition leaf (o : OutPoint) (u : Output) : Hash := hash (mk_PointedOutput o u).
Definition leaves : Forest := [leaf (op 1) (coin 100); leaf (dep 2) (coin 50)].

Definition orchard0 : Orchard :=
  match Orchard_new (Err:=Empty_set) Orchard_empty_dbs with Ok o => o | _ => Orchard_empty_dbs end.

Definition s0 : State :=
  mk_State (Some (h 77)) (Some 6%Z)
    (<[OutPointKey_from (op 1) := coin 100]> (<[OutPointKey_from (dep 2) := coin 50]> ∅))
    (<[OutPointKey_from (dep 3) := mk_SpentOutput (coin 30) (InWithdrawal (h 8))]> ∅)
    None None ∅ ∅ ∅ orchard0 (Some (mk_Accumulator leaves)).

Definition tx : Transaction :=
  mk_Transaction [(op 1, leaf (op 1) (coin 100))] [leaf (op 1) (coin 100)]
    [coin 60; coin 35] None.
Definition atx : AuthorizedTransaction :=
  mk_AuthorizedTransaction tx [mk_Authorization (verifying_key_of alice) (sign alice tx)].

Lemma values s : s ∈ map_to_list (utxos s0) → (0 ≤ get_value s.2)%Z.
Proof.
  destruct s as [k o]. intros Hs%elem_of_map_to_list. unfold s0 in Hs. simpl in Hs.
  apply lookup_insert_Some in Hs as [[_ <-]|[_ Hs]]; [done|].
  apply lookup_insert_Some in Hs as [[_ <-]|[_ Hs]]; [done|].
  by rewrite lookup_empty in Hs.
Qed.

Lemma validate_filled_transaction_spec_witness :
  validate_filled_transaction (mk_FilledTransaction tx [coin 100]) = Ok 5%Z.
Proof.
  apply (validate_filled_transaction_spec (mk_FilledTransaction tx [coin 100]) 5).
  - split; repeat constructor; done.
  - split_and!; try done; repeat constructor; vm_compute; reflexivity.
Defined.

Lemma validate_transaction_sound_witness :
  ∃ spent, Authorization_get_address <$> authorizations atx = address <$> spent
    ∧ total_in (mk_FilledTransaction tx spent)
      = (total_out (mk_FilledTransaction tx spent) + 5)%Z.
Proof.
  destruct (validate_transaction_sound s0 atx 5) as (spent & _ & Ha & _ & _ & _ & Hv).
  - intros k o Hk. apply (values (k, o)). by apply elem_of_map_to_list.
  - repeat constructor; done.
  - vm_ok.
  - by exists spent.
Defined.

Lemma canonical : keys_canonical (utxos s0) ∧ keys_canonical (stxos s0).
Proof.
  split; intros k [o Ho]; unfold s0 in Ho; simpl in Ho;
    repeat (apply lookup_insert_Some in Ho as [[<- _]|[_ Ho]];
      [rewrite outpoint_of_key; by eexists|]);
    by rewrite lookup_empty in Ho.
Qed.

Lemma state_values : state_values_ok s0.
Proof.
  split; intros k o Ho.
  - apply (values (k, o)). by apply elem_of_map_to_list.
  - unfold s0 in Ho. simpl in Ho.
    apply lookup_insert_Some in Ho as [[_ <-]|[_ Ho]]; [done|].
    by rewrite lookup_empty in Ho.
Qed.

Lemma sidechain_wealth_spec_witness : sidechain_wealth s0 = Ok 50%Z.
Proof.
  apply (sidechain_wealth_spec s0 50 state_values (proj1 canonical) (proj2 canonical)).
  split_and!; vm_compute; done.
Defined.
End StateToy.
