(* ===== verification/Block.v ===== *)
(** Validating, connecting and disconnecting blocks
    ([src/lib/state/block.rs]).

    [validate] and [prevalidate] check a block against the state; [connect]
    and [connect_prevalidated] apply it; [disconnect_tip] reverts the tip.
    [new_keys] are the database keys of the outputs a body creates: the source
    relies on them being new, since they contain the hash of what creates
    them, and the theorems name that as [fresh_block]. *)
From S2P Require Import Prelude.
From S2P Require Import Borsh.
From S2P Require Import Externals.
From S2P Require Import Toy.
From S2P Require Import Types.
From S2P Require Import AccumulatorDiff.
From S2P Require Import WithdrawalBundle.
From S2P Require Import RollBack.
From S2P Require Import Authorization.
From S2P Require Import Limits.
From S2P Require Import Orchard.
From S2P Require Import State.

Section block.
Context `{E : Externals}.

#[export] Instance Body_serialize : BorshSerialize Body := λ b,
  borsh (coinbase b) ++ borsh (transactions b) ++ borsh (body_authorizations b).

(** ** Validation *)
Definition calculate_total_inputs (body : Body) : nat :=
  sum_list ((λ t, length (inputs t)) <$> transactions body).

(** [state.try_get_height()?.map_or(0, |height| height + 1)] *)
Definition next_block_height (s : State) : Z :=
  match height s with Some height => wrap32 (height + 1) | None => 0 end.

(** [all_input_keys.par_sort_unstable()], then
    [windows(2).any(|w| w[0] == w[1])] *)
Definition input_key_le (a b : OutPointKey) : Prop := OutPointKey_cmp a b ≠ Gt.
#[export] Instance input_key_le_dec a b : Decision (input_key_le a b).
Proof. unfold input_key_le. apply _. Defined.

Fixpoint any_adjacent_eq (l : list OutPointKey) : bool :=
  match l with
  | a :: (b :: _) as k => bool_decide (a = b) || any_adjacent_eq k
  | _ => false
  end.
Definition has_duplicate_key (keys : list OutPointKey) : bool :=
  any_adjacent_eq (merge_sort input_key_le keys).

Definition all_input_keys (txs : list FilledTransaction) : list OutPointKey :=
  mjoin ((λ t, (λ i, OutPointKey_from i.1) <$> inputs (transaction t)) <$> txs).

(** The loop over the coinbase outputs. *)
Definition validate_coinbase (merkle_root : MerkleRoot) (outs : list Output)
    (diff : AccumulatorDiff) : Res Error (Amount * AccumulatorDiff) :=
  foldR (λ '(coinbase_value, diff) p,
      coinbase_value ← ok_or (checked_add coinbase_value (get_value (output p)))
        AmountOverflow;
      Ok (coinbase_value, AccumulatorDiff_insert (PointedOutput_node_hash p) diff))
    (0%Z, diff) (pointed_outputs (Coinbase merkle_root) outs).

(** What the transactions of a block do to the accumulator diff. *)
Definition diff_spend (tx : Transaction) (d : AccumulatorDiff) : AccumulatorDiff :=
  foldl (λ d i, AccumulatorDiff_remove (node_hash i.2) d) d (inputs tx).
Definition diff_create (txid : Txid) (tx : Transaction) (d : AccumulatorDiff) :
    AccumulatorDiff :=
  foldl (λ d p, AccumulatorDiff_insert (PointedOutput_node_hash p) d) d
    (pointed_outputs (Regular txid) (outputs tx)).

(** The loop body over the filled transactions. *)
Definition validate_body_transaction (s : State) (accumulator : Accumulator)
    (acc : Amount * AccumulatorDiff) (t : FilledTransaction) :
    Res Error (Amount * AccumulatorDiff) :=
  let '(total_fees, diff) := acc in
  let tx := transaction t in
  let txid := txid tx in
  _ ← match orchard_bundle tx with
      | Some orchard_bundle => validate_orchard_anchor s orchard_bundle
      | None => Ok tt
      end;
  let spent_utxo_hashes := (λ i, node_hash i.2) <$> inputs tx in
  let diff := diff_create txid tx (diff_spend tx diff) in
  fee ← validate_filled_transaction t;
  total_fees ← ok_or (checked_add total_fees fee) AmountOverflow;
  ok ← ok_or (verify accumulator (proof tx) spent_utxo_hashes) Utreexo;
  _ ← guard_err ok (UtreexoProofFailed txid);
  Ok (total_fees, diff).

Definition check_prev_side_hash (s : State) (header : Header) : Res InvalidHeader unit :=
  guard_err (bool_decide (prev_side_hash header = tip s))
    (IH_PrevSideHash (tip s) (prev_side_hash header)).

Definition check_merkle_root (header : Header) (body : Body) : Res InvalidBody MerkleRoot :=
  let root := compute_merkle_root body in
  _ ← guard_err (bool_decide (root = merkle_root header))
        (mk_InvalidBody root (merkle_root header));
  Ok root.

(** [validate] and [prevalidate] are two copies of the same checks in the
    source; each is translated on its own. *)
Definition validate (s : State) (header : Header) (body : Body) : Res Error Amount :=
  _ ← map_err EInvalidHeader (check_prev_side_hash s header);
  let height := next_block_height s in
  _ ← guard_err (negb (body_sigops_limit height <? zlen (body_authorizations body))%Z)
        TooManySigops;
  _ ← guard_err (negb (body_size_limit height <? zlen (borsh body))%Z) BodyTooLarge;
  accumulator ← ok_or (utreexo_accumulator s) Db;
  merkle_root ← map_err EInvalidBody (check_merkle_root header body);
  '(coinbase_value, accumulator_diff) ←
    validate_coinbase merkle_root (coinbase body) AccumulatorDiff_default;
  filled_transactions ← mapR (fill_transaction s) (transactions body);
  _ ← guard_err (negb (has_duplicate_key (all_input_keys filled_transactions))) UtxoDoubleSpent;
  '(total_fees, accumulator_diff) ←
    foldR (validate_body_transaction s accumulator) (0%Z, accumulator_diff)
      filled_transactions;
  _ ← guard_err (negb (total_fees <? coinbase_value)%Z) NotEnoughFees;
  let spent_utxos := mjoin (spent_utxos <$> filled_transactions) in
  _ ← check_addresses (body_authorizations body) spent_utxos;
  _ ← map_err (λ _, AuthorizationError) (verify_authorizations body);
  accumulator ← ok_or (apply_diff accumulator accumulator_diff) Utreexo;
  _ ← guard_err (bool_decide (get_roots accumulator = roots header)) UtreexoRootsMismatch;
  Ok total_fees.

Definition prevalidate (s : State) (header : Header) (body : Body) :
    Res Error PrevalidatedBlock :=
  _ ← map_err EInvalidHeader (check_prev_side_hash s header);
  let height := next_block_height s in
  _ ← guard_err (negb (body_sigops_limit height <? zlen (body_authorizations body))%Z)
        TooManySigops;
  _ ← guard_err (negb (body_size_limit height <? zlen (borsh body))%Z) BodyTooLarge;
  accumulator ← ok_or (utreexo_accumulator s) Db;
  merkle_root ← map_err EInvalidBody (check_merkle_root header body);
  '(coinbase_value, accumulator_diff) ←
    validate_coinbase merkle_root (coinbase body) AccumulatorDiff_default;
  filled_transactions ← mapR (fill_transaction s) (transactions body);
  _ ← guard_err (negb (has_duplicate_key (all_input_keys filled_transactions))) UtxoDoubleSpent;
  '(total_fees, accumulator_diff) ←
    foldR (validate_body_transaction s accumulator) (0%Z, accumulator_diff)
      filled_transactions;
  _ ← guard_err (negb (total_fees <? coinbase_value)%Z) NotEnoughFees;
  let spent_utxos := mjoin (spent_utxos <$> filled_transactions) in
  _ ← check_addresses (body_authorizations body) spent_utxos;
  _ ← map_err (λ _, AuthorizationError) (verify_authorizations body);
  accumulator' ← ok_or (apply_diff accumulator accumulator_diff) Utreexo;
  _ ← guard_err (bool_decide (get_roots accumulator' = roots header)) UtreexoRootsMismatch;
  Ok (mk_PrevalidatedBlock filled_transactions merkle_root total_fees coinbase_value height
        accumulator_diff).

(** ** Connecting *)

(** Connect the orchard components of a transaction: append its commitments
    to the frontier, then store its nullifiers, each of which must be new. *)
Definition connect_orchard (o : Orchard) (frontier : Frontier) (bundle : Bundle) :
    Res OrchardError (Orchard * Frontier) :=
  frontier ← foldR (λ frontier cmx, ok_or (frontier_append frontier cmx) AppendCommitment)
    frontier (action_cmx <$> bundle_actions bundle);
  o ← foldR (λ o nullifier,
      _ ← guard_err (negb (bool_decide (nullifier ∈ nullifiers o)))
            (NullifierDoubleSpent nullifier);
      Ok (put_nullifier o nullifier))
    o (action_nullifier <$> bundle_actions bundle);
  Ok (o, frontier).

Definition connect_orchard_opt (o : Orchard) (frontier : Frontier) (bundle : option Bundle) :
    Res OrchardError (Orchard * Frontier) :=
  match bundle with
  | Some bundle => connect_orchard o frontier bundle
  | None => Ok (o, frontier)
  end.

Definition pointed_key (p : PointedOutput) : OutPointKey := OutPointKey_from (outpoint p).

(** [for (vin, (outpoint, utxo_hash)) in inputs.iter().enumerate()] *)
Definition indexed_inputs (tx : Transaction) : list (nat * (OutPoint * Hash)) :=
  imap (λ vin i, (vin, i)) (inputs tx).
Definition spent_by (txid : Txid) (vin : nat) (o : Output) : SpentOutput :=
  mk_SpentOutput o (InRegular txid (u32_of_Z (Z.of_nat vin))).

(** Spend one input. *)
Definition connect_input (txid : Txid) (acc : State * AccumulatorDiff)
    (i : nat * (OutPoint * Hash)) : Res ConnectTransactionError (State * AccumulatorDiff) :=
  let '(s, diff) := acc in
  let '(vin, (outpoint, utxo_hash)) := i in
  let key := OutPointKey_from outpoint in
  spent_output ← ok_or (utxos s !! key) (CT_NoUtxo outpoint);
  let diff := AccumulatorDiff_remove (node_hash utxo_hash) diff in
  Ok (with_txos s (delete key (utxos s)) (<[key := spent_by txid vin spent_output]> (stxos s)),
      diff).

(** Create one output, of a transaction or of the coinbase. *)
Definition connect_output (acc : State * AccumulatorDiff) (p : PointedOutput) :
    State * AccumulatorDiff :=
  let '(s, diff) := acc in
  (with_txos s (<[pointed_key p := output p]> (utxos s)) (stxos s),
   AccumulatorDiff_insert (PointedOutput_node_hash p) diff).

Definition connect_transaction (acc : State * AccumulatorDiff * Frontier) (tx : Transaction) :
    Res ConnectTransactionError (State * AccumulatorDiff * Frontier) :=
  let '(s, diff, frontier) := acc in
  let txid := txid tx in
  '(s, diff) ← foldR (connect_input txid) (s, diff) (indexed_inputs tx);
  let '(s, diff) := foldl connect_output (s, diff) (pointed_outputs (Regular txid) (outputs tx)) in
  '(o, frontier) ← map_err CT_Orchard
    (connect_orchard_opt (orchard s) frontier (orchard_bundle tx));
  Ok (with_orchard s o, diff, frontier).

(** The end of both connect functions: tip, height, accumulator and orchard
    roots; the frontier is returned when the root is new. *)
Definition finish_connect (s : State) (header : Header) (height : Z)
    (accumulator : Accumulator) (diff : AccumulatorDiff) (frontier : Frontier) :
    Res ConnectBlockError (State * option Frontier) :=
  let block_hash := Header_hash header in
  let s := with_tip_height s (Some block_hash) (Some height) in
  accumulator ← ok_or (apply_diff accumulator diff) CB_Utreexo;
  let s := with_accumulator s accumulator in
  let o := put_frontier (orchard s) frontier in
  let '(o, root_changed) := put_historical_root o block_hash (frontier_root frontier) in
  Ok (with_orchard s o, if (root_changed : bool) then Some frontier else None).

Definition connect (s : State) (header : Header) (body : Body) :
    Res ConnectBlockError (State * option Frontier) :=
  _ ← map_err CB_InvalidHeader (check_prev_side_hash s header);
  merkle_root ← map_err CB_InvalidBody (check_merkle_root header body);
  accumulator ← ok_or (utreexo_accumulator s) CB_Db;
  frontier ← ok_or (frontier (orchard s)) (CB_Orchard OrchardDb);
  let '(s, diff) := foldl connect_output (s, AccumulatorDiff_default)
    (pointed_outputs (Coinbase merkle_root) (coinbase body)) in
  '(s, diff, frontier) ← foldR (λ acc tx,
      map_err (CB_ConnectTransaction (txid tx)) (connect_transaction acc tx))
    (s, diff, frontier) (transactions body);
  finish_connect s header (next_block_height s) accumulator diff frontier.

(** The mutations [connect_prevalidated] collects before it applies them. *)
Record Mutations := mk_Mutations {
  utxo_deletes : list OutPointKey;
  stxo_puts : list (OutPointKey * SpentOutput);
  utxo_puts : list (OutPointKey * Output)
}.

(** One input: a delete of the utxo and a put of the stxo. *)
Definition collect_input (txid : Txid) (t : FilledTransaction) (m : Mutations)
    (i : nat * (OutPoint * Hash)) : Res ConnectBlockError Mutations :=
  let '(vin, (outpoint, _)) := i in
  spent_utxo ← expect (spent_utxos t !! vin);
  let key := OutPointKey_from outpoint in
  Ok (mk_Mutations (utxo_deletes m ++ [key])
        (stxo_puts m ++ [(key, spent_by txid vin spent_utxo)]) (utxo_puts m)).

Definition collect_transaction (acc : Mutations * Orchard * Frontier) (t : FilledTransaction) :
    Res ConnectBlockError (Mutations * Orchard * Frontier) :=
  let '(m, o, frontier) := acc in
  let tx := transaction t in
  let txid := txid tx in
  m ← foldR (collect_input txid t) m (indexed_inputs tx);
  let m := mk_Mutations (utxo_deletes m) (stxo_puts m)
    (utxo_puts m ++ ((λ p, (pointed_key p, output p)) <$> pointed_outputs (Regular txid) (outputs tx))) in
  '(o, frontier) ← map_err (λ e, CB_ConnectTransaction txid (CT_Orchard e))
    (connect_orchard_opt o frontier (orchard_bundle tx));
  Ok (m, o, frontier).

(** Deletes, then stxo puts, then utxo puts, each sorted by key. *)
Definition apply_mutations (s : State) (m : Mutations) : State :=
  let utxo_deletes := merge_sort input_key_le (utxo_deletes m) in
  let stxo_puts := merge_sort key_le (stxo_puts m) in
  let utxo_puts := merge_sort key_le (utxo_puts m) in
  let u := foldl (λ u key, delete key u) (utxos s) utxo_deletes in
  let x := foldl (λ x '(key, spent_output), <[key := spent_output]> x) (stxos s) stxo_puts in
  let u := foldl (λ u '(key, output), <[key := output]> u) u utxo_puts in
  with_txos s u x.

Definition connect_prevalidated (s : State) (header : Header) (body : Body)
    (prevalidated : PrevalidatedBlock) : Res ConnectBlockError (State * option Frontier) :=
  let merkle_root := computed_merkle_root prevalidated in
  accumulator ← ok_or (utreexo_accumulator s) CB_Db;
  let diff := accumulator_diff prevalidated in
  frontier ← ok_or (frontier (orchard s)) (CB_Orchard OrchardDb);
  let m := mk_Mutations [] []
    ((λ p, (pointed_key p, output p)) <$> pointed_outputs (Coinbase merkle_root) (coinbase body)) in
  '(m, o, frontier) ← foldR collect_transaction (m, orchard s, frontier)
    (filled_transactions prevalidated);
  let s := apply_mutations (with_orchard s o) m in
  finish_connect s header (next_height prevalidated) accumulator diff frontier.

(** [State::apply_block]: the error mapping, then the two phases. *)
Definition apply_block_error (err : Error) : ConnectBlockError :=
  match err with
  | EInvalidHeader h => CB_InvalidHeader h
  | TooManySigops => CB_TooManySigops
  | BodyTooLarge => CB_BodyTooLarge
  | EInvalidBody b => CB_InvalidBody b
  | UtxoDoubleSpent => CB_UtxoDoubleSpent
  | UtreexoProofFailed txid => CB_ConnectTransaction txid CT_UtreexoProofFailed
  | NotEnoughFees => CB_NotEnoughFees
  | WrongPubKeyForAddress => CB_WrongPubKeyForAddress
  | AuthorizationError => CB_AuthorizationError
  | UtreexoRootsMismatch => CB_UtreexoRootsMismatch
  | other => CB_Other other
  end.
Definition apply_block (s : State) (header : Header) (body : Body) :
    Res ConnectBlockError (State * option Frontier) :=
  prevalidated ← map_err apply_block_error (prevalidate s header body);
  connect_prevalidated s header body prevalidated.

(** ** Disconnecting *)

(** The frontier is not reverted here; it is restored from the archive. *)
Definition disconnect_orchard (o : Orchard) (bundle : Bundle) : Orchard :=
  foldl (λ o nullifier, (delete_nullifier o nullifier).1) o
    (action_nullifier <$> bundle_actions bundle).

(** Remove one created output; it must be unspent. *)
Definition disconnect_output (acc : State * AccumulatorDiff) (p : PointedOutput) :
    Res Error (State * AccumulatorDiff) :=
  let '(s, diff) := acc in
  let diff := AccumulatorDiff_remove (PointedOutput_node_hash p) diff in
  _ ← guard_err (bool_decide (is_Some (utxos s !! pointed_key p))) (NoUtxo (outpoint p));
  Ok (with_txos s (delete (pointed_key p) (utxos s)) (stxos s), diff).

(** Unspend one input. *)
Definition disconnect_input (acc : State * AccumulatorDiff) (i : OutPoint * Hash) :
    Res Error (State * AccumulatorDiff) :=
  let '(s, diff) := acc in
  let '(outpoint, utxo_hash) := i in
  let key := OutPointKey_from outpoint in
  spent_output ← ok_or (stxos s !! key) (NoStxo outpoint);
  Ok (with_txos s (<[key := so_output spent_output]> (utxos s)) (delete key (stxos s)),
      AccumulatorDiff_insert (node_hash utxo_hash) diff).

Definition disconnect_transaction (acc : State * AccumulatorDiff) (tx : Transaction) :
    Res Error (State * AccumulatorDiff) :=
  let '(s, diff) := acc in
  let s := match orchard_bundle tx with
    | Some bundle => with_orchard s (disconnect_orchard (orchard s) bundle)
    | None => s
    end in
  let txid := txid tx in
  acc ← foldR disconnect_output (s, diff) (reverse (pointed_outputs (Regular txid) (outputs tx)));
  foldR disconnect_input acc (reverse (inputs tx)).

Definition disconnect_tip (s : State) (header : Header) (body : Body)
    (prev_accumulator : Accumulator)
    (prev_note_commitments_merkle_frontier : option Frontier) : Res Error State :=
  tip_hash ← ok_or (tip s) NoTip;
  _ ← guard_err (bool_decide (tip_hash = Header_hash header))
        (EInvalidHeader (IH_BlockHash tip_hash (Header_hash header)));
  merkle_root ← map_err EInvalidBody (check_merkle_root header body);
  accumulator ← ok_or (utreexo_accumulator s) Db;
  acc ← foldR disconnect_transaction (s, AccumulatorDiff_default) (reverse (transactions body));
  '(s, diff) ← foldR disconnect_output acc
    (reverse (pointed_outputs (Coinbase merkle_root) (coinbase body)));
  height ← expect (height s);
  s ← match prev_side_hash header with
      | None =>
          if bool_decide (height = 0%Z) then Ok (with_tip_height s None None) else Err NoTip
      | Some prev_side_hash =>
          if bool_decide (height = 0%Z) then Err NoTip
          else Ok (with_tip_height s (Some prev_side_hash) (Some (height - 1)%Z))
      end;
  _ ← ok_or (apply_diff accumulator diff) Utreexo;
  let s := with_accumulator s prev_accumulator in
  let s := match prev_note_commitments_merkle_frontier with
    | Some frontier => with_orchard s (put_frontier (orchard s) frontier)
    | None => s
    end in
  Ok (with_orchard s (delete_historical_root (orchard s) tip_hash).1).
End block.

(** ** Duplicate inputs *)
Section keys.
#[export] Instance input_key_le_trans : Transitive input_key_le.
Proof.
  intros a b c. unfold input_key_le, OutPointKey_cmp.
  set (x := vec_to_list _). set (y := vec_to_list _). set (z := vec_to_list _).
  destruct (bytes_cmp x y) eqn:Hxy; [|intros _|done].
  - by apply bytes_cmp_eq in Hxy as ->.
  - destruct (bytes_cmp y z) eqn:Hyz; [|intros _|done].
    + apply bytes_cmp_eq in Hyz as <-. by rewrite Hxy.
    + by rewrite (bytes_cmp_lt_trans _ _ _ Hxy Hyz).
Qed.

#[export] Instance input_key_le_total : Total input_key_le.
Proof.
  intros a b. unfold input_key_le, OutPointKey_cmp.
  rewrite (bytes_cmp_antisym (vec_to_list (key_bytes a))).
  destruct (bytes_cmp _ _); simpl; auto.
Qed.

Lemma input_key_le_antisym a b : input_key_le a b → input_key_le b a → a = b.
Proof.
  unfold input_key_le, OutPointKey_cmp.
  rewrite (bytes_cmp_antisym (vec_to_list (key_bytes a))).
  destruct (bytes_cmp _ _) eqn:Hc; simpl; intros; try done.
  by apply bytes_cmp_eq, OutPointKey_eq in Hc.
Qed.

Lemma any_adjacent_eq_sorted l :
  StronglySorted input_key_le l → any_adjacent_eq l = false ↔ NoDup l.
Proof.
  induction 1 as [|a l Hl IH Ha]; [by split; [constructor|]|].
  destruct l as [|b l]; [split; [intros _; apply NoDup_singleton|done]|].
  cbn [any_adjacent_eq]. rewrite orb_false_iff, IH, bool_decide_eq_false, (NoDup_cons a).
  split; [|intros [Hn ?]; split; [intros ->; apply Hn; by left|done]].
  intros [Hne Hnd]. split; [|done]. intros [->|Hin]%elem_of_cons; [done|].
  apply Hne, input_key_le_antisym.
  - rewrite Forall_forall in Ha. apply Ha. by left.
  - apply StronglySorted_inv in Hl as [_ Hb]. rewrite Forall_forall in Hb. by apply Hb.
Qed.

Lemma has_duplicate_key_spec l : has_duplicate_key l = false ↔ NoDup l.
Proof.
  unfold has_duplicate_key. rewrite any_adjacent_eq_sorted.
  - by rewrite merge_sort_Permutation.
  - apply StronglySorted_merge_sort; apply _.
Qed.
End keys.

Lemma key_le_trans {A} : Transitive (@key_le A).
Proof. intros a b c. apply input_key_le_trans. Qed.
Lemma key_le_total {A} : Total (@key_le A).
Proof. intros a b. apply input_key_le_total. Qed.

(** ** Spending and creating one output *)
Section steps.
Context `{E : Externals}.

(** No outpoint is both unspent and spent. *)
Definition txos_disjoint (s : State) : Prop := ∀ k o, utxos s !! k = Some o → stxos s !! k = None.

(** The keys [ks] are new to the state, and distinct. *)
Definition fresh_keys (s : State) (ks : list OutPointKey) : Prop :=
  NoDup ks ∧ ∀ k, k ∈ ks → utxos s !! k = None ∧ stxos s !! k = None.

Definition tx_keys (tx : Transaction) : list OutPointKey :=
  pointed_key <$> pointed_outputs (Regular (txid tx)) (outputs tx).
Definition txs_keys (txs : list Transaction) : list OutPointKey := mjoin (tx_keys <$> txs).
Definition new_keys (body : Body) : list OutPointKey :=
  (pointed_key <$> pointed_outputs (Coinbase (compute_merkle_root body)) (coinbase body))
  ++ txs_keys (transactions body).

(** The outputs of the block are new. *)
Definition fresh_block (s : State) (body : Body) : Prop := fresh_keys s (new_keys body).

#[export] Instance Proper_fresh_keys s : Proper ((≡ₚ) ==> iff) (fresh_keys s).
Proof. intros k l Hkl. unfold fresh_keys. by setoid_rewrite Hkl. Qed.

Lemma fresh_keys_cons s k ks :
  fresh_keys s (k :: ks) ↔
    (k ∉ ks) ∧ utxos s !! k = None ∧ stxos s !! k = None ∧ fresh_keys s ks.
Proof. unfold fresh_keys. rewrite NoDup_cons. setoid_rewrite elem_of_cons. naive_solver. Qed.

Lemma fresh_keys_app_l s k1 k2 : fresh_keys s (k1 ++ k2) → fresh_keys s k1.
Proof. unfold fresh_keys. rewrite NoDup_app. setoid_rewrite elem_of_app. naive_solver. Qed.

Lemma with_txos_txos s u x u' x' : with_txos (with_txos s u x) u' x' = with_txos s u' x'.
Proof. done. Qed.
Lemma with_txos_id s : with_txos s (utxos s) (stxos s) = s.
Proof. by destruct s. Qed.
Lemma with_orchard_id s : with_orchard s (orchard s) = s.
Proof. by destruct s. Qed.
Lemma with_orchard_orchard s o o' : with_orchard (with_orchard s o) o' = with_orchard s o'.
Proof. done. Qed.

(** [s] with everything that disconnecting transactions leaves alone taken from
    [base]: tip, height, accumulator, orchard roots, and the mainchain data. *)
Definition graft (base s : State) : State :=
  mk_State (tip base) (height base) (utxos s) (stxos s) (pending_withdrawal_bundle base)
    (latest_failed_withdrawal_bundle base) (withdrawal_bundles base) (deposit_blocks base)
    (withdrawal_bundle_event_blocks base)
    (mk_Orchard (block_hash_to_root (orchard base)) (frontier (orchard base))
       (historical_roots (orchard base)) (nullifiers (orchard s)))
    (utreexo_accumulator base).

(** Spending moves one entry to [stxos]: nothing fresh is touched, and
    unspending restores it. *)
Lemma connect_input_step txid s d i s' d' ks :
  connect_input txid (s, d) i = Ok (s', d') →
  txos_disjoint s → fresh_keys s ks →
  txos_disjoint s' ∧ fresh_keys s' ks ∧
  ∀ base t, t.1 = graft base s' → ∃ t', disconnect_input t i.2 = Ok t' ∧ t'.1 = graft base s.
Proof.
  destruct i as [vin [o h]]. cbn [connect_input snd].
  intros (u & Hu%ok_or_Ok & Hok)%bind_Ok Hd [Hnd Hf]. injection Hok as <- <-.
  set (k := OutPointKey_from o) in *. split_and!.
  - intros k' u'. simpl. rewrite lookup_delete_Some. intros [Hk Hu'].
    rewrite lookup_insert_ne by done. by eapply Hd.
  - split; [done|]. intros k' Hk'. simpl. destruct (Hf k' Hk') as [Hu' Hx'].
    assert (k ≠ k') by congruence. by rewrite lookup_delete_ne, lookup_insert_ne.
  - intros base [s2 d2] Ht. simpl in Ht. subst s2. simpl. fold k.
    rewrite lookup_insert_eq. simpl. eexists. split; [done|].
    unfold with_txos, graft. simpl. rewrite insert_delete_id by done.
    by rewrite delete_insert_id by (by eapply Hd).
Qed.

Lemma connect_output_step s d p ks :
  txos_disjoint s → fresh_keys s (pointed_key p :: ks) →
  txos_disjoint (connect_output (s, d) p).1 ∧ fresh_keys (connect_output (s, d) p).1 ks ∧
  ∀ base t, t.1 = graft base (connect_output (s, d) p).1 →
    ∃ t', disconnect_output t p = Ok t' ∧ t'.1 = graft base s.
Proof.
  intros Hd (Hnotin & Hu & Hx & Hnd & Hf)%fresh_keys_cons. simpl. split_and!.
  - intros k o. simpl. rewrite lookup_insert_Some. intros [[<- _]|[_ Ho]]; [done|by eapply Hd].
  - split; [done|]. intros k Hk. simpl. rewrite lookup_insert_ne by set_solver. by apply Hf.
  - intros base [s2 d2] Ht. simpl in Ht. subst s2. simpl. rewrite lookup_insert_eq.
    rewrite bool_decide_true by by eexists. cbn [guard_err mbind res_bind]. eexists.
    split; [done|]. unfold with_txos, graft. simpl. by rewrite delete_insert_id.
Qed.

(** Only the two output databases change. *)
Lemma connect_input_frame txid s d i s' d' :
  connect_input txid (s, d) i = Ok (s', d') → ∃ u x, s' = with_txos s u x.
Proof.
  destruct i as [vin [o h]]. intros (u & _ & Hok)%bind_Ok. injection Hok as <- <-. eauto.
Qed.

(** *** The loops over the inputs and the outputs of one transaction *)
Lemma indexed_inputs_snd tx : snd <$> indexed_inputs tx = inputs tx.
Proof.
  unfold indexed_inputs. generalize 0 as n || idtac.
  rewrite fmap_imap. unfold compose. simpl. generalize (inputs tx) as l.
  intros l. induction l as [|i l IH]; [done|]. simpl. by f_equal.
Qed.

Lemma connect_inputs_loop txid s d l s' d' ks :
  foldR (connect_input txid) (s, d) l = Ok (s', d') →
  txos_disjoint s → fresh_keys s ks →
  txos_disjoint s' ∧ fresh_keys s' ks ∧ orchard s' = orchard s ∧
  ∀ base t, t.1 = graft base s' →
    ∃ t', foldR disconnect_input t (reverse (snd <$> l)) = Ok t' ∧ t'.1 = graft base s.
Proof.
  intros Hl Hd Hf.
  assert (∀ A (l : list A) (g : A → OutPoint * Hash) t,
    foldR (λ t a, disconnect_input t (g a)) t l = foldR disconnect_input t (g <$> l)) as Hmap.
  { intros A k g. induction k as [|a k IH]; intros t; csimpl; [done|].
    destruct (disconnect_input t (g a)); simpl; [apply IH|done..]. }
  assert (∀ s1 d1 i s2 d2, txos_disjoint s1 ∧ fresh_keys s1 ks ∧ orchard s1 = orchard s →
    connect_input txid (s1, d1) i = Ok (s2, d2) →
    (txos_disjoint s2 ∧ fresh_keys s2 ks ∧ orchard s2 = orchard s) ∧
    ∀ base t, t.1 = graft base s2 →
      ∃ t', disconnect_input t i.2 = Ok t' ∧ t'.1 = graft base s1) as Hstep.
  { intros s1 d1 i s2 d2 (Hd1 & Hf1 & Ho1) Hi.
    destruct (connect_input_step _ _ _ _ _ _ ks Hi Hd1 Hf1) as (? & ? & ?).
    destruct (connect_input_frame _ _ _ _ _ _ Hi) as (u & x & ->). done. }
  assert (txos_disjoint s' ∧ fresh_keys s' ks ∧ orchard s' = orchard s) as (? & ? & ?).
  { refine (foldR_inv (λ s1 _, txos_disjoint s1.1 ∧ fresh_keys s1.1 ks ∧ orchard s1.1 = orchard s)
      (connect_input txid) (s, d) l (s', d') _ (conj Hd (conj Hf eq_refl)) Hl).
    intros [s1 d1] i k [s2 d2] HI Hi. by destruct (Hstep _ _ _ _ _ HI Hi). }
  split_and!; [done..|]. intros base t Ht. rewrite <- fmap_reverse, <- Hmap.
  refine (foldR_undo
    (λ s1 _, txos_disjoint s1.1 ∧ fresh_keys s1.1 ks ∧ orchard s1.1 = orchard s)
    (λ s t, t.1 = graft base s.1) (connect_input txid) _ (s, d) l (s', d') t _
    (conj Hd (conj Hf eq_refl)) Hl Ht).
  intros [s1 d1] i k [s2 d2] HI Hi. destruct (Hstep _ _ _ _ _ HI Hi). eauto.
Qed.

Lemma connect_outputs_loop s d l ks :
  txos_disjoint s → fresh_keys s ((pointed_key <$> l) ++ ks) →
  let s' := (foldl connect_output (s, d) l).1 in
  txos_disjoint s' ∧ fresh_keys s' ks ∧ orchard s' = orchard s ∧
  ∀ base t, t.1 = graft base s' →
    ∃ t', foldR disconnect_output t (reverse l) = Ok t' ∧ t'.1 = graft base s.
Proof.
  intros Hd Hf. cbn zeta.
  pose proof (foldR_pure (E:=Error) connect_output (s, d) l) as Hl.
  set (I s1 k := txos_disjoint s1 ∧ fresh_keys s1 ((pointed_key <$> k) ++ ks)
                 ∧ orchard s1 = orchard s).
  assert (∀ s1 d1 p k, I s1 (p :: k) →
    I (connect_output (s1, d1) p).1 k ∧
    ∀ base t, t.1 = graft base (connect_output (s1, d1) p).1 →
      ∃ t', disconnect_output t p = Ok t' ∧ t'.1 = graft base s1) as Hstep.
  { intros s1 d1 p k (Hd1 & Hf1 & Ho1).
    destruct (connect_output_step s1 d1 p _ Hd1 Hf1) as (? & ? & ?). done. }
  assert (I (foldl connect_output (s, d) l).1 []) as (? & ? & ?).
  { refine (foldR_inv (λ s1 k, I s1.1 k) _ (s, d) l _ _ (conj Hd (conj Hf eq_refl)) Hl).
    intros [s1 d1] p k s2 HI [= <-]. by destruct (Hstep s1 d1 p k HI). }
  split_and!; [done..|]. intros base t Ht.
  refine (foldR_undo (λ s1 k, I s1.1 k) (λ s t, t.1 = graft base s.1) _ _ (s, d) l _ t _
    (conj Hd (conj Hf eq_refl)) Hl Ht).
  intros [s1 d1] p k s2 HI [= <-]. destruct (Hstep s1 d1 p k HI). eauto.
Qed.
End steps.

(** ** The orchard part of a transaction *)
Section orchard_steps.
Context `{E : Externals}.

Lemma put_nullifiers_loop ns o o' :
  foldR (λ o nullifier,
      _ ← guard_err (negb (bool_decide (nullifier ∈ nullifiers o)))
            (NullifierDoubleSpent nullifier);
      Ok (put_nullifier o nullifier)) o ns = Ok o' ↔
    NoDup ns ∧ (∀ n, n ∈ ns → n ∉ nullifiers o) ∧
    o' = mk_Orchard (block_hash_to_root o) (frontier o) (historical_roots o)
           (list_to_set ns ∪ nullifiers o).
Proof.
  revert o. induction ns as [|n ns IH]; intros o; cbn [foldR].
  - rewrite list_to_set_nil. split.
    + intros [= <-]. split_and!; [constructor|set_solver|]. destruct o. f_equal. set_solver.
    + intros (_ & _ & ->). destruct o. do 2 f_equal. simpl. set_solver.
  - rewrite bind_Ok, NoDup_cons. split.
    + intros (o1 & Ho1 & Hl). apply bind_Ok in Ho1 as ([] & Hg%guard_err_Ok & Ho1).
      injection Ho1 as <-. apply negb_true_iff, bool_decide_eq_false in Hg.
      apply IH in Hl as (Hnd & Hf & ->). simpl in *. split_and!.
      * intros Hn. apply (Hf n Hn). set_solver.
      * done.
      * intros m [->|Hm]%elem_of_cons; [done|]. specialize (Hf m Hm). set_solver.
      * f_equal. set_solver.
    + intros ([Hn Hnd] & Hf & ->). exists (put_nullifier o n). split.
      * rewrite bool_decide_false by (apply Hf; by left). done.
      * apply IH. simpl. split_and!; [done| |f_equal; set_solver].
        intros m Hm. specialize (Hf m ltac:(by right)). set_solver.
Qed.

Lemma delete_nullifiers_loop ns o :
  foldl (λ o nullifier, (delete_nullifier o nullifier).1) o ns =
    mk_Orchard (block_hash_to_root o) (frontier o) (historical_roots o)
      (nullifiers o ∖ list_to_set ns).
Proof.
  revert o. induction ns as [|n ns IH]; intros o; simpl.
  - destruct o. f_equal. simpl. set_solver.
  - rewrite IH. simpl. f_equal. set_solver.
Qed.

(** Nullifiers of a bundle are new, distinct and recorded; the recorded
    frontier and roots are not touched. *)
Lemma connect_orchard_Ok o f bundle o' f' :
  connect_orchard o f bundle = Ok (o', f') →
  let ns := action_nullifier <$> bundle_actions bundle in
  NoDup ns ∧ (∀ n, n ∈ ns → n ∉ nullifiers o) ∧
  o' = mk_Orchard (block_hash_to_root o) (frontier o) (historical_roots o)
         (list_to_set ns ∪ nullifiers o) ∧
  ∀ b, disconnect_orchard (mk_Orchard b.1.1 b.1.2 b.2 (nullifiers o')) bundle
       = mk_Orchard b.1.1 b.1.2 b.2 (nullifiers o).
Proof.
  intros (f1 & _ & Hok)%bind_Ok. apply bind_Ok in Hok as (o1 & Hns & Hok).
  injection Hok as <- <-. apply put_nullifiers_loop in Hns as (Hnd & Hf & ->).
  split_and!; [done..|]. intros b. unfold disconnect_orchard.
  rewrite delete_nullifiers_loop. simpl. f_equal. set_solver.
Qed.

Definition bundle_nullifiers (tx : Transaction) : list Nullifier :=
  match orchard_bundle tx with
  | Some b => action_nullifier <$> bundle_actions b
  | None => []
  end.

Lemma connect_orchard_opt_Ok o f tx o' f' :
  connect_orchard_opt o f (orchard_bundle tx) = Ok (o', f') →
  NoDup (bundle_nullifiers tx) ∧ (∀ n, n ∈ bundle_nullifiers tx → n ∉ nullifiers o) ∧
  o' = mk_Orchard (block_hash_to_root o) (frontier o) (historical_roots o)
         (list_to_set (bundle_nullifiers tx) ∪ nullifiers o) ∧
  ∀ b, match orchard_bundle tx with
       | Some bundle => disconnect_orchard (mk_Orchard b.1.1 b.1.2 b.2 (nullifiers o')) bundle
       | None => mk_Orchard b.1.1 b.1.2 b.2 (nullifiers o')
       end = mk_Orchard b.1.1 b.1.2 b.2 (nullifiers o).
Proof.
  unfold connect_orchard_opt, bundle_nullifiers.
  destruct (orchard_bundle tx) as [b|]; [apply connect_orchard_Ok|].
  intros [= <- <-]. split_and!; [constructor|set_solver| |done].
  destruct o. f_equal. simpl. set_solver.
Qed.

(** ** One transaction *)
Lemma connect_transaction_Ok s d f tx s' d' f' :
  connect_transaction (s, d, f) tx = Ok (s', d', f') →
  ∃ s1 d1 o,
    foldR (connect_input (txid tx)) (s, d) (indexed_inputs tx) = Ok (s1, d1) ∧
    connect_orchard_opt (orchard (foldl connect_output (s1, d1)
      (pointed_outputs (Regular (txid tx)) (outputs tx))).1) f (orchard_bundle tx) = Ok (o, f') ∧
    s' = with_orchard (foldl connect_output (s1, d1)
      (pointed_outputs (Regular (txid tx)) (outputs tx))).1 o ∧
    d' = (foldl connect_output (s1, d1)
      (pointed_outputs (Regular (txid tx)) (outputs tx))).2.
Proof.
  cbn [connect_transaction]. intros ([s1 d1] & Hin & Hok)%bind_Ok.
  destruct (foldl connect_output (s1, d1) _) as [s2 d2] eqn:Hout.
  apply bind_Ok in Hok as ([o f1] & Ho%map_err_Ok & Hok). injection Hok as <- <- <-.
  exists s1, d1, o. by rewrite Hout.
Qed.

Lemma connect_transaction_step s d f tx s' d' f' ks :
  connect_transaction (s, d, f) tx = Ok (s', d', f') →
  txos_disjoint s → fresh_keys s (tx_keys tx ++ ks) →
  txos_disjoint s' ∧ fresh_keys s' ks ∧
  ∀ base t, t.1 = graft base s' →
    ∃ t', disconnect_transaction t tx = Ok t' ∧ t'.1 = graft base s.
Proof.
  intros (s1 & d1 & o & Hin & Ho & -> & ->)%connect_transaction_Ok Hd Hf.
  destruct (connect_inputs_loop _ _ _ _ _ _ _ Hin Hd Hf) as (Hd1 & Hf1 & Ho1 & Hundo1).
  destruct (connect_outputs_loop s1 d1 _ ks Hd1 Hf1) as (Hd2 & Hf2 & Ho2 & Hundo2).
  destruct (foldl connect_output (s1, d1) _) as [s2 d2]; simpl in *.
  apply connect_orchard_opt_Ok in Ho as (_ & _ & _ & Hundo).
  split_and!; [done..|]. intros base [t dt] Ht. simpl in Ht. subst t.
  unfold disconnect_transaction.
  destruct (Hundo2 base (graft base s2, dt) eq_refl) as (t1 & Ht1 & Hs1).
  destruct (Hundo1 base t1 Hs1) as (t2 & Ht2 & Hs2).
  rewrite indexed_inputs_snd in Ht2. exists t2. split; [|done].
  assert (match orchard_bundle tx with
      | Some bundle => with_orchard (graft base (with_orchard s2 o))
          (disconnect_orchard (orchard (graft base (with_orchard s2 o))) bundle)
      | None => graft base (with_orchard s2 o) end = graft base s2) as ->.
  { specialize (Hundo (block_hash_to_root (orchard base), frontier (orchard base),
      historical_roots (orchard base))).
    unfold graft, with_orchard in *. simpl in *.
    destruct (orchard_bundle tx); simpl; by rewrite Hundo. }
  rewrite Ht1. cbn [mbind res_bind]. exact Ht2.
Qed.

(** ** The transactions of a block *)
Definition connect_txs (s : State) (d : AccumulatorDiff) (f : Frontier)
    (txs : list Transaction) : Res ConnectBlockError (State * AccumulatorDiff * Frontier) :=
  foldR (λ acc tx, map_err (CB_ConnectTransaction (txid tx)) (connect_transaction acc tx))
    (s, d, f) txs.

Lemma connect_txs_loop s d f txs s' d' f' :
  connect_txs s d f txs = Ok (s', d', f') →
  txos_disjoint s → fresh_keys s (txs_keys txs) →
  txos_disjoint s' ∧
  ∀ base t, t.1 = graft base s' →
    ∃ t', foldR disconnect_transaction t (reverse txs) = Ok t' ∧ t'.1 = graft base s.
Proof.
  intros Hl Hd Hf.
  set (I (s1 : State * AccumulatorDiff * Frontier) k :=
    txos_disjoint s1.1.1 ∧ fresh_keys s1.1.1 (txs_keys k)).
  assert (∀ s1 tx k s2, I s1 (tx :: k) →
    map_err (CB_ConnectTransaction (txid tx)) (connect_transaction s1 tx) = Ok s2 →
    I s2 k ∧ ∀ base t, t.1 = graft base s2.1.1 →
      ∃ t', disconnect_transaction t tx = Ok t' ∧ t'.1 = graft base s1.1.1) as Hstep.
  { intros [[s1 d1] f1] tx k [[s2 d2] f2] [Hd1 Hf1] Htx%map_err_Ok.
    destruct (connect_transaction_step _ _ _ _ _ _ _ (txs_keys k) Htx Hd1 Hf1)
      as (? & ? & ?). done. }
  split.
  - refine (proj1 (foldR_inv I _ (s, d, f) txs (s', d', f') _ (conj Hd Hf) Hl)).
    intros s1 tx k s2 HI Htx. by destruct (Hstep _ _ _ _ HI Htx).
  - intros base t Ht.
    refine (foldR_undo I (λ s t, t.1 = graft base s.1.1) _ disconnect_transaction (s, d, f) txs
      (s', d', f') t _ (conj Hd Hf) Hl Ht).
    intros s1 tx k s2 HI Htx. destruct (Hstep _ _ _ _ HI Htx). eauto.
Qed.
End orchard_steps.

(** ** The whole block *)
Section whole_block.
Context `{E : Externals}.

Lemma connect_outputs_frame base s d ps :
  graft base s = s →
  graft base (foldl connect_output (s, d) ps).1 = (foldl connect_output (s, d) ps).1.
Proof.
  revert s d. induction ps as [|p ps IH]; intros s d Hb; [done|].
  apply IH. simpl. exact (f_equal (λ s', with_txos s' _ (stxos s)) Hb).
Qed.

Lemma connect_txs_frame base s d f txs s' d' f' :
  connect_txs s d f txs = Ok (s', d', f') → graft base s = s → graft base s' = s'.
Proof.
  intros Hl Hb.
  refine (foldR_inv (λ s1 _, graft base s1.1.1 = s1.1.1) _ (s, d, f) txs (s', d', f') _ Hb Hl).
  intros [[s1 d1] f1] tx k [[s2 d2] f2] Hb1 Htx%map_err_Ok. simpl in *.
  apply connect_transaction_Ok in Htx as (s3 & d3 & o & Hin & Ho & -> & ->).
  assert (graft base s3 = s3) as Hb3.
  { refine (foldR_inv (λ s1 _, graft base s1.1 = s1.1) (connect_input (txid tx)) (s1, d1)
      (indexed_inputs tx) (s3, d3) _ Hb1 Hin).
    intros [s4 d4] i l [s5 d5] Hb4 (u & x & ->)%connect_input_frame.
    exact (f_equal (λ s, with_txos s u x) Hb4). }
  set (ps := pointed_outputs _ _) in *.
  pose proof (connect_outputs_frame base s3 d3 ps Hb3) as Hb4.
  apply connect_orchard_opt_Ok in Ho as (_ & _ & -> & _).
  destruct (foldl connect_output (s3, d3) ps) as [s4 d4]. simpl in *.
  rewrite <- Hb4. done.
Qed.

Lemma graft_self s : graft s s = s.
Proof. unfold graft. by destruct s as [? ? ? ? ? ? ? ? ? [] ?]. Qed.

Lemma check_merkle_root_ok h b :
  compute_merkle_root b = merkle_root h → check_merkle_root h b = Ok (compute_merkle_root b).
Proof. intros Hr. unfold check_merkle_root. simpl. by rewrite bool_decide_true. Qed.

(** [connect], as the two loops and the end. *)
Lemma connect_Ok s h b s' fr :
  connect s h b = Ok (s', fr) →
  ∃ acc f0 s2 d2 f2,
    prev_side_hash h = tip s ∧ compute_merkle_root b = merkle_root h
    ∧ utreexo_accumulator s = Some acc ∧ frontier (orchard s) = Some f0
    ∧ (let '(s1, d1) := foldl connect_output (s, AccumulatorDiff_default)
         (pointed_outputs (Coinbase (compute_merkle_root b)) (coinbase b)) in
       connect_txs s1 d1 f0 (transactions b) = Ok (s2, d2, f2))
    ∧ finish_connect s2 h (next_block_height s2) acc d2 f2 = Ok (s', fr).
Proof.
  unfold connect, check_prev_side_hash, check_merkle_root.
  intros ([] & Hp%map_err_Ok%guard_err_Ok%bool_decide_eq_true & Hok)%bind_Ok.
  apply bind_Ok in Hok as (root & Hr%map_err_Ok & Hok).
  apply bind_Ok in Hr as ([] & Hm%guard_err_Ok%bool_decide_eq_true & Hr). injection Hr as <-.
  apply bind_Ok in Hok as (acc & Ha%ok_or_Ok & Hok).
  apply bind_Ok in Hok as (f0 & Hf%ok_or_Ok & Hok).
  destruct (foldl connect_output _ _) as [s1 d1] eqn:Hc.
  apply bind_Ok in Hok as ([[s2 d2] f2] & Htxs & Hok).
  exists acc, f0, s2, d2, f2. done.
Qed.

Lemma finish_connect_Ok s h ht acc d f s' fr :
  finish_connect s h ht acc d f = Ok (s', fr) →
  ∃ acc', apply_diff acc d = Some acc' ∧
    let p := put_historical_root (put_frontier (orchard s) f) (Header_hash h) (frontier_root f) in
    s' = with_orchard (with_accumulator (with_tip_height s (Some (Header_hash h)) (Some ht)) acc') p.1
    ∧ fr = (if p.2 then Some f else None).
Proof.
  unfold finish_connect. intros (acc' & Ha%ok_or_Ok & Hok)%bind_Ok. exists acc'.
  simpl in Hok. destruct (put_historical_root _ _ _) as [o c]. by injection Hok as <- <-.
Qed.

(** Tip and height are set together, and the next height does not wrap. *)
Definition tip_height_ok (s : State) : Prop :=
  match tip s, height s with
  | None, None => True
  | Some _, Some h => (0 ≤ h < u32_max)%Z
  | _, _ => False
  end.

(** The frontier the archive hands back: the one before the block, or nothing
    when the block did not change it. *)
Definition prev_frontier_ok (s s' : State) (pf : option Frontier) : Prop :=
  pf = frontier (orchard s) ∨ (pf = None ∧ frontier (orchard s') = frontier (orchard s)).

Lemma delete_historical_root_put_frontier o f b :
  (delete_historical_root (put_frontier o f) b).1 = put_frontier (delete_historical_root o b).1 f.
Proof. unfold delete_historical_root. simpl. by destruct (block_hash_to_root o !! Some b). Qed.

Lemma delete_historical_root_put o f b r :
  block_hash_to_root o !! Some b = None →
  (delete_historical_root (put_historical_root (put_frontier o f) b r).1 b).1 = put_frontier o f.
Proof. intros. by rewrite delete_put_historical_root. Qed.

Lemma with_accumulator_id s acc : utreexo_accumulator s = Some acc → with_accumulator s acc = s.
Proof. destruct s. simpl. by intros ->. Qed.

(** [accx]: the events connected after the block may have changed the
    accumulator. *)
Lemma disconnect_connect s h b s' fr acc pf accx :
  connect s h b = Ok (s', fr) →
  txos_disjoint s → fresh_block s b → tip_height_ok s →
  block_hash_to_root (orchard s) !! Some (Header_hash h) = None →
  utreexo_accumulator s = Some acc → prev_frontier_ok s s' pf →
  disconnect_tip (with_accumulator s' accx) h b acc pf = Ok s
  ∨ disconnect_tip (with_accumulator s' accx) h b acc pf = Err Utreexo.
Proof.
  intros (acc0 & f0 & s2 & d2 & f2 & Hprev & Hroot & Hacc0 & Hf0 & Hloops & Hfin)%connect_Ok
    Hd Hfresh Hth Hbh Hacc Hpf.
  rewrite Hacc in Hacc0. injection Hacc0 as <-.
  destruct (connect_outputs_loop s AccumulatorDiff_default _ (txs_keys (transactions b)) Hd Hfresh)
    as (Hd1 & Hf1 & Ho1 & Hundo1).
  pose proof (connect_outputs_frame s s AccumulatorDiff_default
    (pointed_outputs (Coinbase (compute_merkle_root b)) (coinbase b)) (graft_self s)) as Hg1.
  destruct (foldl connect_output _ _) as [s1 d1] eqn:Hs1. cbn [fst] in *.
  destruct (connect_txs_loop _ _ _ _ _ _ _ Hloops Hd1 Hf1) as (Hd2 & Hundo2).
  pose proof (connect_txs_frame s _ _ _ _ _ _ _ Hloops Hg1) as Hg2.
  apply finish_connect_Ok in Hfin as (acc' & Hacc' & Hs' & Hfr).
  set (p := put_historical_root _ _ _) in *.
  assert (graft s' s2 = s') as Hgs'.
  { subst s'. unfold graft, with_orchard. simpl. f_equal.
    assert (nullifiers p.1 = nullifiers (orchard s2)) as <-.
    { unfold p, put_historical_root. by destruct (historical_roots _ !! _). }
    by destruct p as [[] c]. }
  set (sx := with_accumulator s' accx).
  assert (graft sx s2 = sx) as Hgx by (unfold sx; by rewrite <- Hgs' at 2).
  destruct (Hundo2 sx (sx, AccumulatorDiff_default) (eq_sym Hgx)) as ([t2 e2] & Ht2 & Hr2).
  simpl in Hr2.
  destruct (Hundo1 sx (t2, e2) Hr2) as ([t1 e1] & Ht1 & Hr1). simpl in Hr1. subst t1.
  assert (tip s' = Some (Header_hash h)) as Htip by (by subst s').
  assert (utreexo_accumulator sx = Some accx) as Hacc2 by done.
  assert (height s' = Some (next_block_height s)) as Hht.
  { subst s'. simpl. f_equal. rewrite <- Hg2. done. }
  unfold disconnect_tip. rewrite (check_merkle_root_ok _ _ Hroot). change (tip sx) with (tip s'). rewrite Htip. cbn [ok_or mbind res_bind]. rewrite bool_decide_true by done.
  cbn [guard_err mbind res_bind]. cbn [map_err mbind res_bind].
  rewrite Hacc2. cbn [ok_or mbind res_bind].
  rewrite Ht2. cbn [mbind res_bind]. rewrite Ht1. cbn [mbind res_bind].
  change (height (graft sx s)) with (height s'). rewrite Hht. cbn [expect mbind res_bind].
  assert (∀ k, (match prev_side_hash h with
      | None => if bool_decide (next_block_height s = 0%Z)
                then Ok (with_tip_height (graft sx s) None None) else Err NoTip
      | Some prev_side_hash =>
          if bool_decide (next_block_height s = 0%Z) then Err NoTip
          else Ok (with_tip_height (graft sx s) (Some prev_side_hash)
                 (Some (next_block_height s - 1)%Z))
      end ≫= k) = k (with_tip_height (graft sx s) (tip s) (height s))
      :> Res Error State) as Hcase.
  { intros k. rewrite Hprev. unfold tip_height_ok, next_block_height in *.
    destruct (tip s) as [t|], (height s) as [ht|]; try done.
    unfold u32_max in Hth. unfold wrap32. rewrite Z.mod_small by lia.
    rewrite bool_decide_false by lia. cbn [mbind res_bind]. do 3 f_equal. lia. }
  rewrite Hcase. clear Hcase.
  destruct (apply_diff accx e1) as [acc2|]; [left|by right]. cbn [ok_or mbind res_bind].
  f_equal.
  assert (orchard s' = p.1) as Hos' by (by subst s').
  assert ((delete_historical_root p.1 (Header_hash h)).1 = put_frontier (orchard s2) f2) as Hdel.
  { unfold p. rewrite delete_put_historical_root; [done|]. rewrite <- Hg2. exact Hbh. }
  assert (∀ o f, (delete_historical_root (mk_Orchard (block_hash_to_root p.1) f
      (historical_roots p.1) (nullifiers o)) (Header_hash h)).1
    = mk_Orchard (block_hash_to_root (orchard s)) f (historical_roots (orchard s))
        (nullifiers o)) as Hfinal.
  { intros o f. rewrite <- Hg2 in Hdel. unfold delete_historical_root in *. simpl in *.
    destruct (block_hash_to_root p.1 !! _); simpl in *;
      [injection Hdel as Hb1 _ Hh1|rewrite Hdel]; unfold put_frontier; simpl;
      by rewrite ?Hb1, ?Hh1. }
  destruct Hpf as [-> | [-> Hsame]].
  - rewrite Hf0. unfold with_orchard, with_accumulator, with_tip_height, graft. simpl.
    rewrite Hos'. unfold put_frontier. simpl. rewrite Hfinal.
    subst s'. rewrite <- Hg2. simpl. rewrite <- Hf0, <- Hacc. by destruct s as [? ? ? ? ? ? ? ? ? [] ?].
  - unfold with_orchard, with_accumulator, with_tip_height, graft. simpl.
    rewrite Hos', Hfinal. rewrite Hos' in Hsame. rewrite Hsame.
    subst s'. rewrite <- Hg2. simpl. rewrite <- Hacc. by destruct s as [? ? ? ? ? ? ? ? ? [] ?].
Qed.
End whole_block.

(** ** The two-phase connection agrees with the direct one *)
Section put_delete.
Context {A : Type}.
Implicit Types (m : gmap OutPointKey A) (l : list (OutPointKey * A)).

Definition puts m l : gmap OutPointKey A := foldl (λ m '(k, v), <[k := v]> m) m l.
Definition deletes m (ks : list OutPointKey) : gmap OutPointKey A :=
  foldl (λ m k, delete k m) m ks.

Lemma puts_union m l : NoDup l.*1 → puts m l = list_to_map l ∪ m.
Proof.
  revert m. induction l as [|[k v] l IH]; intros m Hnd; csimpl in *.
  - by rewrite (left_id_L ∅ (∪)).
  - apply NoDup_cons in Hnd as [Hk Hnd]. unfold puts in *. simpl. rewrite IH by done.
    rewrite <- insert_union_r by (by apply not_elem_of_list_to_map).
    by rewrite insert_union_l.
Qed.

Lemma puts_perm m l l' : NoDup l.*1 → l ≡ₚ l' → puts m l = puts m l'.
Proof.
  intros Hnd Hp. rewrite !puts_union; [by rewrite (list_to_map_proper l l')|by rewrite <- Hp|done].
Qed.

Lemma lookup_deletes m ks k : deletes m ks !! k = if decide (k ∈ ks) then None else m !! k.
Proof.
  revert m. induction ks as [|k' ks IH]; intros m; cbn [deletes foldl].
  - rewrite decide_False; [done|set_solver].
  - change (foldl (λ m k, delete k m) (delete k' m) ks) with (deletes (delete k' m) ks).
    rewrite IH. destruct (decide (k ∈ ks)), (decide (k ∈ k' :: ks)); try done; [set_solver| |].
    + assert (k = k') as -> by set_solver. by rewrite lookup_delete_eq.
    + rewrite lookup_delete_ne; [done|set_solver].
Qed.

Lemma deletes_perm m ks ks' : ks ≡ₚ ks' → deletes m ks = deletes m ks'.
Proof.
  intros Hp. apply map_eq. intros k. rewrite !lookup_deletes.
  destruct (decide (k ∈ ks)) as [Hk|Hk], (decide (k ∈ ks')); try done; by rewrite Hp in Hk.
Qed.

Lemma lookup_puts_ne m l k : k ∉ l.*1 → puts m l !! k = m !! k.
Proof.
  revert m. induction l as [|[k' v] l IH]; intros m Hk; csimpl in *; [done|].
  unfold puts in *. simpl. rewrite IH by set_solver. rewrite lookup_insert_ne; set_solver.
Qed.

Lemma delete_puts m l k : k ∉ l.*1 → delete k (puts m l) = puts (delete k m) l.
Proof.
  revert m. induction l as [|[k' v] l IH]; intros m Hk; csimpl in *; [done|].
  unfold puts in *. simpl. rewrite IH by set_solver.
  by rewrite delete_insert_ne by set_solver.
Qed.

Lemma puts_snoc m l k v : puts m (l ++ [(k, v)]) = <[k := v]> (puts m l).
Proof. unfold puts. by rewrite foldl_app. Qed.
Lemma puts_app m l l' : puts m (l ++ l') = puts (puts m l) l'.
Proof. unfold puts. by rewrite foldl_app. Qed.
Lemma deletes_snoc m ks k : deletes m (ks ++ [k]) = delete k (deletes m ks).
Proof. unfold deletes. by rewrite foldl_app. Qed.
End put_delete.

Section two_phase.
Context `{E : Externals}.

(** The mutations applied in the order they were collected. *)
Definition apply_unsorted (s : State) (m : Mutations) : State :=
  with_txos s (puts (deletes (utxos s) (utxo_deletes m)) (utxo_puts m))
    (puts (stxos s) (stxo_puts m)).

Lemma apply_mutations_unsorted s m :
  NoDup (stxo_puts m).*1 → NoDup (utxo_puts m).*1 →
  apply_mutations s m = apply_unsorted s m.
Proof.
  intros Hx Hu. unfold apply_mutations, apply_unsorted. f_equal.
  - fold (deletes (utxos s) (merge_sort input_key_le (utxo_deletes m))).
    rewrite (deletes_perm _ _ (utxo_deletes m)) by apply merge_sort_Permutation.
    apply puts_perm; [by rewrite merge_sort_Permutation|apply merge_sort_Permutation].
  - apply puts_perm; [by rewrite merge_sort_Permutation|apply merge_sort_Permutation].
Qed.

Definition output_puts (ps : list PointedOutput) : list (OutPointKey * Output) :=
  (λ p, (pointed_key p, output p)) <$> ps.

Lemma output_puts_keys ps : (output_puts ps).*1 = pointed_key <$> ps.
Proof. unfold output_puts. by rewrite <- list_fmap_compose. Qed.

Definition diff_inserts (d : AccumulatorDiff) (ps : list PointedOutput) : AccumulatorDiff :=
  foldl (λ d p, AccumulatorDiff_insert (PointedOutput_node_hash p) d) d ps.

Lemma connect_outputs_eq s d ps :
  foldl connect_output (s, d) ps =
    (with_txos s (puts (utxos s) (output_puts ps)) (stxos s), diff_inserts d ps).
Proof.
  revert s d. induction ps as [|p ps IH]; intros s d; simpl.
  - by rewrite with_txos_id.
  - rewrite IH. done.
Qed.

(** What a transaction does to the diff. *)
Definition diff_tx (d : AccumulatorDiff) (tx : Transaction) : AccumulatorDiff :=
  diff_create (txid tx) tx (diff_spend tx d).

Definition input_keys (l : list (OutPoint * Hash)) : list OutPointKey :=
  (λ i, OutPointKey_from i.1) <$> l.

(** Invariant of the collected mutations against the state they start from. *)
Definition mutations_ok (s : State) (m : Mutations) (todo_spend todo_create : list OutPointKey) :
    Prop :=
  (stxo_puts m).*1 = utxo_deletes m
  ∧ NoDup (utxo_deletes m ++ todo_spend)
  ∧ NoDup ((utxo_puts m).*1 ++ todo_create)
  ∧ (∀ k, k ∈ (utxo_puts m).*1 ++ todo_create → utxos s !! k = None).

Lemma inputs_agree s id t o ks kc l n pre k m d :
  spent_utxos t = pre ++ k → length pre = n →
  Forall2 (λ i u, utxos s !! OutPointKey_from i.1 = Some u) l k →
  mutations_ok s m (input_keys l ++ ks) kc →
  ∃ m',
    foldR (collect_input id t) m (imap (λ vin i, (n + vin, i)) l) = Ok m'
    ∧ foldR (connect_input id) (with_orchard (apply_unsorted s m) o, d)
        (imap (λ vin i, (n + vin, i)) l)
      = Ok (with_orchard (apply_unsorted s m') o,
            foldl (λ d i, AccumulatorDiff_remove (node_hash i.2) d) d l)
    ∧ mutations_ok s m' ks kc ∧ utxo_puts m' = utxo_puts m.
Proof.
  intros Hspent Hpre Hl. revert n pre m d Hspent Hpre.
  induction Hl as [|[op h] u l k Hu Hl IH]; intros n pre m d Hspent Hpre Hm; [by exists m|].
  cbn [imap foldR]. rewrite Nat.add_0_r. simpl in Hu.
  destruct Hm as (Hx & Hdel & Hput & Hnew).
  set (key := OutPointKey_from op) in *.
  assert (key ∉ utxo_deletes m) as Hk1.
  { apply NoDup_app in Hdel as (_ & Hdisj & _). intros Hin. apply (Hdisj key Hin).
    csimpl. by left. }
  assert (key ∉ (utxo_puts m).*1) as Hk2.
  { intros Hin. rewrite Hnew in Hu; [done|]. apply elem_of_app. by left. }
  set (m1 := mk_Mutations (utxo_deletes m ++ [key])
    (stxo_puts m ++ [(key, spent_by id n u)]) (utxo_puts m)).
  assert (collect_input id t m (n, (op, h)) = Ok m1) as ->.
  { simpl. rewrite Hspent, lookup_app_r, Hpre, Nat.sub_diag by lia. done. }
  assert (connect_input id (with_orchard (apply_unsorted s m) o, d) (n, (op, h))
    = Ok (with_orchard (apply_unsorted s m1) o, AccumulatorDiff_remove (node_hash h) d)) as ->.
  { simpl. fold key. rewrite lookup_puts_ne, lookup_deletes, decide_False, Hu by done.
    cbn [ok_or mbind res_bind]. do 2 f_equal.
    unfold apply_unsorted, with_orchard, with_txos. simpl.
    by rewrite delete_puts, deletes_snoc, puts_snoc by done. }
  cbn [mbind res_bind foldl snd].
  destruct (IH (S n) (pre ++ [u]) m1 (AccumulatorDiff_remove (node_hash h) d))
    as (m' & Hc & Hi & Hok & Hp).
  - by rewrite Hspent, <- app_assoc.
  - rewrite length_app. simpl. lia.
  - split_and!; [|simpl..|done|done].
    + simpl. rewrite fmap_app, Hx. done.
    + rewrite <- app_assoc. exact Hdel.
  - exists m'. split_and!; [| |done|done].
    + rewrite <- Hc. f_equal. apply imap_ext. intros j x _. simpl. f_equal. lia.
    + rewrite <- Hi. f_equal. apply imap_ext. intros j x _. simpl. f_equal. lia.
Qed.

(** *** The loops over the transactions, in step *)
Definition filled_from (s : State) (t : FilledTransaction) : Prop :=
  Forall2 (λ i u, utxos s !! OutPointKey_from i.1 = Some u) (inputs (transaction t)) (spent_utxos t).

Definition agree (s : State) (dfinal : AccumulatorDiff)
    (x : Mutations * Orchard * Frontier) (y : State * AccumulatorDiff * Frontier)
    (ts : list FilledTransaction) (txs : list Transaction) : Prop :=
  transaction <$> ts = txs ∧ Forall (filled_from s) ts
  ∧ x.2 = y.2 ∧ y.1.1 = with_orchard (apply_unsorted s x.1.1) x.1.2
  ∧ foldl diff_tx y.1.2 txs = dfinal
  ∧ mutations_ok s x.1.1 (all_input_keys ts) (txs_keys txs).

Lemma agree_step s dfinal x y t tx ts txs :
  agree s dfinal x y (t :: ts) (tx :: txs) →
  res_rel (λ x' y', agree s dfinal x' y' ts txs) (collect_transaction x t)
    (map_err (CB_ConnectTransaction (txid tx)) (connect_transaction y tx)).
Proof.
  destruct x as [[m o] f], y as [[s1 d] f']. intros (Htxs & Hfill & Hf & Hs1 & Hd & Hm).
  csimpl in Htxs. injection Htxs as <- <-. apply Forall_cons in Hfill as [Ht Hfill].
  cbn [fst snd] in *. subst f' s1.
  change (all_input_keys (t :: ts)) with (input_keys (inputs (transaction t)) ++ all_input_keys ts)
    in Hm.
  destruct (inputs_agree s (txid (transaction t)) t o _ _ _ 0 [] _ m d eq_refl eq_refl Ht Hm)
    as (m1 & Hc & Hi & Hm1 & Hp). cbn [Nat.add] in Hc, Hi.
  unfold collect_transaction, connect_transaction. unfold indexed_inputs.
  rewrite Hc, Hi. cbn [mbind res_bind map_err]. rewrite connect_outputs_eq.
  cbn [orchard with_orchard with_txos].
  fold (output_puts (pointed_outputs (Regular (txid (transaction t))) (outputs (transaction t)))).
  set (ps := pointed_outputs _ _).
  destruct (connect_orchard_opt o f (orchard_bundle (transaction t))) as [[o' f']|e|];
    cbn [mbind res_bind map_err res_rel]; [|done|done].
  split_and!; try done.
  - simpl. unfold apply_unsorted, with_orchard, with_txos. simpl. by rewrite puts_app.
  - destruct Hm1 as (Hx & Hdel & Hput & Hnew).
    assert ((utxo_puts m1 ++ output_puts ps).*1 ++ txs_keys (transaction <$> ts)
      = (utxo_puts m1).*1 ++ txs_keys (transaction t :: (transaction <$> ts))) as Hkeys.
    { rewrite fmap_app, output_puts_keys, <- app_assoc. done. }
    unfold mutations_ok. cbn [utxo_deletes stxo_puts utxo_puts fst snd].
    rewrite Hkeys. done.
Qed.

Lemma validate_coinbase_diff root outs d v d' :
  validate_coinbase root outs d = Ok (v, d') →
  d' = diff_inserts d (pointed_outputs (Coinbase root) outs).
Proof.
  unfold validate_coinbase, diff_inserts. generalize (pointed_outputs (Coinbase root) outs) as ps.
  generalize 0%Z as z. intros z ps. revert z d. induction ps as [|p ps IH]; intros z d; simpl.
  - by intros [= <- <-].
  - intros ([z1 d1] & Hp & Hl)%bind_Ok. apply bind_Ok in Hp as (z2 & _ & Hp).
    injection Hp as <- <-. by eapply IH.
Qed.

Lemma validate_body_transactions_diff s acc z d ts z' d' :
  foldR (validate_body_transaction s acc) (z, d) ts = Ok (z', d') →
  d' = foldl diff_tx d (transaction <$> ts).
Proof.
  revert z d. induction ts as [|t ts IH]; intros z d; simpl.
  - by intros [= <- <-].
  - intros ([z1 d1] & Ht & Hl)%bind_Ok. apply bind_Ok in Ht as ([] & _ & Ht).
    apply bind_Ok in Ht as (fee & _ & Ht). apply bind_Ok in Ht as (z2 & _ & Ht).
    apply bind_Ok in Ht as (ok & _ & Ht). apply bind_Ok in Ht as ([] & _ & Ht).
    injection Ht as <- <-. by eapply IH.
Qed.

(** Everything a successful [prevalidate] has checked. *)
Lemma prevalidate_Ok s h b p :
  prevalidate s h b = Ok p →
  ∃ acc d0 acc',
    prev_side_hash h = tip s ∧ compute_merkle_root b = merkle_root h
    ∧ (zlen (body_authorizations b) ≤ body_sigops_limit (next_block_height s))%Z
    ∧ (zlen (borsh b) ≤ body_size_limit (next_block_height s))%Z
    ∧ utreexo_accumulator s = Some acc
    ∧ validate_coinbase (compute_merkle_root b) (coinbase b) AccumulatorDiff_default
      = Ok (coinbase_value p, d0)
    ∧ Forall2 (λ tx t, fill_transaction s tx = Ok t) (transactions b) (filled_transactions p)
    ∧ NoDup (all_input_keys (filled_transactions p))
    ∧ foldR (validate_body_transaction s acc) (0%Z, d0) (filled_transactions p)
      = Ok (total_fees p, accumulator_diff p)
    ∧ (coinbase_value p ≤ total_fees p)%Z
    ∧ check_addresses (body_authorizations b) (mjoin (spent_utxos <$> filled_transactions p)) = Ok tt
    ∧ verify_authorizations b = Ok tt
    ∧ apply_diff acc (accumulator_diff p) = Some acc' ∧ get_roots acc' = roots h
    ∧ computed_merkle_root p = compute_merkle_root b ∧ next_height p = next_block_height s.
Proof.
  unfold prevalidate. intros ([] & Hp%map_err_Ok%guard_err_Ok%bool_decide_eq_true & Hok)%bind_Ok.
  apply bind_Ok in Hok as ([] & Hso%guard_err_Ok & Hok).
  apply bind_Ok in Hok as ([] & Hsz%guard_err_Ok & Hok).
  apply bind_Ok in Hok as (acc & Hacc%ok_or_Ok & Hok).
  apply bind_Ok in Hok as (root & Hr%map_err_Ok & Hok).
  apply bind_Ok in Hr as ([] & Hm%guard_err_Ok%bool_decide_eq_true & Hr). injection Hr as <-.
  apply bind_Ok in Hok as ([cb d0] & Hcb & Hok).
  apply bind_Ok in Hok as (ts & Hfill%mapR_Ok & Hok).
  apply bind_Ok in Hok as ([] & Hdup%guard_err_Ok & Hok).
  apply bind_Ok in Hok as ([fees d1] & Hloop & Hok).
  apply bind_Ok in Hok as ([] & Hfees%guard_err_Ok & Hok).
  apply bind_Ok in Hok as ([] & Haddr & Hok).
  apply bind_Ok in Hok as ([] & Hauth%map_err_Ok & Hok).
  apply bind_Ok in Hok as (acc' & Hdiff%ok_or_Ok & Hok).
  apply bind_Ok in Hok as ([] & Hroots%guard_err_Ok%bool_decide_eq_true & Hok).
  injection Hok as <-. exists acc, d0, acc'.
  cbn [filled_transactions computed_merkle_root total_fees coinbase_value next_height
    accumulator_diff].
  apply negb_true_iff in Hso, Hsz, Hdup, Hfees. apply has_duplicate_key_spec in Hdup.
  split_and!; try done; lia.
Qed.

Lemma prevalidate_connect_agree s h b p :
  prevalidate s h b = Ok p →
  NoDup (new_keys b) → (∀ k, k ∈ new_keys b → utxos s !! k = None) →
  connect_prevalidated s h b p = connect s h b.
Proof.
  intros (acc & d0 & acc' & Hprev & Hroot & _ & _ & Hacc & Hcb & Hfill & Hnd & Hloop & _ & _ & _
    & _ & _ & Hr & Hh)%prevalidate_Ok Hnew Hfresh.
  unfold connect_prevalidated, connect, check_prev_side_hash.
  rewrite (check_merkle_root_ok _ _ Hroot), (bool_decide_true _ Hprev), Hacc, Hr, Hh.
  cbn [guard_err map_err ok_or mbind res_bind].
  destruct (frontier (orchard s)) as [f0|]; [|done]. cbn [ok_or mbind res_bind].
  rewrite connect_outputs_eq. set (ps := pointed_outputs _ _) in *.
  fold (output_puts ps). apply validate_coinbase_diff in Hcb. fold ps in Hcb. subst d0.
  assert (transaction <$> filled_transactions p = transactions b) as Htxs.
  { clear -Hfill. induction Hfill as [|tx t txs ts Ht _ IH]; [done|]. csimpl.
    apply fill_transaction_Ok in Ht as [-> _]. by rewrite IH. }
  assert (Forall (filled_from s) (filled_transactions p)) as Hff.
  { clear -Hfill. induction Hfill as [|tx t txs ts Ht _ IH]; constructor; [|done].
    apply fill_transaction_Ok in Ht as [<- Ht]. done. }
  apply validate_body_transactions_diff in Hloop. rewrite Htxs in Hloop.
  set (m0 := mk_Mutations [] [] (output_puts ps)).
  assert (with_txos s (puts (utxos s) (output_puts ps)) (stxos s)
    = with_orchard (apply_unsorted s m0) (orchard s)) as -> by done.
  pose proof (foldR_rel (agree s (accumulator_diff p)) collect_transaction
    (λ acc tx, map_err (CB_ConnectTransaction (txid tx)) (connect_transaction acc tx))
    (m0, orchard s, f0)
    (with_orchard (apply_unsorted s m0) (orchard s),
     diff_inserts AccumulatorDiff_default ps, f0)
    (filled_transactions p) (transactions b) ltac:(intros; by apply agree_step)) as Hrel.
  rewrite <- Htxs, length_fmap in Hrel. specialize (Hrel eq_refl). rewrite Htxs in Hrel.
  assert (res_rel (λ x y, agree s (accumulator_diff p) x y [] [])
    (foldR collect_transaction (m0, orchard s, f0) (filled_transactions p))
    (foldR (λ acc tx, map_err (CB_ConnectTransaction (txid tx)) (connect_transaction acc tx))
      (with_orchard (apply_unsorted s m0) (orchard s),
       diff_inserts AccumulatorDiff_default ps, f0) (transactions b))) as Hres.
  { apply Hrel.
    assert (mutations_ok s m0 (all_input_keys (filled_transactions p)) (txs_keys (transactions b)))
      as Hm0.
    { unfold mutations_ok, m0. cbn [utxo_deletes stxo_puts utxo_puts].
      rewrite output_puts_keys. done. }
    split_and!; try done; apply Hm0. }
  clear Hrel. unfold res_rel in Hres.
  destruct (foldR collect_transaction _ _) as [[[m o] f]|e|],
    (foldR _ _ (transactions b)) as [[[s2 d2] f2]|e'|]; try done; [|by rewrite Hres].
  cbn [mbind res_bind]. destruct Hres as (_ & _ & Hf & Hs2 & Hd & Hm).
  cbn [fst snd] in *. subst f2 s2. cbn [foldl] in Hd. subst d2.
  destruct Hm as (Hx & Hdel & Hput & _). rewrite !app_nil_r in *.
  rewrite apply_mutations_unsorted; [done|by rewrite Hx|done].
Qed.
End two_phase.

(** ** Conservation *)
Section conservation.
Context `{E : Externals}.









End conservation.

(** *** Fees *)
Section fees.
Context `{E : Externals, !AmountLaws}.

Lemma validate_coinbase_value root outs d v d' :
  validate_coinbase root outs d = Ok (v, d') → v = sumZ (get_value <$> outs).
Proof.
  unfold validate_coinbase.
  assert (sumZ ((λ p, get_value (output p)) <$> pointed_outputs (Coinbase root) outs)
      = sumZ (get_value <$> outs)) as <-.
  { unfold pointed_outputs. f_equal. rewrite fmap_imap. unfold compose. simpl.
    rewrite <- (imap_const get_value outs). done. }
  generalize (pointed_outputs (Coinbase root) outs). intros ps.
  change (sumZ _) with (0 + sumZ ((λ p, get_value (output p)) <$> ps))%Z.
  generalize 0%Z as z. intros z. revert z d.
  induction ps as [|p ps IH]; intros z d; cbn [foldR].
  - intros [= <- <-]. unfold sumZ. simpl. lia.
  - intros ([z1 d1] & Hz & Hl)%bind_Ok. apply bind_Ok in Hz as (z2 & Hz%ok_or_Ok & Hz').
    injection Hz' as <- <-. apply checked_add_Some in Hz as [-> _].
    apply IH in Hl as ->. csimpl. rewrite sumZ_cons. lia.
Qed.

Lemma validate_body_transactions_fees s acc z d ts z' d' :
  Forall values_ok ts →
  foldR (validate_body_transaction s acc) (z, d) ts = Ok (z', d') →
  (sumZ (total_in <$> ts) = sumZ (total_out <$> ts) + (z' - z))%Z
  ∧ Forall (λ t, Forall (λ i, i.1.2 = hash (mk_PointedOutput i.1.1 i.2)) (filled_inputs t)
      ∧ verify acc (proof (transaction t)) ((λ i, node_hash i.2) <$> inputs (transaction t))
        = Some true) ts.
Proof.
  intros Hts. revert z d. induction Hts as [|t ts Ht _ IH]; intros z d; cbn [foldR].
  - intros [= <- <-]. split; [unfold sumZ; simpl; lia|constructor].
  - intros ([z1 d1] & Hv & Hl)%bind_Ok.
    apply bind_Ok in Hv as ([] & _ & Hv). apply bind_Ok in Hv as (fee & Hfee & Hv).
    apply bind_Ok in Hv as (z2 & Hz%ok_or_Ok & Hv).
    apply bind_Ok in Hv as (ok & Hver%ok_or_Ok & Hv).
    apply bind_Ok in Hv as ([] & ->%guard_err_Ok & Hv). injection Hv as <- <-.
    apply validate_filled_transaction_Ok in Hfee as (Hh & _ & _ & _ & Heq); [|done].
    apply validate_utxo_hashes_Ok in Hh. apply checked_add_Some in Hz as [-> _].
    apply IH in Hl as [Hsum Hall]. csimpl. rewrite !sumZ_cons. split; [lia|by constructor].
Qed.
End fees.

(** *** Repeated transactions *)
Section repeated.
Context `{E : Externals}.

Lemma disconnect_outputs_cases l acc :
  (∃ o, foldR disconnect_output acc l = Err (NoUtxo o)) ∨
  (∃ acc', foldR disconnect_output acc l = Ok acc' ∧
     (∀ k, utxos acc.1 !! k = None → utxos acc'.1 !! k = None) ∧
     (∀ p, p ∈ l → utxos acc'.1 !! pointed_key p = None)).
Proof.
  revert acc. induction l as [|p l IH]; intros [s d].
  - right. exists (s, d). split_and!; [done..|]. intros p Hp. by apply elem_of_nil in Hp.
  - cbn [foldR disconnect_output]. destruct (bool_decide _); [|left; by eexists].
    cbn [guard_err mbind res_bind].
    destruct (IH (with_txos s (delete (pointed_key p) (utxos s)) (stxos s),
      AccumulatorDiff_remove (PointedOutput_node_hash p) d)) as [(o & ->)|(acc' & -> & Hk & Hl)];
      [left; by eexists|right].
    exists acc'. simpl in *. split_and!; [done| |].
    + intros k Hn. apply Hk. rewrite lookup_delete. by case_decide.
    + intros q [->|Hq]%elem_of_cons; [|by apply Hl]. apply Hk. apply lookup_delete_eq.
Qed.

Lemma disconnect_plain acc tx :
  inputs tx = [] → orchard_bundle tx = None →
  disconnect_transaction acc tx
  = foldR disconnect_output acc (reverse (pointed_outputs (Regular (txid tx)) (outputs tx))).
Proof.
  destruct acc as [s d]. intros Hi Hb. unfold disconnect_transaction.
  rewrite Hb, Hi, reverse_nil. by destruct (foldR disconnect_output (s, d) _).
Qed.

Lemma disconnect_repeated s d tx :
  inputs tx = [] → orchard_bundle tx = None → outputs tx ≠ [] →
  ∃ o, foldR disconnect_transaction (s, d) [tx; tx] = Err (NoUtxo o).
Proof.
  intros Hi Hb Ho. cbn [foldR]. rewrite disconnect_plain by done.
  set (ps := pointed_outputs _ _).
  assert (ps ≠ []) as Hps.
  { unfold ps, pointed_outputs. by destruct (outputs tx). }
  destruct (disconnect_outputs_cases (reverse ps) (s, d)) as [(o & ->)|([s1 d1] & -> & _ & Hl)];
    [by exists o|]. cbn [mbind res_bind]. rewrite disconnect_plain by done. fold ps.
  destruct (reverse ps) as [|p l] eqn:Hr;
    [apply (f_equal reverse) in Hr; by rewrite reverse_involutive in Hr|].
  cbn [foldR disconnect_output]. simpl in Hl. rewrite (Hl p) by (by left).
  rewrite bool_decide_false by (by intros [? ?]). simpl. by eexists.
Qed.

(** What both connect functions leave behind. *)
Lemma connect_prevalidated_tip s h b p s' fr :
  connect_prevalidated s h b p = Ok (s', fr) →
  tip s' = Some (Header_hash h) ∧ is_Some (utreexo_accumulator s').
Proof.
  unfold connect_prevalidated. intros (acc & _ & Hok)%bind_Ok.
  apply bind_Ok in Hok as (f & _ & Hok). apply bind_Ok in Hok as ([[m o] f1] & _ & Hok).
  apply finish_connect_Ok in Hok as (acc' & _ & -> & _). split; [done|by eexists].
Qed.
End repeated.

(** ** Properties *)
Section properties.
Context `{E : Externals}.

(** C1: No double spend and no inflation in an accepted block. If
    [prevalidate] accepts a block, then every input of every transaction is an
    unspent output of the state and commits to it, no output is spent twice in
    the block, the utreexo proof of each transaction verifies, all the
    authorizations verify and are the owners' in order, and the value of all
    outputs plus the coinbase does not exceed the value of all inputs (both
    with the shielded balances). *)
Theorem prevalidate_sound `{!AmountLaws} (s : State) (h : Header) (b : Body)
    (p : PrevalidatedBlock)
    (Hval : ∀ k o, utxos s !! k = Some o → (0 ≤ get_value o)%Z)
    (Hout : Forall (λ tx, Forall (λ o, 0 ≤ get_value o)%Z (outputs tx)) (transactions b))
    (Hok : prevalidate s h b = Ok p) :
  let ts := filled_transactions p in
  transaction <$> ts = transactions b
  ∧ NoDup (mjoin ((λ tx, OutPointKey_from ∘ fst <$> inputs tx) <$> transactions b))
  ∧ Forall (λ t, Forall2 (λ i u, utxos s !! OutPointKey_from i.1 = Some u
                            ∧ i.2 = hash (mk_PointedOutput i.1 u))
                   (inputs (transaction t)) (spent_utxos t)) ts
  ∧ Forall (λ t, ∃ acc, utreexo_accumulator s = Some acc ∧
      verify acc (proof (transaction t)) ((λ i, node_hash i.2) <$> inputs (transaction t))
      = Some true) ts
  ∧ verify_authorizations b = Ok tt
  ∧ Forall (λ q, Authorization_get_address q.1 = address q.2)
      (zip (body_authorizations b) (mjoin (spent_utxos <$> ts)))
  ∧ (sumZ (total_out <$> ts) + sumZ (get_value <$> coinbase b) ≤ sumZ (total_in <$> ts))%Z.
Proof.
  apply prevalidate_Ok in Hok as (acc & d0 & acc' & _ & _ & _ & _ & Hacc & Hv & Hfill & Hnd
    & Hloop & Hfees & Haddr & Hauth & _). cbn zeta.
  assert (transaction <$> filled_transactions p = transactions b
    ∧ Forall (filled_from s) (filled_transactions p)
    ∧ Forall values_ok (filled_transactions p)) as (Htxs & Hff & Hvals).
  { clear -Hfill Hval Hout. induction Hfill as [|tx t txs ts Ht _ IH]; [done|].
    apply Forall_cons in Hout as [Ho Hout]. destruct (IH Hout) as (? & ? & ?).
    apply fill_transaction_Ok in Ht as [<- Ht]. csimpl. split_and!;
      [by f_equal|by constructor|constructor; [split|]; [|done..]].
    clear -Ht Hval. induction Ht; constructor; eauto. }
  apply validate_body_transactions_fees in Hloop as [Hsum Hall]; [|done].
  apply validate_coinbase_value in Hv.
  split_and!; [done| | | |done|by apply check_addresses_Ok|lia].
  - rewrite <- Htxs, <- list_fmap_compose. exact Hnd.
  - apply Forall_forall. intros t Ht. rewrite Forall_forall in Hff, Hall.
    specialize (Hff t Ht). destruct (Hall t Ht) as [Hh _].
    unfold filled_inputs, filled_from in *. clear -Hff Hh.
    induction Hff as [|[o h] u l k Hu _ IH]; constructor;
      simpl in Hh; apply Forall_cons in Hh as [? ?]; auto.
  - eapply Forall_impl; [exact Hall|]. intros t [_ Ht]. eauto.
Qed.

(** Validating a block ([validate], used for blocks that are not
    connected) and prevalidating it (used before connecting) agree on every
    block: the same errors in the same order, and on success the total fees. *)
Theorem validate_prevalidate_agree (s : State) (h : Header) (b : Body) :
  validate s h b = total_fees <$> prevalidate s h b.
Proof.
  unfold validate, prevalidate.
  repeat match goal with
  | |- (?m ≫= _) = fmap _ (?m ≫= _) =>
      destruct m; cbn [mbind res_bind fmap res_fmap]; [|done|done]
  | |- (match ?p with (_, _) => _ end) = _ => destruct p
  end. done.
Qed.

(** C3: The optimised connection refines the direct one: when the outputs of
    the block are new, [apply_block] (validate, collect and sort all the
    database mutations, apply them in bulk) gives, for every block that
    validates, exactly the state, the frontier or the error that [connect]
    gives by executing the transactions one after the other. *)
Theorem apply_block_refines_connect (s : State) (h : Header) (b : Body)
    (Hnew : NoDup (new_keys b)) (Hfresh : ∀ k, k ∈ new_keys b → utxos s !! k = None) :
  apply_block s h b
  = (_ ← map_err apply_block_error (prevalidate s h b); connect s h b).
Proof.
  unfold apply_block. destruct (prevalidate s h b) as [p|e|] eqn:Hp; [|done|done].
  cbn [map_err mbind res_bind]. by apply prevalidate_connect_agree.
Qed.

(** C2: Disconnecting the tip undoes connecting it: if a block whose outputs
    and hash are new is applied, then [disconnect_tip], given the archived
    accumulator and the previous frontier (or nothing when the frontier did not
    change), restores every database of the state exactly; the only other
    outcome is that rustreexo refuses the reversed accumulator diff. *)
Theorem disconnect_apply_block (s : State) (h : Header) (b : Body) (s' : State)
    (fr : option Frontier) (acc : Accumulator) (pf : option Frontier)
    (Happly : apply_block s h b = Ok (s', fr))
    (Hdisj : txos_disjoint s) (Hfresh : fresh_block s b) (Hth : tip_height_ok s)
    (Hbh : block_hash_to_root (orchard s) !! Some (Header_hash h) = None)
    (Hacc : utreexo_accumulator s = Some acc) (Hpf : prev_frontier_ok s s' pf) :
  disconnect_tip s' h b acc pf = Ok s ∨ disconnect_tip s' h b acc pf = Err Utreexo.
Proof.
  unfold apply_block in Happly. apply bind_Ok in Happly as (p & Hp%map_err_Ok & Hc).
  destruct (connect_prevalidated_tip _ _ _ _ _ _ Hc) as [_ [acc' Hacc']].
  rewrite (prevalidate_connect_agree _ _ _ _ Hp) in Hc;
    [|apply Hfresh|intros k Hk; by apply Hfresh].
  rewrite <- (with_accumulator_id s' acc' Hacc'). eapply disconnect_connect; eauto.
Qed.


(** Transactions without inputs break disconnection. Nothing in the
    validation rejects a transaction that has no inputs and only creates
    outputs of value zero, so its id is not unique; a block that contains such
    a transaction twice can be applied, but [disconnect_tip] fails on it with
    [NoUtxo], whatever the archive provides. *)
Theorem repeated_transaction_not_disconnectable (s : State) (h : Header) (b : Body)
    (tx : Transaction) (s' : State) (fr : option Frontier) (acc : Accumulator)
    (pf : option Frontier)
    (Htxs : transactions b = [tx; tx]) (Hin : inputs tx = [])
    (Hbundle : orchard_bundle tx = None) (Hout : outputs tx ≠ [])
    (Happly : apply_block s h b = Ok (s', fr)) :
  ∃ o, disconnect_tip s' h b acc pf = Err (NoUtxo o).
Proof.
  unfold apply_block in Happly. apply bind_Ok in Happly as (p & Hp%map_err_Ok & Hc).
  apply prevalidate_Ok in Hp as (? & ? & ? & _ & Hroot & _).
  apply connect_prevalidated_tip in Hc as [Htip [acc' Hacc]].
  destruct (disconnect_repeated s' AccumulatorDiff_default tx Hin Hbundle Hout) as [o Ho].
  exists o. unfold disconnect_tip. rewrite Htip, (check_merkle_root_ok _ _ Hroot), Hacc, Htxs.
  cbn [ok_or mbind res_bind map_err]. rewrite bool_decide_true by done.
  cbn [guard_err mbind res_bind]. change (reverse [tx; tx]) with [tx; tx]. by rewrite Ho.
Qed.
End properties.

(** ** Witnesses *)
Module BlockToy.
#[local] Existing Instance Toy.externals.
Import StateToy.

Definition acc0 : Accumulator := mk_Accumulator leaves.

(** The header that commits to a body on top of [s0]. *)
Definition header_for (b : Body) : Header :=
  let root := compute_merkle_root b in
  let d := foldl diff_tx (diff_inserts AccumulatorDiff_default
             (pointed_outputs (Coinbase root) (coinbase b))) (transactions b) in
  mk_Header root (Some (h 77)) (h 0)
    (match apply_diff acc0 d with Some a => get_roots a | None => [] end).

Definition body : Body := Body_new [atx] [coin 5].
Definition hdr : Header := header_for body.

Definition zero_tx : Transaction := mk_Transaction [] [] [coin 0] None.
Definition body2 : Body :=
  Body_new [mk_AuthorizedTransaction zero_tx []; mk_AuthorizedTransaction zero_tx []] [].
Definition hdr2 : Header := header_for body2.

Definition applied (hd : Header) (b : Body) : State * option Frontier :=
  match apply_block s0 hd b with Ok r => r | _ => (s0, None) end.

Lemma is_ok_applied hd b : is_ok (apply_block s0 hd b) = true →
  apply_block s0 hd b = Ok ((applied hd b).1, (applied hd b).2).
Proof. unfold applied. destruct (apply_block s0 hd b) as [[]| |]; done. Qed.

Lemma applied_ok : apply_block s0 hdr body = Ok ((applied hdr body).1, (applied hdr body).2).
Proof. apply is_ok_applied. vm_compute. reflexivity. Qed.
Lemma applied2_ok :
  apply_block s0 hdr2 body2 = Ok ((applied hdr2 body2).1, (applied hdr2 body2).2).
Proof. apply is_ok_applied. vm_compute. reflexivity. Qed.

Definition fresh_keys_b (s : State) (ks : list OutPointKey) : bool :=
  bool_decide (NoDup ks) &&
  forallb (λ k, negb (bool_decide (is_Some (utxos s !! k)))
                && negb (bool_decide (is_Some (stxos s !! k)))) ks.

Lemma fresh_keys_b_ok s ks : fresh_keys_b s ks = true → fresh_keys s ks.
Proof.
  unfold fresh_keys_b. rewrite andb_true_iff, bool_decide_eq_true, forallb_forall.
  intros [Hnd Hall]. split; [done|]. intros k Hk%list_elem_of_In. specialize (Hall k Hk).
  rewrite andb_true_iff, !negb_true_iff, !bool_decide_eq_false, <- !eq_None_not_Some in Hall.
  done.
Qed.

Lemma body_fresh : fresh_block s0 body.
Proof. apply fresh_keys_b_ok. vm_compute. reflexivity. Qed.

Lemma s0_disjoint : txos_disjoint s0.
Proof.
  intros k o Ho. destruct (stxos s0 !! k) as [x|] eqn:Hx; [exfalso|done].
  unfold s0 in Ho, Hx. simpl in Ho, Hx.
  apply lookup_insert_Some in Hx as [[<- _]|[_ Hx]]; [|by rewrite lookup_empty in Hx].
  rewrite !lookup_insert_ne, lookup_empty in Ho;
    [done|intros Hk%(inj OutPointKey_from); discriminate Hk..].
Qed.

Lemma hdr_new : block_hash_to_root (orchard s0) !! Some (Header_hash hdr) = None.
Proof.
  assert (bool_decide (is_Some (block_hash_to_root (orchard s0) !! Some (Header_hash hdr)))
    = false) as Hb by (vm_compute; reflexivity).
  apply bool_decide_eq_false in Hb. by apply eq_None_not_Some.
Qed.

Lemma prevalidated_ok : ∃ p, prevalidate s0 hdr body = Ok p.
Proof.
  assert (is_ok (prevalidate s0 hdr body) = true) as Hok by (vm_compute; reflexivity).
  destruct (prevalidate s0 hdr body) as [p| |]; [by exists p|discriminate Hok..].
Qed.

Lemma prevalidate_sound_witness :
  ∃ p, prevalidate s0 hdr body = Ok p ∧
  (sumZ (total_out <$> filled_transactions p) + sumZ (get_value <$> coinbase body)
   ≤ sumZ (total_in <$> filled_transactions p))%Z.
Proof.
  destruct prevalidated_ok as [p Hp]. exists p. split; [exact Hp|].
  refine (proj2 (proj2 (proj2 (proj2 (proj2 (proj2
    (prevalidate_sound s0 hdr body p _ _ Hp))))))).
  - intros k o Hk. apply (values (k, o)). by apply elem_of_map_to_list.
  - repeat constructor; done.
Defined.

Lemma apply_block_refines_connect_witness :
  apply_block s0 hdr body
  = (_ ← map_err apply_block_error (prevalidate s0 hdr body); connect s0 hdr body).
Proof.
  apply (apply_block_refines_connect s0 hdr body (proj1 body_fresh)).
  intros k Hk. by apply body_fresh.
Defined.

Lemma disconnect_apply_block_witness :
  is_ok (disconnect_tip (applied hdr body).1 hdr body acc0 (frontier (orchard s0))) = true
  ∧ (disconnect_tip (applied hdr body).1 hdr body acc0 (frontier (orchard s0)) = Ok s0
     ∨ disconnect_tip (applied hdr body).1 hdr body acc0 (frontier (orchard s0)) = Err Utreexo).
Proof.
  split; [vm_compute; reflexivity|].
  apply (disconnect_apply_block s0 hdr body _ _ acc0 _ applied_ok s0_disjoint body_fresh).
  - unfold tip_height_ok, u32_max. simpl. lia.
  - apply hdr_new.
  - reflexivity.
  - by left.
Defined.


Lemma repeated_transaction_not_disconnectable_witness :
  ∃ o, disconnect_tip (applied hdr2 body2).1 hdr2 body2 acc0 None = Err (NoUtxo o).
Proof.
  apply (repeated_transaction_not_disconnectable s0 hdr2 body2 zero_tx _ _ acc0 None
    eq_refl eq_refl eq_refl ltac:(discriminate) applied2_ok).
Defined.
End BlockToy.
