(* ===== verification/TwoWayPeg.v ===== *)
(** Connecting and disconnecting two-way peg data
    ([src/lib/state/two_way_peg_data.rs], and the mainchain data types of
    [src/lib/types/proto.rs]): deposits, and withdrawal bundles through their
    states.

    The hash map that aggregates withdrawals is a finite map; the order in
    which its values come out is the parameter [into_values]. *)
From S2P Require Import Prelude.
From S2P Require Import Borsh.
From S2P Require Import Externals.
From S2P Require Import Toy.
From S2P Require Import Types.
From S2P Require Import AccumulatorDiff.
From S2P Require Import WithdrawalBundle.
From S2P Require Import RollBack.
From S2P Require Import Authorization.
From S2P Require Import Limits.
From S2P Require Import Orchard.
From S2P Require Import State.
From S2P Require Import Block.

Section peg.
Context `{E : Externals}.

(** ** Mainchain data *)
Record DepositEvent := mk_DepositEvent {
  deposit_tx_index : Z;
  deposit_outpoint : BtcOutPoint;
  deposit_output : Output
}.

Inductive BlockEvent :=
  | EvDeposit (deposit : DepositEvent)
  | EvWithdrawalBundle (event : WithdrawalBundleEvent).

Record BlockInfo := mk_BlockInfo {
  bmm_commitment : option BlockHash;
  events : list BlockEvent
}.

#[export] Instance DepositEvent_eq_dec : EqDecision DepositEvent.
Proof. solve_decision. Defined.
#[export] Instance BlockEvent_eq_dec : EqDecision BlockEvent.
Proof. solve_decision. Defined.
#[export] Instance BlockInfo_eq_dec : EqDecision BlockInfo.
Proof. solve_decision. Defined.

(** A linked hash map, in insertion order. *)
Record TwoWayPegData := mk_TwoWayPegData { block_info : list (BtcBlockHash * BlockInfo) }.

Definition deposits (b : BlockInfo) : list DepositEvent :=
  omap (λ e, match e with EvDeposit d => Some d | EvWithdrawalBundle _ => None end) (events b).
Definition withdrawal_bundle_events (b : BlockInfo) : list WithdrawalBundleEvent :=
  omap (λ e, match e with EvWithdrawalBundle e => Some e | EvDeposit _ => None end) (events b).

Definition deposit_blocks_of (d : TwoWayPegData) : list (BtcBlockHash * list DepositEvent) :=
  omap (λ '(h, b), match deposits b with [] => None | ds => Some (h, ds) end) (block_info d).
Definition latest_deposit_block_hash (d : TwoWayPegData) : option BtcBlockHash :=
  fst <$> last (deposit_blocks_of d).
Definition all_withdrawal_bundle_events (d : TwoWayPegData) :
    list (BtcBlockHash * WithdrawalBundleEvent) :=
  mjoin ((λ '(h, b), pair h <$> withdrawal_bundle_events b) <$> block_info d).
Definition latest_withdrawal_bundle_event_block_hash (d : TwoWayPegData) : option BtcBlockHash :=
  fst <$> last (all_withdrawal_bundle_events d).

(** ** Collecting a withdrawal bundle *)
Definition add_withdrawal (m : gmap MainAddress AggregatedWithdrawal)
    (kv : OutPointKey * Output) : Res Error (gmap MainAddress AggregatedWithdrawal) :=
  let '(outpoint, output) := kv in
  match content output with
  | Withdrawal value main_fee main_address =>
      let aggregated := default (mk_AggregatedWithdrawal ∅ main_address 0 0) (m !! main_address) in
      value ← ok_or (checked_add (agg_value aggregated) value) AmountOverflow;
      main_fee ← ok_or (checked_add (agg_main_fee aggregated) main_fee) AmountOverflow;
      outpoint ← OutPoint_from outpoint;
      Ok (<[main_address := mk_AggregatedWithdrawal
             (<[outpoint := output]> (agg_spend_utxos aggregated)) main_address value main_fee]> m)
  | Value _ => Ok m
  end.

Definition aggregate_withdrawals (s : State) : Res Error (gmap MainAddress AggregatedWithdrawal) :=
  foldR add_withdrawal ∅ (db_iter (utxos s)).

(** [u32::try_from] *)
Definition u32_try_from (z : Z) : option Z := u32_checked z.

(** The loop that fills the bundle: [continue] skips a withdrawal, [break]
    ends the loop. *)
Fixpoint fill_bundle (l : list AggregatedWithdrawal) (fee : Amount)
    (spend_utxos : gmap OutPoint Output) (bundle_outputs : list TxOut) (bundle_txouts_size : Z) :
    Res Error (Amount * gmap OutPoint Output * list TxOut) :=
  match l with
  | [] => Ok (fee, spend_utxos, bundle_outputs)
  | aggregated :: l =>
      let spk := script_pubkey (agg_main_address aggregated) in
      match u32_try_from (zlen bundle_outputs + 1) with
      | None => Ok (fee, spend_utxos, bundle_outputs)
      | Some n_outputs =>
          match u32_try_from (zlen spk) with
          | None => fill_bundle l fee spend_utxos bundle_outputs bundle_txouts_size
          | Some spk_size =>
              match txout_size spk_size with
              | None => fill_bundle l fee spend_utxos bundle_outputs bundle_txouts_size
              | Some txout_size =>
                  match u32_checked_add bundle_txouts_size txout_size with
                  | None => Ok (fee, spend_utxos, bundle_outputs)
                  | Some bundle_txouts_size =>
                      match predict_weight n_outputs bundle_txouts_size with
                      | None => Ok (fee, spend_utxos, bundle_outputs)
                      | Some _ =>
                          fee ← expect (checked_add fee (agg_main_fee aggregated));
                          fill_bundle l fee (agg_spend_utxos aggregated ∪ spend_utxos)
                            (bundle_outputs ++ [mk_TxOut (agg_value aggregated) spk])
                            bundle_txouts_size
                      end
                  end
              end
          end
      end
  end.

Definition collect_withdrawal_bundle
    (into_values : gmap MainAddress AggregatedWithdrawal → list AggregatedWithdrawal)
    (s : State) (block_height : Z) : Res Error (option WithdrawalBundle) :=
  address_to_aggregated_withdrawal ← aggregate_withdrawals s;
  if bool_decide (address_to_aggregated_withdrawal = ∅) then Ok None
  else
    let aggregated_withdrawals :=
      sort_aggregated (into_values address_to_aggregated_withdrawal) in
    '(fee, spend_utxos, bundle_outputs) ← fill_bundle aggregated_withdrawals 0 ∅ [] 0;
    bundle ← map_err EWithdrawalBundle
      (WithdrawalBundle_new block_height fee spend_utxos bundle_outputs);
    Ok (Some bundle).

(** ** Connecting withdrawal bundle events *)
Definition pointed (o : OutPoint * Output) : PointedOutput := mk_PointedOutput o.1 o.2.
Definition spent_in_bundle (m6id : M6id) (o : Output) : SpentOutput :=
  mk_SpentOutput o (InWithdrawal m6id).

Definition put_bundle (s : State) (m6id : M6id) (b : WithdrawalBundleInfo * BundleStatus) : State :=
  with_bundles s (<[m6id := b]> (withdrawal_bundles s)).

(** Move one output of a bundle from the utxos to the stxos. *)
Definition spend_bundle_output {Err} (no_utxo : OutPoint → Err) (m6id : M6id)
    (acc : State * AccumulatorDiff) (o : OutPoint * Output) : Res Err (State * AccumulatorDiff) :=
  let '(s, diff) := acc in
  let key := OutPointKey_from o.1 in
  _ ← guard_err (bool_decide (is_Some (utxos s !! key))) (no_utxo o.1);
  Ok (with_txos s (delete key (utxos s)) (<[key := spent_in_bundle m6id o.2]> (stxos s)),
      AccumulatorDiff_remove (PointedOutput_node_hash (pointed o)) diff).

Definition connect_withdrawal_bundle_submitted (s : State) (block_height : Z)
    (diff : AccumulatorDiff) (event_block_hash : BtcBlockHash) (m6id : M6id) :
    Res ConnectWithdrawalBundleSubmittedError (State * AccumulatorDiff) :=
  if bool_decide (pending_withdrawal_bundle s = Some m6id) then
    '(bundle, bundle_status) ← ok_or (withdrawal_bundles s !! m6id)
      (CWBS_PendingWithdrawalBundleUnknown m6id);
    bundle ← match bundle with
      | Known bundle => Ok bundle
      | Unknown | UnknownConfirmed _ => Err (CWBS_PendingWithdrawalBundleUnknown m6id)
      end;
    '(s, diff) ← foldR (spend_bundle_output CWBS_NoUtxo m6id) (s, diff)
      (btree_iter (spend_utxos bundle));
    _ ← assert_true (bool_decide (value (latest bundle_status) = Pending));
    bundle_status ← push_expect bundle_status Submitted block_height;
    Ok (with_pending (put_bundle s m6id (Known bundle, bundle_status)) None, diff)
  else
    match withdrawal_bundles s !! m6id with
    | Some (bundle, bundle_status) =>
        _ ← match bundle, value (latest bundle_status) with
            | _, Confirmed => Err (ConfirmedResubmitted event_block_hash m6id)
            | _, (Submitted | SubmittedUnexpected) =>
                Err (Resubmitted event_block_hash m6id (stamp_height (latest bundle_status)))
            | Known _, Dropped => Ok tt
            | (Unknown | UnknownConfirmed _), Dropped =>
                Err (UnknownDropped m6id (stamp_height (latest bundle_status)))
            | Known _, Pending => Err (DroppedPending m6id)
            | (Unknown | UnknownConfirmed _), Pending =>
                Err (UnknownPending m6id (stamp_height (latest bundle_status)))
            | (Known _ | Unknown), Failed => Ok tt
            | UnknownConfirmed _, Failed =>
                Err (UnknownConfirmedFailed m6id (stamp_height (latest bundle_status)))
            end;
        bundle_status ← push_expect bundle_status SubmittedUnexpected block_height;
        Ok (put_bundle s m6id (bundle, bundle_status), diff)
    | None =>
        Ok (put_bundle s m6id (Unknown, RollBack_new Submitted block_height), diff)
    end.

Definition is_submitted (st : WithdrawalBundleStatus) : bool :=
  match st with Submitted | SubmittedUnexpected => true | _ => false end.

(** An unknown bundle is confirmed at height 0: all utxos count as spent. *)
Definition spend_all_utxos (s : State) (diff : AccumulatorDiff) (m6id : M6id) :
    Res Error (State * AccumulatorDiff * gmap OutPoint Output) :=
  all ← get_utxos s;
  let utxos : gmap OutPoint Output := list_to_map all in
  let '(x, diff) := foldl (λ '(x, diff) o,
      (<[OutPointKey_from o.1 := spent_in_bundle m6id o.2]> x,
       AccumulatorDiff_remove (PointedOutput_node_hash (pointed o)) diff))
    (stxos s, diff) (btree_iter utxos) in
  Ok (with_txos s ∅ x, diff, utxos).

Definition connect_withdrawal_bundle_confirmed (s : State) (block_height : Z)
    (diff : AccumulatorDiff) (event_block_hash : BtcBlockHash) (m6id : M6id) :
    Res Error (State * AccumulatorDiff) :=
  '(bundle, bundle_status) ← ok_or (withdrawal_bundles s !! m6id) (UnknownWithdrawalBundle m6id);
  if bool_decide (value (latest bundle_status) = Confirmed) then Ok (s, diff)
  else
    _ ← assert_true (is_submitted (value (latest bundle_status)));
    '(s, diff, bundle) ←
      match bundle with
      | UnknownConfirmed _ =>
          Err (UnknownWithdrawalBundleReconfirmed event_block_hash m6id)
      | Unknown =>
          if bool_decide (block_height = 0%Z) then
            '(s, diff, utxos) ← spend_all_utxos s diff m6id;
            Ok (s, diff, UnknownConfirmed utxos)
          else Err (UnknownWithdrawalBundleConfirmed event_block_hash m6id)
      | Known b =>
          if bool_decide (value (latest bundle_status) = SubmittedUnexpected) then
            '(s, diff) ← foldR (spend_bundle_output
                (UnexpectedWithdrawalBundleInsolvency event_block_hash m6id) m6id) (s, diff)
              (btree_iter (spend_utxos b));
            Ok (s, diff, bundle)
          else Ok (s, diff, bundle)
      end;
    bundle_status ← push_expect bundle_status Confirmed block_height;
    Ok (put_bundle s m6id (bundle, bundle_status), diff).

(** Move one output of a failed bundle back to the utxos. *)
Definition unspend_bundle_output (acc : State * AccumulatorDiff) (o : OutPoint * Output) :
    State * AccumulatorDiff :=
  let '(s, diff) := acc in
  let key := OutPointKey_from o.1 in
  (with_txos s (<[key := o.2]> (utxos s)) (delete key (stxos s)),
   AccumulatorDiff_insert (PointedOutput_node_hash (pointed o)) diff).

Definition connect_withdrawal_bundle_failed (s : State) (block_height : Z)
    (diff : AccumulatorDiff) (m6id : M6id) : Res Error (State * AccumulatorDiff) :=
  '(bundle, bundle_status) ← ok_or (withdrawal_bundles s !! m6id) (UnknownWithdrawalBundle m6id);
  if bool_decide (value (latest bundle_status) = Failed) then Ok (s, diff)
  else
    _ ← assert_true (is_submitted (value (latest bundle_status)));
    '(s, diff) ←
      match bundle with
      | Unknown | UnknownConfirmed _ => Ok (s, diff)
      | Known b =>
          if bool_decide (value (latest bundle_status) = SubmittedUnexpected) then Ok (s, diff)
          else
            let '(s, diff) := foldl unspend_bundle_output (s, diff) (btree_iter (spend_utxos b)) in
            latest_failed_m6id ←
              match latest_failed_withdrawal_bundle s with
              | Some latest_failed_m6id => push_expect latest_failed_m6id m6id block_height
              | None => Ok (RollBack_new m6id block_height)
              end;
            Ok (with_latest_failed s (Some latest_failed_m6id), diff)
      end;
    bundle_status ← push_expect bundle_status Failed block_height;
    Ok (put_bundle s m6id (bundle, bundle_status), diff).

Definition connect_withdrawal_bundle_event (s : State) (block_height : Z)
    (diff : AccumulatorDiff) (event_block_hash : BtcBlockHash) (event : WithdrawalBundleEvent) :
    Res Error (State * AccumulatorDiff) :=
  match ev_status event with
  | EvSubmitted =>
      map_err ConnectWithdrawalBundleSubmitted
        (connect_withdrawal_bundle_submitted s block_height diff event_block_hash (ev_m6id event))
  | EvConfirmed =>
      connect_withdrawal_bundle_confirmed s block_height diff event_block_hash (ev_m6id event)
  | EvFailed => connect_withdrawal_bundle_failed s block_height diff (ev_m6id event)
  end.

(** What the loops over the events thread: the state, the diff, and the two
    block hashes. *)
Record EventAcc := mk_EventAcc {
  ea_state : State;
  ea_diff : AccumulatorDiff;
  ea_deposit_block : option BtcBlockHash;
  ea_bundle_block : option BtcBlockHash
}.

Definition deposit_pointed (d : DepositEvent) : PointedOutput :=
  mk_PointedOutput (Deposit (deposit_outpoint d)) (deposit_output d).

Definition connect_event (block_height : Z) (event_block_hash : BtcBlockHash)
    (acc : EventAcc) (event : BlockEvent) : Res Error EventAcc :=
  let s := ea_state acc in
  match event with
  | EvDeposit deposit =>
      let p := deposit_pointed deposit in
      Ok (mk_EventAcc (with_txos s (<[pointed_key p := output p]> (utxos s)) (stxos s))
            (AccumulatorDiff_insert (PointedOutput_node_hash p) (ea_diff acc))
            (Some event_block_hash) (ea_bundle_block acc))
  | EvWithdrawalBundle event =>
      '(s, diff) ← connect_withdrawal_bundle_event s block_height (ea_diff acc)
                     event_block_hash event;
      Ok (mk_EventAcc s diff (ea_deposit_block acc) (Some event_block_hash))
  end.

Definition connect_block_events (block_height : Z) (acc : EventAcc)
    (b : BtcBlockHash * BlockInfo) : Res Error EventAcc :=
  foldR (connect_event block_height b.1) acc (events b.2).

(** Append to a sequentially keyed database. *)
Definition seq_push (m : gmap Z (BtcBlockHash * Z)) (v : BtcBlockHash * Z) :
    gmap Z (BtcBlockHash * Z) :=
  let seq_idx := match seq_last m with Some (seq_idx, _) => wrap32 (seq_idx + 1) | None => 0%Z end in
  <[seq_idx := v]> m.

Definition last_failure_height (s : State) : Res Error Z :=
  r ← get_latest_failed_withdrawal_bundle s;
  Ok (match r with Some (height, _) => height | None => 0%Z end).

(** [block_height - last_failure >= WITHDRAWAL_BUNDLE_FAILURE_GAP], on [u32] *)
Definition failure_gap_passed (block_height last_failure : Z) : bool :=
  (WITHDRAWAL_BUNDLE_FAILURE_GAP <=? wrap32 (block_height - last_failure))%Z.

(** Store a newly collected bundle as the pending one. *)
Definition store_pending_bundle (s : State) (block_height : Z) (bundle : WithdrawalBundle) :
    Res Error State :=
  let m6id := compute_m6id bundle in
  let s := with_pending s (Some m6id) in
  bundle_status ←
    match withdrawal_bundles s !! m6id with
    | Some (_, bundle_status) => push_expect bundle_status Pending block_height
    | None => Ok (RollBack_new Pending block_height)
    end;
  Ok (put_bundle s m6id (Known bundle, bundle_status)).

Section connecting.
Context (into_values : gmap MainAddress AggregatedWithdrawal → list AggregatedWithdrawal).

Definition peg_connect (s : State) (data : TwoWayPegData) : Res Error (State * Accumulator) :=
  block_height ← ok_or (height s) NoTip;
  accumulator ← ok_or (utreexo_accumulator s) Db;
  acc ← foldR (connect_block_events block_height)
    (mk_EventAcc s AccumulatorDiff_default None None) (block_info data);
  let s := ea_state acc in
  let s := match ea_deposit_block acc with
    | Some h => with_event_blocks s (seq_push (deposit_blocks s) (h, block_height))
                  (withdrawal_bundle_event_blocks s)
    | None => s
    end in
  let s := match ea_bundle_block acc with
    | Some h => with_event_blocks s (deposit_blocks s)
                  (seq_push (withdrawal_bundle_event_blocks s) (h, block_height))
    | None => s
    end in
  last_failure ← last_failure_height s;
  s ← (if failure_gap_passed block_height last_failure
          && bool_decide (pending_withdrawal_bundle s = None)
       then
         bundle ← collect_withdrawal_bundle into_values s block_height;
         match bundle with
         | Some bundle => store_pending_bundle s block_height bundle
         | None => Ok s
         end
       else Ok s);
  accumulator ← ok_or (apply_diff accumulator (ea_diff acc)) Utreexo;
  Ok (with_accumulator s accumulator, accumulator).
End connecting.

(** ** Disconnecting *)

(** Unspend one output of a bundle: it must be in the stxos. *)
Definition unspend_stxo (acc : State * AccumulatorDiff) (o : OutPoint * Output) :
    Res Error (State * AccumulatorDiff) :=
  let '(s, diff) := acc in
  let key := OutPointKey_from o.1 in
  _ ← guard_err (bool_decide (is_Some (stxos s !! key))) (NoStxo o.1);
  Ok (with_txos s (<[key := o.2]> (utxos s)) (delete key (stxos s)),
      AccumulatorDiff_insert (PointedOutput_node_hash (pointed o)) diff).

(** Spend one output of a bundle again: it must be in the utxos. *)
Definition respend_utxo (m6id : M6id) (acc : State * AccumulatorDiff) (o : OutPoint * Output) :
    Res Error (State * AccumulatorDiff) :=
  let '(s, diff) := acc in
  let key := OutPointKey_from o.1 in
  _ ← guard_err (bool_decide (is_Some (utxos s !! key))) (NoUtxo o.1);
  Ok (with_txos s (delete key (utxos s)) (<[key := spent_in_bundle m6id o.2]> (stxos s)),
      AccumulatorDiff_remove (PointedOutput_node_hash (pointed o)) diff).

Definition put_or_delete_bundle (s : State) (m6id : M6id) (bundle : WithdrawalBundleInfo)
    (bundle_status : option BundleStatus) : State :=
  match bundle_status with
  | Some bundle_status => put_bundle s m6id (bundle, bundle_status)
  | None => with_bundles s (delete m6id (withdrawal_bundles s))
  end.

Definition disconnect_withdrawal_bundle_submitted (s : State) (block_height : Z)
    (diff : AccumulatorDiff) (m6id : M6id) : Res Error (State * AccumulatorDiff) :=
  match withdrawal_bundles s !! m6id with
  | None =>
      if bool_decide (pending_withdrawal_bundle s = Some m6id) then Ok (s, diff)
      else Err (UnknownWithdrawalBundle m6id)
  | Some (bundle, bundle_status) =>
      let '(bundle_status, latest_bundle_status) := pop bundle_status in
      _ ← assert_true (is_submitted (value latest_bundle_status));
      _ ← assert_true (bool_decide (stamp_height latest_bundle_status = block_height));
      '(s, diff) ←
        match bundle with
        | Unknown | UnknownConfirmed _ => Ok (s, diff)
        | Known b =>
            if bool_decide (value ∘ latest <$> bundle_status = Some Pending) then
              '(s, diff) ← foldR unspend_stxo (s, diff) (reverse (btree_iter (spend_utxos b)));
              Ok (with_pending s (Some m6id), diff)
            else Ok (s, diff)
        end;
      Ok (put_or_delete_bundle s m6id bundle bundle_status, diff)
  end.

Definition disconnect_withdrawal_bundle_confirmed (s : State) (block_height : Z)
    (diff : AccumulatorDiff) (m6id : M6id) : Res Error (State * AccumulatorDiff) :=
  '(bundle, bundle_status) ← ok_or (withdrawal_bundles s !! m6id) (UnknownWithdrawalBundle m6id);
  let '(prev_bundle_status, latest_bundle_status) := pop bundle_status in
  if is_submitted (value latest_bundle_status) then Ok (s, diff)
  else
    _ ← assert_true (bool_decide (value latest_bundle_status = Confirmed));
    _ ← assert_true (bool_decide (stamp_height latest_bundle_status = block_height));
    prev_bundle_status ← expect prev_bundle_status;
    _ ← assert_true (is_submitted (value (latest prev_bundle_status)));
    '(s, diff, bundle) ←
      match bundle with
      | Known b =>
          if bool_decide (value (latest prev_bundle_status) = SubmittedUnexpected) then
            '(s, diff) ← foldR unspend_stxo (s, diff) (btree_iter (spend_utxos b));
            Ok (s, diff, bundle)
          else Ok (s, diff, bundle)
      | UnknownConfirmed spend_utxos =>
          '(s, diff) ← foldR unspend_stxo (s, diff) (btree_iter spend_utxos);
          Ok (s, diff, Unknown)
      | Unknown => Ok (s, diff, bundle)
      end;
    Ok (put_bundle s m6id (bundle, prev_bundle_status), diff).

Definition disconnect_withdrawal_bundle_failed (s : State) (block_height : Z)
    (diff : AccumulatorDiff) (m6id : M6id) : Res Error (State * AccumulatorDiff) :=
  '(bundle, bundle_status) ← ok_or (withdrawal_bundles s !! m6id) (UnknownWithdrawalBundle m6id);
  let '(prev_bundle_status, latest_bundle_status) := pop bundle_status in
  if bool_decide (value latest_bundle_status = Submitted) then Ok (s, diff)
  else
    _ ← assert_true (bool_decide (value latest_bundle_status = Failed));
    _ ← assert_true (bool_decide (stamp_height latest_bundle_status = block_height));
    prev_bundle_status ← expect prev_bundle_status;
    _ ← assert_true (is_submitted (value (latest prev_bundle_status)));
    '(s, diff) ←
      match bundle with
      | Unknown | UnknownConfirmed _ => Ok (s, diff)
      | Known b =>
          if bool_decide (value (latest prev_bundle_status) = SubmittedUnexpected)
          then Ok (s, diff)
          else
            '(s, diff) ← foldR (respend_utxo m6id) (s, diff)
              (reverse (btree_iter (spend_utxos b)));
            latest_failed ← expect (latest_failed_withdrawal_bundle s);
            let '(prev_latest_failed_m6id, latest_failed_m6id) := pop latest_failed in
            _ ← assert_true (bool_decide (value latest_failed_m6id = m6id));
            _ ← assert_true (bool_decide (stamp_height latest_failed_m6id = block_height));
            Ok (with_latest_failed s prev_latest_failed_m6id, diff)
      end;
    Ok (put_bundle s m6id (bundle, prev_bundle_status), diff).

Definition disconnect_withdrawal_bundle_event (s : State) (block_height : Z)
    (diff : AccumulatorDiff) (event : WithdrawalBundleEvent) :
    Res Error (State * AccumulatorDiff) :=
  match ev_status event with
  | EvSubmitted => disconnect_withdrawal_bundle_submitted s block_height diff (ev_m6id event)
  | EvConfirmed => disconnect_withdrawal_bundle_confirmed s block_height diff (ev_m6id event)
  | EvFailed => disconnect_withdrawal_bundle_failed s block_height diff (ev_m6id event)
  end.

Definition disconnect_event (block_height : Z) (event_block_hash : BtcBlockHash)
    (acc : EventAcc) (event : BlockEvent) : Res Error EventAcc :=
  let s := ea_state acc in
  match event with
  | EvDeposit deposit =>
      let p := deposit_pointed deposit in
      _ ← guard_err (bool_decide (is_Some (utxos s !! pointed_key p))) (NoUtxo (outpoint p));
      Ok (mk_EventAcc (with_txos s (delete (pointed_key p) (utxos s)) (stxos s))
            (AccumulatorDiff_remove (PointedOutput_node_hash p) (ea_diff acc))
            (Some event_block_hash) (ea_bundle_block acc))
  | EvWithdrawalBundle event =>
      '(s, diff) ← disconnect_withdrawal_bundle_event s block_height (ea_diff acc) event;
      Ok (mk_EventAcc s diff (ea_deposit_block acc) (Some event_block_hash))
  end.

Definition disconnect_block_events (block_height : Z) (acc : EventAcc)
    (b : BtcBlockHash * BlockInfo) : Res Error EventAcc :=
  foldR (disconnect_event block_height b.1) acc (reverse (events b.2)).

(** Remove the last entry of a sequentially keyed database, which must be the
    given block at this height. *)
Definition seq_remove_last (m : gmap Z (BtcBlockHash * Z)) (latest : BtcBlockHash)
    (block_height : Z) (missing : Error) : Res Error (gmap Z (BtcBlockHash * Z)) :=
  '(seq_idx, (last_hash, last_height)) ← ok_or (seq_last m) missing;
  _ ← assert_true (bool_decide (latest = last_hash));
  _ ← assert_true (bool_decide (block_height = last_height));
  _ ← guard_err (bool_decide (is_Some (m !! seq_idx))) missing;
  Ok (delete seq_idx m).

(** Drop the pending bundle that was stored at this height. *)
Definition drop_pending_bundle (s : State) (block_height : Z) : Res Error State :=
  match pending_withdrawal_bundle s with
  | None => Ok s
  | Some bundle_m6id =>
      '(bundle, bundle_status) ← ok_or (withdrawal_bundles s !! bundle_m6id)
        (PendingWithdrawalBundleUnknown bundle_m6id);
      if bool_decide (stamp_height (latest bundle_status) = block_height) then
        Ok (put_or_delete_bundle (with_pending s None) bundle_m6id bundle (pop bundle_status).1)
      else Ok s
  end.

Definition peg_disconnect (s : State) (data : TwoWayPegData) : Res Error State :=
  block_height ← expect (height s);
  accumulator ← ok_or (utreexo_accumulator s) Db;
  acc ← foldR (disconnect_block_events block_height)
    (mk_EventAcc s AccumulatorDiff_default None None) (reverse (block_info data));
  let s := ea_state acc in
  s ← match ea_bundle_block acc with
      | Some h =>
          w ← seq_remove_last (withdrawal_bundle_event_blocks s) h block_height
                NoWithdrawalBundleEventBlock;
          Ok (with_event_blocks s (deposit_blocks s) w)
      | None => Ok s
      end;
  last_failure ← last_failure_height s;
  s ← (if failure_gap_passed block_height last_failure
       then drop_pending_bundle s block_height else Ok s);
  s ← match ea_deposit_block acc with
      | Some h =>
          d ← seq_remove_last (deposit_blocks s) h block_height NoDepositBlock;
          Ok (with_event_blocks s d (withdrawal_bundle_event_blocks s))
      | None => Ok s
      end;
  accumulator ← ok_or (apply_diff accumulator (ea_diff acc)) Utreexo;
  Ok (with_accumulator s accumulator).
End peg.
