(* ===== verification/TwoWayPegFacts.v ===== *)
(** Theorems about the two-way peg: the status machine of withdrawal bundles,
    disconnecting events, collecting bundles, and the sequentially keyed
    databases. *)
From S2P Require Import Prelude.
From S2P Require Import Borsh.
From S2P Require Import Externals.
From S2P Require Import Toy.
From S2P Require Import Types.
From S2P Require Import AccumulatorDiff.
From S2P Require Import WithdrawalBundle.
From S2P Require Import RollBack.
From S2P Require Import Authorization.
From S2P Require Import Limits.
From S2P Require Import Orchard.
From S2P Require Import State.
From S2P Require Import Block.
From S2P Require Import TwoWayPeg.

(** ** Entries put and deleted in bulk *)
Section put_facts.
Context {A : Type}.
Implicit Types (m : gmap OutPointKey A) (l : list (OutPointKey * A)).

Lemma lookup_puts m l k v : NoDup l.*1 → (k, v) ∈ l → puts m l !! k = Some v.
Proof.
  intros Hnd Hin. rewrite puts_union by done. apply lookup_union_Some_l.
  by apply elem_of_list_to_map.
Qed.

(** Putting back what was deleted. *)
Lemma puts_deletes m l :
  NoDup l.*1 → (∀ k v, (k, v) ∈ l → m !! k = Some v) → puts (deletes m l.*1) l = m.
Proof.
  intros Hnd Hm. apply map_eq. intros k. destruct (decide (k ∈ l.*1)) as [Hk|Hk].
  - apply list_elem_of_fmap in Hk as ([k' v] & -> & Hin). simpl.
    rewrite (lookup_puts _ _ _ _ Hnd Hin). symmetry. by apply Hm.
  - rewrite lookup_puts_ne, lookup_deletes by done. by rewrite decide_False.
Qed.

(** Deleting what was put. *)
Lemma deletes_puts m l ks :
  l.*1 ≡ₚ ks → (∀ k, k ∈ l.*1 → m !! k = None) → deletes (puts m l) ks = m.
Proof.
  intros Hp Hm. apply map_eq. intros k. rewrite lookup_deletes.
  destruct (decide (k ∈ ks)) as [Hk|Hk]; rewrite <- Hp in Hk.
  - symmetry. by apply Hm.
  - by apply lookup_puts_ne.
Qed.
End put_facts.

Ltac bd_refl :=
  repeat match goal with
  | |- context [bool_decide (?x = ?x)] => rewrite (bool_decide_true (x = x)) by reflexivity
  end.

Section peg_facts.
Context `{E : Externals}.

(** *** Moving the outputs of a bundle *)
Definition bundle_puts (l : list (OutPoint * Output)) : list (OutPointKey * Output) :=
  (λ o, (OutPointKey_from o.1, o.2)) <$> l.
Definition bundle_spent_puts (m6id : M6id) (l : list (OutPoint * Output)) :
    list (OutPointKey * SpentOutput) :=
  (λ o, (OutPointKey_from o.1, spent_in_bundle m6id o.2)) <$> l.
Definition bundle_keys (l : list (OutPoint * Output)) : list OutPointKey :=
  (λ o, OutPointKey_from o.1) <$> l.

Lemma bundle_puts_keys l : (bundle_puts l).*1 = bundle_keys l.
Proof. unfold bundle_puts. by rewrite <- list_fmap_compose. Qed.
Lemma bundle_spent_puts_keys m6id l : (bundle_spent_puts m6id l).*1 = bundle_keys l.
Proof. unfold bundle_spent_puts. by rewrite <- list_fmap_compose. Qed.

Lemma bundle_keys_NoDup (m : gmap OutPoint Output) : NoDup (bundle_keys (btree_iter m)).
Proof.
  change (NoDup ((OutPointKey_from ∘ fst) <$> btree_iter m)).
  rewrite list_fmap_compose. unfold btree_iter. rewrite merge_sort_Permutation.
  apply NoDup_fmap; [apply _|]. apply NoDup_fst_map_to_list.
Qed.

Lemma elem_of_btree_iter (m : gmap OutPoint Output) o u :
  (o, u) ∈ btree_iter m ↔ m !! o = Some u.
Proof. unfold btree_iter. rewrite merge_sort_Permutation. apply elem_of_map_to_list. Qed.

Definition bundle_diff (f : NodeHash → AccumulatorDiff → AccumulatorDiff) (d : AccumulatorDiff)
    (l : list (OutPoint * Output)) : AccumulatorDiff :=
  foldl (λ d o, f (PointedOutput_node_hash (pointed o)) d) d l.

Lemma spend_loop {Err} (e : OutPoint → Err) m6id s d l :
  NoDup (bundle_keys l) → (∀ k, k ∈ bundle_keys l → is_Some (utxos s !! k)) →
  foldR (spend_bundle_output e m6id) (s, d) l =
    Ok (with_txos s (deletes (utxos s) (bundle_keys l))
          (puts (stxos s) (bundle_spent_puts m6id l)),
        bundle_diff AccumulatorDiff_remove d l).
Proof.
  revert s d. induction l as [|[o u] l IH]; intros s d Hnd Hin.
  - simpl. by rewrite with_txos_id.
  - csimpl in *. apply NoDup_cons in Hnd as [Hk Hnd].
    rewrite bool_decide_true by (apply Hin; by left). cbn [guard_err mbind res_bind].
    rewrite IH; [done|done|]. intros k Hk'. simpl. rewrite lookup_delete_ne by set_solver.
    apply Hin. by right.
Qed.

(** A spending loop that succeeds found every output unspent. *)
Lemma spend_loop_inv {Err} (e : OutPoint → Err) m6id s d l s' d' :
  foldR (spend_bundle_output e m6id) (s, d) l = Ok (s', d') →
  NoDup (bundle_keys l) ∧ (∀ k, k ∈ bundle_keys l → is_Some (utxos s !! k)).
Proof.
  revert s d. induction l as [|[o u] l IH]; intros s d.
  - intros _. split; [constructor|]. intros k Hk. by apply elem_of_nil in Hk.
  - cbn [foldR spend_bundle_output]. intros (x & Hx & Hl)%bind_Ok.
    apply bind_Ok in Hx as ([] & Hg%guard_err_Ok%bool_decide_eq_true & Hx).
    injection Hx as <-. apply IH in Hl as [Hnd Hin]. csimpl. simpl in *. split.
    + apply NoDup_cons. split; [|done]. intros Hk. apply Hin in Hk as [v Hv].
      by rewrite lookup_delete_eq in Hv.
    + intros k [->|Hk]%elem_of_cons; [done|]. apply Hin in Hk as [v Hv].
      apply lookup_delete_Some in Hv as [_ Hv]. by exists v.
Qed.

Lemma unspend_stxo_loop s d l :
  NoDup (bundle_keys l) → (∀ k, k ∈ bundle_keys l → is_Some (stxos s !! k)) →
  foldR unspend_stxo (s, d) l =
    Ok (with_txos s (puts (utxos s) (bundle_puts l)) (deletes (stxos s) (bundle_keys l)),
        bundle_diff AccumulatorDiff_insert d l).
Proof.
  revert s d. induction l as [|[o u] l IH]; intros s d Hnd Hin.
  - simpl. by rewrite with_txos_id.
  - csimpl in *. apply NoDup_cons in Hnd as [Hk Hnd].
    rewrite bool_decide_true by (apply Hin; by left). cbn [guard_err mbind res_bind].
    rewrite IH; [done|done|]. intros k Hk'. simpl. rewrite lookup_delete_ne by set_solver.
    apply Hin. by right.
Qed.

Lemma respend_loop m6id s d l :
  NoDup (bundle_keys l) → (∀ k, k ∈ bundle_keys l → is_Some (utxos s !! k)) →
  foldR (respend_utxo m6id) (s, d) l =
    Ok (with_txos s (deletes (utxos s) (bundle_keys l))
          (puts (stxos s) (bundle_spent_puts m6id l)),
        bundle_diff AccumulatorDiff_remove d l).
Proof. exact (spend_loop NoUtxo m6id s d l). Qed.

Lemma unspend_loop s d l :
  foldl unspend_bundle_output (s, d) l =
    (with_txos s (puts (utxos s) (bundle_puts l)) (deletes (stxos s) (bundle_keys l)),
     bundle_diff AccumulatorDiff_insert d l).
Proof.
  revert s d. induction l as [|[o u] l IH]; intros s d; simpl.
  - by rewrite with_txos_id.
  - by rewrite IH.
Qed.

(** The outputs of a bundle, as the bundle records them, unspent or spent by
    it. *)
Definition outputs_unspent (s : State) (m : gmap OutPoint Output) : Prop :=
  ∀ o u, m !! o = Some u →
    utxos s !! OutPointKey_from o = Some u ∧ stxos s !! OutPointKey_from o = None.
Definition outputs_spent (s : State) (m6id : M6id) (m : gmap OutPoint Output) : Prop :=
  ∀ o u, m !! o = Some u →
    utxos s !! OutPointKey_from o = None
    ∧ stxos s !! OutPointKey_from o = Some (spent_in_bundle m6id u).

(** The state after a bundle's outputs are spent. *)
Definition spend_outputs (s : State) (m6id : M6id) (m : gmap OutPoint Output) : State :=
  with_txos s (deletes (utxos s) (bundle_keys (btree_iter m)))
    (puts (stxos s) (bundle_spent_puts m6id (btree_iter m))).
Definition unspend_outputs (s : State) (m : gmap OutPoint Output) : State :=
  with_txos s (puts (utxos s) (bundle_puts (btree_iter m)))
    (deletes (stxos s) (bundle_keys (btree_iter m))).

Lemma elem_of_bundle_keys m k :
  k ∈ bundle_keys (btree_iter m) ↔ ∃ o u, m !! o = Some u ∧ k = OutPointKey_from o.
Proof.
  unfold bundle_keys. rewrite list_elem_of_fmap. split.
  - intros ([o u] & -> & Hin%elem_of_btree_iter). eauto.
  - intros (o & u & Hm%elem_of_btree_iter & ->). by exists (o, u).
Qed.

Lemma bundle_keys_reverse l : bundle_keys (reverse l) ≡ₚ bundle_keys l.
Proof. unfold bundle_keys. by rewrite reverse_Permutation. Qed.

Lemma spend_outputs_keys s m6id m k :
  k ∈ bundle_keys (btree_iter m) → is_Some (stxos (spend_outputs s m6id m) !! k).
Proof.
  intros (o & u & Hm & ->)%elem_of_bundle_keys. eexists. simpl. apply lookup_puts.
  - rewrite bundle_spent_puts_keys. apply bundle_keys_NoDup.
  - unfold bundle_spent_puts. apply list_elem_of_fmap. exists (o, u).
    by rewrite elem_of_btree_iter.
Qed.

Lemma unspend_outputs_keys s m k :
  k ∈ bundle_keys (btree_iter m) → is_Some (utxos (unspend_outputs s m) !! k).
Proof.
  intros (o & u & Hm & ->)%elem_of_bundle_keys. eexists. simpl. apply lookup_puts.
  - rewrite bundle_puts_keys. apply bundle_keys_NoDup.
  - unfold bundle_puts. apply list_elem_of_fmap. exists (o, u).
    by rewrite elem_of_btree_iter.
Qed.

(** Unspending in any order undoes spending, and conversely. *)
Lemma unspend_spend_outputs s m6id m l d :
  l ≡ₚ btree_iter m → outputs_unspent s m →
  ∀ t, utxos t = utxos (spend_outputs s m6id m) → stxos t = stxos (spend_outputs s m6id m) →
  foldR unspend_stxo (t, d) l
  = Ok (with_txos t (utxos s) (stxos s), bundle_diff AccumulatorDiff_insert d l).
Proof.
  intros Hl Hm t Hu Hx.
  assert (bundle_keys l ≡ₚ bundle_keys (btree_iter m)) as Hkeys
    by (unfold bundle_keys; by rewrite Hl).
  pose proof (bundle_keys_NoDup m) as Hnd.
  rewrite unspend_stxo_loop.
  - do 2 f_equal. rewrite Hu, Hx. unfold with_txos. f_equal.
    + simpl. rewrite <- Hkeys, <- bundle_puts_keys in Hnd.
      rewrite <- (deletes_perm _ (bundle_puts l).*1) by (by rewrite bundle_puts_keys).
      apply puts_deletes; [done|]. intros k v Hin.
      unfold bundle_puts in Hin. apply list_elem_of_fmap in Hin as ([o u] & [= -> ->] & Hin).
      rewrite Hl, elem_of_btree_iter in Hin. by apply Hm.
    + simpl. apply deletes_puts; [by rewrite bundle_spent_puts_keys|].
      rewrite bundle_spent_puts_keys. intros k (o & u & Hmo & ->)%elem_of_bundle_keys.
      by eapply Hm.
  - by rewrite Hkeys.
  - intros k Hk. rewrite Hx. rewrite Hkeys in Hk. by eapply spend_outputs_keys.
Qed.

Lemma respend_unspend_outputs s m6id m l d :
  l ≡ₚ btree_iter m → outputs_spent s m6id m →
  ∀ t, utxos t = utxos (unspend_outputs s m) → stxos t = stxos (unspend_outputs s m) →
  foldR (respend_utxo m6id) (t, d) l
  = Ok (with_txos t (utxos s) (stxos s), bundle_diff AccumulatorDiff_remove d l).
Proof.
  intros Hl Hm t Hu Hx.
  assert (bundle_keys l ≡ₚ bundle_keys (btree_iter m)) as Hkeys
    by (unfold bundle_keys; by rewrite Hl).
  pose proof (bundle_keys_NoDup m) as Hnd.
  rewrite respend_loop.
  - do 2 f_equal. rewrite Hu, Hx. unfold with_txos. f_equal.
    + simpl. apply deletes_puts; [by rewrite bundle_puts_keys|].
      rewrite bundle_puts_keys. intros k (o & u & Hmo & ->)%elem_of_bundle_keys. by eapply Hm.
    + simpl. rewrite <- Hkeys, <- (bundle_spent_puts_keys m6id) in Hnd.
      rewrite <- (deletes_perm _ (bundle_spent_puts m6id l).*1)
        by (by rewrite bundle_spent_puts_keys).
      apply puts_deletes; [done|]. intros k v Hin. unfold bundle_spent_puts in Hin.
      apply list_elem_of_fmap in Hin as ([o u] & [= -> ->] & Hin).
      rewrite Hl, elem_of_btree_iter in Hin. by apply Hm.
  - by rewrite Hkeys.
  - intros k Hk. rewrite Hu. rewrite Hkeys in Hk. by eapply unspend_outputs_keys.
Qed.

(** ** The status machine of a withdrawal bundle *)
Definition bundle_state (s : State) (m6id : M6id) : option WithdrawalBundleStatus :=
  value ∘ latest ∘ snd <$> withdrawal_bundles s !! m6id.

Inductive event_transition :
    WithdrawalBundleEventStatus → option WithdrawalBundleStatus → WithdrawalBundleStatus → Prop :=
  | submit_pending : event_transition EvSubmitted (Some Pending) Submitted
  | submit_unknown : event_transition EvSubmitted None Submitted
  | resubmit_failed : event_transition EvSubmitted (Some Failed) SubmittedUnexpected
  | resubmit_dropped : event_transition EvSubmitted (Some Dropped) SubmittedUnexpected
  | confirm st : is_submitted st = true → event_transition EvConfirmed (Some st) Confirmed
  | confirm_again : event_transition EvConfirmed (Some Confirmed) Confirmed
  | fail st : is_submitted st = true → event_transition EvFailed (Some st) Failed
  | fail_again : event_transition EvFailed (Some Failed) Failed.

Lemma bundle_state_put s m6id i st :
  bundle_state (put_bundle s m6id (i, st)) m6id = Some (value (latest st)).
Proof. unfold bundle_state. simpl. by rewrite lookup_insert_eq. Qed.

Lemma put_bundle_other s m6id b m' :
  m' ≠ m6id → withdrawal_bundles (put_bundle s m6id b) !! m' = withdrawal_bundles s !! m'.
Proof. intros. simpl. by rewrite lookup_insert_ne. Qed.

(** *** The four outcomes of [connect_withdrawal_bundle_submitted] *)
Lemma connect_submitted_Ok s h d bh m s' d' :
  connect_withdrawal_bundle_submitted s h d bh m = Ok (s', d') →
  (∃ b st st',
     pending_withdrawal_bundle s = Some m ∧ withdrawal_bundles s !! m = Some (Known b, st)
     ∧ value (latest st) = Pending ∧ push st Submitted h = Ok st'
     ∧ (∀ k, k ∈ bundle_keys (btree_iter (spend_utxos b)) → is_Some (utxos s !! k))
     ∧ s' = with_pending (put_bundle (spend_outputs s m (spend_utxos b)) m (Known b, st')) None)
  ∨ (∃ i st st',
     pending_withdrawal_bundle s ≠ Some m ∧ withdrawal_bundles s !! m = Some (i, st)
     ∧ (value (latest st) = Dropped ∨ value (latest st) = Failed)
     ∧ push st SubmittedUnexpected h = Ok st' ∧ s' = put_bundle s m (i, st'))
  ∨ (pending_withdrawal_bundle s ≠ Some m ∧ withdrawal_bundles s !! m = None
     ∧ s' = put_bundle s m (Unknown, RollBack_new Submitted h)).
Proof.
  unfold connect_withdrawal_bundle_submitted. case_bool_decide as Hp.
  - intros ([i st] & Hb%ok_or_Ok & Hok)%bind_Ok. apply bind_Ok in Hok as (b & Hk & Hok).
    destruct i as [b'| |]; [injection Hk as ->|discriminate Hk..].
    apply bind_Ok in Hok as ([s1 d1] & Hloop & Hok).
    apply bind_Ok in Hok as ([] & Hst%assert_true_Ok%bool_decide_eq_true & Hok).
    apply bind_Ok in Hok as (st' & Hpush%push_expect_Ok & Hok). injection Hok as <- <-.
    left. exists b, st, st'.
    destruct (spend_loop_inv _ _ _ _ _ _ _ Hloop) as [Hnd Hin].
    rewrite spend_loop in Hloop by done. injection Hloop as <- _. done.
  - destruct (withdrawal_bundles s !! m) as [[i st]|] eqn:Hb.
    + intros ([] & Hc & Hok)%bind_Ok. apply bind_Ok in Hok as (st' & Hpush%push_expect_Ok & Hok).
      injection Hok as <- <-. right; left. exists i, st, st'.
      split_and!; try done. destruct i, (value (latest st)); try done; auto.
    + intros [= <- <-]. by right; right.
Qed.

Lemma connect_confirmed_Ok s h d bh m s' d' :
  connect_withdrawal_bundle_confirmed s h d bh m = Ok (s', d') →
  ∃ i st, withdrawal_bundles s !! m = Some (i, st) ∧
    ((value (latest st) = Confirmed ∧ s' = s)
     ∨ (is_submitted (value (latest st)) = true ∧ ∃ st', push st Confirmed h = Ok st' ∧
        ((∃ b, i = Known b ∧ value (latest st) = Submitted ∧ s' = put_bundle s m (i, st'))
         ∨ (∃ b, i = Known b ∧ value (latest st) = SubmittedUnexpected
            ∧ (∀ k, k ∈ bundle_keys (btree_iter (spend_utxos b)) → is_Some (utxos s !! k))
            ∧ s' = put_bundle (spend_outputs s m (spend_utxos b)) m (i, st'))
         ∨ (i = Unknown ∧ h = 0%Z ∧ ∃ s1 d1 us, spend_all_utxos s d m = Ok (s1, d1, us)
            ∧ s' = put_bundle s1 m (UnknownConfirmed us, st'))))).
Proof.
  unfold connect_withdrawal_bundle_confirmed.
  intros ([i st] & Hb%ok_or_Ok & Hok)%bind_Ok. exists i, st. split; [done|].
  case_bool_decide as Hc; [injection Hok as <- <-; by left|right].
  apply bind_Ok in Hok as ([] & Hs%assert_true_Ok & Hok). split; [done|].
  apply bind_Ok in Hok as ([[s1 d1] i1] & Hcase & Hok).
  apply bind_Ok in Hok as (st' & Hpush%push_expect_Ok & Hok). injection Hok as <- <-.
  exists st'. split; [done|]. destruct i as [b| |us].
  - case_bool_decide as Hu.
    + apply bind_Ok in Hcase as ([s2 d2] & Hloop & Hcase). injection Hcase as <- <- <-.
      destruct (spend_loop_inv _ _ _ _ _ _ _ Hloop) as [Hnd Hin].
      rewrite spend_loop in Hloop by done. injection Hloop as <- _.
      right; left. by exists b.
    + injection Hcase as <- <- <-. left. exists b. split_and!; [done| |done].
      destruct (value (latest st)); done.
  - case_bool_decide as H0; [|done]. apply bind_Ok in Hcase as ([[s2 d2] us] & Hall & Hcase).
    injection Hcase as <- <- <-. right; right. split_and!; [done..|]. by exists s2, d2, us.
  - done.
Qed.

Lemma connect_failed_Ok s h d m s' d' :
  connect_withdrawal_bundle_failed s h d m = Ok (s', d') →
  ∃ i st, withdrawal_bundles s !! m = Some (i, st) ∧
    ((value (latest st) = Failed ∧ s' = s)
     ∨ (is_submitted (value (latest st)) = true ∧ ∃ st', push st Failed h = Ok st' ∧
        (((∀ b, i = Known b → value (latest st) = SubmittedUnexpected)
          ∧ s' = put_bundle s m (i, st'))
         ∨ (∃ b lf, i = Known b ∧ value (latest st) = Submitted
            ∧ match latest_failed_withdrawal_bundle s with
              | Some f => push f m h = Ok lf
              | None => lf = RollBack_new m h
              end
            ∧ s' = put_bundle (with_latest_failed (unspend_outputs s (spend_utxos b)) (Some lf))
                     m (i, st'))))).
Proof.
  unfold connect_withdrawal_bundle_failed.
  intros ([i st] & Hb%ok_or_Ok & Hok)%bind_Ok. exists i, st. split; [done|].
  case_bool_decide as Hc; [injection Hok as <- <-; by left|right].
  apply bind_Ok in Hok as ([] & Hs%assert_true_Ok & Hok). split; [done|].
  apply bind_Ok in Hok as ([s1 d1] & Hcase & Hok).
  apply bind_Ok in Hok as (st' & Hpush%push_expect_Ok & Hok). injection Hok as <- <-.
  exists st'. split; [done|].
  destruct i as [b| |us]; [|injection Hcase as <- <-; by left..].
  case_bool_decide as Hu; [injection Hcase as <- <-; left; split; [by intros b' [= <-]|done]|].
  rewrite unspend_loop in Hcase. apply bind_Ok in Hcase as (lf & Hlf & Hcase).
  injection Hcase as <- <-. right. exists b, lf. split_and!; [done| | |done].
  - destruct (value (latest st)); done.
  - simpl in Hlf. destruct (latest_failed_withdrawal_bundle s).
    + by apply push_expect_Ok in Hlf.
    + by injection Hlf.
Qed.

Lemma is_submitted_cases st : is_submitted st = true → st = Submitted ∨ st = SubmittedUnexpected.
Proof. destruct st; simpl; auto; discriminate. Qed.

Lemma connect_event_transition s h d bh ev s' d' :
  connect_withdrawal_bundle_event s h d bh ev = Ok (s', d') →
  ∃ st', event_transition (ev_status ev) (bundle_state s (ev_m6id ev)) st'
    ∧ bundle_state s' (ev_m6id ev) = Some st'
    ∧ ∀ m', m' ≠ ev_m6id ev → withdrawal_bundles s' !! m' = withdrawal_bundles s !! m'.
Proof.
  destruct ev as [m status]. unfold connect_withdrawal_bundle_event. simpl.
  assert (∀ i st, withdrawal_bundles s !! m = Some (i, st) →
    bundle_state s m = Some (value (latest st))) as Hbs.
  { intros i st Hb. unfold bundle_state. by rewrite Hb. }
  destruct status.
  - intros (i & st & Hb & Hcase)%connect_confirmed_Ok. rewrite (Hbs _ _ Hb).
    exists Confirmed. destruct Hcase as [[Hst ->]|(Hsub & st' & Hpush & Hcase)].
    + rewrite Hst. split_and!; [apply confirm_again|by rewrite (Hbs _ _ Hb), Hst|done].
    + assert (value (latest st') = Confirmed) as Hlast by (by rewrite (latest_push _ _ _ _ Hpush)).
      split; [by constructor|].
      destruct Hcase as [(b & -> & _ & ->)|[(b & -> & _ & _ & ->)|(-> & _ & s1 & d1 & us & Hall & ->)]];
        rewrite bundle_state_put, Hlast; (split; [done|]); intros m' Hm';
        rewrite put_bundle_other by done; [done|done|].
      unfold spend_all_utxos in Hall. apply bind_Ok in Hall as (all & _ & Hall).
      destruct (foldl _ _ _) as [x dx]. by injection Hall as <- _ _.
  - intros (i & st & Hb & Hcase)%connect_failed_Ok. rewrite (Hbs _ _ Hb).
    exists Failed. destruct Hcase as [[Hst ->]|(Hsub & st' & Hpush & Hcase)].
    + rewrite Hst. split_and!; [apply fail_again|by rewrite (Hbs _ _ Hb), Hst|done].
    + assert (value (latest st') = Failed) as Hlast by (by rewrite (latest_push _ _ _ _ Hpush)).
      split; [by constructor|].
      destruct Hcase as [[_ ->]|(b & lf & _ & _ & _ & ->)]; rewrite bundle_state_put, Hlast;
        (split; [done|]); intros m' Hm'; by rewrite put_bundle_other.
  - intros [(b & st & st' & Hp & Hb & Hst & Hpush & _ & ->)
      |[(i & st & st' & Hp & Hb & Hst & Hpush & ->)|(Hp & Hb & ->)]]%map_err_Ok%connect_submitted_Ok.
    + rewrite (Hbs _ _ Hb), Hst. exists Submitted. split; [constructor|].
      change (bundle_state (with_pending ?x None) m) with (bundle_state x m).
      rewrite bundle_state_put, (latest_push _ _ _ _ Hpush). split; [done|].
      intros m' Hm'. simpl. by rewrite lookup_insert_ne.
    + rewrite (Hbs _ _ Hb). exists SubmittedUnexpected.
      rewrite bundle_state_put, (latest_push _ _ _ _ Hpush).
      split; [destruct Hst as [-> | ->]; constructor|]. split; [done|].
      intros m' Hm'. by rewrite put_bundle_other.
    + exists Submitted. rewrite bundle_state_put. unfold bundle_state at 1. rewrite Hb.
      split; [constructor|]. split; [done|]. intros m' Hm'. by rewrite put_bundle_other.
Qed.

(** *** Spending all utxos is spending a bundle of all of them *)
Lemma outpoint_of_Some k o : outpoint_of k = Some o → k = OutPointKey_from o.
Proof.
  unfold outpoint_of. intros ([o' l] & Ho & Hl)%fmap_Some. simpl in Hl. subst o'.
  apply deborsh_outpoint_canonical in Ho. apply OutPointKey_eq.
  rewrite OutPointKey_from_bytes. pose proof (f_equal length Ho) as Hlen.
  rewrite length_app, borsh_outpoint_length, length_vec_to_list in Hlen.
  assert (l = []) as -> by (apply length_zero_iff_nil; lia). by rewrite app_nil_r in Ho.
Qed.

Lemma get_utxos_Ok s all :
  get_utxos s = Ok all → ∀ o u, (o, u) ∈ all ↔ utxos s !! OutPointKey_from o = Some u.
Proof.
  unfold get_utxos. intros Hall%mapR_Ok o u. rewrite <- elem_of_db_iter.
  induction Hall as [|[k v] [o' u'] l l' Hk _ IH]; [by rewrite !elem_of_nil|].
  apply bind_Ok in Hk as (o2 & Ho2 & Hk). injection Hk as <- <-.
  unfold OutPoint_from in Ho2. apply expect_Ok, outpoint_of_Some in Ho2 as ->.
  rewrite !elem_of_cons, IH. split.
  - intros [[= -> ->]|?]; auto.
  - intros [[Hk%(inj OutPointKey_from) ->]%pair_eq|?]; subst; auto.
Qed.

Lemma get_utxos_NoDup s all : get_utxos s = Ok all → NoDup all.*1.
Proof.
  unfold get_utxos. intros Hall%mapR_Ok.
  assert (OutPointKey_from <$> all.*1 = (db_iter (utxos s)).*1) as Heq.
  { induction Hall as [|[k v] [o u] l l' Hk _ IH]; [done|].
    apply bind_Ok in Hk as (o2 & Ho2 & Hk). injection Hk as <- <-.
    unfold OutPoint_from in Ho2. apply expect_Ok, outpoint_of_Some in Ho2 as ->.
    csimpl. by rewrite IH. }
  apply (NoDup_fmap_1 OutPointKey_from). rewrite Heq. unfold db_iter.
  rewrite merge_sort_Permutation. apply NoDup_fst_map_to_list.
Qed.

Lemma spend_all_utxos_Ok s d m s' d' us :
  spend_all_utxos s d m = Ok (s', d', us) →
  s' = spend_outputs s m us ∧ ∀ o u, us !! o = Some u ↔ utxos s !! OutPointKey_from o = Some u.
Proof.
  unfold spend_all_utxos. intros (all & Hall & Hok)%bind_Ok.
  pose proof (get_utxos_Ok _ _ Hall) as Hin. pose proof (get_utxos_NoDup _ _ Hall) as Hnd.
  set (l := btree_iter (list_to_map all)) in *.
  assert (∀ x dx, foldl (λ '(x, diff) o,
      (<[OutPointKey_from o.1 := spent_in_bundle m o.2]> x,
       AccumulatorDiff_remove (PointedOutput_node_hash (pointed o)) diff)) (x, dx) l
    = (puts x (bundle_spent_puts m l), bundle_diff AccumulatorDiff_remove dx l)) as Hloop.
  { generalize l as k. induction k as [|[o u] k IH]; intros x dx; simpl; [done|].
    by rewrite IH. }
  rewrite Hloop in Hok. injection Hok as <- _ <-.
  assert (∀ o u, (list_to_map all : gmap OutPoint Output) !! o = Some u ↔
    utxos s !! OutPointKey_from o = Some u) as Hmap.
  { intros o u. rewrite <- Hin. symmetry. by apply elem_of_list_to_map. }
  split; [|done]. unfold spend_outputs. f_equal. apply map_eq. intros k.
  rewrite lookup_deletes, lookup_empty. case_decide as Hk; [done|].
  destruct (utxos s !! k) as [u|] eqn:Hu; [|done]. destruct Hk.
  assert (∃ o, k = OutPointKey_from o) as [o ->].
  { unfold get_utxos in Hall. apply mapR_Ok in Hall.
    assert ((k, u) ∈ db_iter (utxos s)) as Hku by (by apply elem_of_db_iter).
    apply list_elem_of_lookup_1 in Hku as [i Hku].
    destruct (Forall2_lookup_l _ _ _ _ _ Hall Hku) as ([o' u'] & _ & Ho).
    simpl in Ho. apply bind_Ok in Ho as (o2 & Ho2 & _).
    unfold OutPoint_from in Ho2. apply expect_Ok, outpoint_of_Some in Ho2. eauto. }
  apply elem_of_bundle_keys. exists o, u. by rewrite Hmap.
Qed.

(** ** Disconnecting an event *)

(** [s] with everything the events leave alone taken from [base]. *)
Definition peg_graft (base s : State) : State :=
  mk_State (tip base) (height base) (utxos s) (stxos s) (pending_withdrawal_bundle s)
    (latest_failed_withdrawal_bundle s) (withdrawal_bundles s) (deposit_blocks base)
    (withdrawal_bundle_event_blocks base) (orchard base) (utreexo_accumulator base).

Lemma peg_graft_refl s : s = peg_graft s s.
Proof. by destruct s. Qed.

(** An event that really takes effect on the state: a deposit of a new
    outpoint; an event that is not a repetition, of a bundle whose recorded
    outputs are unspent (or spent by it) in the state. *)
Definition event_effective (s : State) (ev : BlockEvent) : Prop :=
  match ev with
  | EvDeposit d => utxos s !! pointed_key (deposit_pointed d) = None
  | EvWithdrawalBundle (mk_WithdrawalBundleEvent m EvSubmitted) =>
      ∀ b st, withdrawal_bundles s !! m = Some (Known b, st) → value (latest st) = Pending →
        outputs_unspent s (spend_utxos b)
  | EvWithdrawalBundle (mk_WithdrawalBundleEvent m EvConfirmed) =>
      bundle_state s m ≠ Some Confirmed ∧ txos_disjoint s ∧
      ∀ b st, withdrawal_bundles s !! m = Some (Known b, st) →
        value (latest st) = SubmittedUnexpected → outputs_unspent s (spend_utxos b)
  | EvWithdrawalBundle (mk_WithdrawalBundleEvent m EvFailed) =>
      bundle_state s m ≠ Some Failed ∧
      ∀ b st, withdrawal_bundles s !! m = Some (Known b, st) →
        value (latest st) = Submitted → outputs_spent s m (spend_utxos b)
  end.

Lemma put_bundle_undo (m : gmap M6id (WithdrawalBundleInfo * BundleStatus)) k b b' :
  m !! k = Some b → <[k := b]> (<[k := b']> m) = m.
Proof. intros. by rewrite insert_insert_eq, insert_id. Qed.

Lemma undo_submitted s h d bh m s' d' :
  connect_withdrawal_bundle_submitted s h d bh m = Ok (s', d') →
  event_effective s (EvWithdrawalBundle (mk_WithdrawalBundleEvent m EvSubmitted)) →
  ∀ base dt, ∃ dt',
    disconnect_withdrawal_bundle_submitted (peg_graft base s') h dt m
    = Ok (peg_graft base s, dt').
Proof.
  intros [(b & st & st' & Hp & Hb & Hst & Hpush & _ & ->)
    |[(i & st & st' & Hp & Hb & Hst & Hpush & ->)|(Hp & Hb & ->)]]%connect_submitted_Ok
    Heff base dt; unfold disconnect_withdrawal_bundle_submitted; simpl; rewrite lookup_insert_eq.
  - rewrite (pop_push _ _ _ _ Hpush). cbn [assert_true is_submitted value stamp_height mbind res_bind].
    bd_refl. cbn [assert_true mbind res_bind].
    rewrite bool_decide_true by (simpl; by rewrite Hst).
    erewrite (unspend_spend_outputs s m (spend_utxos b)); [|apply reverse_Permutation
      |by eapply Heff|done|done].
    cbn [mbind res_bind]. eexists. unfold put_or_delete_bundle. do 2 f_equal.
    unfold put_bundle, with_bundles, with_pending, peg_graft. simpl.
    by rewrite put_bundle_undo, Hp.
  - rewrite (pop_push _ _ _ _ Hpush). cbn [assert_true is_submitted value stamp_height mbind res_bind].
    bd_refl. cbn [assert_true mbind res_bind].
    rewrite bool_decide_false by (simpl; intros [= Hpe]; rewrite Hpe in Hst; naive_solver).
    exists dt. destruct i; cbn [mbind res_bind]; do 2 f_equal;
      unfold put_or_delete_bundle, put_bundle, with_bundles, peg_graft; simpl;
      by rewrite put_bundle_undo.
  - rewrite pop_new. cbn [assert_true is_submitted value stamp_height mbind res_bind].
    bd_refl. cbn [assert_true mbind res_bind].
    exists dt. do 2 f_equal. unfold put_or_delete_bundle, with_bundles, peg_graft. simpl.
    by rewrite delete_insert_id.
Qed.

Lemma undo_confirmed s h d bh m s' d' :
  connect_withdrawal_bundle_confirmed s h d bh m = Ok (s', d') →
  event_effective s (EvWithdrawalBundle (mk_WithdrawalBundleEvent m EvConfirmed)) →
  ∀ base dt, ∃ dt',
    disconnect_withdrawal_bundle_confirmed (peg_graft base s') h dt m
    = Ok (peg_graft base s, dt').
Proof.
  intros (i & st & Hb & Hcase)%connect_confirmed_Ok (Hnc & Hdisj & Hun) base dt.
  destruct Hcase as [[Hst _]|(Hsub & st' & Hpush & Hcase)].
  { destruct Hnc. unfold bundle_state. rewrite Hb. simpl. by rewrite Hst. }
  unfold disconnect_withdrawal_bundle_confirmed.
  assert (∀ i' s1, withdrawal_bundles s1 = withdrawal_bundles s →
    withdrawal_bundles (peg_graft base (put_bundle s1 m (i', st'))) !! m = Some (i', st')) as Hlk.
  { intros i' s1 Hs1. simpl. apply lookup_insert_eq. }
  destruct Hcase as [(b & -> & Hst & ->)|[(b & -> & Hst & Hin & ->)
    |(-> & -> & s1 & d1 & us & Hall & ->)]].
  - rewrite Hlk by done. cbn [ok_or mbind res_bind]. rewrite (pop_push _ _ _ _ Hpush).
    cbn [is_submitted value stamp_height]. bd_refl.
    cbn [assert_true expect mbind res_bind]. rewrite Hsub. cbn [assert_true mbind res_bind].
    rewrite bool_decide_false by congruence. cbn [mbind res_bind]. eexists. do 2 f_equal.
    unfold put_bundle, with_bundles, peg_graft. simpl. by rewrite put_bundle_undo.
  - rewrite Hlk by done. cbn [ok_or mbind res_bind]. rewrite (pop_push _ _ _ _ Hpush).
    cbn [is_submitted value stamp_height]. bd_refl.
    cbn [assert_true expect mbind res_bind]. rewrite Hsub. cbn [assert_true mbind res_bind].
    rewrite (bool_decide_true (value (latest st) = SubmittedUnexpected)) by done.
    erewrite (unspend_spend_outputs s m (spend_utxos b)); [|done|by eapply Hun|done|done].
    cbn [mbind res_bind]. eexists. do 2 f_equal.
    unfold put_bundle, with_bundles, peg_graft. simpl. by rewrite put_bundle_undo.
  - apply spend_all_utxos_Ok in Hall as [-> Hus].
    rewrite Hlk by done. cbn [ok_or mbind res_bind]. rewrite (pop_push _ _ _ _ Hpush).
    cbn [is_submitted value stamp_height]. bd_refl.
    cbn [assert_true expect mbind res_bind]. rewrite Hsub. cbn [assert_true mbind res_bind].
    erewrite (unspend_spend_outputs s m us); [|done| |done|done].
    + cbn [mbind res_bind]. eexists. do 2 f_equal.
      unfold put_bundle, with_bundles, peg_graft. simpl. by rewrite put_bundle_undo.
    + intros o u Hu%Hus. split; [done|]. by eapply Hdisj.
Qed.

Lemma undo_failed s h d m s' d' :
  connect_withdrawal_bundle_failed s h d m = Ok (s', d') →
  event_effective s (EvWithdrawalBundle (mk_WithdrawalBundleEvent m EvFailed)) →
  ∀ base dt, ∃ dt',
    disconnect_withdrawal_bundle_failed (peg_graft base s') h dt m
    = Ok (peg_graft base s, dt').
Proof.
  intros (i & st & Hb & Hcase)%connect_failed_Ok (Hnc & Hsp) base dt.
  destruct Hcase as [[Hst _]|(Hsub & st' & Hpush & Hcase)].
  { destruct Hnc. unfold bundle_state. rewrite Hb. simpl. by rewrite Hst. }
  unfold disconnect_withdrawal_bundle_failed.
  destruct Hcase as [[Hun ->]|(b & lf & -> & Hst & Hlf & ->)]; simpl;
    rewrite lookup_insert_eq; cbn [ok_or mbind res_bind]; rewrite (pop_push _ _ _ _ Hpush);
    cbn [value stamp_height]; rewrite (bool_decide_false (Failed = Submitted)) by done;
    bd_refl; cbn [assert_true expect mbind res_bind];
    rewrite Hsub; cbn [assert_true mbind res_bind].
  - eexists. destruct i as [b| |us]; [rewrite bool_decide_true by (by eapply Hun)|..];
      cbn [mbind res_bind]; do 2 f_equal; unfold put_bundle, with_bundles, peg_graft; simpl;
      by rewrite put_bundle_undo.
  - rewrite bool_decide_false by congruence.
    erewrite (respend_unspend_outputs s m (spend_utxos b)); [|apply reverse_Permutation
      |by eapply Hsp|done|done].
    cbn [mbind res_bind].
    match goal with |- context [expect (latest_failed_withdrawal_bundle ?x)] =>
      change (latest_failed_withdrawal_bundle x) with (Some lf) end.
    cbn [expect mbind res_bind].
    destruct (latest_failed_withdrawal_bundle s) as [f|] eqn:Hf;
      [rewrite (pop_push _ _ _ _ Hlf)|subst lf; rewrite pop_new];
      cbn [value stamp_height]; bd_refl;
      cbn [assert_true mbind res_bind]; eexists; do 2 f_equal;
      unfold put_bundle, with_bundles, with_latest_failed, peg_graft; simpl;
      by rewrite put_bundle_undo, Hf.
Qed.

Lemma undo_event h bh bh' acc ev acc' :
  connect_event h bh acc ev = Ok acc' → event_effective (ea_state acc) ev →
  ∀ base t, ea_state t = peg_graft base (ea_state acc') →
    ∃ t', disconnect_event h bh' t ev = Ok t' ∧ ea_state t' = peg_graft base (ea_state acc).
Proof.
  intros Hc Heff base [s1 d1 x1 y1] Ht. simpl in Ht. subst s1. destruct ev as [d|[m st]].
  - injection Hc as <-. cbn [disconnect_event ea_state ea_diff ea_bundle_block].
    set (p := deposit_pointed d) in *. simpl in Heff. fold p in Heff.
    cbn [peg_graft utxos with_txos ea_state]. rewrite lookup_insert_eq.
    rewrite bool_decide_true by by eexists. cbn [guard_err mbind res_bind].
    eexists. split; [done|]. cbn [ea_state]. unfold with_txos, peg_graft. simpl.
    by rewrite delete_insert_id.
  - cbn [connect_event] in Hc. apply bind_Ok in Hc as ([s2 d2] & Hev & Hc).
    injection Hc as <-. cbn [ea_state ea_diff] in *.
    unfold disconnect_event, disconnect_withdrawal_bundle_event. cbn [ev_status ev_m6id ea_state ea_diff].
    unfold connect_withdrawal_bundle_event in Hev. cbn [ev_status ev_m6id] in Hev. destruct st.
    + destruct (undo_confirmed _ _ _ _ _ _ _ Hev Heff base d1) as (dt & ->).
      cbn [mbind res_bind]. by eexists.
    + destruct (undo_failed _ _ _ _ _ _ Hev Heff base d1) as (dt & ->).
      cbn [mbind res_bind]. by eexists.
    + apply map_err_Ok in Hev.
      destruct (undo_submitted _ _ _ _ _ _ _ Hev Heff base d1) as (dt & ->).
      cbn [mbind res_bind]. by eexists.
Qed.

(** ** The loops over the blocks and their events, flattened *)
Definition flat_events (bs : list (BtcBlockHash * BlockInfo)) : list (BtcBlockHash * BlockEvent) :=
  mjoin ((λ b, pair b.1 <$> events b.2) <$> bs).
Definition connect_flat (h : Z) (acc : EventAcc) (be : BtcBlockHash * BlockEvent) :=
  connect_event h be.1 acc be.2.
Definition disconnect_flat (h : Z) (acc : EventAcc) (be : BtcBlockHash * BlockEvent) :=
  disconnect_event h be.1 acc be.2.

Lemma foldR_fmap {Er S A B} (f : S → B → Res Er S) (g : A → B) s l :
  foldR f s (g <$> l) = foldR (λ s a, f s (g a)) s l.
Proof.
  revert s. induction l as [|a l IH]; intros s; csimpl; [done|].
  destruct (f s (g a)); simpl; [apply IH|done..].
Qed.

Lemma connect_blocks_flat h acc bs :
  foldR (connect_block_events h) acc bs = foldR (connect_flat h) acc (flat_events bs).
Proof.
  revert acc. induction bs as [|[bh b] bs IH]; intros acc; [done|].
  cbn [foldR]. unfold flat_events. csimpl. rewrite foldR_app, foldR_fmap.
  match goal with |- _ = foldR ?f acc (events b) ≫= _ => change f with (connect_event h bh) end.
  change (connect_block_events h acc (bh, b)) with (foldR (connect_event h bh) acc (events b)).
  destruct (foldR (connect_event h bh) acc (events b)); [|done..]. apply IH.
Qed.

Lemma disconnect_blocks_flat h acc bs :
  foldR (disconnect_block_events h) acc (reverse bs)
  = foldR (disconnect_flat h) acc (reverse (flat_events bs)).
Proof.
  revert acc. induction bs as [|[bh b] bs IH]; intros acc; [done|].
  unfold flat_events. csimpl. rewrite reverse_cons, reverse_app, !foldR_app, IH.
  fold (flat_events bs).
  destruct (foldR (disconnect_flat h) acc (reverse (flat_events bs))) as [acc1| |]; [|done..].
  cbn [mbind res_bind foldR]. rewrite <- fmap_reverse, foldR_fmap.
  match goal with |- _ = foldR ?f acc1 _ => change f with (disconnect_event h bh) end.
  unfold disconnect_block_events. cbn [fst snd].
  by destruct (foldR (disconnect_event h bh) acc1 (reverse (events b))).
Qed.

(** Every event takes effect on the state it meets. *)
Fixpoint effective_run (h : Z) (acc : EventAcc) (l : list (BtcBlockHash * BlockEvent)) : Prop :=
  match l with
  | [] => True
  | be :: l =>
      event_effective (ea_state acc) be.2
      ∧ ∀ acc', connect_flat h acc be = Ok acc' → effective_run h acc' l
  end.

Lemma events_undo h acc bs acc' base t :
  foldR (connect_block_events h) acc bs = Ok acc' → effective_run h acc (flat_events bs) →
  ea_state t = peg_graft base (ea_state acc') →
  ∃ t', foldR (disconnect_block_events h) t (reverse bs) = Ok t'
    ∧ ea_state t' = peg_graft base (ea_state acc).
Proof.
  rewrite connect_blocks_flat, disconnect_blocks_flat. intros Hc Heff Ht.
  refine (foldR_undo (λ acc l, effective_run h acc l)
    (λ acc t, ea_state t = peg_graft base (ea_state acc))
    (connect_flat h) (disconnect_flat h) acc (flat_events bs) acc' t _ Heff Hc Ht).
  intros acc1 [bh ev] l acc2 [He Hl] Hev. split; [by apply Hl|].
  intros t1 Ht1. exact (undo_event h bh bh acc1 ev acc2 Hev He base t1 Ht1).
Qed.

(** ** Which mainchain block is remembered *)
Definition deposit_hash (be : BtcBlockHash * BlockEvent) : option BtcBlockHash :=
  match be.2 with EvDeposit _ => Some be.1 | EvWithdrawalBundle _ => None end.
Definition bundle_hash (be : BtcBlockHash * BlockEvent) : option BtcBlockHash :=
  match be.2 with EvDeposit _ => None | EvWithdrawalBundle _ => Some be.1 end.

Definition or_else {A} (o d : option A) : option A := match o with Some _ => o | None => d end.

Lemma or_else_last {A B} (f : A → option B) a l d :
  or_else (last (omap f (a :: l))) d = or_else (last (omap f l)) (or_else (f a) d).
Proof.
  cbn [omap list_omap]. destruct (f a) as [b|]; [|by destruct (last (omap f l))].
  destruct (omap f l) as [|c k]; [done|]. change (last (b :: c :: k)) with (last (c :: k)).
  destruct (last (c :: k)) eqn:Hl; [done|]. by apply last_None in Hl.
Qed.

Lemma connect_event_hashes h acc be acc' :
  connect_flat h acc be = Ok acc' →
  ea_deposit_block acc' = or_else (deposit_hash be) (ea_deposit_block acc)
  ∧ ea_bundle_block acc' = or_else (bundle_hash be) (ea_bundle_block acc).
Proof.
  destruct be as [bh [d|e]]; unfold connect_flat; simpl.
  - by intros [= <-].
  - intros ([s d] & _ & Hok)%bind_Ok. by injection Hok as <-.
Qed.

Lemma disconnect_event_hashes h acc be acc' :
  disconnect_flat h acc be = Ok acc' →
  ea_deposit_block acc' = or_else (deposit_hash be) (ea_deposit_block acc)
  ∧ ea_bundle_block acc' = or_else (bundle_hash be) (ea_bundle_block acc).
Proof.
  destruct be as [bh [d|e]]; unfold disconnect_flat; simpl.
  - intros ([] & _ & Hok)%bind_Ok. by injection Hok as <-.
  - intros ([s d] & _ & Hok)%bind_Ok. by injection Hok as <-.
Qed.

Lemma hashes_loop (f : EventAcc → BtcBlockHash * BlockEvent → Res Error EventAcc) l acc acc' :
  (∀ acc be acc', f acc be = Ok acc' →
    ea_deposit_block acc' = or_else (deposit_hash be) (ea_deposit_block acc)
    ∧ ea_bundle_block acc' = or_else (bundle_hash be) (ea_bundle_block acc)) →
  foldR f acc l = Ok acc' →
  ea_deposit_block acc' = or_else (last (omap deposit_hash l)) (ea_deposit_block acc)
  ∧ ea_bundle_block acc' = or_else (last (omap bundle_hash l)) (ea_bundle_block acc).
Proof.
  intros Hf. revert acc. induction l as [|be l IH]; intros acc.
  - by intros [= <-].
  - cbn [foldR]. intros (acc1 & H1 & Hl)%bind_Ok. apply Hf in H1 as [Hd Hb].
    apply IH in Hl as [-> ->]. by rewrite !or_else_last, Hd, Hb.
Qed.

Lemma omap_reverse {A B} (f : A → option B) l : omap f (reverse l) = reverse (omap f l).
Proof.
  induction l as [|a l IH]; [done|]. rewrite reverse_cons, omap_app, IH. simpl.
  destruct (f a); [by rewrite reverse_cons|by rewrite app_nil_r].
Qed.

Lemma last_reverse' {A} (l : list A) : last (reverse l) = head l.
Proof. by rewrite last_reverse. Qed.

Lemma deposit_hashes_flat bs :
  omap deposit_hash (flat_events bs)
  = mjoin ((λ '(h, b), replicate (length (deposits b)) h) <$> bs).
Proof.
  induction bs as [|[h b] bs IH]; [done|]. unfold flat_events in *. csimpl.
  rewrite omap_app, IH. f_equal. unfold deposits.
  induction (events b) as [|[d|e] l IHl]; [done| |]; csimpl; [by rewrite IHl|done].
Qed.

Lemma replicate_last {A} n (x : A) : last (replicate (S n) x) = Some x.
Proof. induction n as [|n IH]; [done|]. exact IH. Qed.

Lemma last_app_or {A} (l k : list A) : last (l ++ k) = or_else (last k) (last l).
Proof.
  destruct k as [|a k] using rev_ind; [by rewrite app_nil_r|].
  by rewrite app_assoc, !last_snoc.
Qed.

Lemma deposit_blocks_hashes bs :
  let l := omap deposit_hash (flat_events bs) in
  let k := deposit_blocks_of (mk_TwoWayPegData bs) in
  last l = fst <$> last k ∧ head l = fst <$> head k.
Proof.
  cbn zeta. rewrite deposit_hashes_flat. unfold deposit_blocks_of. cbn [block_info].
  induction bs as [|[h b] bs [IHl IHh]]; [done|]. csimpl.
  destruct (deposits b) as [|d ds] eqn:Hd; [done|]. cbn [length]. split.
  - rewrite last_app_or, replicate_last, IHl.
    set (k := omap _ bs). destruct k as [|x k]; [done|].
    change (last ((h, d :: ds) :: x :: k)) with (last (x :: k)).
    destruct (last (x :: k)) eqn:Hk; [done|]. by apply last_None in Hk.
  - done.
Qed.

Lemma bundle_hashes_flat bs :
  omap bundle_hash (flat_events bs)
  = fst <$> all_withdrawal_bundle_events (mk_TwoWayPegData bs).
Proof.
  unfold all_withdrawal_bundle_events. cbn [block_info].
  induction bs as [|[h b] bs IH]; [done|]. unfold flat_events in *. csimpl.
  rewrite omap_app, fmap_app, IH. f_equal. unfold withdrawal_bundle_events.
  induction (events b) as [|[d|e] l IHl]; [done|done|]. csimpl. by rewrite IHl.
Qed.

(** Events leave tip, height, accumulator, orchard and the sequentially keyed
    databases alone. *)
Definition peg_frame (s s' : State) : Prop := peg_graft s s' = s'.

Lemma peg_frame_fields s s' : peg_frame s s' →
  tip s' = tip s ∧ height s' = height s ∧ orchard s' = orchard s
  ∧ utreexo_accumulator s' = utreexo_accumulator s ∧ deposit_blocks s' = deposit_blocks s
  ∧ withdrawal_bundle_event_blocks s' = withdrawal_bundle_event_blocks s.
Proof. by intros <-. Qed.

Lemma peg_frame_refl s : peg_frame s s.
Proof. unfold peg_frame. by rewrite <- peg_graft_refl. Qed.

Lemma peg_frame_trans s1 s2 s3 : peg_frame s1 s2 → peg_frame s2 s3 → peg_frame s1 s3.
Proof. unfold peg_frame. by intros <- <-. Qed.

Lemma peg_frame_bundle s s' m b : peg_frame s s' → peg_frame s (put_bundle s' m b).
Proof. unfold peg_frame. by intros <-. Qed.

Lemma peg_frame_delete s s' f : peg_frame s s' → peg_frame s (with_bundles s' f).
Proof. unfold peg_frame. by intros <-. Qed.

Lemma peg_frame_failed s s' f : peg_frame s s' → peg_frame s (with_latest_failed s' f).
Proof. unfold peg_frame. by intros <-. Qed.

Lemma peg_frame_txos s u x : peg_frame s (with_txos s u x).
Proof. done. Qed.

Lemma peg_frame_loop {A Er} (f : State * AccumulatorDiff → A → Res Er (State * AccumulatorDiff))
    l s d s' d' :
  (∀ s d o s' d', f (s, d) o = Ok (s', d') → ∃ u x, s' = with_txos s u x) →
  foldR f (s, d) l = Ok (s', d') → peg_frame s s'.
Proof.
  intros Hf Hl. refine (foldR_inv (λ x _, peg_frame s x.1) f (s, d) l (s', d') _ (peg_frame_refl s) Hl).
  intros [s1 d1] o k [s2 d2] Hs1 (u & x & ->)%Hf. by eapply peg_frame_trans.
Qed.

Lemma peg_frame_unspend l s d s' d' :
  foldR unspend_stxo (s, d) l = Ok (s', d') → peg_frame s s'.
Proof.
  apply peg_frame_loop. intros s1 d1 o s2 d2 ([] & _ & Hok)%bind_Ok. injection Hok as <- <-. eauto.
Qed.
Lemma peg_frame_respend m l s d s' d' :
  foldR (respend_utxo m) (s, d) l = Ok (s', d') → peg_frame s s'.
Proof.
  apply peg_frame_loop. intros s1 d1 o s2 d2 ([] & _ & Hok)%bind_Ok. injection Hok as <- <-. eauto.
Qed.

Lemma peg_frame_spend s m us : peg_frame s (spend_outputs s m us).
Proof. done. Qed.
Lemma peg_frame_unspend_outputs s us : peg_frame s (unspend_outputs s us).
Proof. done. Qed.

Create HintDb peg_frame.
#[local] Hint Resolve peg_frame_spend peg_frame_unspend_outputs : peg_frame.
#[local] Hint Resolve peg_frame_refl peg_frame_bundle peg_frame_delete peg_frame_failed peg_frame_txos
  peg_frame_unspend peg_frame_respend : peg_frame.

Lemma disconnect_bundle_event_frame s h d e s' d' :
  disconnect_withdrawal_bundle_event s h d e = Ok (s', d') → peg_frame s s'.
Proof.
  destruct e as [m st]. unfold disconnect_withdrawal_bundle_event. simpl. intros Hev. destruct st.
  - unfold disconnect_withdrawal_bundle_confirmed in Hev.
    apply bind_Ok in Hev as ([i r] & _ & Hev). destruct (pop r) as [pr lr].
    destruct (is_submitted _); [injection Hev as <- _; auto with peg_frame|].
    apply bind_Ok in Hev as ([] & _ & Hev). apply bind_Ok in Hev as ([] & _ & Hev).
    apply bind_Ok in Hev as (pr' & _ & Hev). apply bind_Ok in Hev as ([] & _ & Hev).
    apply bind_Ok in Hev as ([[s2 d2] i2] & Hcase & Hev). injection Hev as <- _.
    apply peg_frame_bundle. destruct i as [b| |us].
    + case_bool_decide; [|injection Hcase as <- _ _; auto with peg_frame].
      apply bind_Ok in Hcase as ([s3 d3] & Hl & Hcase). injection Hcase as <- _ _.
      eauto with peg_frame.
    + injection Hcase as <- _ _. auto with peg_frame.
    + apply bind_Ok in Hcase as ([s3 d3] & Hl & Hcase). injection Hcase as <- _ _.
      eauto with peg_frame.
  - unfold disconnect_withdrawal_bundle_failed in Hev.
    apply bind_Ok in Hev as ([i r] & _ & Hev). destruct (pop r) as [pr lr].
    case_bool_decide; [injection Hev as <- _; auto with peg_frame|].
    apply bind_Ok in Hev as ([] & _ & Hev). apply bind_Ok in Hev as ([] & _ & Hev).
    apply bind_Ok in Hev as (pr' & _ & Hev). apply bind_Ok in Hev as ([] & _ & Hev).
    apply bind_Ok in Hev as ([s2 d2] & Hcase & Hev). injection Hev as <- _.
    apply peg_frame_bundle. destruct i as [b| |us]; [|injection Hcase as <- _; auto with peg_frame..].
    case_bool_decide; [injection Hcase as <- _; auto with peg_frame|].
    apply bind_Ok in Hcase as ([s3 d3] & Hl & Hcase).
    apply bind_Ok in Hcase as (lf & _ & Hcase). destruct (pop lf) as [plf llf].
    apply bind_Ok in Hcase as ([] & _ & Hcase). apply bind_Ok in Hcase as ([] & _ & Hcase).
    injection Hcase as <- _. eauto with peg_frame.
  - unfold disconnect_withdrawal_bundle_submitted in Hev.
    destruct (withdrawal_bundles s !! m) as [[i r]|];
      [|case_bool_decide; [injection Hev as <- _; auto with peg_frame|done]].
    destruct (pop r) as [pr lr].
    apply bind_Ok in Hev as ([] & _ & Hev). apply bind_Ok in Hev as ([] & _ & Hev).
    apply bind_Ok in Hev as ([s2 d2] & Hcase & Hev). injection Hev as <- _.
    assert (peg_frame s s2); [|destruct pr; unfold put_or_delete_bundle; auto with peg_frame].
    destruct i as [b| |us]; [|injection Hcase as <- _; auto with peg_frame..].
    case_bool_decide; [|injection Hcase as <- _; auto with peg_frame].
    apply bind_Ok in Hcase as ([s3 d3] & Hl & Hcase). injection Hcase as <- _.
    apply peg_frame_unspend in Hl. unfold peg_frame in *. by rewrite <- Hl.
Qed.

Lemma disconnect_event_frame h acc be acc' :
  disconnect_flat h acc be = Ok acc' → peg_frame (ea_state acc) (ea_state acc').
Proof.
  destruct acc as [s d x y], be as [bh [dep|e]]; unfold disconnect_flat; simpl.
  - intros ([] & _ & Hok)%bind_Ok. by injection Hok as <-.
  - intros ([s1 d1] & Hev & Hok)%bind_Ok. injection Hok as <-.
    by eapply disconnect_bundle_event_frame.
Qed.

Lemma connect_bundle_event_frame s h d bh e s' d' :
  connect_withdrawal_bundle_event s h d bh e = Ok (s', d') → peg_frame s s'.
Proof.
  destruct e as [m []]; unfold connect_withdrawal_bundle_event; simpl.
  - intros (i & st & _ & [[_ ->]|(_ & st' & _ & [(b & _ & _ & ->)|[(b & _ & _ & _ & ->)|
      (_ & _ & s1 & d1 & us & Hall & ->)]])])%connect_confirmed_Ok; auto with peg_frame.
    apply spend_all_utxos_Ok in Hall as [-> _]. auto with peg_frame.
  - intros (i & st & _ & [[_ ->]|(_ & st' & _ & [[_ ->]|(b & lf & _ & _ & _ & ->)])])%connect_failed_Ok;
      auto with peg_frame.
  - intros Hok%map_err_Ok. apply connect_submitted_Ok in Hok
      as [(b & st & st' & _ & _ & _ & _ & _ & ->)|[(i & st & st' & _ & _ & _ & _ & ->)|(_ & _ & ->)]];
      auto with peg_frame.
    done.
Qed.

Lemma connect_event_frame h acc be acc' :
  connect_flat h acc be = Ok acc' → peg_frame (ea_state acc) (ea_state acc').
Proof.
  destruct acc as [s d x y], be as [bh [dep|e]]; unfold connect_flat; simpl.
  - by intros [= <-].
  - intros ([s1 d1] & Hev & Hok)%bind_Ok. injection Hok as <-.
    by eapply connect_bundle_event_frame.
Qed.

Lemma events_frame (f : EventAcc → BtcBlockHash * BlockEvent → Res Error EventAcc) acc l acc' :
  (∀ acc be acc', f acc be = Ok acc' → peg_frame (ea_state acc) (ea_state acc')) →
  foldR f acc l = Ok acc' → peg_frame (ea_state acc) (ea_state acc').
Proof.
  intros Hf Hl. refine (foldR_inv (λ x _, peg_frame (ea_state acc) (ea_state x)) f acc l acc' _
    (peg_frame_refl _) Hl).
  intros a be k a' Ha Hstep%Hf. by eapply peg_frame_trans.
Qed.
End peg_facts.

(** ** Collecting a bundle *)
Section collect_facts.
Context `{E : Externals}.

(** Sum over the outputs of a bundle. *)
Definition osum (f : Output → Z) (m : gmap OutPoint Output) : Z :=
  sumZ ((λ o, f o.2) <$> map_to_list m).

Lemma osum_insert f m o u : m !! o = None → osum f (<[o := u]> m) = (f u + osum f m)%Z.
Proof.
  intros Ho. unfold osum.
  by rewrite (sumZ_perm _ _ (fmap_Permutation _ _ _ (map_to_list_insert m o u Ho))).
Qed.

Lemma osum_empty f : osum f ∅ = 0%Z.
Proof. unfold osum. by rewrite map_to_list_empty. Qed.

Lemma osum_union f m1 m2 : m1 ##ₘ m2 → osum f (m1 ∪ m2) = (osum f m1 + osum f m2)%Z.
Proof.
  induction m1 as [|o u m1 Ho IH] using map_ind; intros Hd.
  - rewrite (left_id_L ∅ (∪)), osum_empty. lia.
  - apply map_disjoint_insert_l in Hd as [Hn Hd].
    rewrite <- insert_union_l, !osum_insert, IH by (done || by apply lookup_union_None). lia.
Qed.

Definition withdrawn_to (addr : MainAddress) (u : Output) : Prop :=
  ∃ v f, content u = Withdrawal v f addr.
Definition withdrawal_amount (u : Output) : Z :=
  match content u with Withdrawal v _ _ => v | Value _ => 0 end.

(** One entry per address, of the withdrawals to it among those seen. *)
Definition aggregate_ok (seen : list (OutPointKey * Output))
    (m : gmap MainAddress AggregatedWithdrawal) : Prop :=
  ∀ addr g, m !! addr = Some g →
    agg_main_address g = addr
    ∧ (∀ o u, agg_spend_utxos g !! o = Some u →
        (OutPointKey_from o, u) ∈ seen ∧ withdrawn_to addr u)
    ∧ agg_value g = osum withdrawal_amount (agg_spend_utxos g).

Lemma add_withdrawal_ok seen m kv m' :
  kv.1 ∉ seen.*1 → aggregate_ok seen m → add_withdrawal m kv = Ok m' →
  aggregate_ok (seen ++ [kv]) m'.
Proof.
  destruct kv as [k u]. cbn [fst add_withdrawal]. intros Hk Hm Hok.
  assert (aggregate_ok (seen ++ [(k, u)]) m) as Hm'.
  { intros addr g Hg. destruct (Hm addr g Hg) as (? & Hs & ?). split_and!; [done| |done].
    intros o u' Ho. destruct (Hs o u' Ho). split; [|done]. apply elem_of_app. by left. }
  destruct (content u) as [v|v f a] eqn:Hc; [by injection Hok as <-|].
  apply bind_Ok in Hok as (v' & Hv%ok_or_Ok & Hok).
  apply bind_Ok in Hok as (f' & Hf%ok_or_Ok & Hok).
  apply bind_Ok in Hok as (o & Ho & Hok). injection Hok as <-.
  unfold OutPoint_from in Ho. apply expect_Ok, outpoint_of_Some in Ho as ->.
  set (g := default _ _) in *.
  assert (agg_main_address g = a
    ∧ (∀ o u, agg_spend_utxos g !! o = Some u → (OutPointKey_from o, u) ∈ seen ∧ withdrawn_to a u)
    ∧ agg_value g = osum withdrawal_amount (agg_spend_utxos g)) as (Hg1 & Hg2 & Hg3).
  { unfold g. destruct (m !! a) as [g'|] eqn:Hg; simpl; [by apply Hm|].
    split_and!; [done| |by rewrite osum_empty]. intros o' u' Ho'. by rewrite lookup_empty in Ho'. }
  apply checked_add_Some in Hv as [-> _].
  intros addr g' Hg'. apply lookup_insert_Some in Hg' as [[<- <-]|[_ Hg']]; [|by apply Hm'].
  cbn [agg_main_address agg_spend_utxos agg_value]. split_and!; [done| |].
  - intros o' u' Ho'. apply lookup_insert_Some in Ho' as [[<- <-]|[_ Ho']].
    + split; [apply elem_of_app; right; by left|]. by exists v, f.
    + destruct (Hg2 o' u' Ho'). split; [|done]. apply elem_of_app. by left.
  - rewrite osum_insert.
    + unfold withdrawal_amount at 1. rewrite Hc, Hg3. lia.
    + destruct (agg_spend_utxos g !! o) as [u'|] eqn:Ho'; [|done].
      destruct (Hg2 o u' Ho') as [Hin _]. destruct Hk.
      apply list_elem_of_fmap. by exists (OutPointKey_from o, u').
Qed.

Lemma aggregate_withdrawals_ok s m :
  aggregate_withdrawals s = Ok m → aggregate_ok (db_iter (utxos s)) m.
Proof.
  unfold aggregate_withdrawals. intros Hl.
  assert (NoDup (db_iter (utxos s)).*1) as Hnd.
  { unfold db_iter. rewrite merge_sort_Permutation. apply NoDup_fst_map_to_list. }
  set (l := db_iter (utxos s)) in *.
  assert (∃ seen, l = seen ++ [] ∧ aggregate_ok seen m) as (seen & -> & Hok);
    [|by rewrite app_nil_r].
  refine (foldR_inv (λ m k, ∃ seen, l = seen ++ k ∧ aggregate_ok seen m)
    add_withdrawal ∅ l m _ _ Hl).
  - intros m1 kv k m2 (seen & Hseen & Hm1) Hstep. exists (seen ++ [kv]).
    rewrite <- app_assoc. split; [done|]. eapply add_withdrawal_ok; [|done|done].
    rewrite Hseen, fmap_app, fmap_cons in Hnd. apply NoDup_app in Hnd as (_ & Hd & _).
    intros Hin. apply (Hd _ Hin). by left.
  - exists []. split; [done|]. intros addr g Hg. by rewrite lookup_empty in Hg.
Qed.

(** A hash map yields its values in some order. *)
Definition iterates_values
    (into_values : gmap MainAddress AggregatedWithdrawal → list AggregatedWithdrawal) : Prop :=
  ∀ m, into_values m ≡ₚ (map_to_list m).*2.

Lemma iterates_addresses iv seen m :
  iterates_values iv → aggregate_ok seen m → NoDup (agg_main_address <$> iv m).
Proof.
  intros Hiv Hm. rewrite (Hiv m).
  assert (agg_main_address <$> (map_to_list m).*2 = (map_to_list m).*1) as ->.
  { rewrite <- list_fmap_compose. apply list_fmap_ext. intros i [a g] Hin.
    apply list_elem_of_lookup_2, elem_of_map_to_list in Hin. simpl. by apply Hm. }
  apply NoDup_fst_map_to_list.
Qed.

(** *** The loop that fills the bundle *)
Section fill.
Context `{!ConsensusSizes}.

(** Size and weight of what has been put in. *)
Definition fits (outs : list TxOut) (size : Z) : Prop :=
  size = txouts_size outs ∧ (size < 2 ^ 32)%Z ∧ is_Some (predict_weight (zlen outs) size).

Lemma fits_nil : fits [] 0.
Proof.
  split_and!; [done|done|]. exists 452%Z.
  apply predict_weight_Some; [done|done|]. unfold predicted_base_size.
  rewrite varint_size_spec. simpl. lia.
Qed.

Lemma fill_bundle_Ok l fee spend outs size fee' spend' outs' :
  fits outs size → fill_bundle l fee spend outs size = Ok (fee', spend', outs') →
  ∃ chosen, sublist chosen l
    ∧ spend' = foldl (λ m g, agg_spend_utxos g ∪ m) spend chosen
    ∧ outs' = outs ++ ((λ g, mk_TxOut (agg_value g) (script_pubkey (agg_main_address g))) <$> chosen)
    ∧ is_Some (predict_weight (zlen outs') (txouts_size outs')).
Proof.
  assert (∀ outs size fee spend, fits outs size → Ok (fee, spend, outs) = Ok (fee', spend', outs')
    :> Res Error _ → ∀ l : list AggregatedWithdrawal, ∃ chosen, sublist chosen l
    ∧ spend' = foldl (λ m g, agg_spend_utxos g ∪ m) spend chosen
    ∧ outs' = outs ++ ((λ g, mk_TxOut (agg_value g) (script_pubkey (agg_main_address g))) <$> chosen)
    ∧ is_Some (predict_weight (zlen outs') (txouts_size outs'))) as Hstop.
  { intros outs1 size1 fee1 spend1 (Hs & _ & Hw) [= <- <- <-] k. exists [].
    split_and!; [apply sublist_nil_l|done|by rewrite app_nil_r|by rewrite <- Hs]. }
  revert fee spend outs size. induction l as [|g l IH]; intros fee spend outs size Hfits Hok.
  { by eapply Hstop. }
  cbn [fill_bundle] in Hok. destruct (u32_try_from (zlen outs + 1)) as [n|] eqn:Hn;
    [|by eapply Hstop].
  assert (∀ fee spend, fill_bundle l fee spend outs size = Ok (fee', spend', outs') →
    ∃ chosen, sublist chosen (g :: l)
    ∧ spend' = foldl (λ m g, agg_spend_utxos g ∪ m) spend chosen
    ∧ outs' = outs ++ ((λ g, mk_TxOut (agg_value g) (script_pubkey (agg_main_address g))) <$> chosen)
    ∧ is_Some (predict_weight (zlen outs') (txouts_size outs'))) as Hskip.
  { intros fee1 spend1 Hl. destruct (IH _ _ _ _ Hfits Hl) as (c & ? & ? & ? & ?).
    exists c. split_and!; [by constructor|done..]. }
  set (spk := script_pubkey (agg_main_address g)) in *.
  destruct (u32_try_from (zlen spk)) as [spk_size|] eqn:Hspk; [|by eapply Hskip].
  destruct (txout_size spk_size) as [ts|] eqn:Hts; [|by eapply Hskip].
  destruct (u32_checked_add size ts) as [size1|] eqn:Hsz; [|by eapply Hstop].
  destruct (predict_weight n size1) as [w|] eqn:Hw; [|by eapply Hstop].
  apply bind_Ok in Hok as (fee1 & _ & Hok).
  apply u32_checked_Some in Hn as [<- _]. apply u32_checked_Some in Hspk as [<- Hspk].
  apply txout_size_Some in Hts as [-> _]; [|done]. apply u32_checked_Some in Hsz as [<- Hsz].
  destruct Hfits as (Hs & _ & _). subst size.
  assert (fits (outs ++ [mk_TxOut (agg_value g) spk])
    (txouts_size outs + (8 + varint_size (zlen spk) + zlen spk))) as Hfits1.
  { split_and!.
    - rewrite txouts_size_app, txouts_size_cons. cbn [txo_script_pubkey].
      change (txouts_size []) with 0%Z. lia.
    - lia.
    - rewrite length_app. cbn [length].
      replace (Z.of_nat (length outs + 1)) with (zlen outs + 1)%Z by lia. by eexists. }
  destruct (IH _ _ _ _ Hfits1 Hok) as (c & Hc & Hsp & Ho & Hp).
  exists (g :: c). split_and!; [by constructor|done| |done]. rewrite Ho, <- app_assoc. done.
Qed.
End fill.

(** The chosen withdrawals are disjoint, and come from the database. *)
Lemma chosen_union (u0 : gmap OutPointKey Output) m c spend :
  aggregate_ok (db_iter u0) m → (∀ g, g ∈ c → m !! agg_main_address g = Some g) →
  NoDup (agg_main_address <$> c) →
  (∀ o u, spend !! o = Some u → u0 !! OutPointKey_from o = Some u
     ∧ ∃ a, withdrawn_to a u ∧ a ∉ agg_main_address <$> c) →
  let r := foldl (λ m g, agg_spend_utxos g ∪ m) spend c in
  osum withdrawal_amount r = (osum withdrawal_amount spend + sumZ (agg_value <$> c))%Z
  ∧ ∀ o u, r !! o = Some u → u0 !! OutPointKey_from o = Some u ∧ ∃ a, withdrawn_to a u.
Proof.
  intros Hm. revert spend. induction c as [|g c IH]; intros spend Hc Hnd Hsp; cbn zeta.
  - simpl. change (sumZ []) with 0%Z. split; [lia|]. intros o u Ho.
    destruct (Hsp o u Ho) as (? & a & ? & _). eauto.
  - csimpl in *. apply NoDup_cons in Hnd as [Hg Hnd].
    destruct (Hm _ _ (Hc g ltac:(by left))) as (_ & Hin & Hval).
    assert (∀ o u, agg_spend_utxos g !! o = Some u →
      u0 !! OutPointKey_from o = Some u ∧ withdrawn_to (agg_main_address g) u) as Hin'.
    { intros o u Hu. destruct (Hin o u Hu) as [Hseen Hwd]. by apply elem_of_db_iter in Hseen. }
    assert (agg_spend_utxos g ##ₘ spend) as Hdisj.
    { apply map_disjoint_spec. intros o u u' Hu Hu'.
      destruct (Hin' o u Hu) as [H1 (v & f & Hwd)].
      destruct (Hsp o u' Hu') as (H2 & a & (v' & f' & Hwd') & Ha).
      rewrite H1 in H2. injection H2 as <-. rewrite Hwd in Hwd'. injection Hwd' as _ _ <-.
      apply Ha. by left. }
    destruct (IH (agg_spend_utxos g ∪ spend)) as [Hsum Hr]; [intros g' Hg'; apply Hc; by right|done| |].
    + intros o u [Ho|[_ Ho]]%lookup_union_Some_raw.
      * destruct (Hin' o u Ho) as [H1 Hwd]. split; [done|]. by exists (agg_main_address g).
      * destruct (Hsp o u Ho) as (H1 & a & Hwd & Ha). split; [done|]. exists a.
        split; [done|]. set_solver.
    + split; [|exact Hr]. rewrite Hsum, osum_union, sumZ_cons, Hval by done. lia.
Qed.

Lemma collect_withdrawal_bundle_Ok `{!ConsensusSizes, !BtcTxLaws} iv s h b :
  iterates_values iv → collect_withdrawal_bundle iv s h = Ok (Some b) →
  (∀ o u, spend_utxos b !! o = Some u →
     utxos s !! OutPointKey_from o = Some u ∧ ∃ a, withdrawn_to a u)
  ∧ sumZ (txo_value <$> drop 2 (btx_output (bundle_tx b)))
    = osum withdrawal_amount (spend_utxos b)
  ∧ (tx_weight (bundle_tx b) ≤ max_standard_tx_weight)%Z.
Proof.
  intros Hiv (m & Hm%aggregate_withdrawals_ok & Hok)%bind_Ok.
  case_bool_decide; [done|]. apply bind_Ok in Hok as ([[fee spend] outs] & Hfill & Hok).
  apply bind_Ok in Hok as (b' & Hb%map_err_Ok & Hok). injection Hok as <-.
  destruct (fill_bundle_Ok _ _ _ _ _ _ _ _ fits_nil Hfill) as (c & Hc & -> & -> & w & Hw).
  rewrite app_nil_l in *. rewrite (WithdrawalBundle_new_fits _ _ _ _ _ Hw) in Hb.
  injection Hb as <-. cbn [spend_utxos bundle_tx].
  assert (∀ g, g ∈ c → m !! agg_main_address g = Some g) as Hcm.
  { intros g Hg. apply (sublist_elem_of _ _ _ Hc) in Hg || eapply elem_of_submseteq in Hg;
      [|by apply sublist_submseteq].
    unfold sort_aggregated in Hg. rewrite merge_sort_Permutation, (Hiv m) in Hg.
    apply list_elem_of_fmap in Hg as ([a g'] & -> & Hin%elem_of_map_to_list). simpl.
    by destruct (Hm a g' Hin) as (-> & _). }
  assert (NoDup (agg_main_address <$> c)) as Hnd.
  { eapply sublist_NoDup; [|by apply fmap_sublist]. unfold sort_aggregated.
    rewrite merge_sort_Permutation. by eapply iterates_addresses. }
  destruct (chosen_union (utxos s) m c ∅ Hm Hcm Hnd) as [Hsum Hr].
  { intros o u Ho. by rewrite lookup_empty in Ho. }
  split_and!; [exact Hr| |].
  - rewrite Hsum, osum_empty, Z.add_0_l. unfold WithdrawalBundle_tx. cbn [btx_output app drop].
    rewrite drop_0. f_equal. by rewrite <- list_fmap_compose.
  - apply predict_weight_Some in Hw as (-> & Hle & _); [|lia|apply txouts_size_nonneg].
    rewrite WithdrawalBundle_tx_weight, max_standard_tx_weight_spec.
    unfold predicted_base_size in *. lia.
Qed.

(** The bundle does not depend on the order of the hash map. *)
Lemma collect_order_irrelevant `{!AddressOrder} iv iv' s h :
  iterates_values iv → iterates_values iv' →
  collect_withdrawal_bundle iv s h = collect_withdrawal_bundle iv' s h.
Proof.
  intros Hiv Hiv'. unfold collect_withdrawal_bundle.
  destruct (aggregate_withdrawals s) as [m| |] eqn:Hm; [|done..]. cbn [mbind res_bind].
  apply aggregate_withdrawals_ok in Hm.
  assert (sort_aggregated (iv m) = sort_aggregated (iv' m)) as ->; [|done].
  apply agg_sorted_unique.
  - apply StronglySorted_merge_sort; apply _.
  - apply StronglySorted_merge_sort; apply _.
  - unfold sort_aggregated. by rewrite !merge_sort_Permutation, (Hiv m), (Hiv' m).
  - unfold sort_aggregated. rewrite merge_sort_Permutation. by eapply iterates_addresses.
Qed.
End collect_facts.

(** ** Sequentially keyed databases *)
Section seq_facts.
Context `{E : Externals}.

(** Documented behaviour of [bincode]: a [u32] is four bytes, least
    significant first. *)
Definition bincode_little_endian : Prop := ∀ z, bincode_u32 z = vec_to_list (le_vec 4 z).

Lemma bytes_cmp_le_trans a b c : bytes_cmp a b ≠ Gt → bytes_cmp b c ≠ Gt → bytes_cmp a c ≠ Gt.
Proof.
  destruct (bytes_cmp a b) eqn:Hab; [|intros _|done].
  - by apply bytes_cmp_eq in Hab as ->.
  - destruct (bytes_cmp b c) eqn:Hbc; [|intros _|done].
    + apply bytes_cmp_eq in Hbc as <-. by rewrite Hab.
    + by rewrite (bytes_cmp_lt_trans _ _ _ Hab Hbc).
Qed.

#[export] Instance seq_key_le_trans : Transitive seq_key_le.
Proof. intros a b c. apply bytes_cmp_le_trans. Qed.
#[export] Instance seq_key_le_total : Total seq_key_le.
Proof.
  intros a b. unfold seq_key_le. rewrite (bytes_cmp_antisym (bincode_u32 a.1)).
  destruct (bytes_cmp _ _); simpl; auto.
Qed.

(** The last entry is one whose key no other key exceeds. *)
Lemma seq_last_greatest m k v :
  m !! k = Some v →
  (∀ k', is_Some (m !! k') → k' ≠ k → bytes_cmp (bincode_u32 k') (bincode_u32 k) = Lt) →
  seq_last m = Some (k, v).
Proof.
  intros Hk Hmax. unfold seq_last.
  pose proof (merge_sort_Permutation seq_key_le (map_to_list m)) as Hperm.
  pose proof (StronglySorted_merge_sort seq_key_le (map_to_list m)) as Hsort.
  set (l := merge_sort seq_key_le (map_to_list m)) in *.
  assert (∀ e, e ∈ l ↔ m !! e.1 = Some e.2) as Hl.
  { intros [k' v']. rewrite Hperm. apply elem_of_map_to_list. }
  destruct l as [|e l' _] using rev_ind.
  { assert ((k, v) ∈ @nil (Z * (BtcBlockHash * Z))) as Hin by (by apply Hl).
    by apply elem_of_nil in Hin. }
  rewrite last_snoc. f_equal.
  assert (m !! e.1 = Some e.2) as He by (apply Hl; apply elem_of_app; right; by left).
  destruct (decide (e.1 = k)) as [Hek|Hne].
  { destruct e as [k' v']. simpl in *. subst k'. by simplify_eq. }
  assert ((k, v) ∈ l') as Hin.
  { assert ((k, v) ∈ l' ++ [e]) as Hin by (by apply Hl).
    apply elem_of_app in Hin as [?|Hin]; [done|]. apply list_elem_of_singleton in Hin. by subst. }
  assert (seq_key_le (k, v) e) as Hle.
  { clear -Hsort Hin. induction l' as [|a l' IH]; [by apply elem_of_nil in Hin|].
    apply StronglySorted_inv in Hsort as [Hs Ha]. apply elem_of_cons in Hin as [<-|Hin].
    - rewrite Forall_forall in Ha. apply Ha. apply elem_of_app. right. by left.
    - by apply IH. }
  unfold seq_key_le in Hle. simpl in Hle.
  pose proof (Hmax e.1 ltac:(by eexists) Hne) as Hlt.
  rewrite (bytes_cmp_antisym (bincode_u32 e.1)) in Hle. by rewrite Hlt in Hle.
Qed.

(** Keys below 257, as little-endian bytes, against key 255. *)
Definition below_255 : bool :=
  forallb (λ k, match bytes_cmp (vec_to_list (le_vec 4 k)) (vec_to_list (le_vec 4 255)) with
                | Lt => true | _ => bool_decide (k = 255%Z) end)
    (Z.of_nat <$> seq 0 257).
Lemma below_255_ok : below_255 = true.
Proof. vm_compute. reflexivity. Qed.

Lemma le_below_255 k :
  (0 ≤ k ≤ 256)%Z → k ≠ 255%Z →
  bytes_cmp (vec_to_list (le_vec 4 k)) (vec_to_list (le_vec 4 255)) = Lt.
Proof.
  intros Hk Hne. pose proof below_255_ok as Hall. unfold below_255 in Hall.
  rewrite forallb_forall in Hall. specialize (Hall k).
  assert (In k (Z.of_nat <$> seq 0 257)) as Hin.
  { apply list_elem_of_In, list_elem_of_fmap. exists (Z.to_nat k).
    split; [lia|]. apply elem_of_seq. lia. }
  specialize (Hall Hin). rewrite bool_decide_false in Hall by done.
  by destruct (bytes_cmp _ _).
Qed.

Lemma seq_last_255 m v :
  bincode_little_endian → m !! 255%Z = Some v →
  (∀ k, is_Some (m !! k) → (0 ≤ k ≤ 256)%Z) → seq_last m = Some (255%Z, v).
Proof.
  intros Hle Hv Hk. apply seq_last_greatest; [done|]. intros k' Hk' Hne.
  rewrite !Hle. apply le_below_255; auto.
Qed.
End seq_facts.

(** ** Whole connections and disconnections *)
Section whole.
Context `{E : Externals}.

Lemma multi_block_stuck (s : State) (data : TwoWayPegData)
    (i ht : Z) (first latest : BtcBlockHash)
    (Hrecorded : seq_last (deposit_blocks s) = Some (i, (latest, ht)))
    (Hlatest : latest_deposit_block_hash data = Some latest)
    (Hfirst : fst <$> head (deposit_blocks_of data) = Some first) (Hne : first ≠ latest) :
  is_ok (peg_disconnect s data) = false.
Proof.
  destruct (peg_disconnect s data) as [s'| |] eqn:Hd; [exfalso|done|done].
  unfold peg_disconnect in Hd. apply bind_Ok in Hd as (h & _ & Hd).
  apply bind_Ok in Hd as (acc & _ & Hd). apply bind_Ok in Hd as (ea & Hloop & Hd).
  rewrite disconnect_blocks_flat in Hloop.
  assert (deposit_blocks (ea_state ea) = deposit_blocks s) as Hdb.
  { apply (events_frame _ _ _ _ (disconnect_event_frame h)) in Hloop.
    by apply peg_frame_fields in Hloop as (_ & _ & _ & _ & -> & _). }
  apply hashes_loop in Hloop as [Hdep _]; [|by apply disconnect_event_hashes].
  destruct data as [bs]. cbn [block_info] in *.
  rewrite omap_reverse, last_reverse', (proj2 (deposit_blocks_hashes bs)), Hfirst in Hdep.
  simpl in Hdep.
  apply bind_Ok in Hd as (s1 & Hs1 & Hd). apply bind_Ok in Hd as (lf & _ & Hd).
  apply bind_Ok in Hd as (s2 & Hs2 & Hd). apply bind_Ok in Hd as (s3 & Hs3 & Hd).
  assert (deposit_blocks s1 = deposit_blocks s) as Hdb1.
  { destruct (ea_bundle_block ea); [|by injection Hs1 as <-].
    apply bind_Ok in Hs1 as (w & _ & Hs1). by injection Hs1 as <-. }
  assert (deposit_blocks s2 = deposit_blocks s) as Hdb2.
  { destruct (failure_gap_passed h lf); [|by injection Hs2 as <-].
    unfold drop_pending_bundle in Hs2. destruct (pending_withdrawal_bundle s1); [|by injection Hs2 as <-].
    apply bind_Ok in Hs2 as ([b st] & _ & Hs2). case_bool_decide; [|by injection Hs2 as <-].
    injection Hs2 as <-. by destruct (pop st).1. }
  rewrite Hdep in Hs3. apply bind_Ok in Hs3 as (d & Hrem & _).
  unfold seq_remove_last in Hrem. rewrite Hdb2, Hrecorded in Hrem.
  cbn [ok_or mbind res_bind] in Hrem.
  apply bind_Ok in Hrem as ([] & Heq%assert_true_Ok%bool_decide_eq_true & _). by subst.
Qed.

Lemma store_pending_bundle_frame s h b s' :
  store_pending_bundle s h b = Ok s' → peg_frame s s'.
Proof. unfold store_pending_bundle. intros (st & _ & Hok)%bind_Ok. by injection Hok as <-. Qed.

Lemma drop_pending_bundle_frame s h s' : drop_pending_bundle s h = Ok s' → peg_frame s s'.
Proof.
  unfold drop_pending_bundle. destruct (pending_withdrawal_bundle s); [|intros [= <-]; apply peg_frame_refl].
  intros ([b st] & _ & Hok)%bind_Ok. case_bool_decide; injection Hok as <-; [|apply peg_frame_refl].
  unfold put_or_delete_bundle. by destruct (pop st).1.
Qed.

(** The chain position is not touched, and the new accumulator is returned. *)
Lemma peg_connect_Ok iv s data s' acc :
  peg_connect iv s data = Ok (s', acc) →
  tip s' = tip s ∧ height s' = height s ∧ orchard s' = orchard s ∧ utreexo_accumulator s' = Some acc.
Proof.
  unfold peg_connect. intros (h & _ & Hok)%bind_Ok. apply bind_Ok in Hok as (acc0 & _ & Hok).
  apply bind_Ok in Hok as (ea & Hloop & Hok). apply bind_Ok in Hok as (lf & _ & Hok).
  apply bind_Ok in Hok as (s1 & Hs1 & Hok). apply bind_Ok in Hok as (acc1 & _ & Hok).
  injection Hok as <- <-. rewrite connect_blocks_flat in Hloop.
  apply events_frame, peg_frame_fields in Hloop as (Ht & Hh & Ho & _); [|apply connect_event_frame].
  match type of Hs1 with (if _ then bundle ← collect_withdrawal_bundle _ ?x _; _ else _) = _ => set (s0 := x) in * end.
  assert (tip s0 = tip s ∧ height s0 = height s ∧ orchard s0 = orchard s) as (Ht0 & Hh0 & Ho0).
  { unfold s0. by destruct (ea_bundle_block ea), (ea_deposit_block ea). }
  assert (peg_frame s0 s1) as (Ht1 & Hh1 & Ho1 & _)%peg_frame_fields.
  { destruct (_ && _); [|injection Hs1 as <-; apply peg_frame_refl].
    apply bind_Ok in Hs1 as ([b|] & _ & Hs1); [by eapply store_pending_bundle_frame|].
    injection Hs1 as <-. apply peg_frame_refl. }
  simpl. rewrite Ht1, Hh1, Ho1. done.
Qed.

Lemma peg_disconnect_Ok s data s' :
  peg_disconnect s data = Ok s' →
  tip s' = tip s ∧ height s' = height s ∧ orchard s' = orchard s.
Proof.
  unfold peg_disconnect. intros (h & _ & Hok)%bind_Ok. apply bind_Ok in Hok as (acc0 & _ & Hok).
  apply bind_Ok in Hok as (ea & Hloop & Hok). apply bind_Ok in Hok as (s1 & Hs1 & Hok).
  apply bind_Ok in Hok as (lf & _ & Hok). apply bind_Ok in Hok as (s2 & Hs2 & Hok).
  apply bind_Ok in Hok as (s3 & Hs3 & Hok). apply bind_Ok in Hok as (acc1 & _ & Hok).
  injection Hok as <-. rewrite disconnect_blocks_flat in Hloop.
  apply events_frame, peg_frame_fields in Hloop as (Ht & Hh & Ho & _); [|apply disconnect_event_frame].
  assert (tip s1 = tip s ∧ height s1 = height s ∧ orchard s1 = orchard s) as (Ht1 & Hh1 & Ho1).
  { destruct (ea_bundle_block ea); [|by injection Hs1 as <-].
    apply bind_Ok in Hs1 as (w & _ & Hs1). by injection Hs1 as <-. }
  assert (peg_frame s1 s2) as (Ht2 & Hh2 & Ho2 & _)%peg_frame_fields.
  { destruct (failure_gap_passed h lf); [by eapply drop_pending_bundle_frame|].
    injection Hs2 as <-. apply peg_frame_refl. }
  assert (tip s3 = tip s2 ∧ height s3 = height s2 ∧ orchard s3 = orchard s2) as (Ht3 & Hh3 & Ho3).
  { destruct (ea_deposit_block ea); [|by injection Hs3 as <-].
    apply bind_Ok in Hs3 as (w & _ & Hs3). by injection Hs3 as <-. }
  simpl. rewrite Ht3, Hh3, Ho3, Ht2, Hh2, Ho2. done.
Qed.
End whole.

(** ** Properties *)
Section properties.
Context `{E : Externals}.

(** C25: Withdrawal bundles follow their state machine: every withdrawal
    bundle event that connects moves the status of its own bundle along
    [event_transition] (so a confirmed bundle can never be submitted, fail, or
    be unconfirmed by an event) and leaves every other bundle alone. *)
Theorem bundle_event_transition (s : State) (h : Z) (d : AccumulatorDiff) (bh : BtcBlockHash)
    (ev : WithdrawalBundleEvent) (s' : State) (d' : AccumulatorDiff)
    (Hok : connect_withdrawal_bundle_event s h d bh ev = Ok (s', d')) :
  ∃ st', event_transition (ev_status ev) (bundle_state s (ev_m6id ev)) st'
    ∧ bundle_state s' (ev_m6id ev) = Some st'
    ∧ ∀ m', m' ≠ ev_m6id ev → withdrawal_bundles s' !! m' = withdrawal_bundles s !! m'.
Proof. by eapply connect_event_transition. Qed.

(** Disconnecting the events of a block undoes connecting them: if all
    deposits and withdrawal bundle events of a range of mainchain blocks
    connect and each of them took effect, then disconnecting the blocks in
    reverse order succeeds on the resulting state, whatever happened meanwhile
    to tip, accumulator, orchard and the event block tables, and restores the
    utxos, the stxos, the pending bundle, the bundles with their status
    histories and the failure history exactly. *)
Theorem disconnect_events_undo (h : Z) (acc acc' : EventAcc)
    (bs : list (BtcBlockHash * BlockInfo)) (base : State) (t : EventAcc)
    (Hconnect : foldR (connect_block_events h) acc bs = Ok acc')
    (Heff : effective_run h acc (flat_events bs))
    (Ht : ea_state t = peg_graft base (ea_state acc')) :
  ∃ t', foldR (disconnect_block_events h) t (reverse bs) = Ok t'
    ∧ ea_state t' = peg_graft base (ea_state acc).
Proof. by eapply events_undo. Qed.

(** C26: A collected withdrawal bundle is sound: every output it spends is an
    unspent withdrawal of the state, the mainchain outputs it creates pay out
    exactly the value of those withdrawals, and its transaction respects the
    standard weight limit. *)
Theorem collected_bundle_sound `{!ConsensusSizes, !BtcTxLaws}
    (iv : gmap MainAddress AggregatedWithdrawal → list AggregatedWithdrawal)
    (s : State) (h : Z) (b : WithdrawalBundle)
    (Hiv : iterates_values iv) (Hok : collect_withdrawal_bundle iv s h = Ok (Some b)) :
  (∀ o u, spend_utxos b !! o = Some u →
     utxos s !! OutPointKey_from o = Some u ∧ ∃ a, withdrawn_to a u)
  ∧ sumZ (txo_value <$> drop 2 (btx_output (bundle_tx b)))
    = osum withdrawal_amount (spend_utxos b)
  ∧ (tx_weight (bundle_tx b) ≤ max_standard_tx_weight)%Z.
Proof. by eapply collect_withdrawal_bundle_Ok. Qed.

(** All nodes collect the same bundle: the result of
    [collect_withdrawal_bundle] does not depend on the iteration order of the
    hash map that aggregates the withdrawals. *)
Theorem collect_deterministic `{!AddressOrder}
    (iv iv' : gmap MainAddress AggregatedWithdrawal → list AggregatedWithdrawal)
    (s : State) (h : Z) (Hiv : iterates_values iv) (Hiv' : iterates_values iv') :
  collect_withdrawal_bundle iv s h = collect_withdrawal_bundle iv' s h.
Proof. by apply collect_order_irrelevant. Qed.

(** The block hash recorded for the deposits: connecting records the
    latest mainchain block of the data that has a deposit
    ([TwoWayPegData::latest_deposit_block_hash]), but disconnecting, which goes
    through the blocks backwards, ends with the earliest one. *)
Theorem deposit_block_directions (h : Z) (acc acc' : EventAcc) (data : TwoWayPegData)
    (Hnone : ea_deposit_block acc = None) :
  (foldR (connect_block_events h) acc (block_info data) = Ok acc' →
     ea_deposit_block acc' = latest_deposit_block_hash data)
  ∧ (foldR (disconnect_block_events h) acc (reverse (block_info data)) = Ok acc' →
     ea_deposit_block acc' = fst <$> head (deposit_blocks_of data)).
Proof.
  destruct data as [bs]. cbn [block_info].
  destruct (deposit_blocks_hashes bs) as [Hlast Hhead]. split.
  - rewrite connect_blocks_flat. intros [-> _]%hashes_loop; [|by apply connect_event_hashes].
    rewrite Hnone, Hlast. unfold latest_deposit_block_hash. by destruct (_ <$> _).
  - rewrite disconnect_blocks_flat. intros [-> _]%hashes_loop; [|by apply disconnect_event_hashes].
    rewrite Hnone, omap_reverse, last_reverse', Hhead. by destruct (deposit_blocks_of _).
Qed.

(** C32: Consequently a range whose deposits are in two or more mainchain
    blocks can never be disconnected: when the recorded deposit block is the
    latest one of the data, as [connect] leaves it, and the earliest one is
    another block, [disconnect] fails. *)
Theorem multi_block_deposits_not_disconnectable (s : State) (data : TwoWayPegData)
    (i ht : Z) (first latest : BtcBlockHash)
    (Hrecorded : seq_last (deposit_blocks s) = Some (i, (latest, ht)))
    (Hlatest : latest_deposit_block_hash data = Some latest)
    (Hfirst : fst <$> head (deposit_blocks_of data) = Some first) (Hne : first ≠ latest) :
  is_ok (peg_disconnect s data) = false.
Proof. by eapply multi_block_stuck. Qed.

(** The sequential keys run out after 256 blocks: with bincode's
    little-endian keys, LMDB's last key of a full table 0..255, and also of
    0..256, is 255, so every further deposit block is written over key 256 and
    the one before it is lost, and the last deposit block reported is the
    stale entry 255. *)
Theorem seq_push_loses_blocks (m : gmap Z (BtcBlockHash * Z)) (v255 v w : BtcBlockHash * Z)
    (Hle : bincode_little_endian) (H255 : m !! 255%Z = Some v255)
    (Hkeys : ∀ k, is_Some (m !! k) → (0 ≤ k < 256)%Z) :
  seq_push m v = <[256%Z := v]> m
  ∧ seq_push (seq_push m v) w = <[256%Z := w]> m
  ∧ seq_last (seq_push m v) = Some (255%Z, v255).
Proof.
  assert (seq_push m v = <[256%Z := v]> m) as Hpush.
  { unfold seq_push. rewrite (seq_last_255 m v255); [done..|].
    intros k Hk. specialize (Hkeys k Hk). lia. }
  assert (seq_last (<[256%Z := v]> m) = Some (255%Z, v255)) as Hlast.
  { apply seq_last_255; [done|by rewrite lookup_insert_ne|].
    intros k [x Hx]. apply lookup_insert_Some in Hx as [[<- _]|[_ Hx]]; [lia|].
    specialize (Hkeys k ltac:(by eexists)). lia. }
  rewrite Hpush. split_and!; [done| |done].
  unfold seq_push. rewrite Hlast. change (wrap32 (255 + 1)) with 256%Z.
  by rewrite insert_insert_eq.
Qed.

(** The outputs of a pending bundle are not reserved: when one of them
    has been spent, the mainchain's submission of that bundle cannot be
    connected, and the node stops with [NoUtxo]. *)
Theorem submitted_pending_needs_utxos (s : State) (h : Z) (d : AccumulatorDiff)
    (bh : BtcBlockHash) (m : M6id) (b : WithdrawalBundle) (st : BundleStatus)
    (o : OutPoint) (u : Output)
    (Hpending : pending_withdrawal_bundle s = Some m)
    (Hbundle : withdrawal_bundles s !! m = Some (Known b, st))
    (Ho : spend_utxos b !! o = Some u) (Hspent : utxos s !! OutPointKey_from o = None) :
  ∃ o', connect_withdrawal_bundle_submitted s h d bh m = Err (CWBS_NoUtxo o').
Proof.
  unfold connect_withdrawal_bundle_submitted. rewrite bool_decide_true by done.
  rewrite Hbundle. cbn [ok_or mbind res_bind].
  assert (∃ o', foldR (spend_bundle_output CWBS_NoUtxo m) (s, d) (btree_iter (spend_utxos b))
    = Err (CWBS_NoUtxo o')) as (o' & ->); [|by exists o'].
  apply elem_of_btree_iter in Ho. revert s d Hspent Hpending Hbundle Ho.
  generalize (btree_iter (spend_utxos b)) as l. induction l as [|[o1 u1] l IH];
    intros s d Hspent Hp Hb Ho; [by apply elem_of_nil in Ho|].
  cbn [foldR spend_bundle_output fst].
  case_bool_decide as H1; [|by eexists]. cbn [guard_err mbind res_bind].
  apply elem_of_cons in Ho as [[= <- <-]|Ho]; [rewrite Hspent in H1; by destruct H1|].
  apply IH; [|done..]. simpl. rewrite lookup_delete. by case_decide.
Qed.
End properties.

(** ** Witnesses *)
Module TwoWayPegToy.
#[local] Existing Instance Toy.externals.
Import WithdrawalBundleToy StateToy.

Definition payout : Output := mk_Output alice_addr (Withdrawal 500 3 [x01]).
Definition bundle1 : WithdrawalBundle :=
  mk_WithdrawalBundle (<[op 1 := payout]> ∅) (mk_BtcTransaction 2 0 [] [mk_TxOut 500 [x01]]).
Definition values_of : gmap MainAddress AggregatedWithdrawal → list AggregatedWithdrawal :=
  λ m, (map_to_list m).*2.
Definition values_back : gmap MainAddress AggregatedWithdrawal → list AggregatedWithdrawal :=
  λ m, reverse (map_to_list m).*2.

Lemma values_of_iterates : iterates_values values_of.
Proof. by intros m. Qed.
Lemma values_back_iterates : iterates_values values_back.
Proof. intros m. apply reverse_Permutation. Qed.

(** One withdrawal, in a bundle pending since height 5. *)
Definition pending_state : State :=
  mk_State (Some (h 77)) (Some 6%Z) (<[OutPointKey_from (op 1) := payout]> ∅) ∅
    (Some (h 40)) None (<[h 40 := (Known bundle1, RollBack_new Pending 5)]> ∅)
    (<[0%Z := (h 61, 6%Z)]> ∅) ∅ orchard0 (Some (mk_Accumulator leaves)).

Definition deposit1 : DepositEvent := mk_DepositEvent 0 (mk_BtcOutPoint (h 9) (u32_of_Z 0)) (coin 7).
Definition deposit2 : DepositEvent := mk_DepositEvent 3 (mk_BtcOutPoint (h 9) (u32_of_Z 1)) (coin 8).
Definition submitted1 : WithdrawalBundleEvent := mk_WithdrawalBundleEvent (h 40) EvSubmitted.
Definition data1 : TwoWayPegData := mk_TwoWayPegData
  [(h 60, mk_BlockInfo None [EvDeposit deposit1]);
   (h 61, mk_BlockInfo None [EvWithdrawalBundle submitted1; EvDeposit deposit2])].
Definition start (s : State) : EventAcc := mk_EventAcc s AccumulatorDiff_default None None.

Definition run_state {Err} (m : Res Err (State * AccumulatorDiff)) : State :=
  match m with Ok (s, _) => s | _ => pending_state end.
Definition run_diff {Err} (m : Res Err (State * AccumulatorDiff)) : AccumulatorDiff :=
  match m with Ok (_, d) => d | _ => AccumulatorDiff_default end.
Definition run_acc {Err} (m : Res Err EventAcc) : EventAcc :=
  match m with Ok a => a | _ => start pending_state end.

Lemma run_pair_ok {Err} (m : Res Err (State * AccumulatorDiff)) :
  is_ok m = true → m = Ok (run_state m, run_diff m).
Proof. by destruct m as [[? ?]| |]. Qed.
Lemma run_acc_ok {Err} (m : Res Err EventAcc) : is_ok m = true → m = Ok (run_acc m).
Proof. by destruct m. Qed.

Lemma submitted1_ok : is_ok (connect_withdrawal_bundle_event pending_state 6
  AccumulatorDiff_default (h 61) submitted1) = true.
Proof. vm_compute. reflexivity. Qed.

Lemma bundle_event_transition_witness :
  bundle_state (run_state (connect_withdrawal_bundle_event pending_state 6
    AccumulatorDiff_default (h 61) submitted1)) (h 40) = Some Submitted.
Proof.
  destruct (bundle_event_transition pending_state 6 AccumulatorDiff_default (h 61) submitted1
    _ _ (run_pair_ok _ submitted1_ok)) as (st & Htr & Hst & _).
  rewrite <- (eq_refl : ev_m6id submitted1 = h 40), Hst. f_equal. revert Htr.
  assert (bundle_state pending_state (ev_m6id submitted1) = Some Pending) as ->
    by (vm_compute; reflexivity).
  by inversion 1.
Defined.

Definition acc_is_none (a : Res Error EventAcc) (d : DepositEvent) : bool :=
  match a with
  | Ok a => bool_decide (utxos (ea_state a) !! pointed_key (deposit_pointed d) = None)
  | _ => false
  end.

Lemma acc_is_none_ok m d a :
  acc_is_none m d = true → m = Ok a → event_effective (ea_state a) (EvDeposit d).
Proof. intros Hm ->. by apply bool_decide_eq_true in Hm. Qed.

Lemma effective1 : effective_run 6 (start pending_state) (flat_events (block_info data1)).
Proof.
  split; [apply (bool_decide_unpack _); vm_compute; exact I|]. intros a1 Ha1. injection Ha1 as <-.
  split.
  - intros b st Hb _.
    assert (withdrawal_bundles pending_state !! h 40
      = Some (Known bundle1, RollBack_new Pending 5)) as Hl by apply lookup_insert_eq.
    change (withdrawal_bundles pending_state !! h 40 = Some (Known b, st)) in Hb.
    rewrite Hl in Hb. injection Hb as <- _. intros o u Ho.
    cbn [spend_utxos bundle1] in Ho. apply lookup_insert_Some in Ho as [[<- <-]|[_ Ho]]; [|by rewrite lookup_empty in Ho].
    split; apply (bool_decide_unpack _); vm_compute; exact I.
  - intros a2 Ha2. split; [|done]. eapply acc_is_none_ok; [|exact Ha2].
    vm_compute. reflexivity.
Qed.

Lemma connected1 : foldR (connect_block_events 6) (start pending_state) (block_info data1)
  = Ok (run_acc (foldR (connect_block_events 6) (start pending_state) (block_info data1))).
Proof. apply run_acc_ok. vm_compute. reflexivity. Qed.

Lemma disconnect_events_undo_witness :
  ∃ t', foldR (disconnect_block_events 6)
      (run_acc (foldR (connect_block_events 6) (start pending_state) (block_info data1)))
      (reverse (block_info data1)) = Ok t'
    ∧ utxos (ea_state t') = utxos pending_state
    ∧ withdrawal_bundles (ea_state t') = withdrawal_bundles pending_state.
Proof.
  destruct (disconnect_events_undo 6 (start pending_state) _ (block_info data1) _ _
    connected1 effective1 (peg_graft_refl _)) as (t' & Ht' & Hs).
  exists t'. split; [exact Ht'|]. rewrite Hs. split; reflexivity.
Defined.

Definition pays (m : Res Error (option WithdrawalBundle)) (v : Z) : bool :=
  match m with
  | Ok (Some b) => (osum withdrawal_amount (spend_utxos b) =? v)%Z
  | _ => false
  end.
Lemma pays_ok m v : pays m v = true →
  ∃ b, m = Ok (Some b) ∧ osum withdrawal_amount (spend_utxos b) = v.
Proof. destruct m as [[b|]| |]; [|done..]. intros Hv%Z.eqb_eq. by exists b. Qed.

Lemma collected1 : ∃ b, collect_withdrawal_bundle values_of pending_state 6 = Ok (Some b)
  ∧ osum withdrawal_amount (spend_utxos b) = 500%Z.
Proof. apply pays_ok. vm_compute. reflexivity. Qed.

Lemma collected_bundle_sound_witness :
  ∃ b, collect_withdrawal_bundle values_of pending_state 6 = Ok (Some b)
    ∧ sumZ (txo_value <$> drop 2 (btx_output (bundle_tx b))) = 500%Z.
Proof.
  destruct collected1 as (b & Hok & Hv). exists b. split; [exact Hok|].
  etransitivity; [|exact Hv].
  exact (proj1 (proj2 (collected_bundle_sound values_of pending_state 6 b values_of_iterates Hok))).
Defined.

Lemma collect_deterministic_witness :
  collect_withdrawal_bundle values_of pending_state 6
  = collect_withdrawal_bundle values_back pending_state 6.
Proof.
  apply (collect_deterministic values_of values_back pending_state 6 values_of_iterates
    values_back_iterates).
Defined.

Lemma deposit_block_directions_witness :
  latest_deposit_block_hash data1 = Some (h 61)
  ∧ ea_deposit_block (run_acc (foldR (connect_block_events 6) (start pending_state)
      (block_info data1))) = Some (h 61)
  ∧ fst <$> head (deposit_blocks_of data1) = Some (h 60).
Proof.
  split_and!; [done| |done].
  apply (proj1 (deposit_block_directions 6 (start pending_state) _ data1 eq_refl)).
  exact connected1.
Defined.

Lemma multi_block_deposits_not_disconnectable_witness :
  is_ok (peg_disconnect pending_state data1) = false.
Proof.
  apply (multi_block_deposits_not_disconnectable pending_state data1 0 6 (h 60) (h 61));
    [|done|done|]; apply (bool_decide_unpack _); vm_compute; exact I.
Defined.

Definition full_table : gmap Z (BtcBlockHash * Z) :=
  list_to_map ((λ k, (Z.of_nat k, (h (Z.of_nat k), 0%Z))) <$> seq 0 256).

Lemma seq_push_loses_blocks_witness :
  seq_push (seq_push full_table (h 300, 1%Z)) (h 301, 2%Z) !! 256%Z = Some (h 301, 2%Z)
  ∧ seq_last (seq_push full_table (h 300, 1%Z)) = Some (255%Z, (h 255, 0%Z)).
Proof.
  destruct (seq_push_loses_blocks full_table (h 255, 0%Z) (h 300, 1%Z) (h 301, 2%Z))
    as (_ & Hw & Hl).
  - by intros z.
  - apply (bool_decide_unpack _). vm_compute. exact I.
  - intros k [v Hv]. apply elem_of_list_to_map_2, list_elem_of_fmap in Hv as (n & [= -> ->] & Hn).
    apply elem_of_seq in Hn. lia.
  - split; [|done]. rewrite Hw. apply lookup_insert_eq.
Defined.

(** The pending withdrawal has been spent. *)
Definition robbed_state : State := with_txos pending_state ∅ ∅.

Lemma submitted_pending_needs_utxos_witness :
  ∃ o', connect_withdrawal_bundle_submitted robbed_state 6 AccumulatorDiff_default (h 61) (h 40)
    = Err (CWBS_NoUtxo o').
Proof.
  apply (submitted_pending_needs_utxos robbed_state 6 AccumulatorDiff_default (h 61) (h 40)
    bundle1 (RollBack_new Pending 5) (op 1) payout);
    first [reflexivity | apply lookup_insert_eq].
Defined.
End TwoWayPegToy.
