(* ===== verification/Archive.v ===== *)
(** The archive ([src/lib/archive.rs]): all headers, bodies, mainchain headers
    and block infos the node has seen, with the tables to search them.

    The databases are finite maps.  Two things are left open, as parameters:
    the order in which hash sets and hash maps are iterated ([iter_set],
    [iter_bmm]), and the addition of [bitcoin::Work] ([work_add]); work is
    compared as the 256-bit integer it wraps. *)
From S2P Require Import Prelude.
From S2P Require Import Borsh.
From S2P Require Import Externals.
From S2P Require Import Types.
From S2P Require Import AccumulatorDiff.
From S2P Require Import TwoWayPeg.
From S2P Require Import Lineage.

Section archive.
Context `{E : Externals}.

(** ** Data *)
Inductive ArchiveError :=
  | ADb
  | IncompatibleVersion (version : Z * Z * Z)
  | InvalidMerkleRoot
  | InvalidPrevSideHash
  | NoAccumulator (b : BlockHash)
  | NoAncestor (block_hash : BlockHash) (depth : Z)
  | NoMainAncestor (block_hash : BtcBlockHash) (depth : Z)
  | NoBlockHash (b : BlockHash)
  | NoBmmResult (b : BlockHash)
  | NoBody (b : BlockHash)
  | NoDepositsInfo (b : BtcBlockHash)
  | NoHeader (b : BlockHash)
  | NoHeight (b : BlockHash)
  | NoMainBlockHash (b : BtcBlockHash)
  | NoMainBlockInfo (b : BtcBlockHash)
  | NoMainHeaderInfo (b : BtcBlockHash)
  | NoMainHeight (b : BtcBlockHash).

Inductive BmmResult := BmmVerified | BmmFailed.

#[export] Instance BmmResult_eq_dec : EqDecision BmmResult.
Proof. solve_decision. Defined.

(** [bitcoin::Work], a 256-bit integer. *)
Abbreviation Work := Z.

Record BlockHeaderInfo := mk_BlockHeaderInfo {
  hi_block_hash : BtcBlockHash;
  hi_prev_block_hash : BtcBlockHash;
  hi_height : Z;
  hi_work : Work
}.

Record Tip := mk_Tip { tip_block_hash : BlockHash; tip_main_block_hash : BtcBlockHash }.

#[export] Instance Tip_eq_dec : EqDecision Tip.
Proof. solve_decision. Defined.

Record Archive := mk_Archive {
  accumulators : gmap (option BlockHash) Accumulator;
  block_hash_to_height : gmap BlockHash Z;
  bmm_results : gmap BlockHash (gmap BtcBlockHash BmmResult);
  bodies : gmap BlockHash Body;
  exponential_ancestors : gmap BlockHash (list BlockHash);
  exponential_main_ancestors : gmap BtcBlockHash (list BtcBlockHash);
  headers : gmap BlockHash Header;
  main_block_hash_to_height : gmap BtcBlockHash Z;
  main_block_infos : gmap BtcBlockHash BlockInfo;
  main_header_infos : gmap BtcBlockHash BlockHeaderInfo;
  main_successors : gmap BtcBlockHash (gset BtcBlockHash);
  orchard_frontiers : gmap (option BlockHash) Frontier;
  successors : gmap (option BlockHash) (gset BlockHash);
  total_work : gmap BtcBlockHash Work;
  txid_to_inclusions : gmap Txid (gmap BlockHash Z);
  archive_version : option (Z * Z * Z)
}.

(** [bitcoin::BlockHash::all_zeros()] *)
Definition all_zeros : BtcBlockHash := vreplicate 32 x00.

(** ** Writing to the databases *)
Definition with_accumulators (a : Archive) (m : gmap (option BlockHash) Accumulator) : Archive :=
  mk_Archive m (block_hash_to_height a) (bmm_results a) (bodies a) (exponential_ancestors a)
    (exponential_main_ancestors a) (headers a) (main_block_hash_to_height a) (main_block_infos a)
    (main_header_infos a) (main_successors a) (orchard_frontiers a) (successors a) (total_work a)
    (txid_to_inclusions a) (archive_version a).
Definition with_frontiers (a : Archive) (m : gmap (option BlockHash) Frontier) : Archive :=
  mk_Archive (accumulators a) (block_hash_to_height a) (bmm_results a) (bodies a)
    (exponential_ancestors a) (exponential_main_ancestors a) (headers a)
    (main_block_hash_to_height a) (main_block_infos a) (main_header_infos a) (main_successors a) m
    (successors a) (total_work a) (txid_to_inclusions a) (archive_version a).
Definition with_bodies (a : Archive) (m : gmap BlockHash Body)
    (i : gmap Txid (gmap BlockHash Z)) : Archive :=
  mk_Archive (accumulators a) (block_hash_to_height a) (bmm_results a) m
    (exponential_ancestors a) (exponential_main_ancestors a) (headers a)
    (main_block_hash_to_height a) (main_block_infos a) (main_header_infos a) (main_successors a)
    (orchard_frontiers a) (successors a) (total_work a) i (archive_version a).
Definition with_headers (a : Archive) (h : gmap BlockHash Z) (m : gmap BlockHash Header) : Archive :=
  mk_Archive (accumulators a) h (bmm_results a) (bodies a) (exponential_ancestors a)
    (exponential_main_ancestors a) m (main_block_hash_to_height a) (main_block_infos a)
    (main_header_infos a) (main_successors a) (orchard_frontiers a) (successors a) (total_work a)
    (txid_to_inclusions a) (archive_version a).
Definition with_successors (a : Archive) (m : gmap (option BlockHash) (gset BlockHash)) : Archive :=
  mk_Archive (accumulators a) (block_hash_to_height a) (bmm_results a) (bodies a)
    (exponential_ancestors a) (exponential_main_ancestors a) (headers a)
    (main_block_hash_to_height a) (main_block_infos a) (main_header_infos a) (main_successors a)
    (orchard_frontiers a) m (total_work a) (txid_to_inclusions a) (archive_version a).
Definition with_exponential (a : Archive) (m : gmap BlockHash (list BlockHash)) : Archive :=
  mk_Archive (accumulators a) (block_hash_to_height a) (bmm_results a) (bodies a) m
    (exponential_main_ancestors a) (headers a) (main_block_hash_to_height a) (main_block_infos a)
    (main_header_infos a) (main_successors a) (orchard_frontiers a) (successors a) (total_work a)
    (txid_to_inclusions a) (archive_version a).
Definition with_bmm_results (a : Archive)
    (m : gmap BlockHash (gmap BtcBlockHash BmmResult)) : Archive :=
  mk_Archive (accumulators a) (block_hash_to_height a) m (bodies a) (exponential_ancestors a)
    (exponential_main_ancestors a) (headers a) (main_block_hash_to_height a) (main_block_infos a)
    (main_header_infos a) (main_successors a) (orchard_frontiers a) (successors a) (total_work a)
    (txid_to_inclusions a) (archive_version a).
Definition with_main_block_infos (a : Archive) (m : gmap BtcBlockHash BlockInfo) : Archive :=
  mk_Archive (accumulators a) (block_hash_to_height a) (bmm_results a) (bodies a)
    (exponential_ancestors a) (exponential_main_ancestors a) (headers a)
    (main_block_hash_to_height a) m (main_header_infos a) (main_successors a)
    (orchard_frontiers a) (successors a) (total_work a) (txid_to_inclusions a) (archive_version a).
Definition with_main_headers (a : Archive) (h : gmap BtcBlockHash Z)
    (m : gmap BtcBlockHash BlockHeaderInfo) (w : gmap BtcBlockHash Work) : Archive :=
  mk_Archive (accumulators a) (block_hash_to_height a) (bmm_results a) (bodies a)
    (exponential_ancestors a) (exponential_main_ancestors a) (headers a) h (main_block_infos a) m
    (main_successors a) (orchard_frontiers a) (successors a) w (txid_to_inclusions a)
    (archive_version a).
Definition with_main_successors (a : Archive)
    (m : gmap BtcBlockHash (gset BtcBlockHash)) : Archive :=
  mk_Archive (accumulators a) (block_hash_to_height a) (bmm_results a) (bodies a)
    (exponential_ancestors a) (exponential_main_ancestors a) (headers a)
    (main_block_hash_to_height a) (main_block_infos a) (main_header_infos a) m
    (orchard_frontiers a) (successors a) (total_work a) (txid_to_inclusions a) (archive_version a).
Definition with_main_exponential (a : Archive)
    (m : gmap BtcBlockHash (list BtcBlockHash)) : Archive :=
  mk_Archive (accumulators a) (block_hash_to_height a) (bmm_results a) (bodies a)
    (exponential_ancestors a) m (headers a) (main_block_hash_to_height a) (main_block_infos a)
    (main_header_infos a) (main_successors a) (orchard_frontiers a) (successors a) (total_work a)
    (txid_to_inclusions a) (archive_version a).
Definition with_version (a : Archive) (v : Z * Z * Z) : Archive :=
  mk_Archive (accumulators a) (block_hash_to_height a) (bmm_results a) (bodies a)
    (exponential_ancestors a) (exponential_main_ancestors a) (headers a)
    (main_block_hash_to_height a) (main_block_infos a) (main_header_infos a) (main_successors a)
    (orchard_frontiers a) (successors a) (total_work a) (txid_to_inclusions a) (Some v).

(** ** Opening *)
Definition Archive_empty_dbs : Archive := mk_Archive ∅ ∅ ∅ ∅ ∅ ∅ ∅ ∅ ∅ ∅ ∅ ∅ ∅ ∅ ∅ None.

(** Derived [Ord] of [Version]. *)
Definition version_lt (v w : Z * Z * Z) : bool :=
  let '(a, b, c) := v in let '(a', b', c') := w in
  (a <? a')%Z || ((a =? a')%Z && ((b <? b')%Z || ((b =? b')%Z && (c <? c')%Z))).

(** [if db.try_get(k).is_none() { db.put(k, v) }] *)
Definition put_missing {K A} `{Countable K} (k : K) (v : A) (m : gmap K A) : gmap K A :=
  match m !! k with Some _ => m | None => <[k := v]> m end.

Definition Archive_new (VERSION : Z * Z * Z) (dbs : Archive) : Res ArchiveError Archive :=
  dbs ← match archive_version dbs with
    | Some db_version =>
        if version_lt db_version (0, 16, 0)%Z then Err (IncompatibleVersion db_version) else Ok dbs
    | None => Ok (with_version dbs VERSION)
    end;
  let dbs := with_accumulators dbs (put_missing None Accumulator_default (accumulators dbs)) in
  let dbs := with_main_successors dbs (put_missing all_zeros ∅ (main_successors dbs)) in
  let dbs := with_frontiers dbs (put_missing None frontier_empty (orchard_frontiers dbs)) in
  Ok (with_successors dbs (put_missing None ∅ (successors dbs))).

(** ** Reading *)
Definition try_get_accumulator (a : Archive) (b : option BlockHash) : option Accumulator :=
  accumulators a !! b.
Definition get_accumulator (a : Archive) (b : option BlockHash) : Res ArchiveError Accumulator :=
  match try_get_accumulator a b, b with
  | Some acc, _ => Ok acc
  | None, Some b => Err (NoAccumulator b)
  | None, None => Panic
  end.
Definition try_get_height (a : Archive) (b : BlockHash) : option Z := block_hash_to_height a !! b.
Definition get_height (a : Archive) (b : BlockHash) : Res ArchiveError Z :=
  ok_or (try_get_height a b) (NoHeight b).
Definition get_bmm_results (a : Archive) (b : BlockHash) : gmap BtcBlockHash BmmResult :=
  default ∅ (bmm_results a !! b).
Definition try_get_bmm_result (a : Archive) (b : BlockHash) (m : BtcBlockHash) :
    option BmmResult := get_bmm_results a b !! m.
Definition get_bmm_result (a : Archive) (b : BlockHash) (m : BtcBlockHash) :
    Res ArchiveError BmmResult := ok_or (try_get_bmm_result a b m) (NoBmmResult b).
Definition try_get_body (a : Archive) (b : BlockHash) : option Body := bodies a !! b.
Definition get_body (a : Archive) (b : BlockHash) : Res ArchiveError Body :=
  ok_or (try_get_body a b) (NoBody b).
Definition try_get_header (a : Archive) (b : BlockHash) : option Header := headers a !! b.
Definition get_header (a : Archive) (b : BlockHash) : Res ArchiveError Header :=
  ok_or (try_get_header a b) (NoHeader b).
Definition try_get_main_block_info (a : Archive) (m : BtcBlockHash) : option BlockInfo :=
  main_block_infos a !! m.
Definition get_main_block_info (a : Archive) (m : BtcBlockHash) : Res ArchiveError BlockInfo :=
  ok_or (try_get_main_block_info a m) (NoMainBlockInfo m).
Definition try_get_main_height (a : Archive) (m : BtcBlockHash) : option Z :=
  if bool_decide (m = all_zeros) then Some 0%Z else main_block_hash_to_height a !! m.
Definition get_main_height (a : Archive) (m : BtcBlockHash) : Res ArchiveError Z :=
  ok_or (try_get_main_height a m) (NoMainHeight m).
Definition try_get_main_header_info (a : Archive) (m : BtcBlockHash) : option BlockHeaderInfo :=
  main_header_infos a !! m.
Definition get_main_header_info (a : Archive) (m : BtcBlockHash) :
    Res ArchiveError BlockHeaderInfo :=
  ok_or (try_get_main_header_info a m) (NoMainHeaderInfo m).
Definition try_get_main_successors (a : Archive) (m : BtcBlockHash) :
    option (gset BtcBlockHash) := main_successors a !! m.
Definition get_main_successors (a : Archive) (m : BtcBlockHash) :
    Res ArchiveError (gset BtcBlockHash) :=
  ok_or (try_get_main_successors a m) (NoMainBlockHash m).
Definition try_get_successors (a : Archive) (b : option BlockHash) : option (gset BlockHash) :=
  successors a !! b.
Definition get_successors (a : Archive) (b : option BlockHash) :
    Res ArchiveError (gset BlockHash) :=
  match try_get_successors a b, b with
  | Some s, _ => Ok s
  | None, Some b => Err (NoBlockHash b)
  | None, None => Panic
  end.
Definition try_get_total_work (a : Archive) (m : BtcBlockHash) : option Work := total_work a !! m.
Definition get_total_work (a : Archive) (m : BtcBlockHash) : Res ArchiveError Work :=
  ok_or (try_get_total_work a m) (NoMainHeaderInfo m).
Definition get_tx_inclusions (a : Archive) (txid : Txid) : gmap BlockHash Z :=
  default ∅ (txid_to_inclusions a !! txid).

(** ** Ancestors *)
Definition side_lineage (a : Archive) : Lineage ArchiveError BlockHash := {|
  lin_height := get_height a;
  lin_parent b := header ← get_header a b; expect (prev_side_hash header);
  lin_exp b := ok_or (exponential_ancestors a !! b) ADb;
  lin_no_ancestor := NoAncestor
|}.
Definition main_lineage (a : Archive) : Lineage ArchiveError BtcBlockHash := {|
  lin_height := get_main_height a;
  lin_parent m := header_info ← get_main_header_info a m; Ok (hi_prev_block_hash header_info);
  lin_exp m := ok_or (exponential_main_ancestors a !! m) ADb;
  lin_no_ancestor := NoMainAncestor
|}.

Definition get_nth_ancestor (a : Archive) (b : BlockHash) (n : Z) : Res ArchiveError BlockHash :=
  nth_ancestor (side_lineage a) b n.
Definition get_nth_main_ancestor (a : Archive) (m : BtcBlockHash) (n : Z) :
    Res ArchiveError BtcBlockHash := nth_ancestor (main_lineage a) m n.

Definition get_block_locator (a : Archive) (b : BlockHash) : Res ArchiveError (list BlockHash) :=
  header ← get_header a b;
  res ← ok_or (exponential_ancestors a !! b) ADb;
  Ok (match prev_side_hash header with
      | Some parent => reverse (reverse res ++ [parent])
      | None => res
      end).

Definition is_descendant (a : Archive) (ancestor descendant : BlockHash) : Res ArchiveError bool :=
  descends (side_lineage a) ancestor descendant.
Definition is_main_descendant (a : Archive) (ancestor descendant : BtcBlockHash) :
    Res ArchiveError bool := descends (main_lineage a) ancestor descendant.

Definition last_common_ancestor (a : Archive) (block_hash0 block_hash1 : BlockHash) :
    Res ArchiveError (option BlockHash) :=
  height0 ← get_height a block_hash0;
  height1 ← get_height a block_hash1;
  '(block_hash0, block_hash1, height) ←
    equalize (side_lineage a) block_hash0 block_hash1 height0 height1;
  if bool_decide (block_hash0 = block_hash1) then Ok (Some block_hash0)
  else
    oldest_ancestor_0 ← get_nth_ancestor a block_hash0 height;
    oldest_ancestor_1 ← get_nth_ancestor a block_hash1 height;
    if bool_decide (oldest_ancestor_0 = oldest_ancestor_1)
    then Some <$> bisect (side_lineage a) block_hash0 block_hash1 height
    else Ok None.

Definition last_common_main_ancestor (a : Archive) (block_hash0 block_hash1 : BtcBlockHash) :
    Res ArchiveError BtcBlockHash :=
  height0 ← get_main_height a block_hash0;
  height1 ← get_main_height a block_hash1;
  '(block_hash0, block_hash1, height) ←
    equalize (main_lineage a) block_hash0 block_hash1 height0 height1;
  if bool_decide (block_hash0 = block_hash1) then Ok block_hash0
  else bisect (main_lineage a) block_hash0 block_hash1 height.

Definition shared_mainchain_lineage (a : Archive) (block_hash0 block_hash1 : BtcBlockHash) :
    Res ArchiveError bool :=
  height0 ← get_main_height a block_hash0;
  height1 ← get_main_height a block_hash1;
  '(block_hash0, block_hash1, _) ←
    equalize (main_lineage a) block_hash0 block_hash1 height0 height1;
  Ok (bool_decide (block_hash0 = block_hash1)).

(** *** Iterating over ancestors *)

(** One step of [AncestorHeaders]; the state is the next block. *)
Definition AncestorHeaders_next (a : Archive) (block_hash : option BlockHash) :
    Res ArchiveError (option ((BlockHash * Header) * option BlockHash)) :=
  match block_hash with
  | None => Ok None
  | Some block_hash =>
      header ← get_header a block_hash;
      Ok (Some ((block_hash, header), prev_side_hash header))
  end.

(** There are no more ancestors than headers. *)
Definition ancestors_fuel (a : Archive) : nat := S (size (headers a)).

(** [ancestors(block_hash).find_map(f)] *)
Fixpoint find_map_loop {A} (fuel : nat) (a : Archive)
    (f : BlockHash → Res ArchiveError (option A)) (st : option BlockHash) :
    Res ArchiveError (option A) :=
  match fuel with
  | O => Panic
  | S fuel =>
      next ← AncestorHeaders_next a st;
      match next with
      | None => Ok None
      | Some ((b, _), st) =>
          r ← f b;
          match r with
          | Some x => Ok (Some x)
          | None => find_map_loop fuel a f st
          end
      end
  end.
Definition ancestors_find_map {A} (a : Archive) (b : BlockHash)
    (f : BlockHash → Res ArchiveError (option A)) : Res ArchiveError (option A) :=
  find_map_loop (ancestors_fuel a) a f (Some b).

Fixpoint missing_bodies_loop (fuel : nat) (a : Archive) (ancestor : option BlockHash)
    (st : option BlockHash) (res : list BlockHash) : Res ArchiveError (list BlockHash) :=
  match fuel with
  | O => Panic
  | S fuel =>
      next ← AncestorHeaders_next a st;
      match next with
      | None => Ok res
      | Some ((b, _), st) =>
          if bool_decide (ancestor = Some b) then Ok res
          else
            missing_bodies_loop fuel a ancestor st
              (match try_get_body a b with Some _ => res | None => res ++ [b] end)
      end
  end.
Definition get_missing_bodies (a : Archive) (b : BlockHash) (ancestor : option BlockHash) :
    Res ArchiveError (list BlockHash) :=
  res ← missing_bodies_loop (ancestors_fuel a) a ancestor (Some b) [];
  Ok (reverse res).

(** The iterator [AncestorsRev]: [ar_inner] is the end height and the buffer,
    newer-to-older. *)
Record AncestorsRev := mk_AncestorsRev {
  batch_start_height : option Z;
  ar_block_hash : BlockHash;
  ar_inner : option (Z * list (BlockHash * Header))
}.
Definition AncestorsRev_new (b : BlockHash) (start_height : Z) : AncestorsRev :=
  mk_AncestorsRev (Some start_height) b None.

Definition MAX_BATCH_SIZE : Z := 32.

(** [ancestor_headers(ancestor).take(n)], pushed to the buffer. *)
Fixpoint push_headers (n : nat) (a : Archive) (st : option BlockHash)
    (buffer : list (BlockHash * Header)) : Res ArchiveError (list (BlockHash * Header)) :=
  match n with
  | O => Ok buffer
  | S n =>
      next ← AncestorHeaders_next a st;
      match next with
      | None => Ok buffer
      | Some (item, st) => push_headers n a st (buffer ++ [item])
      end
  end.

(** [Vec::pop] *)
Definition vec_pop_item {A} (l : list A) : option A * list A :=
  match last l with Some x => (Some x, removelast l) | None => (None, l) end.

Definition AncestorsRev_next (a : Archive) (self : AncestorsRev) :
    Res ArchiveError (option (BlockHash * Header) * AncestorsRev) :=
  '(end_height, buffer) ←
    match ar_inner self with
    | Some inner => Ok inner
    | None => end_height ← get_height a (ar_block_hash self); Ok (end_height, [])
    end;
  match vec_pop_item buffer with
  | (Some item, buffer) =>
      Ok (Some item,
          mk_AncestorsRev (batch_start_height self) (ar_block_hash self) (Some (end_height, buffer)))
  | (None, _) =>
      match batch_start_height self with
      | None => Ok (None, mk_AncestorsRev None (ar_block_hash self) (Some (end_height, buffer)))
      | Some start =>
          match u32_checked_sub end_height start with
          | None =>
              Ok (None, mk_AncestorsRev (Some start) (ar_block_hash self)
                          (Some (end_height, buffer)))
          | Some height_diff =>
              let ancestor_offset := Z.min height_diff (MAX_BATCH_SIZE - 1) in
              let batch_size := (ancestor_offset + 1)%Z in
              let nth := (height_diff - ancestor_offset)%Z in
              ancestor ← get_nth_ancestor a (ar_block_hash self) nth;
              buffer ← push_headers (Z.to_nat batch_size) a (Some ancestor) buffer;
              let batch_start_height :=
                match u32_checked_add start batch_size with
                | Some start => if (start <=? end_height)%Z then Some start else None
                | None => None
                end in
              let '(item, buffer) := vec_pop_item buffer in
              Ok (item, mk_AncestorsRev batch_start_height (ar_block_hash self)
                          (Some (end_height, buffer)))
          end
      end
  end.

(** Draining [iter_missing_bodies]; [n] bounds the number of steps. *)
Fixpoint iter_missing_bodies (n : nat) (a : Archive) (it : AncestorsRev) :
    Res ArchiveError (list BlockHash) :=
  match n with
  | O => Panic
  | S n =>
      '(item, it) ← AncestorsRev_next a it;
      match item with
      | None => Ok []
      | Some (ancestor, _) =>
          rest ← iter_missing_bodies n a it;
          Ok (match try_get_body a ancestor with Some _ => rest | None => ancestor :: rest end)
      end
  end.

(** One step of [main_ancestors]; the state is the next block. *)
Definition main_ancestors_next (a : Archive) (m : BtcBlockHash) :
    Res ArchiveError (option (BtcBlockHash * BtcBlockHash)) :=
  if bool_decide (m = all_zeros) then Ok None
  else header_info ← get_main_header_info a m; Ok (Some (m, hi_prev_block_hash header_info)).

(** ** Storing *)
Definition put_accumulator (a : Archive) (b : BlockHash) (accumulator : Accumulator) : Archive :=
  with_accumulators a (<[Some b := accumulator]> (accumulators a)).

Definition put_orchard_frontier (a : Archive) (b : BlockHash) (frontier : Frontier) : Archive :=
  with_frontiers a (<[Some b := frontier]> (orchard_frontiers a)).

Definition put_inclusion (b : BlockHash) (a : Archive) (itx : nat * Transaction) : Archive :=
  let txid := txid itx.2 in
  let inclusions := <[b := wrap32 (Z.of_nat itx.1)]> (get_tx_inclusions a txid) in
  with_bodies a (bodies a) (<[txid := inclusions]> (txid_to_inclusions a)).

Definition put_body (a : Archive) (b : BlockHash) (body : Body) : Res ArchiveError Archive :=
  _ ← get_header a b;
  let a := with_bodies a (<[b := body]> (bodies a)) (txid_to_inclusions a) in
  Ok (foldl (put_inclusion b) a (imap pair (transactions body))).

Section iteration.
Context (iter_set : gset BtcBlockHash → list BtcBlockHash).
Context (iter_bmm : gmap BtcBlockHash BmmResult → list (BtcBlockHash * BmmResult)).
Context (work_add : Work → Work → Work).

Definition verifications (l : list (BtcBlockHash * BmmResult)) : list BtcBlockHash :=
  fst <$> filter (λ mr, mr.2 = BmmVerified) l.

(** [verifications.max_by_key(total_work)]: the iteration order decides
    between equal keys. *)
Definition max_work_step (a : Archive) (best : option (Work * BtcBlockHash)) (m : BtcBlockHash) :
    Res ArchiveError (option (Work * BtcBlockHash)) :=
  work ← get_total_work a m;
  Ok (match best with
      | Some (w, m') => if (work <? w)%Z then Some (w, m') else Some (work, m)
      | None => Some (work, m)
      end).
Definition try_get_best_main_verification (a : Archive) (b : BlockHash) :
    Res ArchiveError (option BtcBlockHash) :=
  best ← foldR (max_work_step a) None (verifications (iter_bmm (get_bmm_results a b)));
  Ok (match best with Some (_, m) => Some m | None => None end).
Definition get_best_main_verification (a : Archive) (b : BlockHash) :
    Res ArchiveError BtcBlockHash :=
  m ← try_get_best_main_verification a b; ok_or m (NoBmmResult b).

(** Is there a valid BMM commitment to the parent in the main ancestry? *)
Fixpoint verified_in_ancestry (a : Archive) (parent_results : list (BtcBlockHash * BmmResult))
    (main_block : BtcBlockHash) : Res ArchiveError bool :=
  match parent_results with
  | [] => Ok false
  | (bmm_block, bmm_result) :: l =>
      parent_verified ←
        match bmm_result with
        | BmmVerified => is_main_descendant a bmm_block main_block
        | BmmFailed => Ok false
        end;
      if parent_verified : bool then Ok true else verified_in_ancestry a l main_block
  end.

Definition bmm_verdict (a : Archive) (header : Header)
    (parent_bmm_results : option (gmap BtcBlockHash BmmResult)) (main_block : BtcBlockHash) :
    Res ArchiveError BmmResult :=
  match parent_bmm_results with
  | None => Ok BmmVerified
  | Some parent_bmm_results =>
      v ← verified_in_ancestry a (iter_bmm parent_bmm_results) main_block;
      Ok (if v : bool then BmmVerified else BmmFailed)
  end.

(** The body of the loop over the successors of the previous mainchain block. *)
Definition bmm_step (a : Archive) (header : Header) (block_hash : BlockHash)
    (parent_bmm_results : option (gmap BtcBlockHash BmmResult))
    (bmm_results : gmap BtcBlockHash BmmResult) (main_block : BtcBlockHash) :
    Res ArchiveError (gmap BtcBlockHash BmmResult) :=
  info ← get_main_block_info a main_block;
  match bmm_commitment info with
  | None => Ok (<[main_block := BmmFailed]> bmm_results)
  | Some commitment =>
      if bool_decide (commitment = block_hash) then
        main_header_info ← get_main_header_info a main_block;
        if bool_decide (prev_main_hash header = hi_prev_block_hash main_header_info) then
          r ← bmm_verdict a header parent_bmm_results main_block;
          Ok (<[main_block := r]> bmm_results)
        else Ok (<[main_block := BmmFailed]> bmm_results)
      else Ok (<[main_block := BmmFailed]> bmm_results)
  end.

Definition parent_results (a : Archive) (header : Header) :
    option (gmap BtcBlockHash BmmResult) := get_bmm_results a <$> prev_side_hash header.

Definition put_header (a : Archive) (header : Header) : Res ArchiveError Archive :=
  height ← match prev_side_hash header with
    | None => Ok 0%Z
    | Some parent =>
        h ← ok_or (try_get_height a parent) InvalidPrevSideHash; Ok (wrap32 (h + 1))
    end;
  let block_hash := Header_hash header in
  let a := with_headers a (<[block_hash := height]> (block_hash_to_height a))
             (<[block_hash := header]> (headers a)) in
  pred_successors ← get_successors a (prev_side_hash header);
  let a := with_successors a
    (<[prev_side_hash header := {[block_hash]} ∪ pred_successors]> (successors a)) in
  let a := with_successors a
    (<[Some block_hash := default ∅ (try_get_successors a (Some block_hash))]> (successors a)) in
  exponential ← exp_ancestors (side_lineage a) height (expect (prev_side_hash header));
  let a := with_exponential a (<[block_hash := exponential]> (exponential_ancestors a)) in
  main_blocks ← get_main_successors a (prev_main_hash header);
  results ← foldR (bmm_step a header block_hash (parent_results a header))
    (get_bmm_results a block_hash) (iter_set main_blocks);
  Ok (with_bmm_results a (<[block_hash := results]> (bmm_results a))).

Definition put_main_block_info (a : Archive) (main_hash : BtcBlockHash) (block_info : BlockInfo) :
    Res ArchiveError Archive :=
  main_header_info ← get_main_header_info a main_hash;
  _ ← (if bool_decide (hi_prev_block_hash main_header_info = all_zeros) then Ok tt
       else _ ← get_main_block_info a (hi_prev_block_hash main_header_info); Ok tt);
  let a := with_main_block_infos a (<[main_hash := block_info]> (main_block_infos a)) in
  match bmm_commitment block_info with
  | None => Ok a
  | Some commitment =>
      match try_get_header a commitment with
      | None => Ok a
      | Some header =>
          bmm_result ←
            (if bool_decide (prev_main_hash header = hi_prev_block_hash main_header_info)
             then bmm_verdict a header (parent_results a header) main_hash
             else Ok BmmFailed);
          let results := <[main_hash := bmm_result]> (get_bmm_results a commitment) in
          Ok (with_bmm_results a (<[commitment := results]> (bmm_results a)))
      end
  end.

Definition put_main_header_info (a : Archive) (header_info : BlockHeaderInfo) :
    Res ArchiveError Archive :=
  let prev := hi_prev_block_hash header_info in
  let is_root := bool_decide (prev = all_zeros) in
  _ ← guard_err (bool_decide (is_Some (try_get_main_header_info a prev)) || is_root)
    (NoMainHeaderInfo prev);
  let block_hash := hi_block_hash header_info in
  prev_height ← get_main_height a prev;
  let height := wrap32 (prev_height + 1) in
  total_work' ←
    (if is_root then Ok (hi_work header_info)
     else prev_work ← get_total_work a prev; Ok (work_add prev_work (hi_work header_info)));
  let a := with_main_headers a (<[block_hash := height]> (main_block_hash_to_height a))
    (<[block_hash := header_info]> (main_header_infos a))
    (<[block_hash := total_work']> (total_work a)) in
  pred_successors ← get_main_successors a prev;
  let a := with_main_successors a (<[prev := {[block_hash]} ∪ pred_successors]>
    (main_successors a)) in
  let a := with_main_successors a
    (<[block_hash := default ∅ (try_get_main_successors a block_hash)]> (main_successors a)) in
  exponential ← exp_ancestors (main_lineage a) height (Ok prev);
  Ok (with_main_exponential a (<[block_hash := exponential]> (exponential_main_ancestors a))).
End iteration.

(** ** Choosing a tip *)

(** The callback of [find_map] in [better_tip]: the first ancestor from before
    the common mainchain ancestor. *)
Definition before_common (a : Archive) (main_ancestor : BtcBlockHash) (b : BlockHash) :
    Res ArchiveError (option Header) :=
  header ← get_header a b;
  d ← is_main_descendant a (prev_main_hash header) main_ancestor;
  if negb d then Ok None
  else if bool_decide (prev_main_hash header = main_ancestor) then Ok None
  else Ok (Some header).

Definition ancestor_height_before (a : Archive) (main_ancestor : BtcBlockHash) (b : BlockHash) :
    Res ArchiveError (option Z) :=
  ancestors_find_map a b (λ b',
    r ← before_common a main_ancestor b';
    match r with None => Ok None | Some _ => Some <$> get_height a b' end).

Definition ancestor_height_work_before (a : Archive) (main_ancestor : BtcBlockHash)
    (main_ancestor_height : Z) (b : BlockHash) : Res ArchiveError (option (Z * Work)) :=
  ancestors_find_map a b (λ b',
    r ← before_common a main_ancestor b';
    match r with
    | None => Ok None
    | Some header =>
        height ← get_height a b';
        prev_height ← get_main_height a (prev_main_hash header);
        main_block ← get_nth_main_ancestor a main_ancestor
          (wrap32 (main_ancestor_height - wrap32 (prev_height + 1)));
        work ← get_total_work a main_block;
        Ok (Some (height, work))
    end).

(** [Ord for Option<_>]: [None] is least. *)
Definition option_cmp (x y : option Z) : comparison :=
  match x, y with
  | None, None => Eq
  | None, Some _ => Lt
  | Some _, None => Gt
  | Some x, Some y => (x ?= y)%Z
  end.

(** The last arm of [better_tip], both orders of height and work equal. *)
Definition better_equal_tip (a : Archive) (tip0 tip1 : Tip) : Res ArchiveError (option Tip) :=
  if bool_decide (tip_block_hash tip0 = tip_block_hash tip1) then Ok (Some tip0)
  else
    main_ancestor ← last_common_main_ancestor a (tip_main_block_hash tip0)
      (tip_main_block_hash tip1);
    main_ancestor_height ← get_main_height a main_ancestor;
    r0 ← ancestor_height_work_before a main_ancestor main_ancestor_height (tip_block_hash tip0);
    r1 ← ancestor_height_work_before a main_ancestor main_ancestor_height (tip_block_hash tip1);
    Ok (Some (match option_cmp (snd <$> r0) (snd <$> r1), option_cmp (fst <$> r0) (fst <$> r1) with
              | (Lt | Eq), Eq | _, Gt => tip0
              | Gt, Eq | _, Lt => tip1
              end)).

Definition better_tip (a : Archive) (tip0 tip1 : Tip) : Res ArchiveError (option Tip) :=
  if bool_decide (tip0 = tip1) then Ok None
  else
    let main0 := tip_main_block_hash tip0 in
    let main1 := tip_main_block_hash tip1 in
    height0 ← get_height a (tip_block_hash tip0);
    height1 ← get_height a (tip_block_hash tip1);
    if ((height0 =? 0) && (height1 =? 0))%Z then Ok None
    else if (height0 =? 0)%Z then Ok (Some tip1)
    else if (height1 =? 0)%Z then Ok (Some tip0)
    else
      work0 ← get_total_work a main0;
      work1 ← get_total_work a main1;
      match (work0 ?= work1)%Z, (height0 ?= height1)%Z with
      | (Lt | Eq), Lt => Ok (Some tip1)
      | (Eq | Gt), Gt => Ok (Some tip0)
      | Lt, Eq =>
          shared ← shared_mainchain_lineage a main0 main1;
          Ok (Some (if shared : bool then tip0 else tip1))
      | Gt, Eq =>
          shared ← shared_mainchain_lineage a main0 main1;
          Ok (Some (if shared : bool then tip1 else tip0))
      | Lt, Gt =>
          main_ancestor ← last_common_main_ancestor a main0 main1;
          tip0_ancestor_height ← ancestor_height_before a main_ancestor (tip_block_hash tip0);
          Ok (Some (match option_cmp tip0_ancestor_height (Some height1) with
                    | Lt => tip1 | _ => tip0 end))
      | Gt, Lt =>
          main_ancestor ← last_common_main_ancestor a main0 main1;
          tip1_ancestor_height ← ancestor_height_before a main_ancestor (tip_block_hash tip1);
          Ok (Some (match option_cmp tip1_ancestor_height (Some height0) with
                    | Lt => tip0 | _ => tip1 end))
      | Eq, Eq => better_equal_tip a tip0 tip1
      end.
End archive.
