(* ===== verification/Proto.v ===== *)
(** Messages of the mainchain node ([src/lib/types/proto.rs]).

    The mainchain node (a CUSF enforcer) is reached over gRPC.  [prost]
    generates the message types from schemas that are not part of the
    repository; they are records here, with the fields that the conversions
    take apart.  The conversions reject messages with missing or malformed
    fields; the clients check what they are sent.  A call is a parameter: a
    function of the request. *)
From S2P Require Import Prelude.
From S2P Require Import Serde.
From S2P Require Import Externals.
From S2P Require Import Types.
From S2P Require Import Address.
From S2P Require Import WithdrawalBundle.
From S2P Require Import TwoWayPeg.
From S2P Require Import Lineage.
From S2P Require Import Archive.
From S2P Require Import OrchardTypes.

(** The messages that errors name ([prost::Name::full_name]). *)
Inductive Message :=
  | M_ConsensusHex | M_Hex | M_ReverseHex
  | M_BlockNotFoundError | M_OptionalCommitment | M_Commitment
  | M_OutPoint | M_DepositOutput | M_Deposit
  | M_WithdrawalBundleEvent_Event | M_WithdrawalBundleEvent
  | M_BlockInfo_Event | M_BlockInfo | M_BlockHeaderInfo | M_Info | M_ResponseItem
  | M_ConnectBlock | M_DisconnectBlock | M_SubscribeEventsResponse_Event | M_SubscribeEventsResponse
  | M_GetBlockHeaderInfoResponse | M_GetBlockInfoResponse | M_GetBmmHStarCommitmentResponse
  | M_GetChainInfoResponse | M_GetChainTipResponse
  | M_CreateBmmCriticalDataTransactionResponse | M_CreateDepositTransactionResponse
  | M_CreateNewAddressResponse.

(** [tonic::Status] *)
Inductive Status := mk_Status (code : Z).

Inductive ProtoError :=
  | Grpc (status : Status)
  | InvalidEnumVariant (field_name : string) (message_name : Message) (variant_name : string)
  | InvalidFieldValue (field_name : string) (message_name : Message) (value : list byte)
  | InvalidRepeatedValue (field_name : string) (message_name : Message)
  | ProtoMissingField (field_name : string) (message_name : Message)
  | UnknownEnumTag (field_name : string) (message_name : Message) (tag : Z).

(** [invalid_field_value], [missing_field], [invalid_enum_variant] and
    [invalid_repeated_value] take the message as a type parameter. *)
Definition invalid_field_value (message : Message) (field_name : string) (value : list byte) : ProtoError :=
  InvalidFieldValue field_name message value.
Definition missing_field (message : Message) (field_name : string) : ProtoError :=
  ProtoMissingField field_name message.
Definition invalid_enum_variant (message : Message) (field_name variant_name : string) : ProtoError :=
  InvalidEnumVariant field_name message variant_name.
Definition invalid_repeated_value (message : Message) (field_name : string) : ProtoError :=
  InvalidRepeatedValue field_name message.

(** [Decodable] and [Encodable] of the [bitcoin] crate, for the 32-byte types
    that messages carry: block hashes, transaction ids and arrays. *)
Class ConsensusCrate := {
  consensus_deserialize : list byte → option Hash;
  consensus_serialize : Hash → list byte
}.

(** ** Text ([std::str::from_utf8]) *)
Definition between (lo hi : Z) (b : byte) : bool := (lo <=? Z_of_byte b)%Z && (Z_of_byte b <=? hi)%Z.
Definition continuation : byte → bool := between 128 191.
Fixpoint is_utf8 (l : list byte) : bool :=
  match l with
  | [] => true
  | a :: l =>
      if between 0 127 a then is_utf8 l
      else
        match l with
        | b :: l =>
            if between 194 223 a then continuation b && is_utf8 l
            else
              match l with
              | c :: l =>
                  if between 224 239 a then
                    (if between 224 224 a then between 160 191 b
                     else if between 237 237 a then between 128 159 b else continuation b)
                    && continuation c && is_utf8 l
                  else
                    match l with
                    | d :: l =>
                        between 240 244 a
                        && (if between 240 240 a then between 144 191 b
                            else if between 244 244 a then between 128 143 b else continuation b)
                        && continuation c && continuation d && is_utf8 l
                    | [] => false
                    end
              | [] => false
              end
        | [] => false
        end
  end.
Definition from_utf8 (l : list byte) : option (list byte) := if is_utf8 l then Some l else None.

(** ** [common]: values in hexadecimal *)
Record ConsensusHex := mk_ConsensusHex { ch_hex : option (list byte) }.
Record Hex := mk_Hex { h_hex : option (list byte) }.
Record ReverseHex := mk_ReverseHex { rh_hex : option (list byte) }.

Section common.
Context `{HexCrate} `{ConsensusCrate}.

(** [deserialize_hex] *)
Definition ConsensusHex_decode (message : Message) (self : ConsensusHex) (field_name : string) :
    Res ProtoError Hash :=
  hex ← ok_or (ch_hex self) (missing_field M_ConsensusHex "hex");
  ok_or (hex_decode hex ≫= consensus_deserialize) (invalid_field_value message field_name hex).
Definition ConsensusHex_encode (value : Hash) : ConsensusHex :=
  mk_ConsensusHex (Some (hex_encode (consensus_serialize value))).

Definition Hex_decode_bytes (message : Message) (self : Hex) (field_name : string) :
    Res ProtoError (list byte) :=
  hex ← ok_or (h_hex self) (missing_field M_Hex "hex");
  ok_or (hex_decode hex) (invalid_field_value message field_name hex).

Definition ReverseHex_decode (message : Message) (self : ReverseHex) (field_name : string) :
    Res ProtoError Hash :=
  hex ← ok_or (rh_hex self) (missing_field M_ReverseHex "hex");
  bytes ← ok_or (hex_decode hex) (invalid_field_value message field_name hex);
  let bytes := reverse bytes in
  ok_or (consensus_deserialize bytes) (invalid_field_value message field_name hex).
Definition ReverseHex_encode (value : Hash) : ReverseHex :=
  let bytes := reverse (consensus_serialize value) in
  mk_ReverseHex (Some (hex_encode bytes)).

(** A hash in a message that is received: the schema says in which of the two
    forms, and [decode] is that form's. *)
Inductive HashHex := InConsensusHex (c : ConsensusHex) | InReverseHex (r : ReverseHex).
Definition HashHex_decode (message : Message) (self : HashHex) (field_name : string) : Res ProtoError Hash :=
  match self with
  | InConsensusHex c => ConsensusHex_decode message c field_name
  | InReverseHex r => ReverseHex_decode message r field_name
  end.
End common.

(** [.ok_or_else(|| missing_field::<Message>(field_name))] *)
Definition required {A} (message : Message) (field_name : string) (o : option A) : Res ProtoError A :=
  ok_or o (missing_field message field_name).

(** ** [mainchain]: networks *)
Inductive GeneratedNetwork := GUnspecified | GUnknown | GMainnet | GRegtest | GSignet | GTestnet.
(** [bitcoin::Network] *)
Inductive BitcoinNetwork := Bitcoin | Regtest | Signet | Testnet.
Definition Network_decode (message : Message) (self : GeneratedNetwork) (field_name : string) :
    Res ProtoError BitcoinNetwork :=
  match self with
  | GUnknown => Err (invalid_enum_variant message field_name "NETWORK_UNKNOWN")
  | GUnspecified => Err (invalid_enum_variant message field_name "NETWORK_UNSPECIFIED")
  | GMainnet => Ok Bitcoin
  | GRegtest => Ok Regtest
  | GSignet => Ok Signet
  | GTestnet => Ok Testnet
  end.

(** ** Generated message types *)
Record G_OutPoint := mk_G_OutPoint { go_txid : option HashHex; go_vout : option Z }.
Record G_DepositOutput := mk_G_DepositOutput { gdo_address : option Hex; gdo_value_sats : option Z }.
Record G_Deposit := mk_G_Deposit {
  gd_sequence_number : option Z;
  gd_outpoint : option G_OutPoint;
  gd_output : option G_DepositOutput
}.
Inductive G_BundleEventKind :=
  | G_Failed
  | G_Submitted
  | G_Succeeded (sequence_number : option Z) (transaction : option ConsensusHex).
Record G_WithdrawalBundleEvent := mk_G_WithdrawalBundleEvent {
  gw_m6id : option HashHex;
  (** the inner option is the [oneof] of [withdrawal_bundle_event::Event] *)
  gw_event : option (option G_BundleEventKind)
}.
Inductive G_EventKind := G_EvDeposit (d : G_Deposit) | G_EvWithdrawalBundle (e : G_WithdrawalBundleEvent).
Record G_BlockInfo := mk_G_BlockInfo {
  gb_bmm_commitment : option HashHex;
  gb_events : list (option G_EventKind)
}.
Record G_BlockHeaderInfo := mk_G_BlockHeaderInfo {
  gh_block_hash : option HashHex;
  gh_prev_block_hash : option HashHex;
  gh_height : Z;
  gh_work : option HashHex
}.
Record G_Info := mk_G_Info { gi_header_info : option G_BlockHeaderInfo; gi_block_info : option G_BlockInfo }.
Record G_ResponseItem := mk_G_ResponseItem {
  gr_block_header_info : option G_BlockHeaderInfo;
  gr_block_info : option G_BlockInfo
}.

Section mainchain.
Context `{E : Externals} `{HexCrate} `{ConsensusCrate} `{AddressCrates}.

(** ** Conversions *)
Definition BtcOutPoint_try_from (outpoint : G_OutPoint) : Res ProtoError BtcOutPoint :=
  txid ← required M_OutPoint "txid" (go_txid outpoint);
  txid ← HashHex_decode M_OutPoint txid "txid";
  vout ← required M_OutPoint "vout" (go_vout outpoint);
  Ok (mk_BtcOutPoint txid (u32_of_Z vout)).

(** A deposit whose address is not text, or not an address, goes to
    [ALL_ZEROS]. *)
Definition deposit_address (address_bytes : list byte) : TransparentAddress :=
  match from_utf8 address_bytes with
  | None => ALL_ZEROS
  | Some address_utf8 =>
      match TransparentAddress_from_str address_utf8 with
      | Ok address => address
      | _ => ALL_ZEROS
      end
  end.
Definition deposit_Output_try_from (output : G_DepositOutput) : Res ProtoError Output :=
  address ← required M_DepositOutput "address" (gdo_address output);
  address_bytes ← Hex_decode_bytes M_DepositOutput address "address";
  let address := deposit_address address_bytes in
  value ← required M_DepositOutput "value_sats" (gdo_value_sats output);
  Ok (mk_Output address (Value value)).

Definition Deposit_try_from (deposit : G_Deposit) : Res ProtoError DepositEvent :=
  sequence_number ← required M_Deposit "sequence_number" (gd_sequence_number deposit);
  outpoint ← required M_Deposit "outpoint" (gd_outpoint deposit);
  output ← required M_Deposit "output" (gd_output deposit);
  outpoint ← BtcOutPoint_try_from outpoint;
  output ← deposit_Output_try_from output;
  Ok (mk_DepositEvent sequence_number outpoint output).

Definition EventStatus_from (event : G_BundleEventKind) : WithdrawalBundleEventStatus :=
  match event with
  | G_Failed => EvFailed
  | G_Submitted => EvSubmitted
  | G_Succeeded _ _ => EvConfirmed
  end.
Definition EventStatus_try_from (event : option G_BundleEventKind) :
    Res ProtoError WithdrawalBundleEventStatus :=
  event ← required M_WithdrawalBundleEvent_Event "event" event;
  Ok (EventStatus_from event).
Definition WithdrawalBundleEvent_try_from (event : G_WithdrawalBundleEvent) :
    Res ProtoError WithdrawalBundleEvent :=
  m6id ← required M_WithdrawalBundleEvent "m6id" (gw_m6id event);
  m6id ← HashHex_decode M_WithdrawalBundleEvent m6id "m6id";
  status ← required M_WithdrawalBundleEvent "event" (gw_event event);
  status ← EventStatus_try_from status;
  Ok (mk_WithdrawalBundleEvent m6id status).

Definition BlockEvent_of_kind (event : G_EventKind) : Res ProtoError BlockEvent :=
  match event with
  | G_EvDeposit deposit => deposit ← Deposit_try_from deposit; Ok (EvDeposit deposit)
  | G_EvWithdrawalBundle bundle_event =>
      bundle_event ← WithdrawalBundleEvent_try_from bundle_event; Ok (EvWithdrawalBundle bundle_event)
  end.
Definition BlockEvent_try_from (event : option G_EventKind) : Res ProtoError BlockEvent :=
  event ← required M_BlockInfo_Event "event" event;
  BlockEvent_of_kind event.

(** [Option::map(..).transpose()?] *)
Definition transpose {A B} (f : A → Res ProtoError B) (o : option A) : Res ProtoError (option B) :=
  match o with None => Ok None | Some a => b ← f a; Ok (Some b) end.

Definition BlockInfo_try_from (block_info : G_BlockInfo) : Res ProtoError BlockInfo :=
  bmm_commitment ← transpose (λ c, HashHex_decode M_BlockInfo c "bmm_commitment")
    (gb_bmm_commitment block_info);
  events ← mapR BlockEvent_try_from (gb_events block_info);
  Ok (mk_BlockInfo bmm_commitment events).

Definition BlockHeaderInfo_try_from (header_info : G_BlockHeaderInfo) : Res ProtoError BlockHeaderInfo :=
  block_hash ← required M_BlockHeaderInfo "block_hash" (gh_block_hash header_info);
  block_hash ← HashHex_decode M_BlockHeaderInfo block_hash "block_hash";
  prev_block_hash ← required M_BlockHeaderInfo "prev_block_hash" (gh_prev_block_hash header_info);
  prev_block_hash ← HashHex_decode M_BlockHeaderInfo prev_block_hash "prev_block_hash";
  work ← required M_BlockHeaderInfo "work" (gh_work header_info);
  work ← HashHex_decode M_BlockHeaderInfo work "work";
  Ok (mk_BlockHeaderInfo block_hash prev_block_hash (gh_height header_info) (le_val work)).

Definition Info_try_from (info : G_Info) : Res ProtoError (BlockHeaderInfo * BlockInfo) :=
  header_info ← required M_Info "header_info" (gi_header_info info);
  header_info ← BlockHeaderInfo_try_from header_info;
  block_info ← required M_Info "block_info" (gi_block_info info);
  block_info ← BlockInfo_try_from block_info;
  Ok (header_info, block_info).
End mainchain.

(** ** Answers to single requests *)
Record G_Commitment := mk_G_Commitment {
  gc_commitment : option HashHex;
  gc_ancestor_commitments : list (option HashHex)
}.
Inductive G_CommitmentResult :=
  | G_BlockNotFound (block_hash : option HashHex)
  | G_CommitmentFound (commitment : G_Commitment).
Inductive G_StreamEvent :=
  | G_ConnectBlock (header_info : option G_BlockHeaderInfo) (block_info : option G_BlockInfo)
  | G_DisconnectBlock (block_hash : option HashHex).
(** [SubscribeEventsResponse], whose event has a [oneof] inside *)
Definition G_SubscribeEventsResponse : Type := option (option G_StreamEvent).

Definition BlockNotFoundError : Type := BtcBlockHash.
Record ChainInfo := mk_ChainInfo { ci_network : BitcoinNetwork }.

(** ** Requests *)
Record GetBlockHeaderInfoRequest := mk_GetBlockHeaderInfoRequest {
  ghr_block_hash : option ReverseHex; ghr_max_ancestors : option Z }.
Record GetBlockInfoRequest := mk_GetBlockInfoRequest {
  gir_block_hash : option ReverseHex; gir_sidechain_id : option Z; gir_max_ancestors : option Z }.
Record GetBmmHStarCommitmentRequest := mk_GetBmmHStarCommitmentRequest {
  gbr_block_hash : option ReverseHex; gbr_sidechain_id : option Z; gbr_max_ancestors : option Z }.
Record GetTwoWayPegDataRequest := mk_GetTwoWayPegDataRequest {
  gtr_sidechain_id : option Z; gtr_start_block_hash : option ReverseHex;
  gtr_end_block_hash : option ReverseHex }.
Record BroadcastWithdrawalBundleRequest := mk_BroadcastWithdrawalBundleRequest {
  bwr_sidechain_id : option Z; bwr_transaction : option (list byte) }.
Record CreateBmmCriticalDataTransactionRequest := mk_CreateBmmCriticalDataTransactionRequest {
  cbr_sidechain_id : option Z; cbr_value_sats : option Z; cbr_height : option Z;
  cbr_critical_hash : option ConsensusHex; cbr_prev_bytes : option ReverseHex }.
Record CreateDepositTransactionRequest := mk_CreateDepositTransactionRequest {
  cdr_sidechain_id : option Z; cdr_address : option (list byte);
  cdr_value_sats : option Z; cdr_fee_sats : option Z }.
Record GenerateBlocksRequest := mk_GenerateBlocksRequest { gbq_blocks : option Z; gbq_ack_all_proposals : bool }.

(** The two services: what the mainchain node answers. *)
Record ValidatorService := mk_ValidatorService {
  rpc_get_block_header_info : GetBlockHeaderInfoRequest → Res Status (list G_BlockHeaderInfo);
  rpc_get_block_info : GetBlockInfoRequest → Res Status (list G_Info);
  rpc_get_bmm_h_star_commitment : GetBmmHStarCommitmentRequest → Res Status (option G_CommitmentResult);
  rpc_get_chain_info : Res Status Z;
  rpc_get_chain_tip : Res Status (option G_BlockHeaderInfo);
  rpc_get_two_way_peg_data : GetTwoWayPegDataRequest → Res Status (list G_ResponseItem);
  rpc_subscribe_events : option Z → Res Status (list (Res Status G_SubscribeEventsResponse))
}.
Record WalletService := mk_WalletService {
  rpc_broadcast_withdrawal_bundle : BroadcastWithdrawalBundleRequest → Res Status unit;
  rpc_create_bmm_critical_data_transaction :
    CreateBmmCriticalDataTransactionRequest → Res Status (option HashHex);
  rpc_create_deposit_transaction : CreateDepositTransactionRequest → Res Status (option HashHex);
  rpc_create_new_address : Res Status (list byte);
  rpc_generate_blocks : GenerateBlocksRequest → list (Res Status unit)
}.

Section clients.
Context `{E : Externals} `{HexCrate} `{ConsensusCrate} `{AddressCrates}.

Definition BlockNotFoundError_try_from (block_hash : option HashHex) : Res ProtoError BlockNotFoundError :=
  block_hash ← required M_BlockNotFoundError "block_hash" block_hash;
  HashHex_decode M_BlockNotFoundError block_hash "block_hash".
Definition OptionalCommitment_try_from (commitment : option HashHex) : Res ProtoError (option BlockHash) :=
  match commitment with
  | None => Ok None
  | Some commitment =>
      block_hash ← HashHex_decode M_OptionalCommitment commitment "commitment"; Ok (Some block_hash)
  end.
Definition Commitment_try_from (commitment : G_Commitment) : Res ProtoError (NonEmpty (option BlockHash)) :=
  head ← transpose (λ c, HashHex_decode M_Commitment c "commitment") (gc_commitment commitment);
  tail ← mapR OptionalCommitment_try_from (gc_ancestor_commitments commitment);
  Ok (mk_NonEmpty head tail).
Definition CommitmentResult_try_from (res : G_CommitmentResult) :
    Res ProtoError (NonEmpty (option BlockHash) + BlockNotFoundError) :=
  match res with
  | G_BlockNotFound err => err ← BlockNotFoundError_try_from err; Ok (inr err)
  | G_CommitmentFound commitment => c ← Commitment_try_from commitment; Ok (inl c)
  end.

Inductive Event :=
  | ConnectBlock (header_info : BlockHeaderInfo) (block_info : BlockInfo)
  | DisconnectBlock (block_hash : BtcBlockHash).
Definition StreamEvent_try_from (event : G_StreamEvent) : Res ProtoError Event :=
  match event with
  | G_ConnectBlock header_info block_info =>
      header_info ← required M_ConnectBlock "header_info" header_info;
      block_info ← required M_ConnectBlock "block_info" block_info;
      header_info ← BlockHeaderInfo_try_from header_info;
      block_info ← BlockInfo_try_from block_info;
      Ok (ConnectBlock header_info block_info)
  | G_DisconnectBlock block_hash =>
      block_hash ← required M_DisconnectBlock "disconnect_block" block_hash;
      block_hash ← HashHex_decode M_DisconnectBlock block_hash "disconnect_block";
      Ok (DisconnectBlock block_hash)
  end.
Definition Event_try_from (event : G_SubscribeEventsResponse) : Res ProtoError Event :=
  event ← required M_SubscribeEventsResponse "event" event;
  event ← required M_SubscribeEventsResponse_Event "event" event;
  StreamEvent_try_from event.

(** [collect::<LinkedHashMap<_, _>>()]: the [hashlink] crate's *)
Context (linked_from_iter : list (BtcBlockHash * BlockInfo) → list (BtcBlockHash * BlockInfo)).
Definition ResponseItem_try_from (item : G_ResponseItem) : Res ProtoError (BtcBlockHash * BlockInfo) :=
  block_header_info ← required M_ResponseItem "block_header_info" (gr_block_header_info item);
  header ← BlockHeaderInfo_try_from block_header_info;
  block_info ← required M_ResponseItem "block_info" (gr_block_info item);
  block_info ← BlockInfo_try_from block_info;
  Ok (hi_block_hash header, block_info).
Definition TwoWayPegData_try_from (blocks : list G_ResponseItem) : Res ProtoError TwoWayPegData :=
  items ← mapR ResponseItem_try_from blocks;
  Ok (mk_TwoWayPegData (linked_from_iter items)).

(** ** [ValidatorClient] *)
Section validator.
Context (service : ValidatorService).

(** Check that ancestor infos are sequential. *)
Fixpoint check_sequential {A} (header : A → BlockHeaderInfo) (error : ProtoError)
    (expected_block_hash : BtcBlockHash) (tail : list A) : Res ProtoError unit :=
  match tail with
  | [] => Ok tt
  | info :: tail =>
      if bool_decide (hi_block_hash (header info) = expected_block_hash) then
        check_sequential header error (hi_prev_block_hash (header info)) tail
      else Err error
  end.
Definition nonempty_map {A B} (f : A → Res ProtoError B) (l : list A) :
    Res ProtoError (option (NonEmpty B)) :=
  match ne_from_list l with
  | None => Ok None
  | Some l =>
      head ← f (ne_head l);
      tail ← mapR f (ne_tail l);
      Ok (Some (mk_NonEmpty head tail))
  end.

Definition get_block_header_info (block_hash : BtcBlockHash) : Res ProtoError (option BlockHeaderInfo) :=
  let request := mk_GetBlockHeaderInfoRequest (Some (ReverseHex_encode block_hash)) (Some 0%Z) in
  header_infos ← map_err Grpc (rpc_get_block_header_info service request);
  match header_infos with
  | [] => Ok None
  | header_info :: _ => header_info ← BlockHeaderInfo_try_from header_info; Ok (Some header_info)
  end.

Definition get_block_header_infos (block_hash : BtcBlockHash) (max_ancestors : Z) :
    Res ProtoError (option (NonEmpty BlockHeaderInfo)) :=
  let request := mk_GetBlockHeaderInfoRequest (Some (ReverseHex_encode block_hash)) (Some max_ancestors) in
  header_infos ← map_err Grpc (rpc_get_block_header_info service request);
  header_infos ← nonempty_map BlockHeaderInfo_try_from header_infos;
  match header_infos with
  | None => Ok None
  | Some header_infos =>
      _ ← check_sequential id (invalid_repeated_value M_GetBlockHeaderInfoResponse "header_infos")
            (hi_prev_block_hash (ne_head header_infos)) (ne_tail header_infos);
      Ok (Some header_infos)
  end.

Definition get_block_infos (block_hash : BtcBlockHash) (max_ancestors : Z) :
    Res ProtoError (option (NonEmpty (BlockHeaderInfo * BlockInfo))) :=
  let request := mk_GetBlockInfoRequest (Some (ReverseHex_encode block_hash)) (Some THIS_SIDECHAIN)
    (Some max_ancestors) in
  infos ← map_err Grpc (rpc_get_block_info service request);
  infos ← nonempty_map Info_try_from infos;
  match infos with
  | None => Ok None
  | Some infos =>
      _ ← check_sequential fst (invalid_repeated_value M_GetBlockInfoResponse "infos")
            (hi_prev_block_hash (ne_head infos).1) (ne_tail infos);
      Ok (Some infos)
  end.

Definition get_bmm_hstar_commitments (block_hash : BtcBlockHash) (max_ancestors : Z) :
    Res ProtoError (NonEmpty (option BlockHash) + BlockNotFoundError) :=
  let request := mk_GetBmmHStarCommitmentRequest (Some (ReverseHex_encode block_hash))
    (Some THIS_SIDECHAIN) (Some max_ancestors) in
  result ← map_err Grpc (rpc_get_bmm_h_star_commitment service request);
  result ← required M_GetBmmHStarCommitmentResponse "result" result;
  CommitmentResult_try_from result.

(** [generated::Network::try_from], the numbering of the schema *)
Context (network_try_from : Z → option GeneratedNetwork).
Definition get_chain_info : Res ProtoError ChainInfo :=
  network ← map_err Grpc (rpc_get_chain_info service);
  generated ← ok_or (network_try_from network) (UnknownEnumTag "network" M_GetChainInfoResponse network);
  network ← Network_decode M_GetChainInfoResponse generated "network";
  Ok (mk_ChainInfo network).

Definition get_chain_tip : Res ProtoError BlockHeaderInfo :=
  block_header_info ← map_err Grpc (rpc_get_chain_tip service);
  block_header_info ← required M_GetChainTipResponse "block_header_info" block_header_info;
  BlockHeaderInfo_try_from block_header_info.

Definition get_two_way_peg_data (start_block_hash : option BtcBlockHash) (end_block_hash : BtcBlockHash) :
    Res ProtoError TwoWayPegData :=
  let request := mk_GetTwoWayPegDataRequest (Some THIS_SIDECHAIN) (ReverseHex_encode <$> start_block_hash)
    (Some (ReverseHex_encode end_block_hash)) in
  blocks ← map_err Grpc (rpc_get_two_way_peg_data service request);
  TwoWayPegData_try_from blocks.

(** The stream, as the list of its items. *)
Definition stream_item (event_res : Res Status G_SubscribeEventsResponse) : Res ProtoError Event :=
  match event_res with
  | Ok event => Event_try_from event
  | Err err => Err (Grpc err)
  | Panic => Panic
  end.
Definition subscribe_events : Res ProtoError (list (Res ProtoError Event)) :=
  event_stream ← map_err Grpc (rpc_subscribe_events service (Some THIS_SIDECHAIN));
  Ok (map stream_item event_stream).
End validator.

(** ** [WalletClient] *)
Section wallet_client.
Context (service : WalletService).
(** [bitcoin::consensus::serialize] of a transaction, and the parser of
    mainchain addresses *)
Context (serialize_transaction : BtcTransaction → list byte).
Context (parse_main_address : list byte → option MainAddress).

Definition broadcast_withdrawal_bundle (transaction : BtcTransaction) : Res ProtoError unit :=
  let request := mk_BroadcastWithdrawalBundleRequest (Some THIS_SIDECHAIN)
    (Some (serialize_transaction transaction)) in
  map_err Grpc (rpc_broadcast_withdrawal_bundle service request).

Definition create_bmm_critical_data_tx (value_sats height : Z) (critical_hash : Hash) (prev_bytes : BtcBlockHash) :
    Res ProtoError Hash :=
  let request := mk_CreateBmmCriticalDataTransactionRequest (Some THIS_SIDECHAIN) (Some value_sats)
    (Some height) (Some (ConsensusHex_encode critical_hash)) (Some (ReverseHex_encode prev_bytes)) in
  txid ← map_err Grpc (rpc_create_bmm_critical_data_transaction service request);
  txid ← required M_CreateBmmCriticalDataTransactionResponse "txid" txid;
  HashHex_decode M_CreateBmmCriticalDataTransactionResponse txid "txid".

Definition create_deposit_tx (address : TransparentAddress) (value_sats fee_sats : Z) : Res ProtoError Hash :=
  let request := mk_CreateDepositTransactionRequest (Some THIS_SIDECHAIN) (Some (as_base58 address))
    (Some value_sats) (Some fee_sats) in
  txid ← map_err Grpc (rpc_create_deposit_transaction service request);
  txid ← required M_CreateDepositTransactionResponse "txid" txid;
  HashHex_decode M_CreateDepositTransactionResponse txid "txid".

Definition create_new_address : Res ProtoError MainAddress :=
  address ← map_err Grpc (rpc_create_new_address service);
  ok_or (parse_main_address address) (invalid_field_value M_CreateNewAddressResponse "address" address).

(** [try_collect] stops at the first error of the stream. *)
Definition generate_blocks (blocks : Z) : Res ProtoError unit :=
  let request := mk_GenerateBlocksRequest (Some blocks) true in
  _ ← mapR (map_err Grpc) (rpc_generate_blocks service request);
  Ok tt.
End wallet_client.
End clients.
