(* ===== verification/ArchiveFacts.v ===== *)
(** The archive keeps its invariant, and what the searches over it return.

    [archive_ok] collects what the comments of [src/lib/archive.rs] promise:
    all ancestors of a stored block are stored, with their heights and their
    exponentially indexed ancestors, and a verified BMM result is backed by a
    commitment in the mainchain and a verified parent.  The first part of the
    file shows that every write keeps it; the second part reads off what the
    searches and the choice of a tip compute. *)
From S2P Require Import Prelude.
From S2P Require Import Borsh.
From S2P Require Import Externals.
From S2P Require Import Toy.
From S2P Require Import Types.
From S2P Require Import AccumulatorDiff.
From S2P Require Import TwoWayPeg.
From S2P Require Import Lineage.
From S2P Require Import Archive.

#[local] Opaque nth_ancestor.

Section invariant.
Context `{E : Externals}.

(** ** The invariant *)
Definition side_known (a : Archive) (b : BlockHash) : Prop :=
  is_Some (block_hash_to_height a !! b).
Definition main_known (a : Archive) (m : BtcBlockHash) : Prop :=
  m = all_zeros ∨ is_Some (main_block_hash_to_height a !! m).

Definition verified (a : Archive) (b : BlockHash) (m : BtcBlockHash) : Prop :=
  get_bmm_results a b !! m = Some BmmVerified.

(** A parent has a verified commitment in the mainchain ancestry. *)
Definition parent_backed (a : Archive) (header : Header) (m : BtcBlockHash) : Prop :=
  ∀ p, prev_side_hash header = Some p →
    ∃ m', verified a p m' ∧ ancestor_of (main_lineage a) m' m.

(** The mainchain block [m] is a valid commitment to the header with hash [b]. *)
Definition bmm_fits (a : Archive) (header : Header) (b : BlockHash) (m : BtcBlockHash) : Prop :=
  ∃ info hi,
    main_block_infos a !! m = Some info ∧ bmm_commitment info = Some b
    ∧ main_header_infos a !! m = Some hi ∧ hi_prev_block_hash hi = prev_main_hash header
    ∧ parent_backed a header m.

(** What backs a verified BMM result. *)
Definition bmm_backed (a : Archive) (b : BlockHash) (m : BtcBlockHash) : Prop :=
  ∃ header, headers a !! b = Some header ∧ bmm_fits a header b m.

Record archive_ok (a : Archive) : Prop := {
  ok_side : LineageLaws (side_lineage a) (side_known a);
  ok_headers b : is_Some (headers a !! b) ↔ side_known a b;
  ok_main : LineageLaws (main_lineage a) (main_known a);
  ok_main_headers m :
    is_Some (main_header_infos a !! m) ↔ is_Some (main_block_hash_to_height a !! m);
  ok_zeros : main_header_infos a !! all_zeros = None;
  ok_bmm b m : verified a b m → bmm_backed a b m
}.

(** ** Growing archives *)

(** [a'] knows at least what backs the results of [a]. *)
Record bmm_grows (a a' : Archive) : Prop := {
  grows_headers b h : headers a !! b = Some h → headers a' !! b = Some h;
  grows_infos m i : main_block_infos a !! m = Some i →
    ∃ i', main_block_infos a' !! m = Some i' ∧ bmm_commitment i' = bmm_commitment i;
  grows_main_headers m hi : main_header_infos a !! m = Some hi → main_header_infos a' !! m = Some hi;
  grows_verified b m : verified a b m → verified a' b m
}.

Lemma main_up_grows a a' n m c :
  (∀ m hi, main_header_infos a !! m = Some hi → main_header_infos a' !! m = Some hi) →
  up (main_lineage a) n m = Ok c → up (main_lineage a') n m = Ok c.
Proof.
  intros Hg. revert m. induction n as [|n IH]; intros m; [done|]. simpl.
  unfold get_main_header_info, try_get_main_header_info.
  destruct (main_header_infos a !! m) as [hi|] eqn:Hm; [|done].
  apply Hg in Hm. rewrite Hm. apply IH.
Qed.

Lemma bmm_fits_grows a a' header b m :
  bmm_grows a a' → bmm_fits a header b m → bmm_fits a' header b m.
Proof.
  intros [_ Hi Hm Hv] (info & hi & Hinfo & Hc & Hmi & Hp & Hparent).
  destruct (Hi m info Hinfo) as (info' & Hinfo' & Hc').
  exists info', hi. split_and!; auto; [congruence|]. intros p Hpp.
  destruct (Hparent p Hpp) as (m' & Hv' & n & Hn). exists m'. split; [by apply Hv|].
  exists n. by eapply main_up_grows.
Qed.

Lemma bmm_backed_grows a a' b m : bmm_grows a a' → bmm_backed a b m → bmm_backed a' b m.
Proof.
  intros Hg (header & Hb & Hf). exists header. split; [by apply Hg|]. by eapply bmm_fits_grows.
Qed.

Lemma laws_ext {Er B : Type} (L : Lineage Er B) (K K' : B → Prop) :
  (∀ b, K b ↔ K' b) → LineageLaws L K → LineageLaws L K'.
Proof.
  intros Hk HL b Hb. destruct (HL b (proj2 (Hk b) Hb)) as (h & Hn). exists h.
  eapply node_weaken; [|exact Hn]. intros c. apply Hk.
Qed.

(** ** Verdicts *)
Section verdicts.
Context (iter_bmm : gmap BtcBlockHash BmmResult → list (BtcBlockHash * BmmResult)).

(** A hash map iterates over its entries. *)
Definition iterates_entries : Prop := ∀ m, iter_bmm m ≡ₚ map_to_list m.

Lemma verified_main_known a b m : archive_ok a → verified a b m → main_known a m.
Proof.
  intros Hok Hv. destruct (ok_bmm a Hok b m Hv) as (_ & _ & _ & hi & _ & _ & Hm & _).
  right. apply (ok_main_headers a Hok). by eexists.
Qed.

Lemma verified_in_ancestry_Ok a l m r :
  LineageLaws (main_lineage a) (main_known a) → main_known a m →
  (∀ m', (m', BmmVerified) ∈ l → main_known a m') →
  verified_in_ancestry a l m = Ok r →
  r = true ↔ ∃ m', (m', BmmVerified) ∈ l ∧ ancestor_of (main_lineage a) m' m.
Proof.
  intros HL Km. induction l as [|[m1 r1] l IH]; intros Hl Hr.
  { injection Hr as <-. split; [done|]. intros (m' & Hin & _). by apply elem_of_nil in Hin. }
  cbn [verified_in_ancestry] in Hr. apply bind_Ok in Hr as (v & Hv & Hr).
  assert (∀ m', (m', BmmVerified) ∈ l → main_known a m') as Hl' by (intros; apply Hl; by right).
  specialize (IH Hl'). destruct r1.
  - assert (main_known a m1) as K1 by (apply Hl; by left).
    destruct (descends_Ok (main_lineage a) (main_known a) m1 m K1 Km) as (v' & Hd & Hspec).
    unfold is_main_descendant in Hv. rewrite Hd in Hv. injection Hv as ->. destruct v.
    + injection Hr as <-. split; [|done]. intros _. exists m1. split; [by left|]. by apply Hspec.
    + rewrite (IH Hr). split.
      * intros (m' & Hin & Ha). exists m'. split; [by right|done].
      * intros (m' & Hin & Ha). exists m'. split; [|done].
        apply elem_of_cons in Hin as [[= ->]|Hin]; [|done]. by apply Hspec in Ha.
  - injection Hv as <-. rewrite (IH Hr). split.
    + intros (m' & Hin & Ha). exists m'. split; [by right|done].
    + intros (m' & Hin & Ha). exists m'. split; [|done].
      by apply elem_of_cons in Hin as [[=]|Hin].
Qed.

Lemma bmm_verdict_Ok a header m r :
  iterates_entries → LineageLaws (main_lineage a) (main_known a) → main_known a m →
  (∀ p m', verified a p m' → main_known a m') →
  bmm_verdict iter_bmm a header (parent_results a header) m = Ok r →
  r = BmmVerified ↔ parent_backed a header m.
Proof.
  intros Hiter HL Km Hk Hr. unfold parent_backed, bmm_verdict, parent_results in *.
  destruct (prev_side_hash header) as [p|]; simpl in Hr.
  2: { injection Hr as <-. split; [|done]. intros _ p. discriminate. }
  apply bind_Ok in Hr as (v & Hv & Hr). injection Hr as <-.
  apply verified_in_ancestry_Ok in Hv; [|done|done|].
  2: { intros m'. rewrite (Hiter (get_bmm_results a p)), elem_of_map_to_list. apply Hk. }
  transitivity (v = true); [by destruct v|]. rewrite Hv. split.
  - intros (m' & Hin & Ha) p' [= <-]. exists m'. split; [|done].
    by rewrite (Hiter (get_bmm_results a p)), elem_of_map_to_list in Hin.
  - intros Hp. destruct (Hp p eq_refl) as (m' & Hv' & Ha). exists m'. split; [|done].
    by rewrite (Hiter (get_bmm_results a p)), elem_of_map_to_list.
Qed.

(** What the verdicts need of the mainchain tables. *)
Definition main_ready (a : Archive) : Prop :=
  LineageLaws (main_lineage a) (main_known a)
  ∧ (∀ m hi, main_header_infos a !! m = Some hi → main_known a m)
  ∧ ∀ p m, verified a p m → main_known a m.

Lemma archive_main_ready a : archive_ok a → main_ready a.
Proof.
  intros Hok. split_and!; [apply (ok_main a Hok)| |].
  - intros m hi Hm. right. apply (ok_main_headers a Hok). by eexists.
  - intros p m Hv. by eapply verified_main_known.
Qed.

Lemma bmm_step_Ok a header b r m r' :
  iterates_entries → main_ready a →
  bmm_step iter_bmm a header b (parent_results a header) r m = Ok r' →
  ∃ v, r' = <[m := v]> r ∧ (v = BmmVerified ↔ bmm_fits a header b m).
Proof.
  intros Hiter (HL & Hk & Hv) (info & Hinfo%ok_or_Ok & Hok)%bind_Ok. unfold bmm_fits.
  destruct (bmm_commitment info) as [c|] eqn:Hc.
  2: { injection Hok as <-. eexists. split; [done|]. split; [done|].
       intros (info' & _ & Hinfo' & Hc' & _). unfold try_get_main_block_info in Hinfo. congruence. }
  case_bool_decide as Hcb.
  2: { injection Hok as <-. eexists. split; [done|]. split; [done|].
       intros (info' & _ & Hinfo' & Hc' & _). unfold try_get_main_block_info in Hinfo. congruence. }
  subst c. apply bind_Ok in Hok as (hi & Hhi%ok_or_Ok & Hok).
  unfold try_get_main_block_info, try_get_main_header_info in *.
  case_bool_decide as Hprev.
  2: { injection Hok as <-. eexists. split; [done|]. split; [done|].
       intros (_ & hi' & _ & _ & Hhi' & Hp' & _). congruence. }
  apply bind_Ok in Hok as (v & Hverdict & Hok). injection Hok as <-.
  exists v. split; [done|].
  rewrite (bmm_verdict_Ok a header m v Hiter HL (Hk m hi Hhi) Hv Hverdict).
  split; [|by intros (info' & hi' & _ & _ & _ & _ & Hp)].
  intros Hp. exists info, hi. done.
Qed.

Lemma bmm_loop_Ok a header b l r r' :
  iterates_entries → main_ready a →
  foldR (bmm_step iter_bmm a header b (parent_results a header)) r l = Ok r' →
  (∀ m, r' !! m = Some BmmVerified → r !! m = Some BmmVerified ∨ bmm_fits a header b m)
  ∧ (∀ m, r !! m = Some BmmVerified → bmm_fits a header b m → r' !! m = Some BmmVerified).
Proof.
  intros Hiter Hready. revert r. induction l as [|m0 l IH]; intros r Hr.
  { injection Hr as <-. split; auto. }
  apply bind_Ok in Hr as (r1 & Hstep & Hr).
  apply bmm_step_Ok in Hstep as (v & -> & Hv); [|done..].
  destruct (IH _ Hr) as [H1' H2']. split.
  - intros m [Hm|Hm]%H1'; [|by right]. apply lookup_insert_Some in Hm as [[<- ->]|[_ Hm]].
    + right. by apply Hv.
    + by left.
  - intros m Hm Hf. apply H2'; [|done]. apply lookup_insert_Some.
    destruct (decide (m0 = m)) as [->|]; [left; split; [done|by apply Hv]|by right].
Qed.
End verdicts.
End invariant.

(** ** Storing a header *)
Section headers.
Context `{E : Externals}.
Context (iter_set : gset BtcBlockHash → list BtcBlockHash).
Context (iter_bmm : gmap BtcBlockHash BmmResult → list (BtcBlockHash * BmmResult)).
Context (Hbmm : iterates_entries iter_bmm).

(** No two headers have the same hash. *)
Definition no_collision (a : Archive) (header : Header) : Prop :=
  ∀ header', headers a !! Header_hash header = Some header' → header' = header.

(** Heights do not run out. *)
Definition height_bound (a : Archive) (header : Header) : Prop :=
  ∀ p h, prev_side_hash header = Some p → block_hash_to_height a !! p = Some h →
    (h + 1 < 2 ^ 32)%Z.

Definition height_of_new (a : Archive) (header : Header) (h : Z) : Prop :=
  match prev_side_hash header with
  | None => h = 0%Z
  | Some p => ∃ hp, block_hash_to_height a !! p = Some hp ∧ h = wrap32 (hp + 1)
  end.

Definition with_header (a : Archive) (header : Header) (h : Z) : Archive :=
  with_headers a (<[Header_hash header := h]> (block_hash_to_height a))
    (<[Header_hash header := header]> (headers a)).

Lemma put_header_Ok a header a' :
  put_header iter_set iter_bmm a header = Ok a' →
  ∃ h succ exp results main_blocks, height_of_new a header h
    ∧ exp_ancestors (side_lineage (with_header a header h)) h (expect (prev_side_hash header)) = Ok exp
    ∧ main_successors a !! prev_main_hash header = Some main_blocks
    ∧ (let a1 := with_exponential (with_successors (with_header a header h) succ)
                   (<[Header_hash header := exp]> (exponential_ancestors a)) in
       foldR (bmm_step iter_bmm a1 header (Header_hash header) (parent_results a1 header))
         (get_bmm_results a (Header_hash header)) (iter_set main_blocks) = Ok results
       ∧ a' = with_bmm_results a1 (<[Header_hash header := results]> (bmm_results a))).
Proof.
  unfold put_header. intros (h & Hh & Hok)%bind_Ok.
  assert (height_of_new a header h) as Hnew.
  { unfold height_of_new. destruct (prev_side_hash header); [|by injection Hh].
    apply bind_Ok in Hh as (hp & Hhp%ok_or_Ok & Hh). injection Hh as <-. by exists hp. }
  apply bind_Ok in Hok as (ps & _ & Hok). apply bind_Ok in Hok as (exp & Hexp & Hok).
  apply bind_Ok in Hok as (mb & Hmb%ok_or_Ok & Hok). apply bind_Ok in Hok as (results & Hr & Hok).
  injection Hok as <-. eexists h, _, exp, results, mb. split_and!; [done|exact Hexp|done|exact Hr|done].
Qed.

Lemma height_of_new_known a header h :
  archive_ok a → height_of_new a header h → no_collision a header → height_bound a header →
  (0 ≤ h < 2 ^ 32)%Z
  ∧ (∀ p, prev_side_hash header = Some p →
       side_known a p ∧ get_height a p = Ok (h - 1)%Z ∧ (0 < h)%Z)
  ∧ (side_known a (Header_hash header) → get_height a (Header_hash header) = Ok h).
Proof.
  intros Hok Hnew Hnc Hb.
  assert (∀ p, prev_side_hash header = Some p →
    side_known a p ∧ get_height a p = Ok (h - 1)%Z ∧ (0 < h < 2 ^ 32)%Z) as Hp.
  { intros p Hp. unfold height_of_new in Hnew. rewrite Hp in Hnew.
    destruct Hnew as (hp & Hhp & ->). specialize (Hb p hp Hp Hhp).
    assert (side_known a p) as Kp by (by eexists).
    assert (get_height a p = Ok hp) as Hg by (unfold get_height, try_get_height; by rewrite Hhp).
    destruct (known_node (side_lineage a) (side_known a) (Laws:=ok_side a Hok) p hp Kp Hg)
      as (_ & Hr & _).
    unfold wrap32. rewrite Z.mod_small by lia. split_and!; [done| |lia..].
    rewrite Hg. f_equal. lia. }
  split_and!.
  - destruct (prev_side_hash header) as [p|] eqn:Hpp; [destruct (Hp p eq_refl); lia|].
    unfold height_of_new in Hnew. rewrite Hpp in Hnew. subst. lia.
  - destruct (prev_side_hash header) as [p|] eqn:Hpp; [destruct (Hp p eq_refl) as (_ & _ & ?); lia|].
    unfold height_of_new in Hnew. rewrite Hpp in Hnew. subst. lia.
  - intros p Hpp. destruct (Hp p Hpp) as (? & ? & ?). split_and!; [done..|lia].
  - intros Kb. destruct (ok_side a Hok _ Kb) as (h' & Hn). destruct Hn as (Hh' & Hr' & Hroot & Hpar).
    simpl in Hh'. rewrite Hh'. f_equal.
    apply (ok_headers a Hok) in Kb as [hd Hhd]. pose proof (Hnc hd Hhd) as ->.
    simpl in Hroot, Hpar. unfold get_header, try_get_header in Hroot, Hpar.
    rewrite Hhd in Hroot, Hpar. simpl in Hroot, Hpar.
    destruct (prev_side_hash header) as [p|] eqn:Hpp.
    + destruct (decide (h' = 0%Z)) as [Hz|Hz]; [by discriminate (Hroot Hz)|].
      destruct Hpar as (p' & l & [= <-] & _ & Hph & _); [lia|].
      destruct (Hp p eq_refl) as (_ & Hph' & _). rewrite Hph in Hph'. injection Hph' as ?. lia.
    + unfold height_of_new in Hnew. rewrite Hpp in Hnew. subst.
      destruct (decide (h' = 0%Z)); [done|]. destruct Hpar as (p' & l & [=] & _). lia.
Qed.

(** The tables of the other blocks stay. *)
Lemma with_header_same a header h :
  archive_ok a → height_of_new a header h → no_collision a header → height_bound a header →
  ∀ a', block_hash_to_height a' = block_hash_to_height (with_header a header h) →
    headers a' = headers (with_header a header h) →
    same_height_parent (side_lineage a) (side_lineage a') (side_known a).
Proof.
  intros Hok Hnew Hnc Hb a' Eh Ehd c Kc.
  destruct (height_of_new_known a header h Hok Hnew Hnc Hb) as (_ & _ & Hself).
  simpl. unfold get_height, try_get_height, get_header, try_get_header. rewrite Eh, Ehd. simpl.
  destruct (decide (c = Header_hash header)) as [->|Hne].
  - specialize (Hself Kc). unfold get_height, try_get_height in Hself. rewrite Hself.
    rewrite !lookup_insert_eq. split; [done|].
    apply (ok_headers a Hok) in Kc as [hd Hhd]. by rewrite Hhd, (Hnc hd Hhd).
  - by rewrite !lookup_insert_ne by done.
Qed.

Lemma put_header_side a header a' :
  archive_ok a → no_collision a header → height_bound a header →
  put_header iter_set iter_bmm a header = Ok a' →
  LineageLaws (side_lineage a') (side_known a').
Proof.
  intros Hok Hnc Hb (h & succ & exp & results & mb & Hnew & Hexp & _ & _ & ->)%put_header_Ok.
  set (a' := with_bmm_results _ _).
  pose proof (ok_side a Hok) as HL.
  destruct (height_of_new_known a header h Hok Hnew Hnc Hb) as (Hr & Hpar & _).
  pose proof (with_header_same a header h Hok Hnew Hnc Hb) as Hsame.
  assert (LineageLaws (side_lineage (with_header a header h)) (side_known a)) as HL1.
  { apply (lineage_agree (side_lineage a) _ (side_known a)); [by apply Hsame|done]. }
  apply (laws_ext _ (λ c, c = Header_hash header ∨ side_known a c)).
  { intros c. unfold side_known, a'. simpl. rewrite lookup_insert_is_Some'. naive_solver. }
  apply (lineage_extend (side_lineage a) _ (side_known a) (Header_hash header) h); [by apply Hsame| |..].
  - intros c Kc Hne. unfold same_table. simpl. by rewrite lookup_insert_ne by done.
  - simpl. unfold get_height, try_get_height. simpl. by rewrite lookup_insert_eq.
  - done.
  - intros ->. simpl. unfold get_header, try_get_header. simpl. rewrite lookup_insert_eq. simpl.
    destruct (prev_side_hash header) as [p|] eqn:Hp; [|done]. destruct (Hpar p eq_refl). lia.
  - intros Hpos. destruct (prev_side_hash header) as [p|] eqn:Hp.
    2: { unfold height_of_new in Hnew. rewrite Hp in Hnew. lia. }
    destruct (Hpar p eq_refl) as (Kp & Hph & _). exists p, exp.
    simpl. unfold get_header, try_get_header. simpl. rewrite !lookup_insert_eq. simpl. rewrite Hp.
    split_and!; [done..|].
    destruct (exp_ancestors_ok (side_lineage (with_header a header h)) (side_known a) p h Kp)
      as (l & Hl & Htab); [|lia|].
    + destruct (Hsame (with_header a header h) eq_refl eq_refl p Kp) as [-> _]. done.
    + simpl in Hexp. rewrite Hexp in Hl. injection Hl as <-. intros i Hi.
      destruct (Htab i Hi) as (c & Hc & Hup). exists c. split; [done|].
      rewrite <- Hup. symmetry. apply (up_agree (side_lineage a) _ (side_known a)); [|done].
      by apply Hsame.
Qed.

(** The results of one block are replaced. *)
Lemma verified_put a m0 c res b m :
  verified (with_bmm_results m0 (<[c := res]> (bmm_results a))) b m ↔
  (b = c ∧ res !! m = Some BmmVerified) ∨ (b ≠ c ∧ verified a b m).
Proof.
  unfold verified, get_bmm_results. simpl. destruct (decide (b = c)) as [->|Hne].
  - rewrite lookup_insert_eq. simpl. naive_solver.
  - rewrite lookup_insert_ne by done. naive_solver.
Qed.

(** Results that only grow, and are justified, keep all results backed. *)
Lemma bmm_update a a1 header c res :
  archive_ok a → bmm_grows a a1 → bmm_results a1 = bmm_results a → headers a1 !! c = Some header →
  (∀ m, res !! m = Some BmmVerified → verified a c m ∨ bmm_fits a1 header c m) →
  (∀ m, verified a c m → res !! m = Some BmmVerified) →
  let a' := with_bmm_results a1 (<[c := res]> (bmm_results a)) in
  ∀ b m, verified a' b m → bmm_backed a' b m.
Proof.
  intros Hok Hg Hres Hc Hnew Hold a' b m Hv.
  assert (bmm_grows a1 a') as Hg1.
  { split; [done|by eexists|done|]. intros b' m' Hv'. apply verified_put.
    unfold verified, get_bmm_results in Hv'. rewrite Hres in Hv'.
    destruct (decide (b' = c)) as [->|]; [left; split; [done|by apply Hold]|by right]. }
  assert (bmm_grows a a') as Hg2.
  { destruct Hg as [G1 G2 G3 G4], Hg1 as [F1 F2 F3 F4]. split; eauto. }
  apply verified_put in Hv as [[-> Hv]|[Hne Hv]].
  - destruct (Hnew m Hv) as [Hv'|Hf].
    + eapply bmm_backed_grows; [exact Hg2|]. by apply (ok_bmm a Hok).
    + exists header. split; [done|]. exact (bmm_fits_grows a1 a' header c m Hg1 Hf).
  - eapply bmm_backed_grows; [exact Hg2|]. by apply (ok_bmm a Hok).
Qed.

Lemma put_header_bmm a header a' :
  archive_ok a → no_collision a header → put_header iter_set iter_bmm a header = Ok a' →
  ∀ b m, verified a' b m → bmm_backed a' b m.
Proof.
  intros Hok Hnc (h & succ & exp & results & mb & _ & _ & _ & Hloop & ->)%put_header_Ok.
  set (a1 := with_exponential _ _) in *.
  assert (bmm_grows a a1) as Hg.
  { split; [|by eexists|done|done]. intros b h' Hb. unfold a1. simpl.
    destruct (decide (b = Header_hash header)) as [->|]; [|by rewrite lookup_insert_ne].
    by rewrite lookup_insert_eq, (Hnc h' Hb). }
  apply bmm_loop_Ok in Hloop as [Hn Ho]; [|done|exact (archive_main_ready a Hok)].
  apply (bmm_update a a1 header); [done..| | |].
  - unfold a1. simpl. by rewrite lookup_insert_eq.
  - exact Hn.
  - intros m Hv. apply Ho; [done|].
    destruct (ok_bmm a Hok _ m Hv) as (header' & Hh' & Hf). rewrite (Hnc header' Hh') in Hf.
    exact (bmm_fits_grows a a1 header _ m Hg Hf).
Qed.

Lemma put_header_preserves a header a' :
  archive_ok a → no_collision a header → height_bound a header →
  put_header iter_set iter_bmm a header = Ok a' → archive_ok a'.
Proof.
  intros Hok Hnc Hb Hput. split.
  - by eapply put_header_side.
  - destruct (put_header_Ok a header a' Hput) as (h & succ & exp & results & mb & _ & _ & _ & _ & ->).
    intros b. unfold side_known. simpl. rewrite !lookup_insert_is_Some'.
    by rewrite (ok_headers a Hok b).
  - destruct (put_header_Ok a header a' Hput) as (h & succ & exp & results & mb & _ & _ & _ & _ & ->).
    apply (ok_main a Hok).
  - destruct (put_header_Ok a header a' Hput) as (h & succ & exp & results & mb & _ & _ & _ & _ & ->).
    apply (ok_main_headers a Hok).
  - destruct (put_header_Ok a header a' Hput) as (h & succ & exp & results & mb & _ & _ & _ & _ & ->).
    apply (ok_zeros a Hok).
  - by eapply put_header_bmm.
Qed.

(** ** Storing a mainchain block info *)

(** A mainchain block has one commitment. *)
Definition info_consistent (a : Archive) (m : BtcBlockHash) (info : BlockInfo) : Prop :=
  ∀ i, main_block_infos a !! m = Some i → bmm_commitment info = bmm_commitment i.

Lemma with_infos_grows a m info :
  info_consistent a m info →
  bmm_grows a (with_main_block_infos a (<[m := info]> (main_block_infos a))).
Proof.
  intros Hc. split; [done| |done|done]. intros m' i Hi. simpl.
  destruct (decide (m' = m)) as [->|].
  - exists info. rewrite lookup_insert_eq. split; [done|by apply Hc].
  - exists i. by rewrite lookup_insert_ne.
Qed.

(** Changes outside the tables keep the rest of the invariant. *)
Lemma same_tables_ok a a' :
  archive_ok a → side_lineage a' = side_lineage a → main_lineage a' = main_lineage a →
  headers a' = headers a → block_hash_to_height a' = block_hash_to_height a →
  main_header_infos a' = main_header_infos a →
  main_block_hash_to_height a' = main_block_hash_to_height a →
  (∀ b m, verified a' b m → bmm_backed a' b m) → archive_ok a'.
Proof.
  intros [S1 S2 M1 M2 Z _] Es Em Eh Ehh Emh Emhh Hb.
  assert (side_known a' = side_known a) as Ks by (unfold side_known; by rewrite Ehh).
  assert (main_known a' = main_known a) as Km by (unfold main_known; by rewrite Emhh).
  split; rewrite ?Es, ?Em, ?Ks, ?Km, ?Eh, ?Emh, ?Emhh; auto.
Qed.

Lemma put_main_block_info_preserves a m info a' :
  archive_ok a → info_consistent a m info →
  put_main_block_info iter_bmm a m info = Ok a' → archive_ok a'.
Proof.
  intros Hok Hc (hi & Hhi%ok_or_Ok & Hput)%bind_Ok. apply bind_Ok in Hput as (u & _ & Hput).
  clear u. unfold try_get_main_header_info in Hhi. cbv zeta in Hput.
  set (a1 := with_main_block_infos a (<[m := info]> (main_block_infos a))) in *.
  pose proof (with_infos_grows a m info Hc) as Hg. fold a1 in Hg.
  assert (archive_ok a1) as Hok1.
  { apply (same_tables_ok a); [done..|]. intros b m' Hv.
    eapply bmm_backed_grows; [exact Hg|]. by apply (ok_bmm a Hok). }
  destruct (bmm_commitment info) as [c|] eqn:Hcomm; [|by injection Hput as <-].
  destruct (try_get_header a1 c) as [header|] eqn:Hh; [|by injection Hput as <-].
  apply bind_Ok in Hput as (v & Hv & Hput). injection Hput as <-.
  assert (v = BmmVerified ↔ bmm_fits a1 header c m) as Hspec.
  { unfold bmm_fits. case_bool_decide as Hp.
    - rewrite (bmm_verdict_Ok iter_bmm a1 header m v Hbmm (ok_main a1 Hok1)
        (proj1 (proj2 (archive_main_ready a1 Hok1)) m hi Hhi)
        (proj2 (proj2 (archive_main_ready a1 Hok1))) Hv).
      split; [|by intros (? & ? & _ & _ & _ & _ & ?)]. intros Hpar. exists info, hi.
      unfold a1. simpl. rewrite lookup_insert_eq. done.
    - injection Hv as <-. split; [done|]. intros (_ & hi' & _ & _ & Hhi' & Hp' & _).
      unfold a1 in Hhi'. simpl in Hhi'. congruence. }
  apply (same_tables_ok a1); [done..|].
  apply (bmm_update a1 a1 header); [done|by split; eauto|done|done| |].
  - intros m' [[<- ->]|[_ Hm']]%lookup_insert_Some; [right; by apply Hspec|by left].
  - intros m' Hm'. apply lookup_insert_Some. destruct (decide (m = m')) as [->|]; [left|by right].
    split; [done|]. apply Hspec. destruct (ok_bmm a1 Hok1 c m' Hm') as (header' & Hh' & Hf).
    unfold try_get_header in Hh. assert (header' = header) as -> by congruence. done.
Qed.
End headers.

(** ** Storing a mainchain header *)
Section main_headers.
Context `{E : Externals}.
Context (work_add : Z → Z → Z).

Record main_header_new (a : Archive) (hi : BlockHeaderInfo) : Prop := {
  new_not_zeros : hi_block_hash hi ≠ all_zeros;
  new_no_collision hi' : main_header_infos a !! hi_block_hash hi = Some hi' → hi' = hi;
  new_height h : try_get_main_height a (hi_prev_block_hash hi) = Some h → (h + 1 < 2 ^ 32)%Z
}.

Definition with_main_header (a : Archive) (hi : BlockHeaderInfo) (h w : Z) : Archive :=
  with_main_headers a (<[hi_block_hash hi := h]> (main_block_hash_to_height a))
    (<[hi_block_hash hi := hi]> (main_header_infos a)) (<[hi_block_hash hi := w]> (total_work a)).

Lemma put_main_header_info_Ok a hi a' :
  put_main_header_info work_add a hi = Ok a' →
  ∃ hp w succ exp, try_get_main_height a (hi_prev_block_hash hi) = Some hp
    ∧ main_known a (hi_prev_block_hash hi)
    ∧ (let a1 := with_main_header a hi (wrap32 (hp + 1)) w in
       exp_ancestors (main_lineage a1) (wrap32 (hp + 1)) (Ok (hi_prev_block_hash hi)) = Ok exp
       ∧ a' = with_main_exponential (with_main_successors a1 succ)
                (<[hi_block_hash hi := exp]> (exponential_main_ancestors a))).
Proof.
  unfold put_main_header_info. intros (u & _ & Hok)%bind_Ok. clear u.
  apply bind_Ok in Hok as (hp & Hhp%ok_or_Ok & Hok). apply bind_Ok in Hok as (w & _ & Hok).
  apply bind_Ok in Hok as (ps & _ & Hok). apply bind_Ok in Hok as (exp & Hexp & Hok).
  injection Hok as <-. eexists hp, w, _, exp. split_and!; [done| |exact Hexp|done].
  unfold try_get_main_height in Hhp. case_bool_decide; [by left|]. right. by eexists.
Qed.

Lemma main_self_height a hi h :
  archive_ok a → main_header_new a hi →
  main_known a (hi_block_hash hi) → get_main_height a (hi_prev_block_hash hi) = Ok h →
  (0 ≤ h)%Z → get_main_height a (hi_block_hash hi) = Ok (wrap32 (h + 1)).
Proof.
  intros Hok [Hnz Hnc Hb] Km Hh Hpos.
  destruct (ok_main a Hok _ Km) as (h' & Hh' & Hr & Hroot & Hpar). simpl in Hh'. rewrite Hh'. f_equal.
  destruct Km as [|Km]; [done|]. apply (ok_main_headers a Hok) in Km as [hi' Hhi].
  pose proof (Hnc hi' Hhi) as ->.
  assert (lin_parent (Lineage:=main_lineage a) (hi_block_hash hi) = Ok (hi_prev_block_hash hi)) as Hp.
  { simpl. unfold get_main_header_info, try_get_main_header_info. by rewrite Hhi. }
  rewrite Hp in Hroot, Hpar.
  destruct (decide (h' = 0%Z)) as [Hz|Hz]; [by discriminate (Hroot Hz)|].
  destruct Hpar as (p & l & [= <-] & _ & Hph & _); [lia|]. simpl in Hph. rewrite Hh in Hph.
  injection Hph as ->. unfold wrap32. rewrite Z.mod_small; lia.
Qed.

Lemma main_height_zero a m :
  archive_ok a → main_known a m → get_main_height a m = Ok 0%Z → m = all_zeros.
Proof.
  intros Hok Km Hm. destruct (known_node (main_lineage a) (main_known a) (Laws:=ok_main a Hok) m 0 Km Hm)
    as (_ & _ & Hroot & _).
  destruct Km as [|Km]; [done|]. apply (ok_main_headers a Hok) in Km as [hi Hhi].
  simpl in Hroot. unfold get_main_header_info, try_get_main_header_info in Hroot.
  rewrite Hhi in Hroot. by discriminate Hroot.
Qed.

Lemma with_main_header_same a hi hp w :
  archive_ok a → main_header_new a hi →
  get_main_height a (hi_prev_block_hash hi) = Ok hp → (0 ≤ hp)%Z →
  ∀ a', main_block_hash_to_height a'
        = main_block_hash_to_height (with_main_header a hi (wrap32 (hp + 1)) w) →
    main_header_infos a' = main_header_infos (with_main_header a hi (wrap32 (hp + 1)) w) →
    same_height_parent (main_lineage a) (main_lineage a') (main_known a).
Proof.
  intros Hok Hnew Hhp Hpos a' Eh Ehi c Kc. simpl.
  unfold get_main_height, try_get_main_height, get_main_header_info, try_get_main_header_info.
  rewrite Eh, Ehi. simpl. destruct (decide (c = hi_block_hash hi)) as [->|Hne].
  - rewrite !lookup_insert_eq.
    pose proof (main_self_height a hi hp Hok Hnew Kc Hhp Hpos) as Hself.
    unfold get_main_height, try_get_main_height in Hself.
    rewrite (bool_decide_false (hi_block_hash hi = all_zeros)) in * by apply Hnew.
    rewrite Hself. split; [done|].
    destruct Kc as [Hz|Kc]; [by destruct (new_not_zeros _ _ Hnew)|].
    apply (ok_main_headers a Hok) in Kc as [hi' Hhi]. by rewrite Hhi, (new_no_collision _ _ Hnew hi' Hhi).
  - by rewrite !lookup_insert_ne by done.
Qed.

Lemma put_main_header_main a hi a' :
  archive_ok a → main_header_new a hi → put_main_header_info work_add a hi = Ok a' →
  LineageLaws (main_lineage a') (main_known a').
Proof.
  intros Hok Hnew (hp & w & succ & exp & Hhp & Kp & Hexp & ->)%put_main_header_info_Ok.
  assert (get_main_height a (hi_prev_block_hash hi) = Ok hp) as Hhp'.
  { unfold get_main_height. by rewrite Hhp. }
  pose proof (ok_main a Hok) as HL.
  destruct (known_node (main_lineage a) (main_known a) (hi_prev_block_hash hi) hp Kp Hhp')
    as (_ & Hr & _).
  pose proof (new_height a hi Hnew hp Hhp) as Hb.
  pose proof (with_main_header_same a hi hp w Hok Hnew Hhp' (proj1 Hr)) as Hsame.
  assert (wrap32 (hp + 1) = (hp + 1)%Z) as Hw by (unfold wrap32; rewrite Z.mod_small; lia).
  rewrite Hw in *. set (a1 := with_main_header a hi (hp + 1) w) in *. set (a' := with_main_exponential _ _).
  assert (LineageLaws (main_lineage a1) (main_known a)) as HL1.
  { apply (lineage_agree (main_lineage a) _ (main_known a)); [by apply Hsame|done]. }
  apply (laws_ext _ (λ c, c = hi_block_hash hi ∨ main_known a c)).
  { intros c. unfold main_known, a'. simpl. rewrite lookup_insert_is_Some'. naive_solver. }
  apply (lineage_extend (main_lineage a) _ (main_known a) (hi_block_hash hi) (hp + 1));
    [by apply Hsame| |..].
  - intros c Kc Hne. unfold same_table. simpl. by rewrite lookup_insert_ne by done.
  - simpl. unfold get_main_height, try_get_main_height. simpl. rewrite lookup_insert_eq.
    by rewrite bool_decide_false by apply Hnew.
  - lia.
  - lia.
  - intros _. exists (hi_prev_block_hash hi), exp.
    simpl. unfold get_main_header_info, try_get_main_header_info. simpl. rewrite !lookup_insert_eq.
    split_and!; [done..| |done|].
    { rewrite Hhp'. f_equal. lia. }
    destruct (exp_ancestors_ok (main_lineage a1) (main_known a) (hi_prev_block_hash hi) (hp + 1) Kp)
      as (l & Hl & Htab); [|lia|].
    + destruct (Hsame a1 eq_refl eq_refl _ Kp) as [-> _]. simpl. rewrite Hhp'. f_equal. lia.
    + rewrite Hexp in Hl. injection Hl as <-. intros i Hi.
      destruct (Htab i Hi) as (c & Hc & Hup). exists c. split; [done|].
      rewrite <- Hup. symmetry. apply (up_agree (main_lineage a) _ (main_known a)); [|done].
      by apply Hsame.
Qed.

Lemma put_main_header_preserves a hi a' :
  archive_ok a → main_header_new a hi → put_main_header_info work_add a hi = Ok a' →
  archive_ok a'.
Proof.
  intros Hok Hnew Hput. pose proof (put_main_header_main a hi a' Hok Hnew Hput) as Hmain.
  apply put_main_header_info_Ok in Hput as (hp & w & succ & exp & _ & _ & _ & ->).
  set (a' := with_main_exponential _ _) in *. split.
  - exact (ok_side a Hok).
  - exact (ok_headers a Hok).
  - exact Hmain.
  - intros m. unfold a'. simpl. rewrite !lookup_insert_is_Some'. by rewrite (ok_main_headers a Hok m).
  - unfold a'. simpl. rewrite lookup_insert_ne by apply Hnew. apply (ok_zeros a Hok).
  - intros b m Hv. apply (bmm_backed_grows a a').
    + split; [done|by eexists| |done]. intros m' hi' Hm'. unfold a'. simpl.
      destruct (decide (m' = hi_block_hash hi)) as [->|]; [|by rewrite lookup_insert_ne].
      by rewrite lookup_insert_eq, (new_no_collision a hi Hnew hi' Hm').
    + by apply (ok_bmm a Hok).
Qed.
End main_headers.

(** ** Reachable archives *)
Section reachable.
Context `{E : Externals}.
Context (iter_set : gset BtcBlockHash → list BtcBlockHash).
Context (iter_bmm : gmap BtcBlockHash BmmResult → list (BtcBlockHash * BmmResult)).
Context (work_add : Z → Z → Z).

(** One operation on the archive.  The conditions are those of the comments of
    the code, and that block hashes identify blocks. *)
Inductive archive_step (a a' : Archive) : Prop :=
  | step_open VERSION (Hput : Archive_new VERSION a = Ok a')
  | step_accumulator b acc (Hput : a' = put_accumulator a b acc)
  | step_frontier b f (Hput : a' = put_orchard_frontier a b f)
  | step_body b body (Hput : put_body a b body = Ok a')
  | step_header header (Hnc : no_collision a header) (Hb : height_bound a header)
      (Hput : put_header iter_set iter_bmm a header = Ok a')
  | step_main_header hi (Hnew : main_header_new a hi)
      (Hput : put_main_header_info work_add a hi = Ok a')
  | step_main_info m info (Hc : info_consistent a m info)
      (Hput : put_main_block_info iter_bmm a m info = Ok a').

Lemma empty_archive_ok : archive_ok Archive_empty_dbs.
Proof.
  split.
  - intros b [x Hx]. simpl in Hx. by rewrite lookup_empty in Hx.
  - intros b. unfold side_known. simpl. by rewrite !lookup_empty.
  - intros m [->|[x Hx]]; [|simpl in Hx; by rewrite lookup_empty in Hx].
    exists 0%Z. split_and!; [|lia..|done|lia].
    simpl. unfold get_main_height, try_get_main_height. by rewrite bool_decide_true.
  - intros m. simpl. by rewrite !lookup_empty.
  - done.
  - intros b m Hv. unfold verified, get_bmm_results in Hv. simpl in Hv.
    rewrite lookup_empty in Hv. simpl in Hv. by rewrite lookup_empty in Hv.
Qed.

Lemma put_inclusions_tables b a l :
  ∃ i, foldl (put_inclusion b) a l = with_bodies a (bodies a) i.
Proof.
  revert a. induction l as [|x l IH]; intros a.
  - exists (txid_to_inclusions a). by destruct a.
  - simpl. destruct (IH (put_inclusion b a x)) as (i & ->). by exists i.
Qed.

Lemma archive_step_ok a a' : iterates_entries iter_bmm → archive_step a a' → archive_ok a → archive_ok a'.
Proof.
  intros Hbmm Hstep Hok. destruct Hstep.
  - unfold Archive_new in Hput. apply bind_Ok in Hput as (a1 & Ha1 & Hput). injection Hput as <-.
    assert (a1 = a ∨ a1 = with_version a VERSION) as [->| ->].
    { destruct (archive_version a); [|injection Ha1; auto]. destruct (version_lt _ _); [done|].
      injection Ha1. auto. }
    all: apply (same_tables_ok a); [done..|]; apply (ok_bmm a Hok).
  - subst. apply (same_tables_ok a); [done..|]. apply (ok_bmm a Hok).
  - subst. apply (same_tables_ok a); [done..|]. apply (ok_bmm a Hok).
  - apply bind_Ok in Hput as (h & _ & Hput). injection Hput as <-.
    destruct (put_inclusions_tables b (with_bodies a (<[b:=body]> (bodies a)) (txid_to_inclusions a))
      (imap pair (transactions body))) as (i & ->).
    apply (same_tables_ok a); [done..|]. apply (ok_bmm a Hok).
  - by eapply put_header_preserves.
  - by eapply put_main_header_preserves.
  - by eapply put_main_block_info_preserves.
Qed.

Lemma reachable_ok a : iterates_entries iter_bmm → rtc archive_step Archive_empty_dbs a → archive_ok a.
Proof.
  intros Hbmm Hr. remember Archive_empty_dbs as a0 eqn:Ha0.
  assert (archive_ok a0) as Hok by (subst; apply empty_archive_ok). clear Ha0.
  induction Hr as [|x y z Hs _ IH]; [done|]. apply IH. by eapply archive_step_ok.
Qed.
End reachable.

(** ** What the searches compute *)
Section search.
Context `{E : Externals}.

Lemma get_height_known a b h : get_height a b = Ok h → side_known a b.
Proof. intros Hh%ok_or_Ok. by eexists. Qed.
Lemma get_main_height_known a m h : get_main_height a m = Ok h → main_known a m.
Proof.
  intros Hh%ok_or_Ok. unfold try_get_main_height in Hh. case_bool_decide; [by left|].
  right. by eexists.
Qed.

Lemma last_common_ancestor_ok a b0 b1 h0 h1 :
  archive_ok a → get_height a b0 = Ok h0 → get_height a b1 = Ok h1 →
  (h0 < 2 ^ 31)%Z → (h1 < 2 ^ 31)%Z →
  (∃ c, last_common_ancestor a b0 b1 = Ok (Some c) ∧ greatest_common (side_lineage a) b0 b1 c)
  ∨ (last_common_ancestor a b0 b1 = Ok None
     ∧ ∀ c, ancestor_of (side_lineage a) c b0 → ancestor_of (side_lineage a) c b1 → False).
Proof.
  intros Hok Hh0 Hh1 Hb0 Hb1. set (L := side_lineage a). set (K := side_known a).
  pose proof (ok_side a Hok : LineageLaws L K) as HL.
  pose proof (get_height_known _ _ _ Hh0 : K b0) as K0.
  pose proof (get_height_known _ _ _ Hh1 : K b1) as K1.
  destruct (equalize_ok L K b0 b1 h0 h1 K0 K1 Hh0 Hh1)
    as (c0 & c1 & n0 & n1 & Heq & Hu0 & Hu1 & Kc0 & Kc1 & Hc0 & Hc1).
  unfold last_common_ancestor. rewrite Hh0, Hh1, !ok_bind. fold L. rewrite Heq, ok_bind.
  set (H := Z.min h0 h1) in *.
  destruct (known_node L K c0 H Kc0 Hc0) as (_ & Hr & _).
  case_bool_decide as Hcc.
  { left. subst c1. exists c0. split; [done|].
    apply (greatest_common_lift L K b0 b1 c0 c0 n0 n1 h0 h1); try done.
    split_and!; [by exists 0..|done]. }
  unfold get_nth_ancestor. fold L.
  destruct (nth_ancestor_Ok L K c0 H H Kc0 Hc0) as (r0 & Hr0 & Hur0 & _); [lia|].
  destruct (nth_ancestor_Ok L K c1 H H Kc1 Hc1) as (r1 & Hr1 & Hur1 & _); [lia|].
  rewrite Hr0, ok_bind, Hr1, ok_bind. case_bool_decide as Hrr.
  - left. subst r1. destruct (bisect_ok L K c0 c1 H Kc0 Kc1 Hc0 Hc1) as (c & Hc & Hg);
      [lia|done|congruence|].
    exists c. rewrite Hc. split; [done|].
    by apply (greatest_common_lift L K b0 b1 c0 c1 n0 n1 h0 h1).
  - right. split; [done|]. intros c Ha0 Ha1. apply Hrr.
    assert (∃ hc, lin_height (Lineage:=L) c = Ok hc ∧ (hc ≤ H)%Z) as (hc & Hhc & Hle).
    { destruct Ha0 as [i Hi], Ha1 as [j Hj].
      destruct (up_depth L K i b0 h0 c K0 Hh0 Hi) as (? & _ & Hci).
      destruct (up_depth L K j b1 h1 c K1 Hh1 Hj) as (? & _ & Hcj).
      eexists. split; [exact Hci|]. rewrite Hci in Hcj. injection Hcj as ?. lia. }
    destruct (ancestor_through L K c b0 c0 n0 h0 H hc K0 Hh0 Hu0 Hc0 Ha0 Hhc Hle) as [i Hi].
    destruct (ancestor_through L K c b1 c1 n1 h1 H hc K1 Hh1 Hu1 Hc1 Ha1 Hhc Hle) as [j Hj].
    destruct (up_depth L K i c0 H c Kc0 Hc0 Hi) as (? & _ & Hci).
    destruct (up_depth L K j c1 H c Kc1 Hc1 Hj) as (? & _ & Hcj).
    rewrite Hci in Hcj. injection Hcj as Hij. replace j with i in Hj by lia.
    pose proof (up_agree_below L c0 c1 i (Z.to_nat H - i) c Hi Hj) as Hag.
    replace (i + (Z.to_nat H - i)) with (Z.to_nat H) in Hag by lia. congruence.
Qed.

Lemma last_common_main_ancestor_ok a m0 m1 h0 h1 :
  archive_ok a → get_main_height a m0 = Ok h0 → get_main_height a m1 = Ok h1 →
  (h0 < 2 ^ 31)%Z → (h1 < 2 ^ 31)%Z →
  ∃ c, last_common_main_ancestor a m0 m1 = Ok c ∧ greatest_common (main_lineage a) m0 m1 c.
Proof.
  intros Hok Hh0 Hh1 Hb0 Hb1. set (L := main_lineage a). set (K := main_known a).
  pose proof (ok_main a Hok : LineageLaws L K) as HL.
  pose proof (get_main_height_known _ _ _ Hh0 : K m0) as K0.
  pose proof (get_main_height_known _ _ _ Hh1 : K m1) as K1.
  destruct (equalize_ok L K m0 m1 h0 h1 K0 K1 Hh0 Hh1)
    as (c0 & c1 & n0 & n1 & Heq & Hu0 & Hu1 & Kc0 & Kc1 & Hc0 & Hc1).
  unfold last_common_main_ancestor. rewrite Hh0, Hh1, !ok_bind. fold L. rewrite Heq, ok_bind.
  set (H := Z.min h0 h1) in *. destruct (known_node L K c0 H Kc0 Hc0) as (_ & Hr & _).
  case_bool_decide as Hcc.
  { subst c1. exists c0. split; [done|].
    apply (greatest_common_lift L K m0 m1 c0 c0 n0 n1 h0 h1); try done.
    split_and!; [by exists 0..|done]. }
  assert (∀ c, K c → lin_height (Lineage:=L) c = Ok H → up L (Z.to_nat H) c = Ok all_zeros) as Hroot.
  { intros c Kc Hc. destruct (up_known L K (Z.to_nat H) c H Kc Hc) as (z & Hz & Kz & Hzh); [lia|].
    rewrite Hz. f_equal. apply (main_height_zero a z Hok Kz). etransitivity; [exact Hzh|].
    f_equal. lia. }
  destruct (bisect_ok L K c0 c1 H Kc0 Kc1 Hc0 Hc1) as (c & Hc & Hg);
    [lia|done|by rewrite !Hroot|].
  exists c. split; [done|]. by apply (greatest_common_lift L K m0 m1 c0 c1 n0 n1 h0 h1).
Qed.

Lemma last_common_main_sym a m0 m1 h0 h1 :
  archive_ok a → get_main_height a m0 = Ok h0 → get_main_height a m1 = Ok h1 →
  (h0 < 2 ^ 31)%Z → (h1 < 2 ^ 31)%Z →
  last_common_main_ancestor a m0 m1 = last_common_main_ancestor a m1 m0.
Proof.
  intros Hok Hh0 Hh1 Hb0 Hb1.
  destruct (last_common_main_ancestor_ok a m0 m1 h0 h1) as (c & -> & Hg); [done..|].
  destruct (last_common_main_ancestor_ok a m1 m0 h1 h0) as (c' & -> & Hg'); [done..|].
  f_equal. pose proof (ok_main a Hok) as HL.
  apply (greatest_common_unique (main_lineage a) (main_known a) m0 m1);
    [by eapply get_main_height_known|done|by apply greatest_common_sym].
Qed.

Lemma shared_lineage_sym a m0 m1 h0 h1 :
  get_main_height a m0 = Ok h0 → get_main_height a m1 = Ok h1 →
  shared_mainchain_lineage a m0 m1 = shared_mainchain_lineage a m1 m0.
Proof.
  intros Hh0 Hh1. unfold shared_mainchain_lineage. rewrite Hh0, Hh1, !ok_bind.
  unfold equalize. rewrite (Z.compare_antisym h0 h1).
  destruct (Z.compare_spec h0 h1); simpl; rewrite ?ok_bind.
  - f_equal. by apply bool_decide_ext.
  - destruct (nth_ancestor _ _ _); [|done..]. rewrite !ok_bind. f_equal. by apply bool_decide_ext.
  - destruct (nth_ancestor _ _ _); [|done..]. rewrite !ok_bind. f_equal. by apply bool_decide_ext.
Qed.

(** Every ancestor of a verified block is verified, further down the mainchain. *)
Lemma verified_ancestor a n b m c :
  archive_ok a → verified a b m → up (side_lineage a) n b = Ok c →
  ∃ m', verified a c m' ∧ ancestor_of (main_lineage a) m' m.
Proof.
  intros Hok. revert b m. induction n as [|n IH]; intros b m Hv Hup.
  { injection Hup as <-. exists m. split; [done|]. by exists 0. }
  destruct (ok_bmm a Hok b m Hv) as (header & Hh & _ & _ & _ & _ & _ & _ & Hpar).
  simpl in Hup. unfold get_header, try_get_header in Hup. rewrite Hh in Hup. simpl in Hup.
  destruct (prev_side_hash header) as [p|] eqn:Hp; [|done]. simpl in Hup.
  destruct (Hpar p Hp) as (m1 & Hv1 & Ha1).
  destruct (IH p m1 Hv1 Hup) as (m' & Hv' & Ha'). exists m'. split; [done|].
  by eapply ancestor_trans.
Qed.
End search.

(** ** Properties *)
Section properties.
Context `{E : Externals}.
Context (iter_set : gset BtcBlockHash → list BtcBlockHash).
Context (iter_bmm : gmap BtcBlockHash BmmResult → list (BtcBlockHash * BmmResult)).
Context (work_add : Z → Z → Z).

(** C17: The archive keeps its invariant: in every archive reachable from
    empty databases by opening and by any sequence of writes, all ancestors of
    a stored block are stored with the right heights and exponential ancestor
    tables, for the sidechain and for the mainchain, and every BMM result
    "verified" is backed by a commitment in a stored mainchain block whose
    predecessor the header names and, for a block with a parent, by a verified
    commitment to the parent in the ancestry of that mainchain block. *)
Theorem archive_invariant (a : Archive) (Hiter : iterates_entries iter_bmm)
    (Hreach : rtc (archive_step iter_set iter_bmm work_add) Archive_empty_dbs a) :
  archive_ok a.
Proof. by eapply reachable_ok. Qed.

(** C19: [get_nth_ancestor] is the n-fold parent: on a block of height [h],
    for a depth up to [h] the jumps through the exponential table end, and end
    at the block that [n] single parent steps lead to; for a greater depth the
    call fails with [NoAncestor]. The same holds for mainchain blocks. *)
Theorem nth_ancestor_is_iterated_parent (a : Archive) (Hok : archive_ok a) (n : Z) (Hn : (0 ≤ n)%Z) :
  (∀ b h, get_height a b = Ok h →
     ((n ≤ h)%Z → ∃ c, get_nth_ancestor a b n = Ok c
        ∧ up (side_lineage a) (Z.to_nat n) b = Ok c ∧ get_height a c = Ok (h - n)%Z)
     ∧ ((h < n)%Z → get_nth_ancestor a b n = Err (NoAncestor b n)))
  ∧ ∀ m h, get_main_height a m = Ok h →
     ((n ≤ h)%Z → ∃ c, get_nth_main_ancestor a m n = Ok c
        ∧ up (main_lineage a) (Z.to_nat n) m = Ok c ∧ get_main_height a c = Ok (h - n)%Z)
     ∧ ((h < n)%Z → get_nth_main_ancestor a m n = Err (NoMainAncestor m n)).
Proof.
  pose proof (ok_side a Hok) as HL. pose proof (ok_main a Hok) as HM. split.
  - intros b h Hh. pose proof (get_height_known a b h Hh) as Kb.
    destruct (known_node (side_lineage a) (side_known a) b h Kb Hh) as (_ & Hr & _). split; intros Hnh.
    + destruct (nth_ancestor_Ok (side_lineage a) (side_known a) b n h Kb Hh) as (c & ? & ? & _ & ?);
        [lia|by exists c].
    + by apply (nth_ancestor_too_deep (side_lineage a) b n h); [|lia].
  - intros m h Hh. pose proof (get_main_height_known a m h Hh) as Km.
    destruct (known_node (main_lineage a) (main_known a) m h Km Hh) as (_ & Hr & _). split; intros Hnh.
    + destruct (nth_ancestor_Ok (main_lineage a) (main_known a) m n h Km Hh) as (c & ? & ? & _ & ?);
        [lia|by exists c].
    + by apply (nth_ancestor_too_deep (main_lineage a) m n h); [|lia].
Qed.

(** C20: [last_common_ancestor] finds the last common ancestor: the binary
    search ends, and its result is an ancestor of both blocks and a descendant
    of all their common ancestors; the result is [None] exactly when the blocks
    have no common ancestor. (Heights are below 2^31: the sum of two depths is
    a [u32].) *)
Theorem last_common_ancestor_spec (a : Archive) (b0 b1 : BlockHash) (h0 h1 : Z)
    (Hok : archive_ok a) (Hh0 : get_height a b0 = Ok h0) (Hh1 : get_height a b1 = Ok h1)
    (Hb0 : (h0 < 2 ^ 31)%Z) (Hb1 : (h1 < 2 ^ 31)%Z) :
  (∃ c, last_common_ancestor a b0 b1 = Ok (Some c) ∧ greatest_common (side_lineage a) b0 b1 c)
  ∨ (last_common_ancestor a b0 b1 = Ok None
     ∧ ∀ c, ancestor_of (side_lineage a) c b0 → ancestor_of (side_lineage a) c b1 → False).
Proof. by eapply last_common_ancestor_ok. Qed.

(** C18: A verified block has a verified ancestry: if a block's BMM result at a
    mainchain block is "verified", then every ancestor of the block has a
    verified commitment in the ancestry of that mainchain block; in particular
    a chain of mainchain commitments leads back to the first sidechain block. *)
Theorem verified_block_has_verified_ancestry (a : Archive) (n : nat) (b c : BlockHash)
    (m : BtcBlockHash) (Hok : archive_ok a) (Hv : verified a b m)
    (Hc : up (side_lineage a) n b = Ok c) :
  ∃ m' info, verified a c m' ∧ ancestor_of (main_lineage a) m' m
    ∧ main_block_infos a !! m' = Some info ∧ bmm_commitment info = Some c.
Proof.
  destruct (verified_ancestor a n b m c Hok Hv Hc) as (m' & Hv' & Ha).
  destruct (ok_bmm a Hok c m' Hv') as (header & _ & info & hi & Hi & Hic & _). by exists m', info.
Qed.

(** The better of two tips does not depend on the order in which they are
    compared, unless their heights and their total works are both equal (then
    the first one may be kept). *)
Theorem better_tip_symmetric (a : Archive) (t0 t1 : Tip) (h0 h1 w0 w1 mh0 mh1 : Z)
    (Hok : archive_ok a)
    (Hh0 : get_height a (tip_block_hash t0) = Ok h0) (Hh1 : get_height a (tip_block_hash t1) = Ok h1)
    (Hw0 : get_total_work a (tip_main_block_hash t0) = Ok w0)
    (Hw1 : get_total_work a (tip_main_block_hash t1) = Ok w1)
    (Hm0 : get_main_height a (tip_main_block_hash t0) = Ok mh0)
    (Hm1 : get_main_height a (tip_main_block_hash t1) = Ok mh1)
    (Hb0 : (mh0 < 2 ^ 31)%Z) (Hb1 : (mh1 < 2 ^ 31)%Z) (Hne : ¬ (h0 = h1 ∧ w0 = w1)) :
  better_tip a t0 t1 = better_tip a t1 t0.
Proof.
  unfold better_tip. destruct (decide (t0 = t1)) as [->|Ht]; [done|].
  rewrite !bool_decide_false by done.
  rewrite Hh0, Hh1, !ok_bind.
  destruct (Z.eqb_spec h0 0) as [Hz0|Hz0], (Z.eqb_spec h1 0) as [Hz1|Hz1]; simpl; try done.
  rewrite Hw0, Hw1, !ok_bind.
  rewrite (Z.compare_antisym w0 w1), (Z.compare_antisym h0 h1).
  pose proof (last_common_main_sym a _ _ mh0 mh1 Hok Hm0 Hm1 Hb0 Hb1) as Hlca.
  pose proof (shared_lineage_sym a _ _ mh0 mh1 Hm0 Hm1) as Hsh.
  destruct (Z.compare_spec w0 w1), (Z.compare_spec h0 h1); simpl; try done;
    [by destruct Hne|by rewrite Hsh|by rewrite Hlca|by rewrite Hsh|by rewrite Hlca].
Qed.
End properties.

(** ** Witnesses *)
Module ArchiveToy.
#[local] Existing Instance Toy.externals.

Definition set_order : gset BtcBlockHash → list BtcBlockHash := elements.
Definition map_order : gmap BtcBlockHash BmmResult → list (BtcBlockHash * BmmResult) := map_to_list.
Lemma map_order_iterates : iterates_entries map_order.
Proof. by intros m. Qed.

(** *** Running writes with their preconditions checked *)
Inductive write :=
  | WOpen
  | WHeader (header : Header)
  | WMainHeader (hi : BlockHeaderInfo)
  | WMainInfo (m : BtcBlockHash) (info : BlockInfo)
  | WBody (b : BlockHash) (body : Body).

Definition is_none {A} (o : option A) : bool := match o with None => true | _ => false end.
Definition below (o : option Z) : bool :=
  match o with Some h => (h + 1 <? 2 ^ 32)%Z | None => true end.

Definition write_ready (a : Archive) (w : write) : bool :=
  match w with
  | WOpen | WBody _ _ => true
  | WHeader header =>
      is_none (headers a !! Header_hash header)
      && below (p ← prev_side_hash header; block_hash_to_height a !! p)
  | WMainHeader hi =>
      bool_decide (hi_block_hash hi ≠ all_zeros)
      && is_none (main_header_infos a !! hi_block_hash hi)
      && below (try_get_main_height a (hi_prev_block_hash hi))
  | WMainInfo m _ => is_none (main_block_infos a !! m)
  end.

Definition do_write (a : Archive) (w : write) : Res ArchiveError Archive :=
  match w with
  | WOpen => Archive_new (0, 16, 0)%Z a
  | WHeader header => put_header set_order map_order a header
  | WMainHeader hi => put_main_header_info Z.add a hi
  | WMainInfo m info => put_main_block_info map_order a m info
  | WBody b body => put_body a b body
  end.

Fixpoint run (a : Archive) (ws : list write) : option Archive :=
  match ws with
  | [] => Some a
  | w :: ws =>
      if write_ready a w
      then match do_write a w with Ok a => run a ws | _ => None end
      else None
  end.

Lemma is_none_ok {A} (o : option A) : is_none o = true → o = None.
Proof. by destruct o. Qed.

Lemma write_step a w a' :
  write_ready a w = true → do_write a w = Ok a' → archive_step set_order map_order Z.add a a'.
Proof.
  destruct w as [|header|hi|m info|b body]; cbn [write_ready do_write]; intros Hready Hput.
  - by eapply step_open.
  - apply andb_true_iff in Hready as [Hn%is_none_ok Hb]. eapply step_header; [| |exact Hput].
    + intros header'. by rewrite Hn.
    + intros p h Hp Hh. rewrite Hp in Hb. cbn [mbind option_bind] in Hb. rewrite Hh in Hb.
      unfold below in Hb. lia.
  - rewrite !andb_true_iff in Hready. destruct Hready as [[Hz%bool_decide_eq_true Hn%is_none_ok] Hb].
    eapply step_main_header; [|exact Hput]. split; [done| |].
    + intros hi'. by rewrite Hn.
    + intros h Hh. rewrite Hh in Hb. unfold below in Hb. lia.
  - eapply step_main_info; [|exact Hput]. intros i. by rewrite (is_none_ok _ Hready).
  - by eapply step_body.
Qed.

Lemma run_reach a ws a' :
  run a ws = Some a' → rtc (archive_step set_order map_order Z.add) a a'.
Proof.
  revert a. induction ws as [|w ws IH]; intros a; simpl; [by intros [= ->]|].
  destruct (write_ready a w) eqn:Hr; [|done]. destruct (do_write a w) as [a1| |] eqn:Hw; [|done..].
  intros Hrun. eapply rtc_l; [by eapply write_step|by apply IH].
Qed.

(** *** Six blocks on six mainchain blocks, and a fork at height 3 *)
Definition mh (z : Z) : BtcBlockHash := le_vec 32 z.
Definition main_header (z : Z) : BlockHeaderInfo :=
  mk_BlockHeaderInfo (mh z) (mh (z - 1)) z 10.
Definition header_on (z : Z) (p : option BlockHash) (main : Z) : Header :=
  mk_Header (le_vec 32 (1000 + z)) p (mh main) [].
Fixpoint chain (n : nat) : Header :=
  match n with
  | O => header_on 0 None 0
  | S n => header_on (Z.of_nat (S n)) (Some (Header_hash (chain n))) (Z.of_nat (S n))
  end.
Definition fork4 : Header := header_on 40 (Some (Header_hash (chain 3))) 4.
Definition fork5 : Header := header_on 50 (Some (Header_hash fork4)) 5.
Definition info_for (n : nat) : BlockInfo := mk_BlockInfo (Some (Header_hash (chain n))) [].

Definition writes : list write :=
  WOpen :: ((λ n, WMainHeader (main_header (Z.of_nat n))) <$> seq 1 6)
  ++ ((λ n, WMainInfo (mh (Z.of_nat n)) (info_for (n - 1))) <$> seq 1 6)
  ++ ((λ n, WHeader (chain n)) <$> seq 0 6) ++ [WHeader fork4; WHeader fork5].

Definition archive1 : Archive := default Archive_empty_dbs (run Archive_empty_dbs writes).
Definition tip5 : BlockHash := Header_hash (chain 5).
Definition tip5' : BlockHash := Header_hash fork5.

Lemma default_ok {A} (o : option A) d : is_none o = false → o = Some (default d o).
Proof. by destruct o. Qed.

Lemma archive1_reached :
  rtc (archive_step set_order map_order Z.add) Archive_empty_dbs archive1.
Proof.
  apply (run_reach _ writes), default_ok. vm_compute. reflexivity.
Qed.

Lemma archive1_ok : archive_ok archive1.
Proof. exact (reachable_ok set_order map_order Z.add archive1 map_order_iterates archive1_reached). Qed.

Lemma tip5_height : get_height archive1 tip5 = Ok 5%Z.
Proof. vm_ok. Qed.
Lemma tip5'_height : get_height archive1 tip5' = Ok 5%Z.
Proof. vm_ok. Qed.

Lemma archive_invariant_witness : archive_ok archive1.
Proof.
  exact (archive_invariant set_order map_order Z.add archive1 map_order_iterates archive1_reached).
Defined.

Lemma nth_ancestor_is_iterated_parent_witness :
  (∃ c, get_nth_ancestor archive1 tip5 3 = Ok c ∧ up (side_lineage archive1) 3 tip5 = Ok c)
  ∧ get_nth_ancestor archive1 tip5 7 = Err (NoAncestor tip5 7).
Proof.
  split.
  - destruct (proj1 (proj1 (nth_ancestor_is_iterated_parent archive1 archive1_ok 3 ltac:(lia))
      tip5 5%Z tip5_height) ltac:(lia)) as (c & Hc & Hup & _). exists c. split; [exact Hc|exact Hup].
  - exact (proj2 (proj1 (nth_ancestor_is_iterated_parent archive1 archive1_ok 7 ltac:(lia))
      tip5 5%Z tip5_height) ltac:(lia)).
Defined.

Definition found (r : Res ArchiveError (option BlockHash)) : bool :=
  match r with Ok (Some _) => true | _ => false end.
Lemma fork_found : found (last_common_ancestor archive1 tip5 tip5') = true.
Proof. vm_compute. reflexivity. Qed.

Lemma last_common_ancestor_spec_witness :
  ∃ c, last_common_ancestor archive1 tip5 tip5' = Ok (Some c)
    ∧ greatest_common (side_lineage archive1) tip5 tip5' c.
Proof.
  destruct (last_common_ancestor_spec archive1 tip5 tip5' 5 5 archive1_ok tip5_height tip5'_height
    ltac:(lia) ltac:(lia)) as [Hc|[Hnone _]]; [exact Hc|].
  pose proof fork_found as Hf. rewrite Hnone in Hf. discriminate Hf.
Defined.

Definition is_verified (o : option BmmResult) : bool :=
  match o with Some BmmVerified => true | _ => false end.
Lemma is_verified_ok a b m : is_verified (get_bmm_results a b !! m) = true → verified a b m.
Proof. unfold verified. by destruct (_ !! _) as [[]|]. Qed.

Lemma tip5_verified : verified archive1 tip5 (mh 6).
Proof. apply is_verified_ok. vm_compute. reflexivity. Qed.

Lemma verified_block_has_verified_ancestry_witness :
  ∃ m' info, verified archive1 (Header_hash (chain 0)) m'
    ∧ ancestor_of (main_lineage archive1) m' (mh 6)
    ∧ main_block_infos archive1 !! m' = Some info
    ∧ bmm_commitment info = Some (Header_hash (chain 0)).
Proof.
  apply (verified_block_has_verified_ancestry archive1 5 tip5 _ (mh 6) archive1_ok tip5_verified).
  vm_ok.
Defined.

Definition tip_a : Tip := mk_Tip tip5 (mh 6).
Definition tip_b : Tip := mk_Tip (Header_hash (chain 3)) (mh 4).

Lemma better_tip_symmetric_witness : better_tip archive1 tip_a tip_b = better_tip archive1 tip_b tip_a.
Proof.
  apply (better_tip_symmetric archive1 tip_a tip_b 5 3 60 40 6 4 archive1_ok);
    [vm_ok..|lia|lia|lia].
Defined.
End ArchiveToy.
