(* ===== verification/ArchiveIter.v ===== *)
(** The two ways to list the blocks whose bodies are missing
    ([src/lib/archive.rs]): [get_missing_bodies] follows parents from the tip
    and reverses, [iter_missing_bodies] is a batching iterator that jumps 32
    blocks ahead and walks back.  Both end, and they list the same blocks. *)
From S2P Require Import Prelude.
From S2P Require Import Borsh.
From S2P Require Import Externals.
From S2P Require Import Toy.
From S2P Require Import Types.
From S2P Require Import TwoWayPeg.
From S2P Require Import Lineage.
From S2P Require Import Archive.
From S2P Require Import ArchiveFacts.

#[local] Opaque nth_ancestor.

Section iteration.
Context `{E : Externals}.
Context (a : Archive) (Hok : archive_ok a).
Context (b : BlockHash) (H : Z) (Hb : get_height a b = Ok H).

(** ** The ancestors of [b], by depth *)
Definition anc (n : nat) : BlockHash :=
  match up (side_lineage a) n b with Ok c => c | _ => b end.
Definition tip_header : Header := default (mk_Header (vreplicate 32 x00) None all_zeros []) (headers a !! b).
Definition hdr (n : nat) : Header := default tip_header (headers a !! anc n).
Definition item (n : nat) : BlockHash * Header := (anc n, hdr n).

Lemma side_laws : LineageLaws (side_lineage a) (side_known a).
Proof. exact (ok_side a Hok). Qed.
#[local] Existing Instance side_laws.

Lemma tip_range : (0 ≤ H < 2 ^ 32)%Z.
Proof.
  destruct (known_node (side_lineage a) (side_known a) b H (get_height_known _ _ _ Hb) Hb)
    as (_ & Hr & _). done.
Qed.

Lemma anc_spec n :
  (Z.of_nat n ≤ H)%Z →
  up (side_lineage a) n b = Ok (anc n) ∧ side_known a (anc n)
  ∧ get_height a (anc n) = Ok (H - Z.of_nat n)%Z ∧ headers a !! anc n = Some (hdr n).
Proof.
  intros Hn. destruct (up_known (side_lineage a) (side_known a) n b H (get_height_known _ _ _ Hb) Hb Hn)
    as (c & Hc & Kc & Hch).
  assert (anc n = c) as Hac by (unfold anc; by rewrite Hc). rewrite Hac. split_and!; [done..|].
  apply (ok_headers a Hok) in Kc as [h Hh]. unfold hdr. by rewrite Hac, Hh.
Qed.

Lemma hdr_prev n :
  (Z.of_nat n ≤ H)%Z →
  prev_side_hash (hdr n) = if decide (Z.of_nat n = H) then None else Some (anc (S n)).
Proof.
  intros Hn. destruct (anc_spec n Hn) as (Hup & Kn & Hh & Hd).
  destruct (known_node (side_lineage a) (side_known a) (anc n) _ Kn Hh) as (_ & _ & Hroot & Hpar).
  simpl in Hroot, Hpar. unfold get_header, try_get_header in Hroot, Hpar. rewrite Hd in Hroot, Hpar.
  simpl in Hroot, Hpar. case_decide as Heq.
  - destruct (prev_side_hash (hdr n)); [|done]. by discriminate Hroot; lia.
  - destruct Hpar as (p & l & Hp & _); [lia|].
    destruct (prev_side_hash (hdr n)) as [p'|] eqn:Hp'; [|done]. injection Hp as ->. f_equal.
    destruct (anc_spec (S n)) as (Hup' & _); [lia|].
    replace (S n) with (n + 1) in Hup' by lia.
    rewrite (up_add_Ok _ _ _ _ _ Hup) in Hup'. simpl in Hup'.
    unfold get_header, try_get_header in Hup'. rewrite Hd in Hup'. simpl in Hup'.
    rewrite Hp' in Hup'. simpl in Hup'. replace (n + 1) with (S n) in Hup' by lia.
    by injection Hup'.
Qed.

(** The iterator state that is about to return the ancestor at depth [n]. *)
Definition at_depth (n : nat) : option BlockHash :=
  if decide (Z.of_nat n ≤ H)%Z then Some (anc n) else None.

Lemma next_item n :
  (Z.of_nat n ≤ H)%Z →
  AncestorHeaders_next a (at_depth n) = Ok (Some (item n, at_depth (S n))).
Proof.
  intros Hn. unfold at_depth at 1. rewrite decide_True by done. simpl.
  destruct (anc_spec n Hn) as (_ & _ & _ & Hd).
  unfold get_header, try_get_header. rewrite Hd. simpl. unfold item. do 3 f_equal.
  rewrite hdr_prev by done. unfold at_depth. repeat case_decide; try done; lia.
Qed.

Lemma next_end n : (H < Z.of_nat n)%Z → AncestorHeaders_next a (at_depth n) = Ok None.
Proof. intros Hn. unfold at_depth. by rewrite decide_False by lia. Qed.

Lemma push_headers_ok n k buffer :
  (Z.of_nat (k + n) ≤ H + 1)%Z →
  push_headers n a (at_depth k) buffer = Ok (buffer ++ (item <$> seq k n)).
Proof.
  revert k buffer. induction n as [|n IH]; intros k buffer Hn; cbn [push_headers].
  { by rewrite app_nil_r. }
  rewrite next_item by lia. rewrite ok_bind. cbv beta iota.
  rewrite IH by lia. by rewrite <- app_assoc.
Qed.

(** ** The batching iterator *)

(** Depths still to come from the batches, newest first. *)
Definition pending_depths (start : option Z) : list nat :=
  match start with Some s => seq 0 (Z.to_nat (H - s + 1)) | None => [] end.

(** The iterator will return the depths [l], in this order. *)
Definition remains (it : AncestorsRev) (l : list nat) : Prop :=
  ar_block_hash it = b
  ∧ (∀ s, batch_start_height it = Some s → (0 ≤ s)%Z)
  ∧ ∃ ks, l = reverse (pending_depths (batch_start_height it) ++ ks)
      ∧ match ar_inner it with
        | None => ks = []
        | Some (end_height, buffer) => end_height = H ∧ buffer = item <$> ks
        end.

Lemma vec_pop_snoc_item {A} (l : list A) x : vec_pop_item (l ++ [x]) = (Some x, l).
Proof. unfold vec_pop_item. by rewrite last_snoc, removelast_last. Qed.

(** A new batch: the least depths not yet fetched stay pending. *)
Lemma batch_depths s :
  (0 ≤ s ≤ H)%Z →
  let offset := Z.min (H - s) (MAX_BATCH_SIZE - 1) in
  let start := match u32_checked_add s (offset + 1) with
               | Some start => if (start <=? H)%Z then Some start else None
               | None => None end in
  let k := Z.to_nat (H - s - offset) in
  pending_depths (Some s) = pending_depths start ++ seq k (Z.to_nat (offset + 1))
  ∧ ∀ s', start = Some s' → (0 ≤ s')%Z.
Proof.
  intros Hs offset start k. pose proof tip_range as Hr.
  assert (0 ≤ offset ≤ H - s)%Z as Hoff by (unfold offset, MAX_BATCH_SIZE; lia).
  assert (pending_depths start = seq 0 k ∧ ∀ s', start = Some s' → (0 ≤ s')%Z) as [Hst Hpos].
  { unfold start, u32_checked_add, u32_checked, u32_max.
    case_bool_decide.
    - destruct (Z.leb_spec (s + (offset + 1)) H).
      + split; [|intros s' Hs'; injection Hs' as <-; lia]. unfold pending_depths, k. f_equal. lia.
      + split; [|done]. unfold pending_depths, k. by replace (H - s - offset)%Z with 0%Z by lia.
    - split; [|done]. unfold pending_depths, k. by replace (H - s - offset)%Z with 0%Z by lia. }
  split; [|done]. rewrite Hst. unfold pending_depths.
  replace (Z.to_nat (H - s + 1)) with (k + Z.to_nat (offset + 1)) by lia.
  rewrite seq_app. done.
Qed.

Lemma iterator_step it l :
  remains it l →
  match l with
  | [] => ∃ it', AncestorsRev_next a it = Ok (None, it')
  | n :: l' => ∃ it', AncestorsRev_next a it = Ok (Some (item n), it') ∧ remains it' l'
  end.
Proof.
  intros (Hblk & Hst & ks & -> & Hin). unfold AncestorsRev_next.
  assert (∃ buffer, (match ar_inner it with
    | Some inner => Ok inner
    | None => end_height ← get_height a (ar_block_hash it); Ok (end_height, [])
    end) = Ok (H, buffer) ∧ buffer = item <$> ks) as (buffer & -> & Hbuf).
  { destruct (ar_inner it) as [[eh bf]|].
    - destruct Hin as [-> ->]. by eexists.
    - subst ks. exists []. by rewrite Hblk, Hb. }
  rewrite ok_bind. subst buffer. cbv beta iota.
  destruct ks as [|n ks _] using rev_ind.
  - cbn [fmap list_fmap]. unfold vec_pop_item at 1. cbn [last]. rewrite app_nil_r.
    destruct (batch_start_height it) as [s|] eqn:Hs; [|by eexists].
    specialize (Hst s eq_refl). unfold u32_checked_sub, u32_checked, u32_max.
    pose proof tip_range as Hr.
    case_bool_decide as Hle.
    2: { unfold pending_depths. replace (Z.to_nat (H - s + 1)) with 0 by lia. by eexists. }
    destruct (batch_depths s ltac:(lia)) as [Hpend Hpos]. revert Hpend Hpos. cbv zeta.
    set (offset := Z.min (H - s) (MAX_BATCH_SIZE - 1)).
    set (start := match u32_checked_add s (offset + 1) with _ => _ end).
    intros -> Hpos.
    assert (0 ≤ offset ≤ H - s)%Z as Hoff by (unfold offset, MAX_BATCH_SIZE; lia).
    rewrite Hblk. unfold get_nth_ancestor.
    rewrite (nth_ancestor_up (side_lineage a) (side_known a) b _ H (get_height_known _ _ _ Hb) Hb)
      by lia.
    set (k := Z.to_nat (H - s - offset)).
    destruct (anc_spec k ltac:(lia)) as (-> & _). rewrite ok_bind.
    assert (Some (anc k) = at_depth k) as -> by (unfold at_depth; by rewrite decide_True by lia).
    rewrite push_headers_ok by lia. rewrite ok_bind. cbn [app].
    replace (Z.to_nat (offset + 1)) with (S (Z.to_nat offset)) by lia.
    rewrite seq_S, fmap_app. cbn [fmap list_fmap]. rewrite vec_pop_snoc_item.
    rewrite app_assoc, reverse_snoc. eexists. split; [done|]. split_and!; [done|exact Hpos|].
    exists (seq k (Z.to_nat offset)). done.
  - rewrite fmap_app. cbn [fmap list_fmap]. rewrite vec_pop_snoc_item.
    rewrite app_assoc, reverse_snoc. eexists. split; [done|]. split_and!; [done|exact Hst|].
    by exists ks.
Qed.

Definition missing (l : list nat) : list BlockHash :=
  filter (λ c, bodies a !! c = None) (anc <$> l).

Lemma iter_missing_bodies_ok n it l :
  remains it l → length l < n → iter_missing_bodies n a it = Ok (missing l).
Proof.
  revert it l. induction n as [|n IH]; intros it l Hr Hlen; [lia|].
  cbn [iter_missing_bodies]. pose proof (iterator_step it l Hr) as Hstep. destruct l as [|k l].
  - destruct Hstep as (it' & ->). done.
  - destruct Hstep as (it' & -> & Hr'). rewrite ok_bind. cbv beta iota. cbn [item].
    simpl in Hlen. rewrite (IH it' l Hr') by lia. rewrite ok_bind. unfold try_get_body, missing.
    rewrite fmap_cons. destruct (bodies a !! anc k) eqn:Hbody.
    + rewrite filter_cons_False; [done|]. by rewrite Hbody.
    + by rewrite filter_cons_True.
Qed.

(** ** Following parents *)
Lemma missing_bodies_loop_ok fuel n res :
  (Z.of_nat n ≤ H + 1)%Z → (H + 1 - Z.of_nat n < Z.of_nat fuel)%Z →
  missing_bodies_loop fuel a None (at_depth n) res
  = Ok (res ++ missing (seq n (Z.to_nat (H + 1 - Z.of_nat n)))).
Proof.
  revert n res. induction fuel as [|fuel IH]; intros n res Hn Hf; [lia|].
  cbn [missing_bodies_loop]. destruct (decide (Z.of_nat n ≤ H)%Z) as [Hle|Hgt].
  - rewrite next_item by done. rewrite ok_bind. cbv beta iota. cbn [item].
    rewrite bool_decide_false by done. rewrite IH by lia.
    replace (Z.to_nat (H + 1 - Z.of_nat n)) with (S (Z.to_nat (H + 1 - Z.of_nat (S n)))) by lia.
    cbn [seq]. unfold missing at 2. rewrite fmap_cons. unfold try_get_body.
    destruct (bodies a !! anc n) eqn:Hbody.
    + by rewrite filter_cons_False by (by rewrite Hbody).
    + rewrite filter_cons_True by done. unfold missing. by rewrite <- app_assoc.
  - rewrite next_end by lia. rewrite ok_bind. cbv beta iota.
    replace (Z.to_nat (H + 1 - Z.of_nat n)) with 0 by lia. by rewrite app_nil_r.
Qed.

(** Ancestors have different heights, so there are no more than headers. *)
Lemma depth_bound : (H < Z.of_nat (size (headers a)))%Z.
Proof.
  pose proof tip_range as Hr.
  assert (NoDup (anc <$> seq 0 (Z.to_nat (H + 1)))) as Hnd.
  { apply NoDup_fmap_2_strong; [|apply NoDup_seq]. intros x y Hx Hy Hxy.
    apply elem_of_seq in Hx, Hy.
    destruct (anc_spec x) as (_ & _ & Hhx & _); [lia|].
    destruct (anc_spec y) as (_ & _ & Hhy & _); [lia|].
    rewrite Hxy, Hhy in Hhx. injection Hhx as ?. lia. }
  assert (anc <$> seq 0 (Z.to_nat (H + 1)) ⊆ elements (dom (headers a))) as Hsub.
  { intros c (n & -> & Hn%elem_of_seq)%list_elem_of_fmap. apply elem_of_elements, elem_of_dom.
    destruct (anc_spec n) as (_ & _ & _ & Hd); [lia|]. by eexists. }
  apply (NoDup_submseteq _ _ Hnd) in Hsub. apply submseteq_length in Hsub.
  rewrite length_fmap, length_seq in Hsub. rewrite <- size_dom. unfold size, set_size. simpl in *. lia.
Qed.

Lemma get_missing_bodies_ok :
  get_missing_bodies a b None = Ok (reverse (missing (seq 0 (Z.to_nat (H + 1))))).
Proof.
  pose proof tip_range as Hr. pose proof depth_bound as Hd.
  assert (Some b = at_depth 0) as Hb0.
  { unfold at_depth. by rewrite decide_True by lia. }
  unfold get_missing_bodies, ancestors_fuel. rewrite Hb0.
  rewrite missing_bodies_loop_ok by lia. rewrite ok_bind. cbn [app]. by rewrite Z.sub_0_r.
Qed.

(** Listed from the deepest ancestor on, heights increase. *)
Definition older (c d : BlockHash) : Prop :=
  ∃ hc hd, get_height a c = Ok hc ∧ get_height a d = Ok hd ∧ (hc < hd)%Z.
Lemma anc_oldest_first n :
  (Z.of_nat n ≤ H + 1)%Z → StronglySorted older (anc <$> reverse (seq 0 n)).
Proof.
  induction n as [|n IH]; intros Hn; [constructor|].
  rewrite seq_S, reverse_snoc, fmap_cons. constructor; [apply IH; lia|].
  rewrite Forall_forall. intros d (k & -> & Hk)%list_elem_of_fmap.
  rewrite elem_of_reverse, elem_of_seq in Hk.
  destruct (anc_spec n) as (_ & _ & Hhn & _); [lia|]. destruct (anc_spec k) as (_ & _ & Hhk & _); [lia|].
  exists (H - Z.of_nat n)%Z, (H - Z.of_nat k)%Z. split_and!; [done|done|lia].
Qed.
Lemma missing_oldest_first n :
  (Z.of_nat n ≤ H + 1)%Z → StronglySorted older (reverse (missing (seq 0 n))).
Proof.
  intros Hn. unfold missing. rewrite <- filter_reverse, <- fmap_reverse.
  by apply StronglySorted_filter, anc_oldest_first.
Qed.
Lemma older_NoDup l : StronglySorted older l → NoDup l.
Proof.
  induction 1 as [|c l _ IH Hc]; constructor; [|done].
  rewrite Forall_forall in Hc. intros (h1 & h2 & Hh1 & Hh2 & Hlt)%Hc. assert (h1 = h2) as -> by congruence. lia.
Qed.
End iteration.

(** ** Properties *)
Section properties.
Context `{E : Externals}.

(** C21: The batching iterator ends and lists what following parents lists:
    for a stored block of height [h], [h + 2] steps of the iterator started at
    height 0 are enough, [get_missing_bodies] does not run out of headers, and
    both return the same list: the ancestors without a body, each once, oldest
    first (every block has a smaller height than the later ones). *)
Theorem missing_bodies_agree (a : Archive) (b : BlockHash) (h : Z) (fuel : nat)
    (Hok : archive_ok a) (Hh : get_height a b = Ok h) (Hfuel : (h + 1 < Z.of_nat fuel)%Z) :
  ∃ l, get_missing_bodies a b None = Ok l
    ∧ iter_missing_bodies fuel a (AncestorsRev_new b 0) = Ok l
    ∧ StronglySorted (older a) l ∧ NoDup l
    ∧ ∀ c, c ∈ l ↔ ancestor_of (side_lineage a) c b ∧ bodies a !! c = None.
Proof.
  pose proof (tip_range a Hok b h Hh) as Hr.
  pose proof (missing_oldest_first a Hok b h Hh (Z.to_nat (h + 1)) ltac:(lia)) as Hsorted.
  eexists. split_and!; [by apply get_missing_bodies_ok| |done|by eapply older_NoDup|].
  - rewrite (iter_missing_bodies_ok a Hok b h Hh fuel _ (reverse (seq 0 (Z.to_nat (h + 1))))).
    + unfold missing. by rewrite <- filter_reverse, <- fmap_reverse.
    + split_and!; [done|by intros s [= <-]|]. exists []. rewrite app_nil_r. split; [|done].
      simpl. by rewrite Z.sub_0_r.
    + rewrite length_reverse, length_seq. lia.
  - intros c. rewrite elem_of_reverse. unfold missing. rewrite list_elem_of_filter, list_elem_of_fmap.
    split.
    + intros [Hbody (n & -> & Hn%elem_of_seq)]. split; [|done].
      exists n. by apply (anc_spec a Hok b h Hh); lia.
    + intros [[n Hn] Hbody]. split; [done|]. pose proof (ok_side a Hok) as HL.
      destruct (up_depth (side_lineage a) (side_known a) n b h c (get_height_known _ _ _ Hh) Hh Hn)
        as (Hle & _).
      exists n. split; [unfold anc; by rewrite Hn|]. apply elem_of_seq. lia.
Qed.
End properties.

Module ArchiveIterToy.
#[local] Existing Instance Toy.externals.
Import ArchiveToy.

Lemma missing_bodies_agree_witness :
  ∃ l, get_missing_bodies archive1 tip5 None = Ok l
    ∧ iter_missing_bodies 7 archive1 (AncestorsRev_new tip5 0) = Ok l
    ∧ StronglySorted (older archive1) l ∧ NoDup l
    ∧ ∀ c, c ∈ l ↔ ancestor_of (side_lineage archive1) c tip5 ∧ bodies archive1 !! c = None.
Proof. exact (missing_bodies_agree archive1 tip5 5 7 archive1_ok tip5_height ltac:(lia)). Defined.
End ArchiveIterToy.
