(* ===== verification/MemPool.v ===== *)
(** The memory pool ([src/lib/mempool.rs]): transactions waiting for a block,
    indexed by the outpoints they spend and the nullifiers they use. *)
From S2P Require Import Prelude.
From S2P Require Import Borsh.
From S2P Require Import Externals.
From S2P Require Import Toy.
From S2P Require Import Types.
From S2P Require Import AccumulatorDiff.

Section mempool.
Context `{E : Externals}.

(** ** Data *)
Inductive MemPoolError :=
  | MpNullifierDoubleSpent (new_txid : Txid) (nullifier : Nullifier) (old_txid : Txid)
  | MpUtreexo
  | MpUtxoDoubleSpent (txid : Txid).

Record MemPool := mk_MemPool {
  mp_transactions : gmap Txid AuthorizedTransaction;
  mp_spent_utxos : gmap OutPoint Txid;
  mp_used_nullifiers : gmap Nullifier Txid;
  mp_version : option (Z * Z * Z)
}.

Definition MemPool_empty_dbs : MemPool := mk_MemPool ∅ ∅ ∅ None.
Definition MemPool_new (VERSION : Z * Z * Z) (dbs : MemPool) : MemPool :=
  mk_MemPool (mp_transactions dbs) (mp_spent_utxos dbs) (mp_used_nullifiers dbs)
    (Some (default VERSION (mp_version dbs))).

Definition with_transactions (m : MemPool) (t : gmap Txid AuthorizedTransaction) : MemPool :=
  mk_MemPool t (mp_spent_utxos m) (mp_used_nullifiers m) (mp_version m).
Definition with_spent (m : MemPool) (s : gmap OutPoint Txid) : MemPool :=
  mk_MemPool (mp_transactions m) s (mp_used_nullifiers m) (mp_version m).
Definition with_nullifiers (m : MemPool) (n : gmap Nullifier Txid) : MemPool :=
  mk_MemPool (mp_transactions m) (mp_spent_utxos m) n (mp_version m).

Definition nullifiers_of (tx : Transaction) : list Nullifier :=
  match orchard_bundle tx with
  | Some orchard_bundle => action_nullifier <$> bundle_actions orchard_bundle
  | None => []
  end.
Definition spends (tx : Transaction) : list OutPoint := fst <$> inputs tx.

(** ** Adding a transaction *)
Definition put_spent (txid : Txid) (m : MemPool) (outpoint : OutPoint) : Res MemPoolError MemPool :=
  match mp_spent_utxos m !! outpoint with
  | Some _ => Err (MpUtxoDoubleSpent txid)
  | None => Ok (with_spent m (<[outpoint := txid]> (mp_spent_utxos m)))
  end.
Definition put_used (txid : Txid) (m : MemPool) (nullifier : Nullifier) : Res MemPoolError MemPool :=
  match mp_used_nullifiers m !! nullifier with
  | Some old_txid => Err (MpNullifierDoubleSpent txid nullifier old_txid)
  | None => Ok (with_nullifiers m (<[nullifier := txid]> (mp_used_nullifiers m)))
  end.

Definition mempool_put (m : MemPool) (t : AuthorizedTransaction) : Res MemPoolError MemPool :=
  let tx := at_transaction t in
  let txid := txid tx in
  match mp_transactions m !! txid with
  | Some _ => Ok m
  | None =>
      m ← foldR (put_spent txid) m (spends tx);
      m ← foldR (put_used txid) m (nullifiers_of tx);
      Ok (with_transactions m (<[txid := t]> (mp_transactions m)))
  end.

(** ** Deleting a transaction and its descendants *)
Definition output_points (txid : Txid) (tx : Transaction) : list OutPoint :=
  imap (λ vout _, Regular txid (u32_of_Z (Z.of_nat vout))) (outputs tx).

Definition delete_one (m : MemPool) (txid : Txid) (tx : Transaction) : MemPool * list Txid :=
  let m := with_spent m (foldl (λ s o, delete o s) (mp_spent_utxos m) (spends tx)) in
  let m := with_transactions m (delete txid (mp_transactions m)) in
  let children := omap (λ o, mp_spent_utxos m !! o) (output_points txid tx) in
  (with_nullifiers m (foldl (λ s n, delete n s) (mp_used_nullifiers m) (nullifiers_of tx)), children).

(** The loop over [pending_deletes]. *)
Fixpoint delete_loop (fuel : nat) (m : MemPool) (pending_deletes : list Txid) : option MemPool :=
  match fuel with
  | O => None
  | S fuel =>
      match pending_deletes with
      | [] => Some m
      | txid :: pending_deletes =>
          match mp_transactions m !! txid with
          | Some t =>
              let '(m, children) := delete_one m txid (at_transaction t) in
              delete_loop fuel m (pending_deletes ++ children)
          | None => delete_loop fuel m pending_deletes
          end
      end
  end.

(** Every transaction is deleted at most once, and queues at most one child
    for each of its outputs. *)
Definition n_outputs (m : MemPool) : nat :=
  sum_list_with (λ e, length (outputs (at_transaction e.2))) (map_to_list (mp_transactions m)).
Definition mempool_delete (m : MemPool) (txid : Txid) : Res MemPoolError MemPool :=
  match delete_loop (2 + n_outputs m) m [txid] with Some m => Ok m | None => Panic end.

(** ** Reading *)
Definition txid_le (a b : Txid * AuthorizedTransaction) : Prop :=
  bytes_cmp (vec_to_list a.1) (vec_to_list b.1) ≠ Gt.
#[export] Instance txid_le_dec a b : Decision (txid_le a b).
Proof. unfold txid_le. apply _. Defined.
(** LMDB iterates in the order of the key bytes. *)
Definition mempool_iter (m : MemPool) : list (Txid * AuthorizedTransaction) :=
  merge_sort txid_le (map_to_list (mp_transactions m)).
Definition mempool_take (m : MemPool) (number : nat) : list AuthorizedTransaction :=
  snd <$> take number (mempool_iter m).
Definition mempool_take_all (m : MemPool) : list AuthorizedTransaction := snd <$> mempool_iter m.

(** ** After a block *)
Definition with_proof (t : AuthorizedTransaction) (p : UtreexoProof) : AuthorizedTransaction :=
  let tx := at_transaction t in
  mk_AuthorizedTransaction (mk_Transaction (inputs tx) p (outputs tx) (orchard_bundle tx))
    (authorizations t).
Definition targets_of (tx : Transaction) : list NodeHash := node_hash ∘ snd <$> inputs tx.

Definition regenerate_one (accumulator : Accumulator) (m : MemPool) (txid : Txid) :
    Res MemPoolError MemPool :=
  t ← expect (mp_transactions m !! txid);
  p ← ok_or (prove accumulator (targets_of (at_transaction t))) MpUtreexo;
  Ok (with_transactions m (<[txid := with_proof t p]> (mp_transactions m))).
Definition regenerate_proofs (m : MemPool) (accumulator : Accumulator) : Res MemPoolError MemPool :=
  foldR (regenerate_one accumulator) m (mempool_iter m).*1.

Definition delete_nullifier_conflict (m : MemPool) (nullifier : Nullifier) :
    Res MemPoolError MemPool :=
  match mp_used_nullifiers m !! nullifier with
  | Some txid => mempool_delete m txid
  | None => Ok m
  end.
Definition connect_block_tx (m : MemPool) (tx : Transaction) : Res MemPoolError MemPool :=
  m ← mempool_delete m (txid tx);
  foldR delete_nullifier_conflict m (nullifiers_of tx).
Definition mempool_connect_block (m : MemPool) (accumulator : Accumulator) (body : Body) :
    Res MemPoolError MemPool :=
  m ← foldR connect_block_tx m (transactions body);
  regenerate_proofs m accumulator.

(** ** The invariant *)

(** [idx] maps a key to the transaction one of whose keys it is. *)
Definition index_ok {K} `{Countable K} (idx : gmap K Txid)
    (txs : gmap Txid AuthorizedTransaction) (f : Transaction → list K) : Prop :=
  ∀ k t, idx !! k = Some t ↔ ∃ a, txs !! t = Some a ∧ k ∈ f (at_transaction a).

Record mempool_ok (m : MemPool) : Prop := {
  mp_ids t a : mp_transactions m !! t = Some a → txid (at_transaction a) = t;
  mp_spent_ok : index_ok (mp_spent_utxos m) (mp_transactions m) spends;
  mp_used_ok : index_ok (mp_used_nullifiers m) (mp_transactions m) nullifiers_of;
  mp_once t a : mp_transactions m !! t = Some a →
    NoDup (spends (at_transaction a)) ∧ NoDup (nullifiers_of (at_transaction a))
}.

Section index.
Context {K : Type} `{Countable K}.

Lemma index_put (idx idx' : gmap K Txid) txs f t a :
  index_ok idx txs f → txs !! t = None →
  (∀ k, k ∈ f (at_transaction a) → idx !! k = None) →
  (∀ k, idx' !! k = if decide (k ∈ f (at_transaction a)) then Some t else idx !! k) →
  index_ok idx' (<[t := a]> txs) f.
Proof.
  intros Hok Ht Hnone Hidx k t'. rewrite Hidx. case_decide as Hk.
  - split.
    + intros [= <-]. exists a. by rewrite lookup_insert_eq.
    + intros (a' & Ha' & Hin). apply lookup_insert_Some in Ha' as [[-> _]|[_ Ha']]; [done|].
      assert (idx !! k = Some t') as Hk' by (apply Hok; eauto). by rewrite Hnone in Hk'.
  - rewrite (Hok k t'). split.
    + intros (a' & Ha' & Hin). exists a'. split; [|done]. apply lookup_insert_Some. right.
      split; [|done]. intros ->. congruence.
    + intros (a' & Ha' & Hin). exists a'. split; [|done].
      by apply lookup_insert_Some in Ha' as [[_ <-]|[_ Ha']].
Qed.

Lemma index_delete (idx idx' : gmap K Txid) txs f t a :
  index_ok idx txs f → txs !! t = Some a →
  (∀ k, idx' !! k = if decide (k ∈ f (at_transaction a)) then None else idx !! k) →
  index_ok idx' (delete t txs) f.
Proof.
  intros Hok Ht Hidx k t'. rewrite Hidx. case_decide as Hk.
  - split; [done|]. intros (a' & [Hne Ha']%lookup_delete_Some & Hin).
    assert (idx !! k = Some t') as H1 by (apply Hok; eauto).
    assert (idx !! k = Some t) as H2 by (apply Hok; eauto). congruence.
  - rewrite (Hok k t'). split.
    + intros (a' & Ha' & Hin). exists a'. split; [|done]. apply lookup_delete_Some. split; [|done].
      intros ->. congruence.
    + intros (a' & [_ Ha']%lookup_delete_Some & Hin). eauto.
Qed.

Lemma lookup_deletes_list (m : gmap K Txid) l k :
  foldl (λ s o, delete o s) m l !! k = if decide (k ∈ l) then None else m !! k.
Proof.
  revert m. induction l as [|o l IH]; intros m; simpl; [done|]. rewrite IH.
  destruct (decide (k = o)) as [->|Hne].
  - rewrite (decide_True (P:=o ∈ o :: l)) by by left. rewrite lookup_delete_eq. by case_decide.
  - rewrite lookup_delete_ne by done. repeat case_decide; try done; set_solver.
Qed.
End index.

Lemma put_spent_loop t m l m' :
  foldR (put_spent t) m l = Ok m' →
  (∀ o, o ∈ l → mp_spent_utxos m !! o = None)
  ∧ (∀ o, mp_spent_utxos m' !! o = if decide (o ∈ l) then Some t else mp_spent_utxos m !! o)
  ∧ mp_transactions m' = mp_transactions m ∧ mp_used_nullifiers m' = mp_used_nullifiers m
  ∧ NoDup l.
Proof.
  revert m. induction l as [|o l IH]; intros m; cbn [foldR].
  { intros [= <-]. split_and!; [by intros o Ho%elem_of_nil|done..|constructor]. }
  intros (m1 & Hm1 & Hl)%bind_Ok. unfold put_spent in Hm1.
  destruct (mp_spent_utxos m !! o) eqn:Ho; [done|]. injection Hm1 as <-.
  destruct (IH _ Hl) as (Hnone & Hlook & Ht & Hn & Hd). simpl in Hnone, Hlook, Ht, Hn.
  split_and!; [| |done..|].
  - intros o' [->|Ho']%elem_of_cons; [done|]. specialize (Hnone o' Ho').
    by apply lookup_insert_None in Hnone as [? _].
  - intros o'. rewrite Hlook. destruct (decide (o' = o)) as [->|Hne].
    + rewrite (decide_True (P:=o ∈ o :: l)) by by left. rewrite lookup_insert_eq. by case_decide.
    + rewrite lookup_insert_ne by done. repeat case_decide; try done; set_solver.
  - constructor; [|done]. intros Hin%Hnone. by rewrite lookup_insert_eq in Hin.
Qed.

Lemma put_used_loop t m l m' :
  foldR (put_used t) m l = Ok m' →
  (∀ n, n ∈ l → mp_used_nullifiers m !! n = None)
  ∧ (∀ n, mp_used_nullifiers m' !! n = if decide (n ∈ l) then Some t else mp_used_nullifiers m !! n)
  ∧ mp_transactions m' = mp_transactions m ∧ mp_spent_utxos m' = mp_spent_utxos m
  ∧ NoDup l.
Proof.
  revert m. induction l as [|o l IH]; intros m; cbn [foldR].
  { intros [= <-]. split_and!; [by intros o Ho%elem_of_nil|done..|constructor]. }
  intros (m1 & Hm1 & Hl)%bind_Ok. unfold put_used in Hm1.
  destruct (mp_used_nullifiers m !! o) eqn:Ho; [done|]. injection Hm1 as <-.
  destruct (IH _ Hl) as (Hnone & Hlook & Ht & Hn & Hd). simpl in Hnone, Hlook, Ht, Hn.
  split_and!; [| |done..|].
  - intros o' [->|Ho']%elem_of_cons; [done|]. specialize (Hnone o' Ho').
    by apply lookup_insert_None in Hnone as [? _].
  - intros o'. rewrite Hlook. destruct (decide (o' = o)) as [->|Hne].
    + rewrite (decide_True (P:=o ∈ o :: l)) by by left. rewrite lookup_insert_eq. by case_decide.
    + rewrite lookup_insert_ne by done. repeat case_decide; try done; set_solver.
  - constructor; [|done]. intros Hin%Hnone. by rewrite lookup_insert_eq in Hin.
Qed.

Lemma mempool_put_cases m t m' :
  mempool_ok m → mempool_put m t = Ok m' →
  mempool_ok m' ∧ mp_transactions m' =
    match mp_transactions m !! txid (at_transaction t) with
    | Some _ => mp_transactions m
    | None => <[txid (at_transaction t) := t]> (mp_transactions m)
    end.
Proof.
  intros [Hids Hs Hu Hd] Hput. unfold mempool_put in Hput.
  destruct (mp_transactions m !! txid (at_transaction t)) eqn:Ht; [by injection Hput as <-|].
  apply bind_Ok in Hput as (m1 & (Hn1 & Hl1 & Ht1 & Hu1 & Hd1)%put_spent_loop & Hput).
  apply bind_Ok in Hput as (m2 & (Hn2 & Hl2 & Ht2 & Hs2 & Hd2)%put_used_loop & Hput). injection Hput as <-.
  split; [|simpl; congruence]. split; simpl; rewrite ?Ht2, ?Ht1, ?Hs2.
  - intros t' a [[<- <-]|[_ Ha]]%lookup_insert_Some; [done|by apply Hids].
  - by apply (index_put (mp_spent_utxos m)).
  - apply (index_put (mp_used_nullifiers m)); [done..| |].
    + intros n Hn. rewrite <- Hu1. by apply Hn2.
    + intros n. by rewrite Hl2, Hu1.
  - intros t' a [[<- <-]|[_ Ha]]%lookup_insert_Some; [done|by eapply Hd].
Qed.
End mempool.

(** ** Deletion removes the descendants, and nothing else *)
Section delete.
Context `{E : Externals}.

(** [c] spends an output of [t]. *)
Definition child (m : MemPool) (t c : Txid) : Prop :=
  ∃ a o, mp_transactions m !! t = Some a ∧ o ∈ output_points t (at_transaction a)
    ∧ mp_spent_utxos m !! o = Some c.
Definition descendant (m : MemPool) : Txid → Txid → Prop := rtc (child m).

Lemma child_known m t c : mempool_ok m → child m t c → is_Some (mp_transactions m !! c).
Proof.
  intros Hok (a & o & _ & _ & Ho). apply (mp_spent_ok m Hok) in Ho as (a' & Ha' & _). by eexists.
Qed.

Lemma delete_one_ok m t a :
  mempool_ok m → mp_transactions m !! t = Some a →
  let '(m', children) := delete_one m t (at_transaction a) in
  mempool_ok m' ∧ mp_transactions m' = delete t (mp_transactions m)
  ∧ ∀ c, c ∈ children ↔ child m t c ∧ is_Some (mp_transactions m' !! c).
Proof.
  intros [Hids Hs Hu Hd] Ht. unfold delete_one.
  set (spent := foldl _ _ (spends _)). set (used := foldl _ _ (nullifiers_of _)).
  assert (index_ok spent (delete t (mp_transactions m)) spends) as Hs'.
  { apply (index_delete (mp_spent_utxos m) _ _ _ t a); [done..|]. intros k. apply lookup_deletes_list. }
  simpl. split_and!; [split|done|]; simpl.
  - intros t' a' [_ Ha']%lookup_delete_Some. by apply Hids.
  - done.
  - apply (index_delete (mp_used_nullifiers m) _ _ _ t a); [done..|]. intros k. apply lookup_deletes_list.
  - intros t' a' [_ Ha']%lookup_delete_Some. by eapply Hd.
  - intros c. rewrite list_elem_of_omap. unfold child. split.
    + intros (o & Hin & Ho). split.
      * exists a, o. split_and!; [done..|]. unfold spent in Ho. rewrite lookup_deletes_list in Ho.
        by case_decide.
      * apply Hs' in Ho as (a' & Ha' & _). by eexists.
    + intros [(a' & o & Ha' & Hin & Ho) [ac Hac]]. replace a' with a in * by congruence.
      exists o. split; [done|]. apply Hs'. apply Hs in Ho as (ac' & Hac' & Hspend).
      apply lookup_delete_Some in Hac as [Hne Hac]. exists ac'. split; [|done].
      by apply lookup_delete_Some.
Qed.

Lemma n_outputs_delete m m' t a :
  mp_transactions m !! t = Some a → mp_transactions m' = delete t (mp_transactions m) →
  n_outputs m = length (outputs (at_transaction a)) + n_outputs m'.
Proof.
  intros Ht Hm'. unfold n_outputs. rewrite Hm'.
  by rewrite <- (map_to_list_delete (mp_transactions m) t a Ht).
Qed.

Lemma length_omap_le {A B} (f : A → option B) (l : list A) : length (omap f l) ≤ length l.
Proof. induction l as [|x l IH]; csimpl; [done|]. destruct (f x); simpl; lia. Qed.

Lemma children_length m t a :
  length (delete_one m t a).2 ≤ length (outputs a).
Proof.
  unfold delete_one. simpl. etrans; [apply length_omap_le|]. unfold output_points.
  by rewrite length_imap.
Qed.

(** The state of the loop: what is gone was to be deleted, and whatever is
    still to be deleted is queued. *)
Record delete_inv (m : MemPool) (t0 : Txid) (q : list Txid) (mi : MemPool) : Prop := {
  di_ok : mempool_ok mi;
  di_sub t a : mp_transactions mi !! t = Some a → mp_transactions m !! t = Some a;
  di_queue t : t ∈ q → descendant m t0 t;
  di_gone t : is_Some (mp_transactions m !! t) → mp_transactions mi !! t = None → descendant m t0 t;
  di_closed t c : mp_transactions mi !! t = None → child m t c →
    is_Some (mp_transactions mi !! c) → c ∈ q;
  di_start : is_Some (mp_transactions mi !! t0) → t0 ∈ q
}.

Lemma child_grows m mi t c :
  mempool_ok m → mempool_ok mi →
  (∀ t a, mp_transactions mi !! t = Some a → mp_transactions m !! t = Some a) →
  child mi t c → child m t c.
Proof.
  intros Hok Hoki Hsub (a & o & Ha & Hin & Ho). exists a, o. split_and!; [by apply Hsub|done|].
  apply (mp_spent_ok m Hok). apply (mp_spent_ok mi Hoki) in Ho as (a' & Ha' & Hs).
  exists a'. split; [by apply Hsub|done].
Qed.

Lemma child_shrinks m mi t c :
  mempool_ok m → mempool_ok mi →
  (∀ t a, mp_transactions mi !! t = Some a → mp_transactions m !! t = Some a) →
  is_Some (mp_transactions mi !! t) → is_Some (mp_transactions mi !! c) →
  child m t c → child mi t c.
Proof.
  intros Hok Hoki Hsub [at' Hat] [ac Hac] (a & o & Ha & Hin & Ho).
  pose proof (Hsub _ _ Hat). replace at' with a in * by congruence.
  exists a, o. split_and!; [done..|]. apply (mp_spent_ok mi Hoki).
  apply (mp_spent_ok m Hok) in Ho as (a' & Ha' & Hs). exists ac. split; [done|].
  pose proof (Hsub _ _ Hac). by replace ac with a' in * by congruence.
Qed.

Lemma delete_inv_step m t0 t q mi a :
  mempool_ok m → delete_inv m t0 (t :: q) mi → mp_transactions mi !! t = Some a →
  let '(mi', children) := delete_one mi t (at_transaction a) in
  delete_inv m t0 (q ++ children) mi'.
Proof.
  intros Hok [Hoki Hsub Hq Hgone Hclosed Hstart] Ht.
  pose proof (delete_one_ok mi t a Hoki Ht) as Hone.
  destruct (delete_one mi t (at_transaction a)) as [mi' children].
  destruct Hone as (Hok' & Htx & Hch).
  assert (descendant m t0 t) as Hdt by (apply Hq; by left).
  split; rewrite ?Htx in *.
  - done.
  - intros t' a' [_ Ha']%lookup_delete_Some. by apply Hsub.
  - intros t' [Hin|Hin]%elem_of_app; [apply Hq; by right|].
    apply Hch in Hin as [Hc _]. eapply rtc_r; [exact Hdt|]. by apply (child_grows m mi).
  - intros t' Hs' Hnone. destruct (decide (t = t')) as [<-|Hne]; [done|].
    apply Hgone; [done|]. by rewrite lookup_delete_ne in Hnone.
  - intros t' c Hnone Hc Hcs. rewrite elem_of_app.
    destruct Hcs as [ac Hac]. apply lookup_delete_Some in Hac as [Hne Hac].
    destruct (decide (t = t')) as [<-|Hne'].
    + right. apply Hch. split; [|exists ac; by apply lookup_delete_Some].
      apply (child_shrinks m mi); [done..| | |done]; by eexists.
    + left. rewrite lookup_delete_ne in Hnone by done.
      assert (c ∈ t :: q) as [->|]%elem_of_cons by (apply (Hclosed t' c); [done..|by eexists]); done.
  - intros [a0 Ha0]. apply lookup_delete_Some in Ha0 as [Hne Ha0]. apply elem_of_app. left.
    assert (t0 ∈ t :: q) as [->|]%elem_of_cons by (apply Hstart; by eexists); done.
Qed.

Lemma delete_inv_skip m t0 t q mi :
  delete_inv m t0 (t :: q) mi → mp_transactions mi !! t = None → delete_inv m t0 q mi.
Proof.
  intros [Hoki Hsub Hq Hgone Hclosed Hstart] Ht. split; [done..| |done| |].
  - intros t' Hin. apply Hq. by right.
  - intros t' c Hn Hc Hs. assert (c ∈ t :: q) as [->|]%elem_of_cons by (by apply (Hclosed t' c)); [|done].
    destruct Hs. congruence.
  - intros Hs. assert (t0 ∈ t :: q) as [->|]%elem_of_cons by (by apply Hstart); [|done].
    destruct Hs. congruence.
Qed.

Lemma delete_loop_ok fuel m t0 q mi :
  mempool_ok m → delete_inv m t0 q mi → length q + n_outputs mi < fuel →
  ∃ m', delete_loop fuel mi q = Some m' ∧ delete_inv m t0 [] m'.
Proof.
  intros Hok. revert q mi. induction fuel as [|fuel IH]; intros q mi Hinv Hf; [lia|].
  cbn [delete_loop]. destruct q as [|t q]; [by exists mi|]. simpl in Hf.
  destruct (mp_transactions mi !! t) as [a|] eqn:Ht.
  - pose proof (delete_inv_step m t0 t q mi a Hok Hinv Ht) as Hstep.
    pose proof (delete_one_ok mi t a (di_ok _ _ _ _ Hinv) Ht) as Hone.
    pose proof (children_length mi t (at_transaction a)) as Hlen.
    destruct (delete_one mi t (at_transaction a)) as [mi' children]. simpl in Hlen.
    destruct Hone as (_ & Htx & _). apply IH; [done|].
    rewrite (n_outputs_delete mi mi' t a Ht Htx) in Hf. rewrite length_app. lia.
  - apply IH; [by eapply delete_inv_skip|lia].
Qed.

Lemma descendants_gone m t0 m' t :
  mempool_ok m → delete_inv m t0 [] m' → descendant m t0 t → mp_transactions m' !! t = None.
Proof.
  intros Hok [_ Hsub _ _ Hclosed Hstart] Hd.
  assert (∀ x c, mp_transactions m' !! x = None → child m x c → mp_transactions m' !! c = None) as Hstep.
  { intros x c Hx Hc. apply eq_None_not_Some. intros Hs.
    by apply (Hclosed x c Hx Hc), elem_of_nil in Hs. }
  assert (mp_transactions m' !! t0 = None) as H0.
  { apply eq_None_not_Some. by intros ?%Hstart%elem_of_nil. }
  clear Hclosed Hstart. revert H0. unfold descendant in Hd. induction Hd; eauto.
Qed.

Lemma delete_inv_init m t0 : mempool_ok m → delete_inv m t0 [t0] m.
Proof.
  intros Hok. split; [done|done| | | |by left].
  - intros t ->%list_elem_of_singleton. apply rtc_refl.
  - intros t [a Ha] Hn. congruence.
  - intros t c Hn (a & o & Ha & _) _. congruence.
Qed.

(** What is left: the transactions that do not descend from [t0]. *)
Lemma mempool_delete_ok m t0 :
  mempool_ok m →
  ∃ m', mempool_delete m t0 = Ok m' ∧ mempool_ok m'
    ∧ (∀ t a, mp_transactions m' !! t = Some a ↔ mp_transactions m !! t = Some a ∧ ¬ descendant m t0 t)
    ∧ (∀ t, is_Some (mp_transactions m !! t) → mp_transactions m' !! t = None → descendant m t0 t).
Proof.
  intros Hok. destruct (delete_loop_ok (2 + n_outputs m) m t0 [t0] m) as (m' & Hloop & Hinv);
    [done|by apply delete_inv_init|simpl; lia|].
  exists m'. unfold mempool_delete. rewrite Hloop. split_and!; [done|apply (di_ok _ _ _ _ Hinv)| |apply (di_gone _ _ _ _ Hinv)].
  intros t a. split.
  - intros Ha. split; [by apply (di_sub _ _ _ _ Hinv)|].
    intros Hd. pose proof (descendants_gone m t0 m' t Hok Hinv Hd). congruence.
  - intros [Ha Hd]. destruct (mp_transactions m' !! t) as [a'|] eqn:Ht.
    + apply (di_sub _ _ _ _ Hinv) in Ht. congruence.
    + destruct Hd. by apply (di_gone _ _ _ _ Hinv); [eexists|].
Qed.
End delete.

(** ** Connecting a block *)
Section connect.
Context `{E : Externals}.
Implicit Types (m : MemPool) (P : Txid → Prop).

(** [m1] is [m] without the transactions in [P], which holds the descendants
    of what it holds. *)
Record restricts m P m1 : Prop := {
  rs_ok : mempool_ok m1;
  rs_iff t a : mp_transactions m1 !! t = Some a ↔ mp_transactions m !! t = Some a ∧ ¬ P t;
  rs_gone t : is_Some (mp_transactions m !! t) → mp_transactions m1 !! t = None → P t;
  rs_closed x y : P x → child m x y → P y
}.

Lemma restricts_ext m P Q m1 : (∀ t, P t ↔ Q t) → restricts m P m1 → restricts m Q m1.
Proof.
  intros Heq [Hok Hiff Hgone Hcl]. split; [done| | |].
  - intros t a. by rewrite Hiff, Heq.
  - intros t. rewrite <- Heq. apply Hgone.
  - intros x y. rewrite <- !Heq. apply Hcl.
Qed.

Lemma closed_descendant m P x t :
  (∀ x y, P x → child m x y → P y) → descendant m x t → P x → P t.
Proof. intros Hcl Hd. unfold descendant in Hd. induction Hd; eauto. Qed.

Lemma restricts_descendant m P m1 u t :
  mempool_ok m → restricts m P m1 → is_Some (mp_transactions m1 !! t) →
  descendant m1 u t ↔ descendant m u t.
Proof.
  intros Hok Hr [a Ha]. pose proof (rs_iff _ _ _ Hr) as Hiff. split.
  - apply (rtc_subrel _ _ u t). intros x y. apply child_grows; [done|apply (rs_ok _ _ _ Hr)|].
    by intros ? ? [? _]%Hiff.
  - intros Hd. assert (¬ P t) as Ht by (by apply Hiff in Ha as [_ ?]). unfold descendant in *.
    assert (∀ x, is_Some (mp_transactions m !! x) → rtc (child m) x t →
      is_Some (mp_transactions m1 !! x)) as Hin.
    { intros x [ax Hx] Hp. exists ax. apply Hiff. split; [done|]. intros HP. apply Ht.
      by apply (closed_descendant m P x t (rs_closed _ _ _ Hr)). }
    induction Hd as [|x y z Hc Hd IH]; [apply rtc_refl|].
    apply rtc_l with y; [|by apply IH].
    apply (child_shrinks m m1); [done|apply (rs_ok _ _ _ Hr)|by intros ? ? [? _]%Hiff| | |done].
    + apply Hin; [|by apply rtc_l with y]. destruct Hc as (ax & _ & Hx & _). by eexists.
    + apply Hin; [by eapply child_known|done].
Qed.

Lemma restricts_delete m P m1 u :
  mempool_ok m → restricts m P m1 →
  ∃ m2, mempool_delete m1 u = Ok m2 ∧ restricts m (λ t, P t ∨ descendant m u t) m2.
Proof.
  intros Hok Hr. destruct (mempool_delete_ok m1 u (rs_ok _ _ _ Hr)) as (m2 & Hdel & Hok2 & Hiff & Hgone).
  exists m2. split; [done|]. split; [done| | |].
  - intros t a. rewrite Hiff, (rs_iff _ _ _ Hr). split.
    + intros [[Ha HP] Hd]. split; [done|]. intros [?|Hd']; [done|]. apply Hd.
      apply (restricts_descendant m P m1); [done..|eexists|done]. by apply (rs_iff _ _ _ Hr).
    + intros [Ha HP]. split; [split; naive_solver|]. intros Hd. apply HP. right.
      apply (restricts_descendant m P m1); [done..|eexists|done]. apply (rs_iff _ _ _ Hr).
      split; naive_solver.
  - intros t Hs Hn. destruct (mp_transactions m1 !! t) as [a|] eqn:Ha.
    + right. apply (restricts_descendant m P m1); [done..|by eexists|]. apply Hgone; [by eexists|done].
    + left. by apply (rs_gone _ _ _ Hr).
  - intros x y [HP|Hd] Hc; [left; by eapply (rs_closed _ _ _ Hr)|right]. by eapply rtc_r.
Qed.

(** What a block's transaction displaces: its own copy in the pool, the users
    of its nullifiers, and everything that spends their outputs. *)
Definition uses_nullifier m (ns : list Nullifier) (t : Txid) : Prop :=
  ∃ n u, n ∈ ns ∧ mp_used_nullifiers m !! n = Some u ∧ descendant m u t.
Definition tx_displaces m (tx : Transaction) (t : Txid) : Prop :=
  descendant m (txid tx) t ∨ uses_nullifier m (nullifiers_of tx) t.
Definition displaced m (txs : list Transaction) (t : Txid) : Prop :=
  ∃ tx, tx ∈ txs ∧ tx_displaces m tx t.

Lemma restricts_nullifiers m P m1 ns :
  mempool_ok m → restricts m P m1 →
  ∃ m2, foldR delete_nullifier_conflict m1 ns = Ok m2
    ∧ restricts m (λ t, P t ∨ uses_nullifier m ns t) m2.
Proof.
  intros Hok. revert P m1. induction ns as [|n ns IH]; intros P m1 Hr; cbn [foldR].
  { exists m1. split; [done|]. eapply restricts_ext; [|done]. intros t. split; [by left|].
    intros [?|(n & u & Hn & _)]; [done|]. by apply elem_of_nil in Hn. }
  assert (∃ m2 Q, delete_nullifier_conflict m1 n = Ok m2 ∧ restricts m Q m2
    ∧ ∀ t, Q t ↔ P t ∨ uses_nullifier m [n] t) as (m2 & Q & Hm2 & Hr2 & HQ).
  { unfold delete_nullifier_conflict.
    assert (∀ u, mp_used_nullifiers m1 !! n = Some u ↔ mp_used_nullifiers m !! n = Some u ∧ ¬ P u)
      as Hused.
    { intros u. rewrite (mp_used_ok m1 (rs_ok _ _ _ Hr) n u), (mp_used_ok m Hok n u).
      setoid_rewrite (rs_iff _ _ _ Hr). naive_solver. }
    assert (∀ t, uses_nullifier m [n] t ↔ ∃ u, mp_used_nullifiers m !! n = Some u ∧ descendant m u t) as Hone.
    { intros t. unfold uses_nullifier. setoid_rewrite list_elem_of_singleton. naive_solver. }
    destruct (mp_used_nullifiers m1 !! n) as [u|] eqn:Hu.
    - destruct (restricts_delete m P m1 u Hok Hr) as (m2 & Hm2 & Hr2).
      exists m2. eexists. split_and!; [done|done|]. intros t. simpl. rewrite Hone.
      destruct (proj1 (Hused u) eq_refl) as [Hu' _]. naive_solver.
    - exists m1, P. split_and!; [done..|]. intros t. rewrite Hone. split; [by left|].
      intros [?|(u & Hu' & Hd)]; [done|].
      pose proof Hu' as (a & Ha & _)%(mp_used_ok m Hok).
      apply (closed_descendant m P u t (rs_closed _ _ _ Hr) Hd), (rs_gone _ _ _ Hr); [by eexists|].
      destruct (mp_transactions m1 !! u) as [a1|] eqn:Hu1; [|done].
      apply (rs_iff _ _ _ Hr) in Hu1 as [_ HP]. pose proof (proj2 (Hused u) (conj Hu' HP)); congruence. }
  rewrite Hm2, ok_bind. destruct (IH Q m2 Hr2) as (m3 & Hm3 & Hr3).
  exists m3. split; [done|]. eapply restricts_ext; [|done]. intros t. simpl. rewrite HQ.
  unfold uses_nullifier. setoid_rewrite elem_of_cons. setoid_rewrite elem_of_nil. naive_solver.
Qed.

Lemma restricts_block m P m1 txs :
  mempool_ok m → restricts m P m1 →
  ∃ m2, foldR connect_block_tx m1 txs = Ok m2 ∧ restricts m (λ t, P t ∨ displaced m txs t) m2.
Proof.
  intros Hok. revert P m1. induction txs as [|tx txs IH]; intros P m1 Hr; cbn [foldR].
  { exists m1. split; [done|]. eapply restricts_ext; [|done]. intros t. split; [by left|].
    intros [?|(tx & Hn & _)]; [done|]. by apply elem_of_nil in Hn. }
  destruct (restricts_delete m P m1 (txid tx) Hok Hr) as (m2 & Hm2 & Hr2).
  destruct (restricts_nullifiers m _ m2 (nullifiers_of tx) Hok Hr2) as (m3 & Hm3 & Hr3).
  assert (connect_block_tx m1 tx = Ok m3) as -> by (unfold connect_block_tx; by rewrite Hm2, ok_bind).
  rewrite ok_bind. destruct (IH _ m3 Hr3) as (m4 & Hm4 & Hr4).
  exists m4. split; [done|]. eapply restricts_ext; [|done]. intros t. simpl.
  unfold displaced, tx_displaces. setoid_rewrite elem_of_cons. naive_solver.
Qed.

Lemma txid_with_proof a p : txid (at_transaction (with_proof a p)) = txid (at_transaction a).
Proof. done. Qed.

Definition regenerated (accumulator : Accumulator) (a : AuthorizedTransaction) :
    option AuthorizedTransaction :=
  with_proof a <$> prove accumulator (targets_of (at_transaction a)).

Lemma regenerated_again acc a a' : regenerated acc a = Some a' → regenerated acc a' = Some a'.
Proof.
  unfold regenerated. intros (p & Hp & ->)%fmap_Some.
  change (targets_of (at_transaction (with_proof a p))) with (targets_of (at_transaction a)).
  by rewrite Hp.
Qed.

Lemma regenerate_one_ok acc m t a p :
  mp_transactions m !! t = Some a → prove acc (targets_of (at_transaction a)) = Some p →
  regenerate_one acc m t = Ok (with_transactions m (<[t := with_proof a p]> (mp_transactions m))).
Proof. intros Ha Hp. unfold regenerate_one. by rewrite Ha, expect_bind, Hp. Qed.

(** The loop over the transactions: every proof is replaced, or the first
    transaction without one stops it. *)
Lemma regenerate_loop acc m ks :
  (∀ t, t ∈ ks → ∃ a, mp_transactions m !! t = Some a ∧ is_Some (regenerated acc a)) →
  ∃ m', foldR (regenerate_one acc) m ks = Ok m'
    ∧ mp_spent_utxos m' = mp_spent_utxos m ∧ mp_used_nullifiers m' = mp_used_nullifiers m
    ∧ ∀ t, mp_transactions m' !! t =
        if decide (t ∈ ks) then mp_transactions m !! t ≫= regenerated acc else mp_transactions m !! t.
Proof.
  revert m. induction ks as [|k ks IH]; intros m Hks; cbn [foldR].
  { exists m. split_and!; [done..|]. intros t. case_decide as Hin; [|done]. by apply elem_of_nil in Hin. }
  destruct (Hks k) as (a & Ha & [a' Ha']); [by left|].
  pose proof Ha' as (p & Hp & ->)%fmap_Some.
  rewrite (regenerate_one_ok acc m k a p Ha Hp), ok_bind. destruct (IH (with_transactions m (<[k:=with_proof a p]> (mp_transactions m))))
    as (m' & Hm' & Hs & Hu & Hlook).
  - intros t Ht. simpl. destruct (decide (t = k)) as [->|Hne].
    + exists (with_proof a p). rewrite lookup_insert_eq. split; [done|].
      eexists. by apply (regenerated_again acc a).
    + rewrite lookup_insert_ne by done. apply Hks. by right.
  - exists m'. split_and!; [done..|]. intros t. rewrite Hlook. simpl.
    destruct (decide (t = k)) as [->|Hne].
    + rewrite lookup_insert_eq, (decide_True (P:=k ∈ k :: ks)) by by left.
      rewrite Ha. simpl. rewrite Ha'. case_decide; [|done]. simpl. by apply (regenerated_again acc a).
    + rewrite lookup_insert_ne by done. repeat case_decide; try done; set_solver.
Qed.

Lemma regenerate_stuck acc m ks t a :
  (∀ t, t ∈ ks → is_Some (mp_transactions m !! t)) →
  t ∈ ks → mp_transactions m !! t = Some a → regenerated acc a = None →
  foldR (regenerate_one acc) m ks = Err MpUtreexo.
Proof.
  revert m. induction ks as [|k ks IH]; intros m Hks Hin Ht Hnone; [by apply elem_of_nil in Hin|].
  cbn [foldR]. destruct (Hks k) as [b Hb]; [by left|].
  destruct (prove acc (targets_of (at_transaction b))) as [p|] eqn:Hp;
    [|unfold regenerate_one; by rewrite Hb, expect_bind, Hp].
  rewrite (regenerate_one_ok acc m k b p Hb Hp), ok_bind.
  assert (k ≠ t) as Hne.
  { intros ->. unfold regenerated in Hnone. replace b with a in * by congruence. by rewrite Hp in Hnone. }
  apply IH; simpl.
  - intros t' Ht'. rewrite lookup_insert_is_Some'. right. apply Hks. by right.
  - by apply elem_of_cons in Hin as [->|].
  - by rewrite lookup_insert_ne.
  - done.
Qed.

Lemma mempool_iter_elem m t a : (t, a) ∈ mempool_iter m ↔ mp_transactions m !! t = Some a.
Proof. unfold mempool_iter. rewrite merge_sort_Permutation. apply elem_of_map_to_list. Qed.

Lemma mempool_keys m t : t ∈ (mempool_iter m).*1 ↔ is_Some (mp_transactions m !! t).
Proof.
  rewrite list_elem_of_fmap. split.
  - intros ([t' a] & -> & Ha%mempool_iter_elem). by eexists.
  - intros [a Ha]. exists (t, a). split; [done|]. by apply mempool_iter_elem.
Qed.

Lemma regenerate_ok m m' acc :
  mempool_ok m → mp_spent_utxos m' = mp_spent_utxos m → mp_used_nullifiers m' = mp_used_nullifiers m →
  (∀ t, mp_transactions m' !! t = mp_transactions m !! t ≫= regenerated acc) →
  (∀ t a, mp_transactions m !! t = Some a → is_Some (regenerated acc a)) →
  mempool_ok m'.
Proof.
  intros [Hids Hs Hu Hd] Hs' Hu' Hlook Hall.
  assert (∀ {K} (f : Transaction → list K) t k, (∀ a p, f (at_transaction (with_proof a p)) = f (at_transaction a)) →
    (∃ a, mp_transactions m !! t = Some a ∧ k ∈ f (at_transaction a)) ↔
    (∃ a, mp_transactions m' !! t = Some a ∧ k ∈ f (at_transaction a))) as Hkeys.
  { intros K f t k Hf. setoid_rewrite Hlook. split.
    - intros (a & Ha & Hk). destruct (Hall t a Ha) as [a' Ha']. exists a'. rewrite Ha.
      split; [done|]. apply fmap_Some in Ha' as (p & _ & ->). by rewrite Hf.
    - intros (a' & (a & Ha & Ha')%bind_Some & Hk). exists a. split; [done|].
      apply fmap_Some in Ha' as (p & _ & ->). by rewrite Hf in Hk. }
  split.
  - intros t a'. rewrite Hlook. intros (a & Ha & (p & _ & ->)%fmap_Some)%bind_Some.
    rewrite txid_with_proof. by apply Hids.
  - intros k t. rewrite Hs', (Hs k t). by apply Hkeys.
  - intros k t. rewrite Hu', (Hu k t). by apply Hkeys.
  - intros t a'. rewrite Hlook. intros (a & Ha & (p & _ & ->)%fmap_Some)%bind_Some. exact (Hd t a Ha).
Qed.

Lemma displaced_all m : mempool_ok m → restricts m (λ _, False) m.
Proof. intros Hok. split; [done|naive_solver| |done]. intros t [a Ha] Hn. congruence. Qed.

Lemma connect_block_displaces m body acc :
  mempool_ok m →
  ∃ m1, restricts m (displaced m (transactions body)) m1
    ∧ mempool_connect_block m acc body = regenerate_proofs m1 acc.
Proof.
  intros Hok. destruct (restricts_block m _ m (transactions body) Hok (displaced_all m Hok)) as (m1 & Hm1 & Hr).
  exists m1. split; [|by unfold mempool_connect_block; rewrite Hm1].
  eapply restricts_ext; [|done]. intros t. simpl. naive_solver.
Qed.

Lemma mempool_connect_block_cases m body acc :
  mempool_ok m →
  (∀ t a, mp_transactions m !! t = Some a → ¬ displaced m (transactions body) t →
     is_Some (regenerated acc a)) →
  ∃ m', mempool_connect_block m acc body = Ok m' ∧ mempool_ok m'
    ∧ ∀ t a', mp_transactions m' !! t = Some a' ↔
        ∃ a, mp_transactions m !! t = Some a ∧ ¬ displaced m (transactions body) t
          ∧ regenerated acc a = Some a'.
Proof.
  intros Hok Hall. destruct (connect_block_displaces m body acc Hok) as (m1 & Hr & ->).
  assert (∀ t a, mp_transactions m1 !! t = Some a → is_Some (regenerated acc a)) as Hall1.
  { intros t a [Ha Hn]%(rs_iff _ _ _ Hr). by eapply Hall. }
  destruct (regenerate_loop acc m1 (mempool_iter m1).*1) as (m' & Hm' & Hs & Hu & Hlook).
  { intros t [a Ha]%mempool_keys. exists a. split; [done|]. by eapply Hall1. }
  assert (∀ t, mp_transactions m' !! t = mp_transactions m1 !! t ≫= regenerated acc) as Hlook'.
  { intros t. rewrite Hlook. case_decide as Hk; [done|]. rewrite mempool_keys in Hk.
    apply eq_None_not_Some in Hk. by rewrite Hk. }
  exists m'. split_and!; [done|by apply (regenerate_ok m1 m' acc); [apply (rs_ok _ _ _ Hr)|..]|].
  intros t a'. rewrite Hlook', bind_Some. setoid_rewrite (rs_iff _ _ _ Hr). naive_solver.
Qed.
End connect.

(** ** The pool's life: what the node does to it *)
Section life.
Context `{E : Externals}.
Implicit Types (m : MemPool).

Inductive mempool_step : MemPool → MemPool → Prop :=
  | step_new VERSION m : mempool_step m (MemPool_new VERSION m)
  | step_put m t m' : mempool_put m t = Ok m' → mempool_step m m'
  | step_delete m t m' : mempool_delete m t = Ok m' → mempool_step m m'
  | step_connect m acc body m' : mempool_connect_block m acc body = Ok m' → mempool_step m m'
  | step_regenerate m acc m' : regenerate_proofs m acc = Ok m' → mempool_step m m'.

Lemma regenerate_all m m' acc :
  regenerate_proofs m acc = Ok m' →
  ∀ t a, mp_transactions m !! t = Some a → is_Some (regenerated acc a).
Proof.
  intros Hm t a Ha. destruct (regenerated acc a) eqn:Hr; [by eexists|].
  unfold regenerate_proofs in Hm. rewrite (regenerate_stuck acc m _ t a) in Hm; [done| |..|done].
  - intros t'. by rewrite mempool_keys.
  - apply mempool_keys. by eexists.
  - done.
Qed.

Lemma regenerate_proofs_ok m m' acc :
  mempool_ok m → regenerate_proofs m acc = Ok m' → mempool_ok m'.
Proof.
  intros Hok Hm. pose proof (regenerate_all m m' acc Hm) as Hall.
  destruct (regenerate_loop acc m (mempool_iter m).*1) as (m2 & Hm2 & Hs & Hu & Hlook).
  { intros t [a Ha]%mempool_keys. exists a. split; [done|]. by eapply Hall. }
  unfold regenerate_proofs in Hm. rewrite Hm in Hm2. injection Hm2 as <-.
  apply (regenerate_ok m m' acc); try done.
  intros t. rewrite Hlook. case_decide as Hk; [done|]. rewrite mempool_keys in Hk.
  apply eq_None_not_Some in Hk. by rewrite Hk.
Qed.

Lemma mempool_step_ok m m' : mempool_ok m → mempool_step m m' → mempool_ok m'.
Proof.
  intros Hok Hstep. destruct Hstep as [V m|m t m' Hm|m t m' Hm|m acc body m' Hm|m acc m' Hm].
  - by destruct Hok.
  - by eapply mempool_put_cases.
  - destruct (mempool_delete_ok m t Hok) as (m2 & Hm2 & Hok2 & _). congruence.
  - destruct (connect_block_displaces m body acc Hok) as (m1 & Hr & Hm1). rewrite Hm1 in Hm.
    by eapply regenerate_proofs_ok; [apply (rs_ok _ _ _ Hr)|].
  - by eapply regenerate_proofs_ok.
Qed.

Lemma mempool_empty_ok : mempool_ok MemPool_empty_dbs.
Proof.
  split; [done| | |done]; intros k t; split; [done|by intros (a & Ha & _)|done|by intros (a & Ha & _)].
Qed.

(** C22: in every pool the node can reach, transactions are stored under their
    own txid, and the two indexes hold exactly the outpoints the pool's
    transactions spend and the nullifiers they use, each with its spender: so
    no two transactions of the pool share an input or a nullifier, and an
    outpoint is marked spent only as long as its spender is in the pool. *)
Theorem mempool_invariant m (Hreach : rtc mempool_step MemPool_empty_dbs m) :
  mempool_ok m
  ∧ ∀ t t' a a' o, mp_transactions m !! t = Some a → mp_transactions m !! t' = Some a' →
      o ∈ spends (at_transaction a) → o ∈ spends (at_transaction a') → t = t'.
Proof.
  assert (mempool_ok m) as Hok.
  { pose proof mempool_empty_ok as Hok. induction Hreach; [done|].
    by apply IHHreach, (mempool_step_ok x). }
  split; [done|]. intros t t' a a' o Ha Ha' Ho Ho'.
  assert (mp_spent_utxos m !! o = Some t) by (apply (mp_spent_ok m Hok); eauto).
  assert (mp_spent_utxos m !! o = Some t') by (apply (mp_spent_ok m Hok); eauto). congruence.
Qed.

(** C23: [delete] always terminates (its queue is bounded by the outputs of
    the pool's transactions), without an error, and removes the transaction
    with everything that spends its outputs, directly or through other
    transactions of the pool; it removes nothing else. *)
Theorem mempool_delete_descendants m t0 (Hok : mempool_ok m) :
  ∃ m', mempool_delete m t0 = Ok m' ∧ mempool_ok m'
    ∧ (∀ t a, mp_transactions m' !! t = Some a ↔ mp_transactions m !! t = Some a ∧ ¬ descendant m t0 t).
Proof. destruct (mempool_delete_ok m t0 Hok) as (m' & ? & ? & ? & _). eauto. Qed.

(** Connecting a block keeps exactly the transactions the block does not
    displace (its own transactions, the users of its nullifiers, and their
    descendants), each with the proof the new accumulator gives for its
    inputs, provided the accumulator proves all of them. *)
Theorem mempool_connect_block_regenerates m acc body (Hok : mempool_ok m)
    (Hall : ∀ t a, mp_transactions m !! t = Some a → ¬ displaced m (transactions body) t →
      is_Some (regenerated acc a)) :
  ∃ m', mempool_connect_block m acc body = Ok m' ∧ mempool_ok m'
    ∧ ∀ t a', mp_transactions m' !! t = Some a' ↔
        ∃ a, mp_transactions m !! t = Some a ∧ ¬ displaced m (transactions body) t
          ∧ regenerated acc a = Some a'.
Proof. by apply mempool_connect_block_cases. Qed.

(** a pool transaction that the block does not displace but whose inputs
    the new accumulator no longer proves makes [connect_block] fail.  A
    transaction that merely competes with the block for a transparent output
    is such a transaction: only nullifiers are compared with the block. *)
Theorem mempool_connect_block_stuck m acc body t a (Hok : mempool_ok m)
    (Ha : mp_transactions m !! t = Some a) (Hkept : ¬ displaced m (transactions body) t)
    (Hunproved : prove acc (targets_of (at_transaction a)) = None) :
  mempool_connect_block m acc body = Err MpUtreexo.
Proof.
  destruct (connect_block_displaces m body acc Hok) as (m1 & Hr & ->).
  assert (mp_transactions m1 !! t = Some a) as Ht by (by apply (rs_iff _ _ _ Hr)).
  apply (regenerate_stuck acc m1 _ t a); [|apply mempool_keys; by eexists|done|].
  - intros t'. by rewrite mempool_keys.
  - unfold regenerated. by rewrite Hunproved.
Qed.
End life.

Module MemPoolToy.
#[local] Existing Instance Toy.externals.
Definition h (z : Z) : Hash := le_vec 32 z.
Definition addr (z : Z) : TransparentAddress := le_vec 20 z.
Definition op (z : Z) : OutPoint := Regular (h z) (u32_of_Z 0).
Definition out (z : Z) : Output := mk_Output (addr 1) (Value z).
Definition pay (ins : list (OutPoint * Hash)) (v : Z) : AuthorizedTransaction :=
  mk_AuthorizedTransaction (mk_Transaction ins [] [out v] None) [].

(** [child] spends the output of [parent]; [rival], in a block, spends the
    same output as [parent]. *)
Definition parent : AuthorizedTransaction := pay [(op 1, h 11)] 50.
Definition parent_id : Txid := txid (at_transaction parent).
Definition child_tx : AuthorizedTransaction := pay [(Regular parent_id (u32_of_Z 0), h 12)] 40.
Definition child_id : Txid := txid (at_transaction child_tx).
Definition rival : Transaction := mk_Transaction [(op 1, h 11)] [] [out 49] None.
Definition puts : Res MemPoolError MemPool :=
  foldR mempool_put MemPool_empty_dbs [parent; child_tx].
Definition pool : MemPool := match puts with Ok m => m | _ => MemPool_empty_dbs end.
Definition size (m : Res MemPoolError MemPool) : option nat :=
  match m with Ok m => Some (length (mempool_take_all m)) | _ => None end.

Example pool_size : size (Ok pool) = Some 2.
Proof. vm_compute. reflexivity. Qed.
Example delete_parent : size (mempool_delete pool parent_id) = Some 0.
Proof. vm_compute. reflexivity. Qed.
Example delete_child : size (mempool_delete pool child_id) = Some 1.
Proof. vm_compute. reflexivity. Qed.

Lemma puts_step m m' l : foldR mempool_put m l = Ok m' → rtc mempool_step m m'.
Proof.
  revert m. induction l as [|t l IH]; intros m; cbn [foldR].
  - intros [= <-]. apply rtc_refl.
  - intros (m1 & Hm1 & Hl)%bind_Ok. eapply rtc_l; [by apply (step_put m t)|]. by apply IH.
Qed.
Lemma default_puts m : is_ok m = true →
  m = Ok (match m with Ok m => m | _ => MemPool_empty_dbs end : MemPool) :> Res MemPoolError MemPool.
Proof. by destruct m. Qed.
Lemma pool_reach : rtc mempool_step MemPool_empty_dbs pool.
Proof. apply (puts_step _ _ [parent; child_tx]), default_puts. vm_compute. reflexivity. Qed.
Lemma pool_ok : mempool_ok pool.
Proof.
  pose proof pool_reach as Hr. revert Hr. generalize pool. intros m Hr.
  pose proof mempool_empty_ok as Hok. induction Hr; [done|]. by apply IHHr, (mempool_step_ok x).
Qed.

Lemma mempool_invariant_witness : mempool_ok pool.
Proof. apply (mempool_invariant pool), pool_reach. Defined.

Lemma mempool_delete_descendants_witness :
  ∃ m', mempool_delete pool parent_id = Ok m' ∧ mempool_ok m'.
Proof.
  destruct (mempool_delete_descendants pool parent_id pool_ok) as (m' & Hm' & Hok & _).
  exists m'. split; [exact Hm'|exact Hok].
Defined.

Lemma provable_ok acc m :
  forallb (λ e, bool_decide (is_Some (regenerated acc e.2))) (mempool_iter m) = true →
  ∀ t a, mp_transactions m !! t = Some a → is_Some (regenerated acc a).
Proof.
  intros Hall t a Ha. rewrite forallb_forall in Hall.
  apply (bool_decide_eq_true _), (Hall (t, a)), list_elem_of_In, mempool_iter_elem, Ha.
Qed.

Definition acc_before : Accumulator := mk_Accumulator ([h 11; h 12] : list Hash).
Definition acc_after : Accumulator := mk_Accumulator ([h 12] : list Hash).

Lemma mempool_connect_block_regenerates_witness :
  ∃ m', mempool_connect_block pool acc_before (mk_Body [] [] []) = Ok m' ∧ mempool_ok m'.
Proof.
  destruct (mempool_connect_block_regenerates pool acc_before (mk_Body [] [] []) pool_ok)
    as (m' & Hm' & Hok & _).
  - intros t a Ha _. revert t a Ha. apply provable_ok. vm_compute. reflexivity.
  - exists m'. split; [exact Hm'|exact Hok].
Defined.

Definition unprovable_at (acc : Accumulator) (m : MemPool) (t : Txid) : bool :=
  match mp_transactions m !! t with
  | Some a => match prove acc (targets_of (at_transaction a)) with Some _ => false | None => true end
  | None => false
  end.
Lemma unprovable_at_ok acc m t : unprovable_at acc m t = true →
  ∃ a, mp_transactions m !! t = Some a ∧ prove acc (targets_of (at_transaction a)) = None.
Proof.
  unfold unprovable_at. destruct (mp_transactions m !! t) as [a|]; [|done].
  destruct (prove acc _) eqn:Hp; [done|]. intros _. by exists a.
Qed.

Definition absent (m : MemPool) (t : Txid) : bool :=
  match mp_transactions m !! t with Some _ => false | None => true end.
Lemma no_descendants m t u : absent m t = true → t ≠ u → ¬ descendant m t u.
Proof.
  unfold absent. intros Ht Hne Hd. destruct Hd as [|x y z Hc _]; [done|].
  destruct Hc as (a & _ & Ha & _). by rewrite Ha in Ht.
Qed.

Lemma rival_keeps_parent : ¬ displaced pool (transactions (mk_Body [] [rival] [])) parent_id.
Proof.
  intros (tx & Htx & Hd). apply list_elem_of_singleton in Htx as ->.
  destruct Hd as [Hd|(n & u & Hn & _)]; [|by apply elem_of_nil in Hn].
  revert Hd. apply no_descendants.
  - vm_compute. reflexivity.
  - apply (bool_decide_unpack _). vm_compute. exact I.
Qed.

(** The block spends [op 1] with [rival]; [parent] stays, and has no proof. *)
Lemma mempool_connect_block_stuck_witness :
  mempool_connect_block pool acc_after (mk_Body [] [rival] []) = Err MpUtreexo.
Proof.
  destruct (unprovable_at_ok acc_after pool parent_id) as (a & Ha & Hp); [vm_compute; reflexivity|].
  exact (mempool_connect_block_stuck pool acc_after _ parent_id a pool_ok Ha rival_keeps_parent Hp).
Defined.

(** A transaction's pool children leave the pool when a block confirms it. *)
Example confirmed_parent_drops_child :
  size (mempool_connect_block pool acc_after (mk_Body [] [at_transaction parent] [])) = Some 0.
Proof. vm_compute. reflexivity. Qed.
End MemPoolToy.
