(* ===== verification/Node.v ===== *)
(** The node's view of the chain ([src/lib/node/net_task.rs]): connecting and
    disconnecting the tip across state, archive and memory pool, and the
    reorganization to a better tip.

    A node is the three groups of databases.  A Rust write transaction is a
    value of [Node] under construction: an error drops it, [commit] makes it
    the node of the result. *)
From S2P Require Import Prelude.
From S2P Require Import Borsh.
From S2P Require Import Externals.
From S2P Require Import Toy.
From S2P Require Import Types.
From S2P Require Import AccumulatorDiff.
From S2P Require Import WithdrawalBundle.
From S2P Require Import RollBack.
From S2P Require Import Orchard.
From S2P Require Import State.
From S2P Require Import Block.
From S2P Require Import TwoWayPeg.
From S2P Require Import Lineage.
From S2P Require Import Archive.
From S2P Require Import MemPool.

Section node.
Context `{E : Externals}.

(** Iteration orders of [HashSet]s and [HashMap]s. *)
Context (iter_set : gset BtcBlockHash → list BtcBlockHash).
Context (iter_bmm : gmap BtcBlockHash BmmResult → list (BtcBlockHash * BmmResult)).
Context (into_values : gmap MainAddress AggregatedWithdrawal → list AggregatedWithdrawal).

Inductive NodeError :=
  | NeArchive (e : ArchiveError)
  | NeMemPool (e : MemPoolError)
  | NeState (e : Error).

Record Node := mk_Node {
  nd_archive : Archive;
  nd_mempool : MemPool;
  nd_state : State
}.

(** ** Connecting *)
Definition connect_tip_ (nd : Node) (header : Header) (body : Body)
    (two_way_peg_data : TwoWayPegData) : Res NodeError Node :=
  let block_hash := Header_hash header in
  '(state, orchard_frontier) ←
    map_err (NeState ∘ ConnectBlock) (apply_block (nd_state nd) header body);
  let archive := match orchard_frontier with
    | Some frontier => put_orchard_frontier (nd_archive nd) block_hash frontier
    | None => nd_archive nd
    end in
  '(state, accumulator) ← map_err NeState (peg_connect into_values state two_way_peg_data);
  archive ← map_err NeArchive (put_header iter_set iter_bmm archive header);
  archive ← map_err NeArchive (put_body archive block_hash body);
  let archive := put_accumulator archive block_hash accumulator in
  mempool ← map_err NeMemPool (mempool_connect_block (nd_mempool nd) accumulator body);
  Ok (mk_Node archive mempool state).

(** ** Disconnecting *)

(** [rev_iter] over a sequentially keyed database. *)
Definition seq_rev_iter (m : gmap Z (BtcBlockHash * Z)) : list (BtcBlockHash * Z) :=
  snd <$> reverse (merge_sort seq_key_le (map_to_list m)).

(** The last block applied before the tip; [height - 1] is a [u32]. *)
Definition applied_before (height : Z) (b : BtcBlockHash * Z) : bool :=
  (b.2 <? wrap32 (height - 1))%Z.
Definition last_applied (height : Z) (m : gmap Z (BtcBlockHash * Z)) : option (BtcBlockHash * Z) :=
  snd <$> list_find (λ b, applied_before height b = true) (seq_rev_iter m).

Definition start_block_hash (a : Archive)
    (last_deposit last_event : option (BtcBlockHash * Z)) :
    Res NodeError (option BtcBlockHash) :=
  match last_deposit, last_event with
  | None, None => Ok None
  | Some (block_hash, _), None | None, Some (block_hash, _) => Ok (Some block_hash)
  | Some (deposit_block, deposit_height), Some (event_block, event_height) =>
      match (deposit_height ?= event_height)%Z with
      | Lt => Ok (Some event_block)
      | Gt => Ok (Some deposit_block)
      | Eq =>
          d ← map_err NeArchive (is_main_descendant a event_block deposit_block);
          if d : bool then Ok (Some event_block)
          else
            d ← map_err NeArchive (is_main_descendant a deposit_block event_block);
            _ ← assert_true d;
            Ok (Some deposit_block)
      end
  end.

(** [main_ancestors(main_hash).take_while(!= stop)] with the block infos of
    the ancestors, those that satisfy [keep]; newest first.  The iterator
    yields every mainchain block at most once. *)
Fixpoint main_infos_loop (fuel : nat) (a : Archive) (stop : option BtcBlockHash)
    (keep : BlockInfo → bool) (m : BtcBlockHash) :
    Res ArchiveError (list (BtcBlockHash * BlockInfo)) :=
  match fuel with
  | O => Panic
  | S fuel =>
      next ← main_ancestors_next a m;
      match next with
      | None => Ok []
      | Some (ancestor, m) =>
          if bool_decide (Some ancestor = stop) then Ok []
          else
            block_info ← get_main_block_info a ancestor;
            rest ← main_infos_loop fuel a stop keep m;
            Ok (if keep block_info then (ancestor, block_info) :: rest else rest)
      end
  end.
Definition main_infos_until (a : Archive) (stop : option BtcBlockHash)
    (keep : BlockInfo → bool) (m : BtcBlockHash) :
    Res NodeError (list (BtcBlockHash * BlockInfo)) :=
  map_err NeArchive (main_infos_loop (2 + size (main_header_infos a)) a stop keep m).

Definition has_events (b : BlockInfo) : bool :=
  match events b with [] => false | _ :: _ => true end.

(** The two-way peg data that the tip applied, reconstructed. *)
Definition disconnect_data (a : Archive) (s : State) (tip_header : Header) (height : Z) :
    Res NodeError TwoWayPegData :=
  start ← start_block_hash a (last_applied height (deposit_blocks s))
            (last_applied height (withdrawal_bundle_event_blocks s));
  block_infos ← main_infos_until a start has_events (prev_main_hash tip_header);
  Ok (mk_TwoWayPegData (reverse block_infos)).

Definition disconnect_tip_ (nd : Node) : Res NodeError Node :=
  let a := nd_archive nd in
  let s := nd_state nd in
  tip_block_hash ← ok_or (tip s) (NeState NoTip);
  tip_header ← map_err NeArchive (get_header a tip_block_hash);
  tip_body ← map_err NeArchive (get_body a tip_block_hash);
  height ← ok_or (height s) (NeState NoTip);
  two_way_peg_data ← disconnect_data a s tip_header height;
  s ← map_err NeState (peg_disconnect s two_way_peg_data);
  prev_accumulator ← map_err NeArchive (Archive.get_accumulator a (prev_side_hash tip_header));
  let prev_frontier := orchard_frontiers a !! prev_side_hash tip_header in
  s ← map_err NeState (disconnect_tip s tip_header tip_body prev_accumulator prev_frontier);
  ats ← map_err (Empty_set_rect (λ _, NodeError)) (authorized_transactions tip_body);
  m ← map_err NeMemPool (foldR mempool_put (nd_mempool nd) (reverse ats));
  m ← map_err NeMemPool (regenerate_proofs m prev_accumulator);
  Ok (mk_Node a m s).

(** ** Reorganization *)
Definition tip_of (a : Archive) (block_hash : BlockHash) : Res NodeError Tip :=
  bmm_verification ← map_err NeArchive (get_best_main_verification iter_bmm a block_hash);
  Ok (mk_Tip block_hash bmm_verification).
Definition current_tip (nd : Node) : Res NodeError (option Tip) :=
  match tip (nd_state nd) with
  | None => Ok None
  | Some tip_hash => t ← tip_of (nd_archive nd) tip_hash; Ok (Some t)
  end.

(** [ancestors(parent).take_while(!= common_ancestor)] with their headers and
    bodies, newest first. *)
Fixpoint ancestor_blocks (fuel : nat) (a : Archive) (common_ancestor : option BlockHash)
    (st : option BlockHash) : Res ArchiveError (list (Header * Body)) :=
  match fuel with
  | O => Panic
  | S fuel =>
      next ← AncestorHeaders_next a st;
      match next with
      | None => Ok []
      | Some ((b, _), st) =>
          if bool_decide (common_ancestor = Some b) then Ok []
          else
            header ← get_header a b;
            body ← get_body a b;
            rest ← ancestor_blocks fuel a common_ancestor st;
            Ok ((header, body) :: rest)
      end
  end.
Definition blocks_to_apply (a : Archive) (new_tip : BlockHash)
    (common_ancestor : option BlockHash) : Res ArchiveError ((Header * Body) * list (Header * Body)) :=
  header ← get_header a new_tip;
  body ← get_body a new_tip;
  ancestors ← match prev_side_hash header with
    | Some parent => ancestor_blocks (ancestors_fuel a) a common_ancestor (Some parent)
    | None => Ok []
    end;
  Ok ((header, body), ancestors).

(** [disconnects] and the loop that disconnects the tip as often. *)
Definition disconnects (tip_height : Z) (common_ancestor_height : option Z) : Z :=
  match common_ancestor_height with
  | Some h => wrap32 (tip_height - h)
  | None => wrap32 (tip_height + 1)
  end.
Fixpoint disconnect_tips (n : nat) (nd : Node) : Res NodeError Node :=
  match n with O => Ok nd | S n => nd ← disconnect_tip_ nd; disconnect_tips n nd end.

(** [LinkedHashMap::replace] *)
Fixpoint replace_info (block_hash : BtcBlockHash) (block_info : BlockInfo)
    (l : list (BtcBlockHash * BlockInfo)) : list (BtcBlockHash * BlockInfo) :=
  match l with
  | [] => [(block_hash, block_info)]
  | (b, i) :: l =>
      if decide (b = block_hash) then (b, block_info) :: l
      else (b, i) :: replace_info block_hash block_info l
  end.
(** Pop block infos, oldest first, until the block that the header extends. *)
Fixpoint fill_2wpd (prev_main_hash : BtcBlockHash) (data : list (BtcBlockHash * BlockInfo))
    (batch : list (BtcBlockHash * BlockInfo)) :
    list (BtcBlockHash * BlockInfo) * list (BtcBlockHash * BlockInfo) :=
  match batch with
  | [] => (data, [])
  | (block_hash, block_info) :: batch =>
      let data := replace_info block_hash block_info data in
      if bool_decide (block_hash = prev_main_hash) then (data, batch)
      else fill_2wpd prev_main_hash data batch
  end.

(** One round of the loop that applies blocks: the node afterwards, what is
    left of the block infos, and whether to commit. *)
Definition apply_one (tip : option Tip) (nd : Node) (batch : list (BtcBlockHash * BlockInfo))
    (block : Header * Body) : Res NodeError (Node * list (BtcBlockHash * BlockInfo) * bool) :=
  let '(header, body) := block in
  let '(data, batch) := fill_2wpd (prev_main_hash header) [] batch in
  nd ← connect_tip_ nd header body (mk_TwoWayPegData data);
  new_tip_hash ← expect (State.tip (nd_state nd));
  new_tip ← tip_of (nd_archive nd) new_tip_hash;
  commit ← match tip with
    | Some tip =>
        better ← map_err NeArchive (better_tip (nd_archive nd) tip new_tip);
        Ok (bool_decide (better = Some new_tip))
    | None => Ok true
    end;
  Ok (nd, batch, commit).

(** The loop: [committed] is what has been committed so far. *)
Fixpoint apply_blocks (tip : option Tip) (committed nd : Node)
    (batch : list (BtcBlockHash * BlockInfo)) (blocks : list (Header * Body)) :
    Node * Res NodeError Node :=
  match blocks with
  | [] => (committed, Ok nd)
  | block :: blocks =>
      match apply_one tip nd batch block with
      | Ok (nd, batch, commit) =>
          apply_blocks tip (if (commit : bool) then nd else committed) nd batch blocks
      | Err e => (committed, Err e)
      | Panic => (committed, Panic)
      end
  end.

(** Everything up to the loop that applies blocks; [None]: the new tip is not
    better.  The blocks and the block infos are returned oldest first. *)
Definition prepare_reorg (nd : Node) (new_tip : Tip) :
    Res NodeError (option (option Tip * Node * list (BtcBlockHash * BlockInfo) * list (Header * Body))) :=
  let a := nd_archive nd in
  tip ← current_tip nd;
  better ← match tip with
    | Some tip =>
        better ← map_err NeArchive (better_tip a tip new_tip);
        Ok (bool_decide (better = Some new_tip))
    | None => Ok true
    end;
  if negb better then Ok None
  else
    common_ancestor ← match tip with
      | Some tip =>
          map_err NeArchive (last_common_ancestor a (tip_block_hash tip) (tip_block_hash new_tip))
      | None => Ok None
      end;
    '(head, tail) ← map_err NeArchive (blocks_to_apply a (tip_block_hash new_tip) common_ancestor);
    nd ← match State.height (nd_state nd) with
      | Some tip_height =>
          common_ancestor_height ← match common_ancestor with
            | Some c => h ← map_err NeArchive (get_height a c); Ok (Some h)
            | None => Ok None
            end;
          disconnect_tips (Z.to_nat (disconnects tip_height common_ancestor_height)) nd
      | None => Ok nd
      end;
    _ ← assert_true (bool_decide (State.tip (nd_state nd) = common_ancestor));
    stop ← match common_ancestor with
      | Some c => header ← map_err NeArchive (get_header (nd_archive nd) c); Ok (Some (prev_main_hash header))
      | None => Ok None
      end;
    batch ← main_infos_until (nd_archive nd) stop (λ _, true) (prev_main_hash head.1);
    Ok (Some (tip, nd, reverse batch, reverse (head :: tail))).

(** What is committed, and the result. *)
Definition reorg_to_tip (nd : Node) (new_tip : Tip) : Node * Res NodeError bool :=
  match prepare_reorg nd new_tip with
  | Ok None => (nd, Ok false)
  | Ok (Some (tip, work, batch, blocks)) =>
      match apply_blocks tip nd work batch blocks with
      | (committed, Ok work) =>
          if bool_decide (State.tip (nd_state work) = Some (tip_block_hash new_tip))
          then (work, Ok true) else (committed, Panic)
      | (committed, Err e) => (committed, Err e)
      | (committed, Panic) => (committed, Panic)
      end
  | Err e => (nd, Err e)
  | Panic => (nd, Panic)
  end.
End node.
