(* ===== verification/NodeFacts.v ===== *)
(** Properties of the node ([Node.v]): consistency of state, archive and
    memory pool, what a reorganization commits, and how disconnecting the tip
    reconstructs the mainchain events. *)
From S2P Require Import Prelude.
From S2P Require Import Borsh.
From S2P Require Import Externals.
From S2P Require Import Toy.
From S2P Require Import Types.
From S2P Require Import AccumulatorDiff.
From S2P Require Import WithdrawalBundle.
From S2P Require Import RollBack.
From S2P Require Import Orchard.
From S2P Require Import State.
From S2P Require Import Block.
From S2P Require Import TwoWayPeg.
From S2P Require Import TwoWayPegFacts.
From S2P Require Import Lineage.
From S2P Require Import Archive.
From S2P Require Import ArchiveFacts.
From S2P Require Import MemPool.
From S2P Require Import Node.

Section node_facts.
Context `{E : Externals}.
Context (iter_set : gset BtcBlockHash → list BtcBlockHash).
Context (iter_bmm : gmap BtcBlockHash BmmResult → list (BtcBlockHash * BmmResult)).
Context (into_values : gmap MainAddress AggregatedWithdrawal → list AggregatedWithdrawal).

Abbreviation connected := (connect_tip_ iter_set iter_bmm into_values).
Abbreviation reorg := (reorg_to_tip iter_set iter_bmm into_values).

(** ** Consistency of the databases

    The memory pool satisfies its invariant, tip and height are set together,
    and the archive holds the accumulator of the tip. *)
Record node_ok (nd : Node) : Prop := {
  no_mempool : mempool_ok (nd_mempool nd);
  no_height : is_Some (tip (nd_state nd)) ↔ is_Some (height (nd_state nd));
  no_accumulator : ∃ acc, utreexo_accumulator (nd_state nd) = Some acc
    ∧ Archive.get_accumulator (nd_archive nd) (tip (nd_state nd)) = Ok acc
}.

Lemma get_accumulator_put a b acc :
  Archive.get_accumulator (put_accumulator a b acc) (Some b) = Ok acc.
Proof.
  unfold Archive.get_accumulator, try_get_accumulator, put_accumulator. simpl.
  by rewrite lookup_insert_eq.
Qed.

Lemma apply_block_Ok s h b s' fr :
  apply_block s h b = Ok (s', fr) →
  tip s' = Some (Header_hash h) ∧ height s' = Some (next_block_height s) ∧ prev_side_hash h = tip s.
Proof.
  unfold apply_block. intros (p & Hp%map_err_Ok & Hok)%bind_Ok.
  apply prevalidate_Ok in Hp as (a0 & d0 & a1 & Hprev & _ & _ & _ & _ & _ & _ & _ & _ & _ & _ & _ & _ & _ & _ & Hh).
  unfold connect_prevalidated in Hok. apply bind_Ok in Hok as (acc & _ & Hok).
  apply bind_Ok in Hok as (f & _ & Hok). apply bind_Ok in Hok as ([[m o] f1] & _ & Hok).
  apply finish_connect_Ok in Hok as (acc' & _ & -> & _). simpl. by rewrite Hh.
Qed.

Lemma connect_tip_Ok nd h b data nd' :
  connected nd h b data = Ok nd' →
  ∃ s1 fr acc, apply_block (nd_state nd) h b = Ok (s1, fr)
    ∧ peg_connect into_values s1 data = Ok (nd_state nd', acc)
    ∧ Archive.get_accumulator (nd_archive nd') (Some (Header_hash h)) = Ok acc
    ∧ mempool_connect_block (nd_mempool nd) acc b = Ok (nd_mempool nd').
Proof.
  unfold connect_tip_. intros ([s1 fr] & Hs1%map_err_Ok & Hok)%bind_Ok.
  apply bind_Ok in Hok as ([s2 acc] & Hs2%map_err_Ok & Hok).
  apply bind_Ok in Hok as (a1 & _ & Hok). apply bind_Ok in Hok as (a2 & _ & Hok).
  apply bind_Ok in Hok as (m & Hm%map_err_Ok & Hok). injection Hok as <-.
  exists s1, fr, acc. split_and!; [done..| |done]. apply get_accumulator_put.
Qed.

Lemma connect_tip_tip nd h b data nd' :
  connected nd h b data = Ok nd' → tip (nd_state nd') = Some (Header_hash h).
Proof.
  intros (s1 & fr & acc & Hs1 & (-> & _)%peg_connect_Ok & _)%connect_tip_Ok.
  by apply apply_block_Ok in Hs1 as [-> _].
Qed.

Lemma connect_tip_ok nd h b data nd' : node_ok nd → connected nd h b data = Ok nd' → node_ok nd'.
Proof.
  intros Hok (s1 & fr & acc & Hs1 & (Ht & Hh & _ & Hacc)%peg_connect_Ok & Ha & Hm)%connect_tip_Ok.
  apply apply_block_Ok in Hs1 as (Ht1 & Hh1 & _). split.
  - eapply mempool_step_ok; [apply (no_mempool _ Hok)|]. by eapply step_connect.
  - rewrite Ht, Hh, Ht1, Hh1. split; intros _; by eexists.
  - exists acc. by rewrite Ht, Ht1.
Qed.

Lemma disconnect_tip_Ok s h b acc pf s' :
  disconnect_tip s h b acc pf = Ok s' →
  tip s = Some (Header_hash h) ∧ tip s' = prev_side_hash h ∧ utreexo_accumulator s' = Some acc
  ∧ (is_Some (tip s') ↔ is_Some (height s')).
Proof.
  unfold disconnect_tip. intros (th & Hth%ok_or_Ok & Hok)%bind_Ok.
  apply bind_Ok in Hok as ([] & Heq%guard_err_Ok%bool_decide_eq_true & Hok).
  apply bind_Ok in Hok as (root & _ & Hok). apply bind_Ok in Hok as (acc0 & _ & Hok).
  apply bind_Ok in Hok as (x & _ & Hok). apply bind_Ok in Hok as ([s1 d1] & _ & Hok).
  apply bind_Ok in Hok as (ht & _ & Hok). apply bind_Ok in Hok as (s2 & Hs2 & Hok).
  apply bind_Ok in Hok as (acc1 & _ & Hok). injection Hok as <-. split; [by subst|].
  assert (tip s2 = prev_side_hash h ∧ (is_Some (tip s2) ↔ is_Some (height s2))) as [Ht2 Hh2].
  { destruct (prev_side_hash h); case_bool_decide; try done; injection Hs2 as <-; simpl; [|done].
    split; [done|]. split; intros _; by eexists. }
  destruct pf; simpl; done.
Qed.

Lemma disconnect_tip_inv nd nd' :
  disconnect_tip_ nd = Ok nd' →
  ∃ th h b ht data s1 acc,
    tip (nd_state nd) = Some th ∧ get_header (nd_archive nd) th = Ok h
    ∧ get_body (nd_archive nd) th = Ok b ∧ height (nd_state nd) = Some ht
    ∧ disconnect_data (nd_archive nd) (nd_state nd) h ht = Ok data
    ∧ peg_disconnect (nd_state nd) data = Ok s1
    ∧ Archive.get_accumulator (nd_archive nd) (prev_side_hash h) = Ok acc
    ∧ disconnect_tip s1 h b acc (orchard_frontiers (nd_archive nd) !! prev_side_hash h)
      = Ok (nd_state nd')
    ∧ nd_archive nd' = nd_archive nd
    ∧ ∃ ats m, foldR mempool_put (nd_mempool nd) ats = Ok m
        ∧ regenerate_proofs m acc = Ok (nd_mempool nd').
Proof.
  unfold disconnect_tip_. intros (th & Hth%ok_or_Ok & Hok)%bind_Ok.
  apply bind_Ok in Hok as (h & Hh%map_err_Ok & Hok). apply bind_Ok in Hok as (b & Hb%map_err_Ok & Hok).
  apply bind_Ok in Hok as (ht & Hht%ok_or_Ok & Hok). apply bind_Ok in Hok as (data & Hd & Hok).
  apply bind_Ok in Hok as (s1 & Hs1%map_err_Ok & Hok).
  apply bind_Ok in Hok as (acc & Hacc%map_err_Ok & Hok).
  apply bind_Ok in Hok as (s2 & Hs2%map_err_Ok & Hok). apply bind_Ok in Hok as (ats & _ & Hok).
  apply bind_Ok in Hok as (m & Hm%map_err_Ok & Hok). apply bind_Ok in Hok as (m' & Hm'%map_err_Ok & Hok).
  injection Hok as <-. exists th, h, b, ht, data, s1, acc. split_and!; try done. by exists (reverse ats), m.
Qed.

Lemma mempool_puts_ok m l m' : mempool_ok m → foldR mempool_put m l = Ok m' → mempool_ok m'.
Proof.
  intros Hok Hl. refine (foldR_inv (λ m _, mempool_ok m) mempool_put m l m' _ Hok Hl).
  intros m1 t k m2 H1 H2. eapply mempool_step_ok; [exact H1|]. by eapply step_put.
Qed.

Lemma disconnect_tip_ok nd nd' : node_ok nd → disconnect_tip_ nd = Ok nd' → node_ok nd'.
Proof.
  intros Hok (th & h & b & ht & data & s1 & acc & Hth & _ & _ & _ & _ & _ & Hacc & Hdis & Ha & ats & m & Hm & Hm')
    %disconnect_tip_inv.
  apply disconnect_tip_Ok in Hdis as (_ & Ht & Hu & Hs). split.
  - eapply mempool_step_ok; [|by eapply step_regenerate].
    by eapply mempool_puts_ok; [apply (no_mempool _ Hok)|].
  - done.
  - exists acc. by rewrite Ht, Ha.
Qed.

Lemma disconnect_tips_ok n nd nd' : node_ok nd → disconnect_tips n nd = Ok nd' → node_ok nd'.
Proof.
  revert nd. induction n as [|n IH]; intros nd Hok; simpl; [by intros [= <-]|].
  intros (nd1 & H1 & H2)%bind_Ok. eapply IH; [|exact H2]. by eapply disconnect_tip_ok.
Qed.

(** ** Reorganization *)
Lemma apply_one_inv tip nd batch block nd' batch' commit :
  apply_one iter_set iter_bmm into_values tip nd batch block = Ok (nd', batch', commit) →
  ∃ data, connected nd block.1 block.2 data = Ok nd'
    ∧ (commit = true → ∃ t', State.tip (nd_state nd') = Some (tip_block_hash t')
         ∧ ∀ t, tip = Some t → better_tip (nd_archive nd') t t' = Ok (Some t')).
Proof.
  destruct block as [h b]. unfold apply_one.
  destruct (fill_2wpd _ _ _) as [data rest]. intros (nd1 & Hc & Hok)%bind_Ok.
  apply bind_Ok in Hok as (th & Hth%expect_Ok & Hok). apply bind_Ok in Hok as (t' & Ht' & Hok).
  apply bind_Ok in Hok as (c & Hb & Hok). injection Hok as <- <- <-.
  exists (mk_TwoWayPegData data). split; [done|]. intros ->. exists t'.
  unfold tip_of in Ht'. apply bind_Ok in Ht' as (bv & _ & Ht'). injection Ht' as <-.
  split; [done|]. intros t ->. apply bind_Ok in Hb as (o & Ho%map_err_Ok & Hb).
  injection Hb as Hb. rewrite Ho. apply bool_decide_eq_true in Hb. by subst.
Qed.

(** What the loop commits, and what it leaves in the open transaction. *)
Lemma apply_blocks_inv (I C : Node → Prop) tip c nd batch blocks c' r :
  apply_blocks iter_set iter_bmm into_values tip c nd batch blocks = (c', r) →
  (∀ nd h b data nd', I nd → connected nd h b data = Ok nd' → I nd') →
  (∀ nd t', I nd → State.tip (nd_state nd) = Some (tip_block_hash t') →
     (∀ t, tip = Some t → better_tip (nd_archive nd) t t' = Ok (Some t')) → C nd) →
  I nd → C c → C c' ∧ ∀ nd', r = Ok nd' → I nd'.
Proof.
  intros Hrun HI HC. revert c nd batch Hrun. induction blocks as [|block blocks IH]; intros c nd batch Hrun Hi Hc; simpl in Hrun.
  - injection Hrun as <- <-. split; [done|]. by intros nd' [= <-].
  - destruct (apply_one iter_set iter_bmm into_values tip nd batch block) as [[[nd1 b1] cm]| |] eqn:H1;
      [|injection Hrun as <- <-; by split..].
    apply apply_one_inv in H1 as (data & Hcon & Hcm). pose proof (HI _ _ _ _ _ Hi Hcon) as Hi1.
    eapply IH; [exact Hrun|done|]. destruct cm; [|done].
    destruct (Hcm eq_refl) as (t' & Ht' & Hb). by eapply HC.
Qed.

Lemma prepare_reorg_Some nd new_tip cur work batch blocks :
  prepare_reorg iter_bmm nd new_tip = Ok (Some (cur, work, batch, blocks)) →
  current_tip iter_bmm nd = Ok cur
  ∧ (∀ t, cur = Some t → better_tip (nd_archive nd) t new_tip = Ok (Some new_tip))
  ∧ ∃ n, disconnect_tips n nd = Ok work.
Proof.
  unfold prepare_reorg. intros (t & Ht & Hok)%bind_Ok. apply bind_Ok in Hok as (bt & Hbt & Hok).
  destruct bt; [|done]. cbn [negb] in Hok. apply bind_Ok in Hok as (ca & _ & Hok).
  apply bind_Ok in Hok as ([hd tl] & _ & Hok). apply bind_Ok in Hok as (w & Hw & Hok).
  apply bind_Ok in Hok as ([] & _ & Hok). apply bind_Ok in Hok as (stop & _ & Hok).
  apply bind_Ok in Hok as (bs & _ & Hok). injection Hok as <- <- <- <-. split_and!; [done| |].
  - intros t' ->. apply bind_Ok in Hbt as (o & Ho%map_err_Ok & Hbt). injection Hbt as Hbt.
    apply bool_decide_eq_true in Hbt. by subst.
  - destruct (State.height (nd_state nd)); [|injection Hw as <-; by exists 0].
    apply bind_Ok in Hw as (h & _ & Hw). by eexists.
Qed.

Lemma prepare_reorg_None nd new_tip :
  prepare_reorg iter_bmm nd new_tip = Ok None →
  ∃ t o, current_tip iter_bmm nd = Ok (Some t) ∧ better_tip (nd_archive nd) t new_tip = Ok o
    ∧ o ≠ Some new_tip.
Proof.
  unfold prepare_reorg. intros (t & Ht & Hok)%bind_Ok. apply bind_Ok in Hok as (bt & Hbt & Hok).
  destruct bt; cbn [negb] in Hok.
  - apply bind_Ok in Hok as (ca & _ & Hok).
    apply bind_Ok in Hok as ([hd tl] & _ & Hok). apply bind_Ok in Hok as (w & Hw & Hok).
    apply bind_Ok in Hok as ([] & _ & Hok). apply bind_Ok in Hok as (stop & _ & Hok).
    by apply bind_Ok in Hok as (bs & _ & Hok).
  - destruct t as [t|]; [|done]. apply bind_Ok in Hbt as (o & Ho%map_err_Ok & Hbt).
    injection Hbt as Hbt. exists t, o. split_and!; [done..|]. by apply bool_decide_eq_false in Hbt.
Qed.

(** The committed node is the old one, or its tip beats the old tip. *)
Definition commit_fine (nd : Node) (new_tip : Tip) (nd' : Node) : Prop :=
  nd' = nd ∨ ∃ t', tip (nd_state nd') = Some (tip_block_hash t')
    ∧ ∀ t, current_tip iter_bmm nd = Ok (Some t) →
        better_tip (nd_archive nd') t t' = Ok (Some t')
        ∨ t' = new_tip ∧ better_tip (nd_archive nd) t new_tip = Ok (Some new_tip).

Lemma reorg_commits nd new_tip nd' r :
  reorg nd new_tip = (nd', r) → commit_fine nd new_tip nd'.
Proof.
  unfold reorg_to_tip. destruct (prepare_reorg iter_bmm nd new_tip) as [[[[[cur work] batch] blocks]|]| |] eqn:Hp;
    [|intros [= <- _]; by left..].
  apply prepare_reorg_Some in Hp as (Hcur & Hbetter & _).
  destruct (apply_blocks _ _ _ cur nd work batch blocks) as [c res] eqn:Hrun.
  apply (apply_blocks_inv (λ _, True) (commit_fine nd new_tip)) in Hrun as [Hc _]; [|done| |done|by left].
  2: { intros x t' _ Ht' Hb. right. exists t'. split; [done|]. intros t Ht. left. apply Hb. congruence. }
  destruct res as [w| |]; [|intros [= <- _]; done..].
  case_bool_decide as Hw; [|by intros [= <- _]]. intros [= <- _]. right. exists new_tip.
  split; [done|]. intros t Ht. right. split; [done|]. apply Hbetter. congruence.
Qed.

Lemma reorg_ok nd new_tip nd' r : node_ok nd → reorg nd new_tip = (nd', r) → node_ok nd'.
Proof.
  intros Hok. unfold reorg_to_tip.
  destruct (prepare_reorg iter_bmm nd new_tip) as [[[[[cur work] batch] blocks]|]| |] eqn:Hp;
    [|by intros [= <- _]..].
  apply prepare_reorg_Some in Hp as (_ & _ & n & Hn).
  destruct (apply_blocks _ _ _ cur nd work batch blocks) as [c res] eqn:Hrun.
  apply (apply_blocks_inv node_ok node_ok) in Hrun as [Hc Hw]; [|apply connect_tip_ok|done| |done].
  - destruct res as [w| |]; [|by intros [= <- _]..].
    case_bool_decide; intros [= <- _]; [by apply Hw|done].
  - by eapply disconnect_tips_ok.
Qed.

Lemma reorg_results nd new_tip nd' r :
  reorg nd new_tip = (nd', r) →
  (r = Ok true → tip (nd_state nd') = Some (tip_block_hash new_tip))
  ∧ (r = Ok false → nd' = nd ∧ ∃ t o, current_tip iter_bmm nd = Ok (Some t)
       ∧ better_tip (nd_archive nd) t new_tip = Ok o ∧ o ≠ Some new_tip).
Proof.
  unfold reorg_to_tip.
  destruct (prepare_reorg iter_bmm nd new_tip) as [[[[[cur work] batch] blocks]|]| |] eqn:Hp.
  - destruct (apply_blocks _ _ _ cur nd work batch blocks) as [c [w| |]];
      [|by intros [= <- <-]..]. case_bool_decide; by intros [= <- <-].
  - intros [= <- <-]. split; [done|]. intros _. split; [done|]. by apply prepare_reorg_None.
  - by intros [= <- <-].
  - by intros [= <- <-].
Qed.
End node_facts.

(** ** The reconstructed mainchain data *)
Section data.
Context `{E : Externals}.

Lemma main_headers_bound a m h :
  archive_ok a → get_main_height a m = Ok h → (0 ≤ h ≤ Z.of_nat (size (main_header_infos a)))%Z.
Proof.
  intros Hok Hh. pose proof (get_main_height_known _ _ _ Hh) as Km.
  destruct (known_node (main_lineage a) (main_known a) (Laws:=ok_main a Hok) m h Km Hh) as (_ & Hr & _).
  split; [lia|]. rewrite <- (length_map_to_list (main_header_infos a)), <- (length_fmap fst).
  apply (height_le_blocks (main_lineage a) (main_known a) (Laws:=ok_main a Hok) m h); [done..|].
  intros c k Kc Hc Hk. destruct Kc as [->|Kc].
  - simpl in Hc. unfold get_main_height, try_get_main_height in Hc.
    rewrite bool_decide_true in Hc by done. injection Hc as <-. lia.
  - apply (ok_main_headers a Hok) in Kc as [hi Hhi]. apply list_elem_of_fmap.
    exists (c, hi). split; [done|]. by apply elem_of_map_to_list.
Qed.

Lemma main_parent a m h hi :
  archive_ok a → get_main_height a m = Ok h → main_header_infos a !! m = Some hi →
  (0 < h)%Z ∧ get_main_height a (hi_prev_block_hash hi) = Ok (h - 1)%Z.
Proof.
  intros Hok Hh Hhi. pose proof (get_main_height_known _ _ _ Hh) as Km.
  destruct (known_node (main_lineage a) (main_known a) (Laws:=ok_main a Hok) m h Km Hh)
    as (_ & Hr & _ & Hpar).
  assert (h ≠ 0)%Z as Hne.
  { intros ->. apply (main_height_zero a m Hok Km) in Hh as ->. by rewrite (ok_zeros a Hok) in Hhi. }
  split; [lia|]. destruct Hpar as (p & l & Hp & _ & Hph & _); [lia|]. simpl in Hp, Hph.
  unfold get_main_header_info, try_get_main_header_info in Hp. rewrite Hhi in Hp.
  by injection Hp as <-.
Qed.

(** The loop has fuel for every block the archive knows. *)
Lemma main_infos_loop_total a stop keep fuel m h :
  archive_ok a → get_main_height a m = Ok h → (h < Z.of_nat fuel)%Z →
  main_infos_loop fuel a stop keep m ≠ Panic.
Proof.
  intros Hok. revert m h. induction fuel as [|fuel IH]; intros m h Hh Hf.
  { destruct (main_headers_bound a m h Hok Hh). lia. }
  cbn [main_infos_loop]. unfold main_ancestors_next. case_bool_decide; [done|].
  unfold get_main_header_info, try_get_main_header_info.
  destruct (main_header_infos a !! m) as [hi|] eqn:Hhi; [|done]. cbn [ok_or mbind res_bind].
  case_bool_decide; [done|]. unfold get_main_block_info, try_get_main_block_info.
  destruct (main_block_infos a !! m) as [info|]; [|done]. cbn [ok_or mbind res_bind].
  destruct (main_parent a m h hi Hok Hh Hhi) as [Hpos Hp].
  specialize (IH _ _ Hp ltac:(lia)). by destruct (main_infos_loop fuel a stop keep _).
Qed.

(** The mainchain from [m] back to its first block, with the block infos. *)
Fixpoint main_chain (a : Archive) (m : BtcBlockHash) (l : list (BtcBlockHash * BlockInfo)) : Prop :=
  match l with
  | [] => m = all_zeros
  | (b, info) :: l => m = b ∧ m ≠ all_zeros ∧ ∃ hi, main_header_infos a !! b = Some hi
      ∧ main_block_infos a !! b = Some info ∧ main_chain a (hi_prev_block_hash hi) l
  end.

Lemma main_chain_height a m l :
  archive_ok a → main_chain a m l → get_main_height a m = Ok (Z.of_nat (length l)).
Proof.
  intros Hok. revert m. induction l as [|[b info] l IH]; intros m.
  - intros ->. unfold get_main_height, try_get_main_height. by rewrite bool_decide_true.
  - intros (-> & Hne & hi & Hhi & _ & Hl). apply IH in Hl.
    destruct (proj1 (ok_main_headers a Hok b)) as [h Hh]; [by eexists|].
    assert (get_main_height a b = Ok h) as Hb.
    { unfold get_main_height, try_get_main_height. rewrite bool_decide_false by done. by rewrite Hh. }
    destruct (main_parent a b h hi Hok Hb Hhi) as [_ Hp].
    rewrite Hb. rewrite Hp in Hl. injection Hl as Hl. f_equal. simpl. lia.
Qed.

(** [take_while(!= stop)] *)
Fixpoint take_before (stop : option BtcBlockHash) (l : list (BtcBlockHash * BlockInfo)) :
    list (BtcBlockHash * BlockInfo) :=
  match l with
  | [] => []
  | x :: l => if bool_decide (Some x.1 = stop) then [] else x :: take_before stop l
  end.

Lemma take_before_None l : take_before None l = l.
Proof. induction l as [|x l IH]; [done|]. simpl. by rewrite IH. Qed.

Lemma main_infos_loop_chain a stop keep fuel m l :
  main_chain a m l → length l < fuel →
  main_infos_loop fuel a stop keep m
  = Ok (filter (λ x, keep x.2 = true) (take_before stop l)).
Proof.
  revert m l. induction fuel as [|fuel IH]; intros m l Hl Hf; [lia|].
  cbn [main_infos_loop]. unfold main_ancestors_next. destruct l as [|[b info] l].
  - simpl in Hl. subst. by rewrite bool_decide_true.
  - destruct Hl as (-> & Hne & hi & Hhi & Hinfo & Hl). rewrite bool_decide_false by done.
    unfold get_main_header_info, try_get_main_header_info. rewrite Hhi. cbn [ok_or mbind res_bind].
    cbn [take_before fst]. case_bool_decide; [done|].
    unfold get_main_block_info, try_get_main_block_info. rewrite Hinfo. cbn [ok_or mbind res_bind].
    simpl in Hf. rewrite (IH _ l Hl) by lia. rewrite ok_bind. f_equal.
    destruct (keep info) eqn:Hk.
    + by rewrite filter_cons_True by done.
    + rewrite filter_cons_False; [done|]. simpl. by rewrite Hk.
Qed.

Definition event_data (l : list (BtcBlockHash * BlockInfo)) : TwoWayPegData :=
  mk_TwoWayPegData (reverse (filter (λ x, has_events x.2 = true) l)).

Lemma disconnect_data_chain a s h ht start l :
  archive_ok a → main_chain a (prev_main_hash h) l →
  start_block_hash a (last_applied ht (deposit_blocks s))
    (last_applied ht (withdrawal_bundle_event_blocks s)) = Ok start →
  disconnect_data a s h ht = Ok (event_data (take_before start l)).
Proof.
  intros Hok Hl Hs. unfold disconnect_data, main_infos_until. rewrite Hs, ok_bind.
  rewrite (main_infos_loop_chain a start has_events _ _ l Hl); [done|].
  destruct (main_headers_bound a _ _ Hok (main_chain_height a _ l Hok Hl)). lia.
Qed.

Lemma seq_rev_iter_elem m b : b ∈ seq_rev_iter m → ∃ k, m !! k = Some b.
Proof.
  unfold seq_rev_iter. intros ([k x] & -> & Hin)%list_elem_of_fmap.
  rewrite elem_of_reverse, merge_sort_Permutation, elem_of_map_to_list in Hin. by exists k.
Qed.

Lemma seq_rev_iter_head m k b : seq_last m = Some (k, b) → head (seq_rev_iter m) = Some b.
Proof.
  unfold seq_last, seq_rev_iter. destruct (merge_sort _ _) as [|x l _] using rev_ind; [done|].
  rewrite last_snoc, reverse_snoc. intros [= ->]. done.
Qed.

(** Blocks applied with the parent of the tip, or with the tip, are passed over. *)
Lemma last_applied_none ht m :
  (1 ≤ ht < 2 ^ 32)%Z → (∀ k b e, m !! k = Some (b, e) → (ht - 1 ≤ e)%Z) → last_applied ht m = None.
Proof.
  intros Hht Hm. unfold last_applied. apply fmap_None, list_find_None, Forall_forall.
  intros [b e] [k Hk]%seq_rev_iter_elem. apply Hm in Hk. unfold applied_before. simpl.
  unfold wrap32. rewrite Z.mod_small by lia. destruct (Z.ltb_spec e (ht - 1)); [lia|done].
Qed.

(** At height 0 the difference wraps around: everything counts as earlier. *)
Lemma last_applied_genesis m k b e :
  seq_last m = Some (k, (b, e)) → (e < 2 ^ 32 - 1)%Z → last_applied 0 m = Some (b, e).
Proof.
  intros Hl%seq_rev_iter_head He. unfold last_applied. destruct (seq_rev_iter m) as [|x l]; [done|].
  simpl in Hl. injection Hl as ->. cbn [list_find]. rewrite decide_True; [done|].
  unfold applied_before. simpl. apply Z.ltb_lt. exact He.
Qed.

Lemma disconnect_tip_fails nd th h ht data :
  tip (nd_state nd) = Some th → get_header (nd_archive nd) th = Ok h →
  height (nd_state nd) = Some ht →
  disconnect_data (nd_archive nd) (nd_state nd) h ht = Ok data →
  is_ok (peg_disconnect (nd_state nd) data) = false → is_ok (disconnect_tip_ nd) = false.
Proof.
  intros Hth Hh Hht Hd Hfail. destruct (disconnect_tip_ nd) as [nd'| |] eqn:Hdis; [exfalso|done|done].
  apply disconnect_tip_inv in Hdis
    as (th' & h' & b' & ht' & data' & s1 & acc & Hth' & Hh' & _ & Hht' & Hd' & Hp & _).
  assert (h' = h) as -> by congruence. assert (ht' = ht) as -> by congruence.
  assert (data' = data) as -> by congruence. by rewrite Hp in Hfail.
Qed.
End data.

(** ** Properties *)
Section properties.
Context `{E : Externals}.
Context (iter_set : gset BtcBlockHash → list BtcBlockHash).
Context (iter_bmm : gmap BtcBlockHash BmmResult → list (BtcBlockHash * BmmResult)).
Context (into_values : gmap MainAddress AggregatedWithdrawal → list AggregatedWithdrawal).

(** C5: What a reorganization commits is never worse than what it replaces,
    even when it fails half way: whatever the outcome, the committed node is
    the old node or has a tip that [better_tip] prefers to the old one (in the
    archive it was committed with; the requested tip, in the old archive).
    [Ok(true)] means that the requested tip is the tip, [Ok(false)] that
    nothing was changed because the requested tip is not better. *)
Theorem reorg_commits_only_better (nd nd' : Node) (new_tip : Tip) (r : Res NodeError bool)
    (Hrun : reorg_to_tip iter_set iter_bmm into_values nd new_tip = (nd', r)) :
  (nd' = nd ∨ ∃ t', tip (nd_state nd') = Some (tip_block_hash t')
     ∧ ∀ t, current_tip iter_bmm nd = Ok (Some t) →
         better_tip (nd_archive nd') t t' = Ok (Some t')
         ∨ t' = new_tip ∧ better_tip (nd_archive nd) t new_tip = Ok (Some new_tip))
  ∧ (r = Ok true → tip (nd_state nd') = Some (tip_block_hash new_tip))
  ∧ (r = Ok false → nd' = nd ∧ ∃ t o, current_tip iter_bmm nd = Ok (Some t)
       ∧ better_tip (nd_archive nd) t new_tip = Ok o ∧ o ≠ Some new_tip).
Proof. split; [by eapply reorg_commits|by eapply reorg_results]. Qed.

(** C6: State, archive and memory pool stay consistent across
    reorganizations, whether they succeed or not: the pool keeps its
    invariant, tip and height are set together, and the accumulator that the
    archive holds for the tip is the accumulator of the state, so that a block
    connected on top can be disconnected back to it. *)
Theorem reorg_keeps_node_consistent (nd nd' : Node) (new_tip : Tip) (r : Res NodeError bool)
    (Hok : node_ok nd)
    (Hrun : reorg_to_tip iter_set iter_bmm into_values nd new_tip = (nd', r)) : node_ok nd'.
Proof. by eapply reorg_ok. Qed.

(** A tip whose parent applied deposits cannot be disconnected if it
    applied deposits itself: the search for the mainchain events of the tip
    passes over the blocks recorded at [height - 1] as well, so the events of
    the parent are undone once more.  If every recorded event block was
    applied at [height - 1] or [height], the reconstructed data is that of the
    whole mainchain, and two blocks with deposits on it make
    [disconnect_tip_] fail. *)
Theorem parent_deposits_block_disconnect (nd : Node) (th : BlockHash) (h : Header) (ht : Z)
    (l : list (BtcBlockHash * BlockInfo)) (i : Z) (first latest : BtcBlockHash)
    (Hok : archive_ok (nd_archive nd))
    (Hth : tip (nd_state nd) = Some th) (Hh : get_header (nd_archive nd) th = Ok h)
    (Hht : height (nd_state nd) = Some ht) (Hrange : (1 ≤ ht < 2 ^ 32)%Z)
    (Hdep : ∀ k b e, deposit_blocks (nd_state nd) !! k = Some (b, e) → (ht - 1 ≤ e)%Z)
    (Hev : ∀ k b e, withdrawal_bundle_event_blocks (nd_state nd) !! k = Some (b, e) → (ht - 1 ≤ e)%Z)
    (Hchain : main_chain (nd_archive nd) (prev_main_hash h) l)
    (Hrecorded : seq_last (deposit_blocks (nd_state nd)) = Some (i, (latest, ht)))
    (Hlatest : latest_deposit_block_hash (event_data l) = Some latest)
    (Hfirst : fst <$> head (deposit_blocks_of (event_data l)) = Some first) (Hne : first ≠ latest) :
  disconnect_data (nd_archive nd) (nd_state nd) h ht = Ok (event_data l)
  ∧ is_ok (disconnect_tip_ nd) = false.
Proof.
  assert (disconnect_data (nd_archive nd) (nd_state nd) h ht = Ok (event_data l)) as Hd.
  { rewrite <- (take_before_None l). apply disconnect_data_chain; [done..|].
    by rewrite !last_applied_none. }
  split; [done|]. eapply disconnect_tip_fails; [done..|]. by eapply multi_block_stuck.
Qed.

(** Disconnecting the first block forgets to undo its mainchain events:
    at height 0 the bound [height - 1] wraps around to [u32::MAX], every
    recorded event block counts as applied earlier, and if the last recorded
    deposit block is the newest mainchain block with events, the reconstructed
    data is empty. *)
Theorem genesis_events_not_disconnected (nd : Node) (h : Header)
    (l : list (BtcBlockHash * BlockInfo)) (i : Z) (latest : BtcBlockHash)
    (Hok : archive_ok (nd_archive nd))
    (Hrecorded : seq_last (deposit_blocks (nd_state nd)) = Some (i, (latest, 0%Z)))
    (Hev : withdrawal_bundle_event_blocks (nd_state nd) = ∅)
    (Hchain : main_chain (nd_archive nd) (prev_main_hash h) l)
    (Hnewest : fst <$> head (filter (λ x, has_events x.2 = true) l) = Some latest) :
  disconnect_data (nd_archive nd) (nd_state nd) h 0 = Ok (mk_TwoWayPegData []).
Proof.
  assert (filter (λ x, has_events x.2 = true) (take_before (Some latest) l) = []) as Hempty.
  { clear -Hnewest. induction l as [|x l IH]; [done|]. cbn [take_before].
    destruct (decide (has_events x.2 = true)) as [Hx|Hx].
    - rewrite filter_cons_True in Hnewest by done. injection Hnewest as ->.
      by rewrite bool_decide_true.
    - rewrite filter_cons_False in Hnewest by done. case_bool_decide; [done|].
      rewrite filter_cons_False by done. by apply IH. }
  rewrite (disconnect_data_chain _ _ _ _ (Some latest) l Hok Hchain).
  - unfold event_data. by rewrite Hempty.
  - rewrite Hev. by rewrite (last_applied_genesis _ _ _ _ Hrecorded).
Qed.

(** A pool transaction whose inputs the previous accumulator does not
    prove, such as one that spends an output of the tip's block, makes
    disconnecting the tip fail: the proofs of the whole pool are regenerated,
    and nothing is evicted. *)
Theorem dependent_transaction_blocks_disconnect (nd : Node) (th : BlockHash) (h : Header)
    (acc : Accumulator) (t : Txid) (a : AuthorizedTransaction)
    (Hok : mempool_ok (nd_mempool nd))
    (Hth : tip (nd_state nd) = Some th) (Hh : get_header (nd_archive nd) th = Ok h)
    (Hacc : Archive.get_accumulator (nd_archive nd) (prev_side_hash h) = Ok acc)
    (Ha : mp_transactions (nd_mempool nd) !! t = Some a)
    (Hunproved : prove acc (targets_of (at_transaction a)) = None) :
  is_ok (disconnect_tip_ nd) = false.
Proof.
  destruct (disconnect_tip_ nd) as [nd'| |] eqn:Hdis; [exfalso|done|done].
  apply disconnect_tip_inv in Hdis as (th' & h' & b' & ht' & data' & s1 & acc' & Hth' & Hh' & _ & _ & _
    & _ & Hacc' & _ & _ & ats & m & Hm & Hr).
  assert (h' = h) as -> by congruence. assert (acc' = acc) as -> by congruence.
  assert (mp_transactions m !! t = Some a) as Hkept.
  { refine (proj2 (foldR_inv (λ m _, mempool_ok m ∧ mp_transactions m !! t = Some a) mempool_put
      _ ats m _ (conj Hok Ha) Hm)).
    intros m1 x k m2 [Hok1 H1] Hput. apply mempool_put_cases in Hput as [Hok2 Htx]; [|done].
    split; [done|]. rewrite Htx. destruct (mp_transactions m1 !! txid (at_transaction x)) eqn:Hx; [done|].
    apply lookup_insert_Some. right. split; [|done]. intros <-. congruence. }
  destruct (regenerate_all m _ acc Hr t a Hkept) as [a' Ha'].
  unfold regenerated in Ha'. by rewrite Hunproved in Ha'.
Qed.
End properties.

(** ** Witnesses: two blocks, each with a deposit *)
Module NodeToy.
#[local] Existing Instance Toy.externals.
Import ArchiveToy.

Definition values_of : gmap MainAddress AggregatedWithdrawal → list AggregatedWithdrawal :=
  λ m, snd <$> map_to_list m.
Definition empty_body : Body := mk_Body [] [] [].
Definition body_root : MerkleRoot := compute_merkle_root empty_body.
Definition deposit (z : Z) : DepositEvent :=
  mk_DepositEvent 0 (mk_BtcOutPoint (mh z) (u32_of_Z 0)) (mk_Output (le_vec 20 7) (Value z)).
Definition deposit_leaf (z : Z) : NodeHash := PointedOutput_node_hash (deposit_pointed (deposit z)).

(** [block 0] extends mainchain block 1 and applies its deposit; [block 1]
    extends mainchain block 2 and applies the deposit of that one. *)
Definition block0 : Header := mk_Header body_root None (mh 1) [].
Definition block1 : Header :=
  mk_Header body_root (Some (Header_hash block0)) (mh 2) [deposit_leaf 31].
Definition node_writes : list write :=
  [WOpen; WMainHeader (main_header 1); WMainHeader (main_header 2); WMainHeader (main_header 3);
   WMainInfo (mh 1) (mk_BlockInfo None [EvDeposit (deposit 31)]);
   WMainInfo (mh 2) (mk_BlockInfo (Some (Header_hash block0)) [EvDeposit (deposit 32)]);
   WMainInfo (mh 3) (mk_BlockInfo (Some (Header_hash block1)) []);
   WHeader block0; WHeader block1;
   WBody (Header_hash block0) empty_body; WBody (Header_hash block1) empty_body].
Definition node_archive : Archive := default Archive_empty_dbs (run Archive_empty_dbs node_writes).
Definition genesis : State := 
  match State_new State_empty_dbs with Ok s => s | _ => State_empty_dbs end.
Definition node0 : Node := mk_Node node_archive MemPool_empty_dbs genesis.
Definition tip0 : Tip := mk_Tip (Header_hash block0) (mh 2).
Definition tip1 : Tip := mk_Tip (Header_hash block1) (mh 3).
Definition reorg := reorg_to_tip set_order map_order values_of.

Definition res_of (r : Node * Res NodeError bool) : option bool :=
  match r.2 with Ok b => Some b | _ => None end.
Definition node_after (t : Tip) : Node := (reorg node0 t).1.
Definition result_after (t : Tip) : Res NodeError bool := (reorg node0 t).2.
Lemma reorg_pair t : reorg node0 t = (node_after t, result_after t).
Proof. unfold node_after, result_after. by destruct (reorg node0 t). Qed.
Lemma res_of_ok r b : res_of r = Some b → r.2 = Ok b.
Proof. unfold res_of. destruct r.2; congruence. Qed.

Lemma reorg1_result : result_after tip1 = Ok true.
Proof. apply res_of_ok. vm_compute. reflexivity. Qed.

Lemma reorg_commits_only_better_witness :
  tip (nd_state (node_after tip1)) = Some (Header_hash block1).
Proof.
  exact (proj1 (proj2 (reorg_commits_only_better set_order map_order values_of node0
    (node_after tip1) tip1 (result_after tip1) (reorg_pair tip1))) reorg1_result).
Defined.

(** *** The empty node is consistent *)
Definition res_default {A} (m : Res ArchiveError A) (d : A) : A := match m with Ok a => a | _ => d end.
Definition same_acc (s : State) (a : Archive) : bool :=
  match utreexo_accumulator s, Archive.get_accumulator a (tip s) with
  | Some acc, Ok acc' => bool_decide (forest acc = forest acc' :> list Hash)
  | _, _ => false
  end.
Lemma same_acc_ok s a : same_acc s a = true →
  ∃ acc, utreexo_accumulator s = Some acc ∧ Archive.get_accumulator a (tip s) = Ok acc.
Proof.
  unfold same_acc. destruct (utreexo_accumulator s) as [[f]|], (Archive.get_accumulator a (tip s)) as [[f']| |];
    try done. intros Hf%bool_decide_eq_true. simpl in Hf. exists (mk_Accumulator f).
  by rewrite Hf.
Qed.
Lemma node0_ok : node_ok node0.
Proof.
  split; [apply mempool_empty_ok| |apply same_acc_ok; vm_compute; reflexivity].
  apply (bool_decide_unpack _). vm_compute. exact I.
Qed.

Lemma reorg_keeps_node_consistent_witness : node_ok (node_after tip1).
Proof.
  exact (reorg_keeps_node_consistent set_order map_order values_of node0 (node_after tip1) tip1
    (result_after tip1) node0_ok (reorg_pair tip1)).
Defined.

(** *** Disconnecting *)
Lemma node_archive_ok : archive_ok node_archive.
Proof.
  apply (reachable_ok set_order map_order Z.add _ map_order_iterates), (run_reach _ node_writes), default_ok.
  vm_compute. reflexivity.
Qed.

Fixpoint walk (fuel : nat) (a : Archive) (m : BtcBlockHash) : option (list (BtcBlockHash * BlockInfo)) :=
  match fuel with
  | O => None
  | S fuel =>
      if bool_decide (m = all_zeros) then Some []
      else
        hi ← main_header_infos a !! m;
        info ← main_block_infos a !! m;
        l ← walk fuel a (hi_prev_block_hash hi);
        Some ((m, info) :: l)
  end.
Lemma walk_chain fuel a m l : walk fuel a m = Some l → main_chain a m l.
Proof.
  revert m l. induction fuel as [|fuel IH]; intros m l; [done|]. cbn [walk].
  case_bool_decide as Hz; [by intros [= <-]|].
  intros (hi & Hhi & (info & Hinfo & (l' & Hl & [= <-])%bind_Some)%bind_Some)%bind_Some.
  split_and!; [done..|]. exists hi. split_and!; [done..|]. by apply IH.
Qed.
Definition main_list (m : BtcBlockHash) : list (BtcBlockHash * BlockInfo) :=
  default [] (walk 5 node_archive m).
Lemma main_list_chain m : is_none (walk 5 node_archive m) = false → main_chain node_archive m (main_list m).
Proof. intros Hw%(default_ok _ []). by eapply walk_chain. Qed.

Definition header_at (b : BlockHash) : Header := default block0 (try_get_header node_archive b).
Lemma header_at_ok b : is_none (try_get_header node_archive b) = false →
  get_header node_archive b = Ok (header_at b).
Proof. unfold get_header, header_at. by destruct (try_get_header node_archive b). Qed.

Definition recorded_from (ht : Z) (m : gmap Z (BtcBlockHash * Z)) : bool :=
  forallb (λ x, (ht <=? x.2.2)%Z) (map_to_list m).
Lemma recorded_from_ok ht m : recorded_from ht m = true →
  ∀ k b e, m !! k = Some (b, e) → (ht <= e)%Z.
Proof.
  unfold recorded_from. rewrite forallb_forall. intros Hall k b e Hk%elem_of_map_to_list%list_elem_of_In.
  specialize (Hall _ Hk). simpl in Hall. lia.
Qed.

Definition state_after (t : Tip) : State := nd_state (node_after t).
Definition node_at (t : Tip) : Node := mk_Node node_archive MemPool_empty_dbs (state_after t).

#[local] Opaque node_archive state_after.

Lemma parent_deposits_block_disconnect_witness : is_ok (disconnect_tip_ (node_at tip1)) = false.
Proof.
  refine (proj2 (parent_deposits_block_disconnect (node_at tip1) (Header_hash block1)
    (header_at (Header_hash block1)) 1 (main_list (mh 2)) 1 (mh 1) (mh 2) node_archive_ok
    _ _ _ _ _ _ _ _ _ _ _)).
  - apply (bool_decide_unpack _). vm_compute. exact I.
  - apply header_at_ok. vm_compute. reflexivity.
  - apply (bool_decide_unpack _). vm_compute. exact I.
  - lia.
  - apply recorded_from_ok. vm_compute. reflexivity.
  - apply recorded_from_ok. vm_compute. reflexivity.
  - assert (prev_main_hash (header_at (Header_hash block1)) = mh 2) as ->
      by (apply (bool_decide_unpack _); vm_compute; exact I).
    apply main_list_chain. vm_compute. reflexivity.
  - apply (bool_decide_unpack _). vm_compute. exact I.
  - apply (bool_decide_unpack _). vm_compute. exact I.
  - apply (bool_decide_unpack _). vm_compute. exact I.
  - apply (bool_decide_unpack _). vm_compute. exact I.
Defined.

Lemma genesis_events_not_disconnected_witness :
  disconnect_data node_archive (state_after tip0) (header_at (Header_hash block0)) 0
  = Ok (mk_TwoWayPegData []).
Proof.
  refine (genesis_events_not_disconnected (node_at tip0) (header_at (Header_hash block0))
    (main_list (mh 1)) 0 (mh 1) node_archive_ok _ _ _ _).
  - apply (bool_decide_unpack _). vm_compute. exact I.
  - apply (bool_decide_unpack _). vm_compute. exact I.
  - assert (prev_main_hash (header_at (Header_hash block0)) = mh 1) as ->
      by (apply (bool_decide_unpack _); vm_compute; exact I).
    apply main_list_chain. vm_compute. reflexivity.
  - apply (bool_decide_unpack _). vm_compute. exact I.
Defined.

(** Disconnecting the first block leaves its deposit among the utxos. *)
Example genesis_deposit_remains :
  match disconnect_tip_ (node_after tip0) with
  | Ok nd => bool_decide (tip (nd_state nd) = None) && bool_decide (size (utxos (nd_state nd)) = 1)
  | _ => false
  end = true.
Proof. vm_compute. reflexivity. Qed.

(** A pool whose only transactions spend an output the genesis accumulator
    does not hold. *)
Definition node_with_pool : Node := mk_Node node_archive MemPoolToy.pool (state_after tip0).
Definition no_leaves : Accumulator := mk_Accumulator ([] : list Hash).
Definition root_accumulator (a : Archive) : bool :=
  match Archive.get_accumulator a None with
  | Ok acc => bool_decide (forest acc = ([] : list Hash))
  | _ => false
  end.
Lemma root_accumulator_ok a : root_accumulator a = true → Archive.get_accumulator a None = Ok no_leaves.
Proof.
  unfold root_accumulator. destruct (Archive.get_accumulator a None) as [[f]| |]; [|done..].
  intros Hf%bool_decide_eq_true. simpl in Hf. by subst.
Qed.

Lemma dependent_transaction_blocks_disconnect_witness : is_ok (disconnect_tip_ node_with_pool) = false.
Proof.
  destruct (MemPoolToy.unprovable_at_ok no_leaves MemPoolToy.pool MemPoolToy.parent_id)
    as (a & Ha & Hp); [vm_compute; reflexivity|].
  refine (dependent_transaction_blocks_disconnect node_with_pool (Header_hash block0)
    (header_at (Header_hash block0)) no_leaves MemPoolToy.parent_id a MemPoolToy.pool_ok _ _ _ _ _).
  - apply (bool_decide_unpack _). vm_compute. exact I.
  - apply header_at_ok. vm_compute. reflexivity.
  - assert (prev_side_hash (header_at (Header_hash block0)) = None) as ->
      by (apply (bool_decide_unpack _); vm_compute; exact I).
    apply root_accumulator_ok. vm_compute. reflexivity.
  - exact Ha.
  - exact Hp.
Defined.
End NodeToy.
