(* ===== verification/RoundTrip.v ===== *)
(** Disconnecting the tip undoes connecting it, for the mainchain events and
    for the whole node, where the code's bookkeeping allows it: the events of
    the block come from one mainchain block, no bundle is collected, and the
    event tables have not run out of ordered keys. *)
From S2P Require Import Prelude.
From S2P Require Import Borsh.
From S2P Require Import Externals.
From S2P Require Import Toy.
From S2P Require Import Types.
From S2P Require Import AccumulatorDiff.
From S2P Require Import WithdrawalBundle.
From S2P Require Import RollBack.
From S2P Require Import Authorization.
From S2P Require Import Orchard.
From S2P Require Import State.
From S2P Require Import Block.
From S2P Require Import TwoWayPeg.
From S2P Require Import TwoWayPegFacts.
From S2P Require Import Lineage.
From S2P Require Import Archive.
From S2P Require Import ArchiveFacts.
From S2P Require Import MemPool.
From S2P Require Import Node.
From S2P Require Import NodeFacts.

(** ** Sequential tables with fewer than 256 entries *)
Section tables.
Context `{E : Externals}.
Context (Hle : bincode_little_endian).
Implicit Types (m : gmap Z (BtcBlockHash * Z)).

Definition dense m (n : Z) : Prop := ∀ k, is_Some (m !! k) ↔ (0 ≤ k < n)%Z.

Lemma le_vec_small k : (0 ≤ k < 256)%Z → vec_to_list (le_vec 4 k) = [byte_of_Z k; x00; x00; x00].
Proof.
  intros Hk. unfold le_vec. simpl. rewrite (Z.div_small k 256) by lia. done.
Qed.

Lemma bytes_cmp_small j k :
  (0 ≤ j < 256)%Z → (0 ≤ k < 256)%Z →
  bytes_cmp (bincode_u32 j) (bincode_u32 k) = (j ?= k)%Z.
Proof.
  intros Hj Hk. rewrite !Hle, !le_vec_small by done. simpl.
  rewrite !Z_of_byte_of_Z, !Z.mod_small by lia. by destruct (j ?= k)%Z.
Qed.

Lemma seq_last_dense m n v :
  dense m n → (n ≤ 256)%Z → m !! (n - 1)%Z = Some v → seq_last m = Some ((n - 1)%Z, v).
Proof.
  intros Hd Hn Hv. apply seq_last_greatest; [done|]. intros k Hk Hne.
  assert (0 ≤ n - 1 < n)%Z by (apply Hd; by eexists). apply Hd in Hk.
  rewrite bytes_cmp_small by lia. apply Z.compare_lt_iff. lia.
Qed.

Lemma seq_push_dense m n v :
  dense m n → (0 ≤ n ≤ 255)%Z → seq_push m v = <[n := v]> m ∧ dense (<[n := v]> m) (n + 1).
Proof.
  intros Hd Hn. split.
  - unfold seq_push. destruct (decide (n = 0)%Z) as [->|Hpos].
    + assert (m = ∅) as ->.
      { apply map_empty. intros k. apply eq_None_not_Some. rewrite (Hd k). lia. }
      done.
    + destruct (proj2 (Hd (n - 1)%Z)) as [w Hw]; [lia|].
      rewrite (seq_last_dense m n w) by (done || lia). f_equal.
      unfold wrap32. rewrite Z.mod_small; lia.
  - intros k. rewrite lookup_insert_is_Some'. rewrite (Hd k). lia.
Qed.

(** The entry that was pushed last is the one that is removed. *)
Lemma seq_remove_push m n b ht e :
  dense m n → (0 ≤ n ≤ 255)%Z → seq_remove_last (seq_push m (b, ht)) b ht e = Ok m.
Proof.
  intros Hd Hn. destruct (seq_push_dense m n (b, ht) Hd Hn) as [-> Hd'].
  unfold seq_remove_last. rewrite (seq_last_dense _ (n + 1) (b, ht)); [|done|lia|].
  - cbn [ok_or mbind res_bind]. rewrite (bool_decide_true (b = b)), (bool_decide_true (ht = ht)) by done.
    cbn [assert_true mbind res_bind].
    replace (n + 1 - 1)%Z with n by lia. rewrite bool_decide_true by (by rewrite lookup_insert_eq).
    cbn [guard_err mbind res_bind]. f_equal. rewrite delete_insert_eq. apply delete_id.
    apply eq_None_not_Some. rewrite (Hd n). lia.
  - replace (n + 1 - 1)%Z with n by lia. apply lookup_insert_eq.
Qed.
End tables.

(** ** The mainchain events of one block *)
Section peg.
Context `{E : Externals}.
Context (iv : gmap MainAddress AggregatedWithdrawal → list AggregatedWithdrawal).

Definition no_block (a : EventAcc) : Prop := ea_deposit_block a = None ∧ ea_bundle_block a = None.
Definition events_from (s : State) : EventAcc := mk_EventAcc s AccumulatorDiff_default None None.

Lemma no_block_from s : no_block (events_from s).
Proof. done. Qed.

(** All deposits, and all bundle events, are in one mainchain block. *)
Definition one_event_block (data : TwoWayPegData) : Prop :=
  fst <$> head (deposit_blocks_of data) = latest_deposit_block_hash data
  ∧ fst <$> head (all_withdrawal_bundle_events data) = latest_withdrawal_bundle_event_block_hash data.

Lemma connect_blocks_hashes h acc bs acc' :
  no_block acc → foldR (connect_block_events h) acc bs = Ok acc' →
  ea_deposit_block acc' = latest_deposit_block_hash (mk_TwoWayPegData bs)
  ∧ ea_bundle_block acc' = latest_withdrawal_bundle_event_block_hash (mk_TwoWayPegData bs).
Proof.
  intros [Hd Hb]. rewrite connect_blocks_flat. intros [-> ->]%hashes_loop; [|apply connect_event_hashes].
  rewrite Hd, Hb, (proj1 (deposit_blocks_hashes bs)), bundle_hashes_flat.
  unfold latest_withdrawal_bundle_event_block_hash, latest_deposit_block_hash.
  rewrite fmap_last. split; by destruct (_ <$> _).
Qed.

Lemma disconnect_blocks_hashes h acc bs acc' :
  no_block acc → foldR (disconnect_block_events h) acc (reverse bs) = Ok acc' →
  ea_deposit_block acc' = fst <$> head (deposit_blocks_of (mk_TwoWayPegData bs))
  ∧ ea_bundle_block acc' = fst <$> head (all_withdrawal_bundle_events (mk_TwoWayPegData bs)).
Proof.
  intros [Hd Hb]. rewrite disconnect_blocks_flat.
  intros [-> ->]%hashes_loop; [|apply disconnect_event_hashes].
  rewrite Hd, Hb, !omap_reverse, !last_reverse', (proj2 (deposit_blocks_hashes bs)), bundle_hashes_flat.
  split; [by destruct (_ <$> _)|]. by destruct (all_withdrawal_bundle_events _).
Qed.

(** The state before the block: its tables are short, the last failure can
    be read, and a pending bundle was stored earlier. *)
Record peg_ready (s : State) (ht : Z) : Prop := {
  pr_height : height s = Some ht;
  pr_deposits : ∃ n, dense (deposit_blocks s) n ∧ (0 ≤ n ≤ 255)%Z;
  pr_bundles : ∃ n, dense (withdrawal_bundle_event_blocks s) n ∧ (0 ≤ n ≤ 255)%Z;
  pr_failure : ∃ lf, last_failure_height s = Ok lf;
  pr_pending m : pending_withdrawal_bundle s = Some m →
    ∃ b st, withdrawal_bundles s !! m = Some (b, st) ∧ stamp_height (latest st) ≠ ht
}.

(** The events connected, and no bundle was collected. *)
Record peg_connected (s : State) (data : TwoWayPegData) (ht : Z) (s' : State) : Prop := {
  pc_effective : effective_run ht (events_from s) (flat_events (block_info data));
  pc_one_block : one_event_block data;
  pc_quiet acc : foldR (connect_block_events ht) (events_from s) (block_info data) = Ok acc →
    pending_withdrawal_bundle s' = pending_withdrawal_bundle (ea_state acc)
}.

Definition push_if (m : gmap Z (BtcBlockHash * Z)) (o : option BtcBlockHash) (ht : Z) :
    gmap Z (BtcBlockHash * Z) :=
  match o with Some h => seq_push m (h, ht) | None => m end.

(** What [peg_connect] leaves behind when it collects no bundle. *)
Lemma peg_connect_state s data s' acc' ht :
  peg_connect iv s data = Ok (s', acc') → height s = Some ht →
  (∀ ea, foldR (connect_block_events ht) (events_from s) (block_info data) = Ok ea →
     pending_withdrawal_bundle s' = pending_withdrawal_bundle (ea_state ea)) →
  ∃ ea, foldR (connect_block_events ht) (events_from s) (block_info data) = Ok ea
    ∧ s' = with_accumulator (with_event_blocks (ea_state ea)
             (push_if (deposit_blocks s) (ea_deposit_block ea) ht)
             (push_if (withdrawal_bundle_event_blocks s) (ea_bundle_block ea) ht)) acc'.
Proof.
  unfold peg_connect. intros (h & Hh%ok_or_Ok & Hok)%bind_Ok Hht Hq.
  assert (h = ht) as -> by congruence. apply bind_Ok in Hok as (acc0 & _ & Hok).
  apply bind_Ok in Hok as (ea & Hloop & Hok). change (mk_EventAcc s _ _ _) with (events_from s) in Hloop.
  exists ea. split; [done|]. specialize (Hq ea Hloop).
  apply bind_Ok in Hok as (lf & _ & Hok). apply bind_Ok in Hok as (s1 & Hs1 & Hok).
  apply bind_Ok in Hok as (acc1 & _ & Hok). injection Hok as <- <-.
  rewrite connect_blocks_flat in Hloop.
  apply events_frame, peg_frame_fields in Hloop as (_ & _ & _ & _ & Hd & Hw); [|apply connect_event_frame].
  match type of Hs1 with (if _ then bundle ← collect_withdrawal_bundle _ ?x _; _ else _) = _ => set (s0 := x) in * end.
  assert (s0 = with_event_blocks (ea_state ea)
             (push_if (deposit_blocks s) (ea_deposit_block ea) ht)
             (push_if (withdrawal_bundle_event_blocks s) (ea_bundle_block ea) ht)) as <-.
  { unfold s0. cbn [events_from ea_state] in Hd, Hw. rewrite <- Hd, <- Hw.
    destruct (ea_bundle_block ea), (ea_deposit_block ea); simpl; try done. by destruct (ea_state ea). }
  f_equal. assert (pending_withdrawal_bundle s0 = pending_withdrawal_bundle (ea_state ea)) as Hp0.
  { unfold s0. by destruct (ea_bundle_block ea), (ea_deposit_block ea). }
  destruct (_ && _) eqn:Hc; [|by injection Hs1]. apply andb_true_iff in Hc as [_ Hnone%bool_decide_eq_true].
  apply bind_Ok in Hs1 as ([b|] & _ & Hs1); [exfalso|by injection Hs1].
  unfold store_pending_bundle in Hs1. apply bind_Ok in Hs1 as (st & _ & Hs1). injection Hs1 as <-.
  simpl in Hq. congruence.
Qed.

(** Undoing the events restores everything but the accumulator, which the
    caller sets. *)
Lemma peg_round_trip (Hle : bincode_little_endian) s data s' acc' ht :
  peg_connect iv s data = Ok (s', acc') → peg_ready s ht → peg_connected s data ht s' →
  (∃ acc, peg_disconnect s' data = Ok (with_accumulator s acc)) ∨ peg_disconnect s' data = Err Utreexo.
Proof.
  intros Hcon [Hht (n & Hn & Hnr) (w & Hw & Hwr) (lf & Hlf) Hpend] [Heff [Hone1 Hone2] Hq].
  destruct (peg_connect_state _ _ _ _ _ Hcon Hht Hq) as (ea & Hloop & ->). clear Hq Hcon.
  set (s' := with_accumulator _ acc').
  destruct (connect_blocks_hashes _ _ _ _ (no_block_from _) Hloop) as [Hd Hb].
  pose proof Hloop as Hframe. rewrite connect_blocks_flat in Hframe.
  apply events_frame, peg_frame_fields in Hframe as (Ht & Hh & Ho & _ & _ & _); [|apply connect_event_frame].
  cbn [events_from ea_state] in Ht, Hh, Ho.
  destruct (events_undo ht (events_from s) (block_info data) ea s' (events_from s') Hloop Heff eq_refl)
    as (t & Ht' & Hts). cbn [events_from ea_state] in Hts.
  destruct (disconnect_blocks_hashes _ _ _ _ (no_block_from _) Ht') as [Hd' Hb'].
  assert (mk_TwoWayPegData (block_info data) = data) as Hdata by (by destruct data).
  rewrite Hdata in Hd, Hb, Hd', Hb'. rewrite Hone1, <- Hd in Hd'. rewrite Hone2, <- Hb in Hb'.
  unfold peg_disconnect. change (height s') with (height (ea_state ea)). rewrite Hh, Hht.
  rewrite expect_bind. change (utreexo_accumulator s') with (Some acc'). cbn [ok_or].
  rewrite ok_bind. change (mk_EventAcc s' _ _ _) with (events_from s'). rewrite Ht', ok_bind.
  rewrite Hd', Hb', Hts. clear Ht' Hts Hd' Hb'.
  assert (∀ x, last_failure_height (with_event_blocks (peg_graft s' s) (deposit_blocks s') x)
    = Ok lf) as Hlf'.
  { intros x. exact Hlf. }
  assert ((match ea_bundle_block ea with
      | Some h => w0 ← seq_remove_last (withdrawal_bundle_event_blocks (peg_graft s' s)) h ht
                         NoWithdrawalBundleEventBlock;
                  Ok (with_event_blocks (peg_graft s' s) (deposit_blocks (peg_graft s' s)) w0)
      | None => Ok (peg_graft s' s) end)
    = Ok (with_event_blocks (peg_graft s' s) (deposit_blocks s') (withdrawal_bundle_event_blocks s)) :> Res Error State) as ->.
  { cbn [peg_graft withdrawal_bundle_event_blocks deposit_blocks].
    change (withdrawal_bundle_event_blocks s')
      with (push_if (withdrawal_bundle_event_blocks s) (ea_bundle_block ea) ht).
    destruct (ea_bundle_block ea) as [hb|] eqn:Hbb; simpl push_if.
    - by rewrite (seq_remove_push Hle _ w).
    - unfold peg_graft, with_event_blocks, s'. simpl. by rewrite ?Hbb. }
  rewrite ok_bind, Hlf', ok_bind.
  set (s2 := with_event_blocks (peg_graft s' s) _ _).
  assert ((if failure_gap_passed ht lf then drop_pending_bundle s2 ht else Ok s2) = Ok s2) as ->.
  { destruct (failure_gap_passed ht lf); [|done]. unfold drop_pending_bundle.
    change (pending_withdrawal_bundle s2) with (pending_withdrawal_bundle s).
    change (withdrawal_bundles s2) with (withdrawal_bundles s).
    destruct (pending_withdrawal_bundle s) as [m|]; [|done].
    destruct (Hpend m eq_refl) as (b & st & -> & Hst). cbn [ok_or]. rewrite ok_bind.
    by rewrite bool_decide_false. }
  rewrite ok_bind.
  assert ((match ea_deposit_block ea with
      | Some h => d ← seq_remove_last (deposit_blocks s2) h ht NoDepositBlock;
                  Ok (with_event_blocks s2 d (withdrawal_bundle_event_blocks s2))
      | None => Ok s2 end)
    = Ok (with_accumulator s acc') :> Res Error State) as ->.
  { change (deposit_blocks s2) with (push_if (deposit_blocks s) (ea_deposit_block ea) ht).
    assert (∀ d, d = deposit_blocks s →
      with_event_blocks s2 d (withdrawal_bundle_event_blocks s2) = with_accumulator s acc') as Hfin.
    { intros d ->. unfold s2, with_event_blocks, peg_graft, with_accumulator. simpl.
      rewrite Ht, Hh, Ho. done. }
    destruct (ea_deposit_block ea) as [hd|] eqn:Hdb; simpl push_if.
    - rewrite (seq_remove_push Hle _ n) by done. rewrite ok_bind. by rewrite Hfin.
    - f_equal. rewrite <- (Hfin _ eq_refl). unfold s2, with_event_blocks, peg_graft, s'. simpl.
      by rewrite ?Hdb. }
  rewrite ok_bind. destruct (apply_diff acc' (ea_diff t)) as [acc2|]; [left|by right].
  by exists acc2.
Qed.
End peg.

(** ** The whole node *)
Section node.
Context `{E : Externals}.
Context (iter_set : gset BtcBlockHash → list BtcBlockHash).
Context (iter_bmm : gmap BtcBlockHash BmmResult → list (BtcBlockHash * BmmResult)).
Context (into_values : gmap MainAddress AggregatedWithdrawal → list AggregatedWithdrawal).

Abbreviation connected := (connect_tip_ iter_set iter_bmm into_values).

(** What connecting stores in the archive. *)
Lemma connect_tip_archive nd h b data nd' :
  connected nd h b data = Ok nd' →
  ∃ s1 fr acc, apply_block (nd_state nd) h b = Ok (s1, fr)
    ∧ peg_connect into_values s1 data = Ok (nd_state nd', acc)
    ∧ headers (nd_archive nd') !! Header_hash h = Some h
    ∧ bodies (nd_archive nd') !! Header_hash h = Some b
    ∧ accumulators (nd_archive nd') = <[Some (Header_hash h) := acc]> (accumulators (nd_archive nd))
    ∧ orchard_frontiers (nd_archive nd') =
        match fr with
        | Some f => <[Some (Header_hash h) := f]> (orchard_frontiers (nd_archive nd))
        | None => orchard_frontiers (nd_archive nd)
        end
    ∧ mempool_connect_block (nd_mempool nd) acc b = Ok (nd_mempool nd').
Proof.
  unfold connect_tip_. intros ([s1 fr] & Hs1%map_err_Ok & Hok)%bind_Ok.
  apply bind_Ok in Hok as ([s2 acc] & Hs2%map_err_Ok & Hok).
  apply bind_Ok in Hok as (a1 & Ha1%map_err_Ok & Hok). apply bind_Ok in Hok as (a2 & Ha2%map_err_Ok & Hok).
  apply bind_Ok in Hok as (m & Hm%map_err_Ok & Hok). injection Hok as <-.
  exists s1, fr, acc. apply put_header_Ok in Ha1 as (ht & succ & ex & results & mb & _ & _ & _ & _ & ->).
  unfold put_body in Ha2. apply bind_Ok in Ha2 as (h' & _ & Ha2). injection Ha2 as <-.
  match goal with |- context [foldl (put_inclusion ?b) ?a ?l] =>
    destruct (put_inclusions_tables b a l) as (i & Hi) end.
  simpl in Hi |- *. rewrite Hi. split_and!; try done; simpl.
  - apply lookup_insert_eq.
  - apply lookup_insert_eq.
  - by destruct fr.
  - by destruct fr.
Qed.

(** Only the events of the data matter. *)
Lemma disconnect_events_only ht acc l :
  foldR (disconnect_block_events ht) acc (reverse (block_info (event_data l)))
  = foldR (disconnect_block_events ht) acc l.
Proof.
  unfold event_data. cbn [block_info]. rewrite reverse_involutive. revert acc.
  induction l as [|[b info] l IH]; intros acc; [done|].
  destruct (has_events info) eqn:Hev.
  - rewrite filter_cons_True by done. cbn [foldR].
    destruct (disconnect_block_events ht acc (b, info)); [apply IH|done..].
  - rewrite filter_cons_False by (simpl; by rewrite Hev). rewrite IH. cbn [foldR].
    assert (disconnect_block_events ht acc (b, info) = Ok acc) as ->; [|done].
    unfold disconnect_block_events. cbn [fst snd]. unfold has_events in Hev.
    by destruct (events info).
Qed.

Lemma peg_disconnect_events_only s data :
  peg_disconnect s (event_data (reverse (block_info data))) = peg_disconnect s data.
Proof.
  unfold peg_disconnect. destruct (height s); [|done]. rewrite !expect_bind.
  destruct (utreexo_accumulator s); [|done]. cbn [ok_or]. rewrite !ok_bind.
  by rewrite disconnect_events_only.
Qed.


(** *** No panic on the way back *)
Lemma mempool_put_no_panic m t : no_panic (mempool_put m t).
Proof.
  unfold mempool_put. destruct (mp_transactions m !! _); [done|].
  apply no_panic_bind; [apply (no_panic_foldR (λ _, True)); [|done]|intros m1 _].
  - intros m1 o _. split; [|done]. unfold put_spent. by destruct (mp_spent_utxos m1 !! o).
  - apply no_panic_bind; [apply (no_panic_foldR (λ _, True)); [|done]|done].
    intros m2 o _. split; [|done]. unfold put_used. by destruct (mp_used_nullifiers m2 !! o).
Qed.

Lemma regenerate_no_panic m acc : no_panic (regenerate_proofs m acc).
Proof.
  unfold regenerate_proofs.
  assert (∀ t, t ∈ (mempool_iter m).*1 → is_Some (mp_transactions m !! t)) as Hks
    by (intros t; apply mempool_keys).
  revert Hks. generalize (mempool_iter m).*1 as ks. intros ks. revert m.
  induction ks as [|k ks IH]; intros m Hks; cbn [foldR]; [done|].
  apply no_panic_bind.
  - unfold regenerate_one. destruct (Hks k) as [a ->]; [by left|]. rewrite expect_bind.
    by destruct (prove _ _).
  - intros m1 H1. apply IH. intros t Ht. destruct (Hks t) as [a Ha]; [by right|].
    unfold regenerate_one in H1. apply bind_Ok in H1 as (b & _ & H1).
    apply bind_Ok in H1 as (p & _ & H1). injection H1 as <-. simpl.
    rewrite lookup_insert_is_Some'. right. by eexists.
Qed.

Lemma verify_authorizations_count b :
  verify_authorizations b = Ok tt →
  length (body_authorizations b) = sum_list ((λ tx, length (inputs tx)) <$> transactions b).
Proof.
  unfold verify_authorizations. intros ([] & _ & Hok)%bind_Ok.
  by apply bind_Ok in Hok as ([] & Hc%check_count_Ok & _).
Qed.

Lemma applied_body_splits s h b r :
  apply_block s h b = Ok r → ∃ ats, authorized_transactions b = Ok ats.
Proof.
  unfold apply_block. intros (p & Hp%map_err_Ok & _)%bind_Ok.
  apply prevalidate_Ok in Hp as (a0 & d0 & a1 & _ & _ & _ & _ & _ & _ & _ & _ & _ & _ & _ & Hauth & _).
  destruct (authorized_transactions_split (transactions b) (body_authorizations b))
    as (ats & Hats & _); [by apply verify_authorizations_count|]. by exists ats.
Qed.

Lemma apply_block_undo s h b s1 fr acc pf accx :
  apply_block s h b = Ok (s1, fr) →
  txos_disjoint s → fresh_block s b → tip_height_ok s →
  block_hash_to_root (orchard s) !! Some (Header_hash h) = None →
  utreexo_accumulator s = Some acc → prev_frontier_ok s s1 pf →
  disconnect_tip (with_accumulator s1 accx) h b acc pf = Ok s
  ∨ disconnect_tip (with_accumulator s1 accx) h b acc pf = Err Utreexo.
Proof.
  unfold apply_block. intros (p & Hp%map_err_Ok & Hc)%bind_Ok Hd Hf Hth Hbh Hacc Hpf.
  rewrite (prevalidate_connect_agree _ _ _ _ Hp) in Hc;
    [|apply Hf|intros k Hk; by apply Hf].
  by eapply disconnect_connect.
Qed.

(** Everything before the block is consistent, the block is new, its events
    can be undone, and the code finds them again. *)
Record undoable (nd : Node) (h : Header) (b : Body) (data : TwoWayPegData) (nd' : Node) : Prop := {
  ud_ok : node_ok nd;
  ud_disjoint : txos_disjoint (nd_state nd);
  ud_fresh : fresh_block (nd_state nd) b;
  ud_height : tip_height_ok (nd_state nd);
  ud_root : block_hash_to_root (orchard (nd_state nd)) !! Some (Header_hash h) = None;
  ud_new : tip (nd_state nd) ≠ Some (Header_hash h);
  ud_frontier s1 fr : apply_block (nd_state nd) h b = Ok (s1, fr) →
    prev_frontier_ok (nd_state nd) s1 (orchard_frontiers (nd_archive nd) !! tip (nd_state nd));
  ud_peg s1 fr : apply_block (nd_state nd) h b = Ok (s1, fr) →
    peg_ready s1 (next_block_height (nd_state nd))
    ∧ peg_connected s1 data (next_block_height (nd_state nd)) (nd_state nd');
  ud_data : disconnect_data (nd_archive nd') (nd_state nd') h (next_block_height (nd_state nd))
    = Ok (event_data (reverse (block_info data)))
}.

(** Disconnecting restores the state; what is left to do concerns the pool. *)
Lemma node_undo (Hle : bincode_little_endian) nd h b data nd' :
  connected nd h b data = Ok nd' → undoable nd h b data nd' →
  disconnect_tip_ nd' = Err (NeState Utreexo)
  ∨ ∃ ats acc, disconnect_tip_ nd' =
      (m ← map_err NeMemPool (foldR mempool_put (nd_mempool nd') ats);
       m ← map_err NeMemPool (regenerate_proofs m acc);
       Ok (mk_Node (nd_archive nd') m (nd_state nd))).
Proof.
  intros Hcon [Hok Hdisj Hfresh Hth Hbh Hnew Hfr Hpeg Hdata].
  destruct (connect_tip_archive _ _ _ _ _ Hcon)
    as (s1 & fr & acc & Hs1 & Hp & Hhd & Hbd & Haccs & Hfrs & _).
  destruct (Hpeg s1 fr Hs1) as [Hready Hconn].
  destruct (peg_connect_Ok _ _ _ _ _ Hp) as (Htp & Hht & _).
  destruct (apply_block_Ok _ _ _ _ _ Hs1) as (Ht1 & Hh1 & Hprev).
  destruct (applied_body_splits _ _ _ _ Hs1) as (ats & Hats).
  destruct (no_accumulator _ Hok) as (acc0 & Hacc0 & Hget0).
  assert (Archive.get_accumulator (nd_archive nd') (prev_side_hash h) = Ok acc0) as Hget.
  { rewrite Hprev, <- Hget0. unfold Archive.get_accumulator, try_get_accumulator.
    by rewrite Haccs, lookup_insert_ne by congruence. }
  assert (orchard_frontiers (nd_archive nd') !! prev_side_hash h
    = orchard_frontiers (nd_archive nd) !! tip (nd_state nd)) as Hpf.
  { rewrite Hprev, Hfrs. destruct fr; [|done]. by rewrite lookup_insert_ne by congruence. }
  unfold disconnect_tip_. rewrite Htp, Ht1. cbn [ok_or]. rewrite ok_bind.
  unfold get_header, try_get_header. rewrite Hhd. cbn [ok_or map_err]. rewrite ok_bind.
  unfold get_body, try_get_body. rewrite Hbd. cbn [ok_or map_err]. rewrite ok_bind, Hht, Hh1. cbn [ok_or].
  rewrite ok_bind, Hdata, ok_bind, peg_disconnect_events_only.
  destruct (peg_round_trip into_values Hle _ _ _ _ _ Hp Hready Hconn) as [(ax & ->)| ->]; [|by left].
  cbn [map_err]. rewrite ok_bind, Hget. cbn [map_err]. rewrite ok_bind, Hpf.
  destruct (apply_block_undo _ _ _ _ _ acc0 _ ax Hs1 Hdisj Hfresh Hth Hbh Hacc0 (Hfr s1 fr Hs1))
    as [-> | ->]; [right|by left].
  cbn [map_err]. rewrite ok_bind, Hats. cbn [map_err]. rewrite ok_bind. by exists (reverse ats), acc0.
Qed.

Lemma node_undo_cases (Hle : bincode_little_endian) nd h b data nd' :
  connected nd h b data = Ok nd' → undoable nd h b data nd' →
  match disconnect_tip_ nd' with
  | Ok nd2 => nd_state nd2 = nd_state nd ∧ nd_archive nd2 = nd_archive nd' ∧ node_ok nd2
  | Err e => e = NeState Utreexo ∨ ∃ me, e = NeMemPool me
  | Panic => False
  end.
Proof.
  intros Hcon Hud. pose proof (connect_tip_ok _ _ _ _ _ _ _ _ (ud_ok _ _ _ _ _ Hud) Hcon) as Hok'.
  pose proof (λ nd2, disconnect_tip_ok nd' nd2 Hok') as Hok2.
  destruct (node_undo Hle _ _ _ _ _ Hcon Hud) as [->|(ats & acc & Hrun)]; [by left|].
  rewrite Hrun in Hok2 |- *.
  pose proof (no_panic_foldR (λ _, True) mempool_put (nd_mempool nd') ats) as Hnp.
  destruct (foldR mempool_put (nd_mempool nd') ats) as [m|me|]; cbn [map_err] in *;
    [|right; by eexists|by destruct Hnp; [intros m t _; split; [apply mempool_put_no_panic|]|]].
  rewrite ok_bind in Hok2 |- *. pose proof (regenerate_no_panic m acc) as Hnr.
  destruct (regenerate_proofs m acc) as [m2|me|]; cbn [map_err] in *; [|right; by eexists|done].
  rewrite ok_bind in Hok2 |- *. split_and!; [done..|]. by apply Hok2.
Qed.

(** Only [put_frontier] changes the frontier. *)
Lemma disconnect_orchard_frontier o b : frontier (disconnect_orchard o b) = frontier o.
Proof.
  unfold disconnect_orchard. generalize (action_nullifier <$> bundle_actions b) as l. intros l.
  revert o. induction l as [|n l IH]; intros o; [done|]. simpl. rewrite IH.
  done.
Qed.

Lemma disconnect_output_frontier acc p acc' :
  disconnect_output acc p = Ok acc' → orchard acc'.1 = orchard acc.1.
Proof. destruct acc as [s d]. intros ([] & _ & Hok)%bind_Ok. by injection Hok as <-. Qed.

Lemma disconnect_input_frontier acc i acc' :
  disconnect_input acc i = Ok acc' → orchard acc'.1 = orchard acc.1.
Proof.
  destruct acc as [s d], i as [o h]. intros (so & _ & Hok)%bind_Ok. by injection Hok as <-.
Qed.

Lemma orchard_loop {A} (f : State * AccumulatorDiff → A → Res Error (State * AccumulatorDiff)) acc l acc' :
  (∀ acc a acc', f acc a = Ok acc' → orchard acc'.1 = orchard acc.1) →
  foldR f acc l = Ok acc' → orchard acc'.1 = orchard acc.1.
Proof.
  intros Hf Hl. refine (foldR_inv (λ x _, orchard x.1 = orchard acc.1) f acc l acc' _ eq_refl Hl).
  intros x a k x' Hx Hstep%Hf. congruence.
Qed.

Lemma disconnect_transaction_frontier acc tx acc' :
  disconnect_transaction acc tx = Ok acc' → frontier (orchard acc'.1) = frontier (orchard acc.1).
Proof.
  destruct acc as [s d]. unfold disconnect_transaction.
  intros (acc1 & H1 & H2)%bind_Ok.
  apply orchard_loop in H1; [|apply disconnect_output_frontier].
  apply orchard_loop in H2; [|apply disconnect_input_frontier].
  rewrite H2, H1. simpl. destruct (orchard_bundle tx); [|done]. simpl. apply disconnect_orchard_frontier.
Qed.

(** Without a stored frontier the frontier is not reverted. *)
Lemma disconnect_frontier nd nd' th h :
  tip (nd_state nd) = Some th → get_header (nd_archive nd) th = Ok h →
  orchard_frontiers (nd_archive nd) !! prev_side_hash h = None →
  disconnect_tip_ nd = Ok nd' → frontier (orchard (nd_state nd')) = frontier (orchard (nd_state nd)).
Proof.
  intros Hth Hh Hfr (th' & h' & b & ht & d & s1 & acc & Hth' & Hh' & _ & _ & _ & Hp & _ & Hdt & _)%disconnect_tip_inv.
  assert (h' = h) as -> by congruence. rewrite Hfr in Hdt.
  apply peg_disconnect_Ok in Hp as (_ & _ & <-).
  unfold disconnect_tip in Hdt. apply bind_Ok in Hdt as (t0 & _ & Hdt).
  apply bind_Ok in Hdt as ([] & _ & Hdt). apply bind_Ok in Hdt as (root & _ & Hdt).
  apply bind_Ok in Hdt as (acc0 & _ & Hdt). apply bind_Ok in Hdt as ([s2 d2] & Htxs & Hdt).
  apply bind_Ok in Hdt as ([s3 d3] & Hcb & Hdt). apply bind_Ok in Hdt as (ht' & _ & Hdt).
  apply bind_Ok in Hdt as (s4 & Hs4 & Hdt). apply bind_Ok in Hdt as (acc1 & _ & Hdt).
  injection Hdt as <-.
  apply orchard_loop in Hcb; [|apply disconnect_output_frontier]. simpl in Hcb.
  assert (frontier (orchard s2) = frontier (orchard s1)) as Hs2.
  { refine (foldR_inv (λ x _, frontier (orchard x.1) = frontier (orchard s1)) disconnect_transaction
      (s1, AccumulatorDiff_default) _ (s2, d2) _ eq_refl Htxs).
    intros x tx k x' Hx Hstep%disconnect_transaction_frontier. congruence. }
  assert (orchard s4 = orchard s3) as Hs4o.
  { destruct (prev_side_hash h); case_bool_decide; try done; by injection Hs4 as <-. }
  simpl. unfold delete_historical_root. rewrite Hs4o, Hcb.
  by destruct (block_hash_to_root (orchard s2) !! _).
Qed.
End node.

(** ** Properties *)
Section properties.
Context `{E : Externals}.
Context (iter_set : gset BtcBlockHash → list BtcBlockHash).
Context (iter_bmm : gmap BtcBlockHash BmmResult → list (BtcBlockHash * BmmResult)).
Context (into_values : gmap MainAddress AggregatedWithdrawal → list AggregatedWithdrawal).

(** C9: For the whole node, disconnecting the tip undoes connecting it.  If
    a block connects on a consistent node ([undoable]: its outputs are new, its
    mainchain events come from one mainchain block and took effect, no bundle
    was collected, each table of event blocks has at most 255 entries before, the archive has the frontier of the old tip or the block does
    not change it, and the code
    finds the block's events again), then [disconnect_tip_] does not panic; if
    it succeeds, it restores the state exactly and leaves the node consistent;
    the only errors left are that rustreexo refuses the reversed diff, or that
    the memory pool cannot take the block's transactions back. *)
Theorem disconnect_connect_tip (Hle : bincode_little_endian) (nd nd' : Node) (h : Header) (b : Body)
    (data : TwoWayPegData)
    (Hcon : connect_tip_ iter_set iter_bmm into_values nd h b data = Ok nd')
    (Hud : undoable nd h b data nd') :
  match disconnect_tip_ nd' with
  | Ok nd2 => nd_state nd2 = nd_state nd ∧ nd_archive nd2 = nd_archive nd' ∧ node_ok nd2
  | Err e => e = NeState Utreexo ∨ ∃ me, e = NeMemPool me
  | Panic => False
  end.
Proof. by eapply node_undo_cases. Qed.

(** C24: Disconnecting the events undoes connecting them, bookkeeping
    included, under the conditions that the code relies on.  Before
    ([peg_ready]): the two tables of event blocks have their entries at 0, 1, ...,
    at most 255 of them, the height of the last failed bundle can be read, and a
    pending bundle was last changed at another height.  While connecting
    ([peg_connected]): every event took effect, the deposits come from at most
    one mainchain block and the bundle events too, and no new bundle was
    collected.  Then [disconnect_two_way_peg_data] neither panics nor fails,
    unless rustreexo refuses the reversed accumulator diff, and restores the
    event block tables, the pending bundle and everything else that
    [connect_two_way_peg_data] wrote, except for the accumulator, which
    [disconnect_tip] sets afterwards. *)
Theorem peg_disconnect_undoes_connect (Hle : bincode_little_endian) (s s' : State)
    (data : TwoWayPegData) (acc : Accumulator) (ht : Z)
    (Hcon : peg_connect into_values s data = Ok (s', acc))
    (Hready : peg_ready s ht) (Hconn : peg_connected s data ht s') :
  (∃ acc', peg_disconnect s' data = Ok (with_accumulator s acc'))
  ∨ peg_disconnect s' data = Err Utreexo.
Proof. by eapply peg_round_trip. Qed.

(** A frontier is lost: frontiers are stored only for blocks that change
    them, and disconnecting restores only a frontier stored for the parent.
    When a block that changes the frontier is connected on a tip without a
    stored frontier (one that did not change it), disconnecting it leaves its
    note commitments in the frontier. *)
Theorem frontier_not_reverted (nd nd1 nd2 : Node) (h : Header) (b : Body) (data : TwoWayPegData)
    (Hcon : connect_tip_ iter_set iter_bmm into_values nd h b data = Ok nd1)
    (Hnone : orchard_frontiers (nd_archive nd) !! tip (nd_state nd) = None)
    (Hnew : tip (nd_state nd) ≠ Some (Header_hash h))
    (Hchanged : frontier (orchard (nd_state nd1)) ≠ frontier (orchard (nd_state nd)))
    (Hdis : disconnect_tip_ nd1 = Ok nd2) :
  frontier (orchard (nd_state nd2)) = frontier (orchard (nd_state nd1))
  ∧ frontier (orchard (nd_state nd2)) ≠ frontier (orchard (nd_state nd)).
Proof.
  destruct (connect_tip_archive _ _ _ _ _ _ _ _ Hcon)
    as (s1 & fr & acc & Hs1 & Hp & Hhd & _ & _ & Hfrs & _).
  destruct (peg_connect_Ok _ _ _ _ _ Hp) as (Htp & _). destruct (apply_block_Ok _ _ _ _ _ Hs1) as (Ht1 & _ & Hprev).
  assert (frontier (orchard (nd_state nd2)) = frontier (orchard (nd_state nd1))) as Hsame.
  { eapply disconnect_frontier; [by rewrite Htp| | |done].
    - unfold get_header, try_get_header. by rewrite Hhd.
    - rewrite Hprev, Hfrs. destruct fr; [|done]. by rewrite lookup_insert_ne by congruence. }
  by rewrite Hsame.
Qed.
End properties.

(** ** Witnesses *)
Module RoundTripToy.
#[local] Existing Instance Toy.externals.
Import ArchiveToy.
Import NodeToy.

(** [first] has no events; [second] applies the deposit of mainchain block 2;
    [shielded] has a transaction with an orchard bundle. *)
Definition first : Header := mk_Header body_root None (mh 1) [].
Definition second : Header := mk_Header body_root (Some (Header_hash first)) (mh 2) [].
Definition shielded_tx : Transaction :=
  mk_Transaction [] [] [] (Some (Toy.mk_bundle [(5, 6)%Z] false 0 [] true)).
Definition shielded_body : Body := mk_Body [] [shielded_tx] [].
Definition shielded : Header :=
  mk_Header (compute_merkle_root shielded_body) (Some (Header_hash first)) (mh 2) [].
Definition info2 : BlockInfo := mk_BlockInfo (Some (Header_hash first)) [EvDeposit (deposit 32)].
Definition two_writes : list write :=
  [WOpen; WMainHeader (main_header 1); WMainHeader (main_header 2); WMainHeader (main_header 3);
   WMainInfo (mh 1) (mk_BlockInfo None []); WMainInfo (mh 2) info2;
   WMainInfo (mh 3) (mk_BlockInfo (Some (Header_hash second)) []);
   WHeader first; WHeader second;
   WBody (Header_hash first) empty_body; WBody (Header_hash second) empty_body].
Definition two_archive : Archive := default Archive_empty_dbs (run Archive_empty_dbs two_writes).
Definition empty_node : Node := mk_Node two_archive MemPool_empty_dbs genesis.
Definition first_tip : Tip := mk_Tip (Header_hash first) (mh 2).
Definition base : Node := (reorg empty_node first_tip).1.

Definition connect_toy := connect_tip_ set_order map_order values_of.
Definition node_of (m : Res NodeError Node) : Node := match m with Ok nd => nd | _ => empty_node end.
Lemma node_of_ok m : is_ok m = true → m = Ok (node_of m).
Proof. by destruct m. Qed.
Definition data2 : TwoWayPegData := mk_TwoWayPegData [(mh 2, info2)].
Definition with_second : Node := node_of (connect_toy base second empty_body data2).
Definition with_shielded : Node := node_of (connect_toy base shielded shielded_body data2).
Definition without_shielded : Node := node_of (disconnect_tip_ with_shielded).

Example with_second_ok : is_ok (connect_toy base second empty_body data2) = true.
Proof. vm_compute. reflexivity. Qed.
Example with_shielded_ok : is_ok (connect_toy base shielded shielded_body data2) = true.
Proof. vm_compute. reflexivity. Qed.
Example without_second_ok : is_ok (disconnect_tip_ with_second) = true.
Proof. vm_compute. reflexivity. Qed.
Example without_shielded_ok : is_ok (disconnect_tip_ with_shielded) = true.
Proof. vm_compute. reflexivity. Qed.

(** *** The hypotheses, decided *)
Lemma empty_node_ok : node_ok empty_node.
Proof.
  split; [apply mempool_empty_ok| |apply same_acc_ok; vm_compute; reflexivity].
  apply (bool_decide_unpack _). vm_compute. exact I.
Qed.
Lemma base_reorg t : reorg empty_node t = ((reorg empty_node t).1, (reorg empty_node t).2).
Proof. by destruct (reorg empty_node t). Qed.
Lemma base_ok : node_ok base.
Proof.
  exact (reorg_ok set_order map_order values_of empty_node first_tip base
    (reorg empty_node first_tip).2 empty_node_ok (base_reorg first_tip)).
Qed.

(** No bookkeeping yet: the event block tables and the pending bundle. *)
Definition no_tables (s : State) (ht : Z) : bool :=
  bool_decide (deposit_blocks s = ∅) && bool_decide (withdrawal_bundle_event_blocks s = ∅)
  && is_ok (last_failure_height s) && is_none (pending_withdrawal_bundle s)
  && bool_decide (height s = Some ht).
Lemma dense_empty : ∃ n, dense ∅ n ∧ (0 ≤ n ≤ 255)%Z.
Proof. exists 0%Z. split; [|lia]. intros k. rewrite lookup_empty, is_Some_alt. lia. Qed.
Lemma no_tables_ready s ht : no_tables s ht = true → peg_ready s ht.
Proof.
  unfold no_tables. rewrite !andb_true_iff, !bool_decide_eq_true.
  intros ((((Hd & Hb) & Hf) & Hp) & Hh). split; [done| | | |].
  - rewrite Hd. apply dense_empty.
  - rewrite Hb. apply dense_empty.
  - destruct (last_failure_height s) as [lf| |]; [by exists lf|done..].
  - intros m Hm. by rewrite Hm in Hp.
Qed.

(** [data2] is one deposit, and no bundle is collected. *)
Definition deposit_takes_effect (s s' : State) : bool :=
  bool_decide (utxos s !! pointed_key (deposit_pointed (deposit 32)) = None)
  && is_none (pending_withdrawal_bundle s) && is_none (pending_withdrawal_bundle s').
Lemma deposit_connected s ht s' : deposit_takes_effect s s' = true → peg_connected s data2 ht s'.
Proof.
  unfold deposit_takes_effect. rewrite !andb_true_iff, bool_decide_eq_true. intros ((Hu & Hp) & Hp').
  split.
  - split; [exact Hu|done].
  - split; reflexivity.
  - intros acc Hacc. destruct (pending_withdrawal_bundle s'); [done|].
    injection Hacc as <-. simpl. by destruct (pending_withdrawal_bundle s).
Qed.

(** The state that [apply_block] hands to [peg_connect]. *)
Definition applied_to (h : Header) (b : Body) (f : State → bool) : bool :=
  match apply_block (nd_state base) h b with Ok (s1, _) => f s1 | _ => false end.
Lemma applied_to_ok h b f s1 fr :
  applied_to h b f = true → apply_block (nd_state base) h b = Ok (s1, fr) → f s1 = true.
Proof. unfold applied_to. by intros Hf Hok; rewrite Hok in Hf. Qed.

(** Nothing spent, one block, no frontier stored. *)
Definition fresh_node (nd : Node) (first second : BlockHash) : bool :=
  bool_decide (stxos (nd_state nd) = ∅) && bool_decide (tip (nd_state nd) = Some first)
  && bool_decide (height (nd_state nd) = Some 0%Z)
  && bool_decide (block_hash_to_root (orchard (nd_state nd)) !! Some second = None)
  && bool_decide (orchard_frontiers (nd_archive nd) !! tip (nd_state nd) = None).
Lemma fresh_node_ok nd b1 b2 : fresh_node nd b1 b2 = true →
  txos_disjoint (nd_state nd) ∧ tip_height_ok (nd_state nd)
  ∧ block_hash_to_root (orchard (nd_state nd)) !! Some b2 = None
  ∧ orchard_frontiers (nd_archive nd) !! tip (nd_state nd) = None.
Proof.
  unfold fresh_node. rewrite !andb_true_iff, !bool_decide_eq_true.
  intros ((((Hst & Ht) & Hht) & Hroot) & Hfr). split_and!; [| |done..].
  - intros k o _. by rewrite Hst, lookup_empty.
  - unfold tip_height_ok. rewrite Ht, Hht. unfold u32_max. lia.
Qed.
Lemma base_fresh : fresh_node base (Header_hash first) (Header_hash second) = true.
Proof. vm_compute. reflexivity. Qed.

Definition frontier_kept (s1 : State) : bool :=
  bool_decide (frontier (orchard s1) = frontier (orchard (nd_state base))).
Lemma second_frontier_kept : applied_to second empty_body frontier_kept = true.
Proof. vm_compute. reflexivity. Qed.
Definition second_events_ok (s1 : State) : bool :=
  no_tables s1 1 && deposit_takes_effect s1 (nd_state with_second).
Lemma second_events_apply : applied_to second empty_body second_events_ok = true.
Proof. vm_compute. reflexivity. Qed.
Lemma second_not_tip : tip (nd_state base) ≠ Some (Header_hash second).
Proof. apply (bool_decide_unpack _). vm_compute. exact I. Qed.
Lemma second_height : next_block_height (nd_state base) = 1%Z.
Proof. vm_compute. reflexivity. Qed.
Lemma empty_body_fresh s : fresh_block s empty_body.
Proof.
  assert (new_keys empty_body = []) as Hn by done. unfold fresh_block. rewrite Hn.
  split; [constructor|]. by intros k Hk%elem_of_nil.
Qed.
Definition finds (data : TwoWayPegData) (m : Res NodeError TwoWayPegData) : bool :=
  match m with Ok d => bool_decide (block_info d = block_info data) | _ => false end.
Lemma finds_ok data m : finds data m = true → m = Ok data.
Proof.
  destruct m as [[l]| |], data as [l']; [|done..]. intros Hl%bool_decide_eq_true. simpl in Hl. by subst.
Qed.
Lemma second_found : finds (event_data (reverse (block_info data2)))
  (disconnect_data (nd_archive with_second) (nd_state with_second) second 1) = true.
Proof. vm_compute. reflexivity. Qed.

#[local] Opaque base with_second with_shielded.
Lemma second_undoable : undoable base second empty_body data2 with_second.
Proof.
  destruct (fresh_node_ok _ _ _ base_fresh) as (Hdis & Hht & Hroot & Hfr).
  split; rewrite ?second_height.
  - exact base_ok.
  - exact Hdis.
  - exact (empty_body_fresh _).
  - exact Hht.
  - exact Hroot.
  - exact second_not_tip.
  - intros s1 fr Hs1. right. split; [exact Hfr|].
    exact (bool_decide_eq_true_1 _ (applied_to_ok _ _ _ _ _ second_frontier_kept Hs1)).
  - intros s1 fr Hs1.
    pose proof (applied_to_ok _ _ _ _ _ second_events_apply Hs1) as [Hn Hd]%andb_true_iff.
    split; [exact (no_tables_ready _ _ Hn)|exact (deposit_connected _ _ _ Hd)].
  - exact (finds_ok _ _ second_found).
Qed.
Lemma second_connects : connect_toy base second empty_body data2 = Ok with_second.
Proof. exact (node_of_ok _ with_second_ok). Qed.

(** *** The witnesses *)
Lemma toy_little_endian : bincode_little_endian.
Proof. by intros z. Qed.

Definition undone (m : Res NodeError Node) : bool :=
  match m with Ok nd => bool_decide (tip (nd_state nd) = Some (Header_hash first)) | _ => false end.
Lemma second_undone : undone (disconnect_tip_ with_second) = true.
Proof. vm_compute. reflexivity. Qed.
Lemma disconnect_connect_tip_witness :
  ∃ nd, disconnect_tip_ with_second = Ok nd ∧ nd_state nd = nd_state base.
Proof.
  pose proof (disconnect_connect_tip set_order map_order values_of toy_little_endian base with_second
    second empty_body data2 second_connects second_undoable) as Hw.
  pose proof second_undone as Hun. destruct (disconnect_tip_ with_second) as [nd| |]; [|discriminate..].
  exists nd. split; [reflexivity|exact (proj1 Hw)].
Defined.

Definition second_applied : State :=
  match apply_block (nd_state base) second empty_body with Ok (s1, _) => s1 | _ => genesis end.
Lemma second_applied_ready : no_tables second_applied 1 = true.
Proof. vm_compute. reflexivity. Qed.
Definition second_pegged : Res Error (State * Accumulator) := peg_connect values_of second_applied data2.
Definition second_after : State := match second_pegged with Ok (s, _) => s | _ => genesis end.
Definition second_acc : Accumulator :=
  match second_pegged with Ok (_, a) => a | _ => Accumulator_default end.
Lemma second_pegged_ok : is_ok second_pegged = true.
Proof. vm_compute. reflexivity. Qed.
Lemma second_pegged_eq : second_pegged = Ok (second_after, second_acc).
Proof.
  pose proof second_pegged_ok as Hok. unfold second_after, second_acc.
  by destruct second_pegged as [[s a]| |].
Qed.
Lemma second_effective : deposit_takes_effect second_applied second_after = true.
Proof. vm_compute. reflexivity. Qed.
Lemma second_no_error : is_ok (peg_disconnect second_after data2) = true.
Proof. vm_compute. reflexivity. Qed.

#[local] Opaque second_applied second_after second_acc.
Lemma peg_disconnect_undoes_connect_witness :
  ∃ acc, peg_disconnect second_after data2 = Ok (with_accumulator second_applied acc).
Proof.
  destruct (peg_disconnect_undoes_connect values_of toy_little_endian second_applied second_after data2
    second_acc 1 second_pegged_eq (no_tables_ready _ _ second_applied_ready)
    (deposit_connected _ _ _ second_effective)) as [Hok|Herr].
  - exact Hok.
  - pose proof second_no_error as Hne. rewrite Herr in Hne. discriminate.
Defined.

Lemma shielded_connects : connect_toy base shielded shielded_body data2 = Ok with_shielded.
Proof. exact (node_of_ok _ with_shielded_ok). Qed.
Lemma shielded_disconnects : disconnect_tip_ with_shielded = Ok without_shielded.
Proof. exact (node_of_ok _ without_shielded_ok). Qed.
Lemma shielded_not_tip : tip (nd_state base) ≠ Some (Header_hash shielded).
Proof. apply (bool_decide_unpack _). vm_compute. exact I. Qed.
Lemma shielded_frontier : frontier (orchard (nd_state with_shielded)) ≠ frontier (orchard (nd_state base)).
Proof. apply (bool_decide_unpack _). vm_compute. exact I. Qed.
Lemma frontier_not_reverted_witness :
  frontier (orchard (nd_state without_shielded)) ≠ frontier (orchard (nd_state base)).
Proof.
  exact (proj2 (frontier_not_reverted set_order map_order values_of base with_shielded without_shielded
    shielded shielded_body data2 shielded_connects
    (proj2 (proj2 (proj2 (fresh_node_ok _ _ _ base_fresh))))
    shielded_not_tip shielded_frontier shielded_disconnects)).
Defined.
End RoundTripToy.
