(* ===== verification/MainchainTask.v ===== *)
(** Fetching mainchain ancestors ([src/lib/node/mainchain_task.rs]).

    [request_ancestor_infos] asks the mainchain node for the headers and block
    infos between a block and the archive, and stores them oldest first.  The
    client is a parameter.  Against a client that serves a mainchain of bounded
    size, the loop ends and the block is in the archive afterwards. *)
From S2P Require Import Prelude.
From S2P Require Import Borsh.
From S2P Require Import Externals.
From S2P Require Import Toy.
From S2P Require Import Types.
From S2P Require Import AccumulatorDiff.
From S2P Require Import TwoWayPeg.
From S2P Require Import Lineage.
From S2P Require Import Archive.
From S2P Require Import ArchiveFacts.

Section task.
Context `{E : Externals}.
Context (iter_bmm : gmap BtcBlockHash BmmResult → list (BtcBlockHash * BmmResult)).
Context (work_add : Z → Z → Z).
(** [ValidatorClient::get_block_infos]: the answer to the [n]-th request of a
    call, a block with at most so many ancestors, newest first. *)
Context {ProtoError : Type}.
Context (get_block_infos : nat → BtcBlockHash → Z →
  Res ProtoError (option ((BlockHeaderInfo * BlockInfo) * list (BlockHeaderInfo * BlockInfo)))).

Inductive ResponseError :=
  | REArchive (e : ArchiveError)
  | REMainchain (e : ProtoError).

Definition BATCH_REQUEST_SIZE : Z := 1000.

(** [NonEmpty::last] *)
Definition last_info (head : BlockHeaderInfo * BlockInfo)
    (tail : list (BlockHeaderInfo * BlockInfo)) : BlockHeaderInfo * BlockInfo :=
  default head (last tail).

(** The request loop; [None]: a block was not available. *)
Fixpoint request_loop (fuel n : nat) (a : Archive) (current_block_hash : BtcBlockHash)
    (block_infos : list (BlockHeaderInfo * BlockInfo)) :
    Res ResponseError (option (list (BlockHeaderInfo * BlockInfo))) :=
  match fuel with
  | O => Panic
  | S fuel =>
      block_infos_resp ←
        map_err REMainchain (get_block_infos n current_block_hash (BATCH_REQUEST_SIZE - 1));
      match block_infos_resp with
      | None => Ok None
      | Some (head, tail) =>
          let current_header := (last_info head tail).1 in
          let current_block_hash := hi_prev_block_hash current_header in
          let block_infos := block_infos ++ head :: tail in
          if bool_decide (current_block_hash = all_zeros) then Ok (Some block_infos)
          else
            match try_get_main_header_info a current_block_hash with
            | Some _ => Ok (Some block_infos)
            | None => request_loop fuel (S n) a current_block_hash block_infos
            end
      end
  end.

Definition store_info (a : Archive) (info : BlockHeaderInfo * BlockInfo) :
    Res ArchiveError Archive :=
  let '(header_info, block_info) := info in
  a ← put_main_header_info work_add a header_info;
  put_main_block_info iter_bmm a (hi_block_hash header_info) block_info.

(** The archive afterwards, and the response. *)
Definition request_ancestor_infos (fuel : nat) (a : Archive) (block_hash : BtcBlockHash) :
    Archive * Res ResponseError bool :=
  if bool_decide (block_hash = all_zeros) then (a, Ok true)
  else
    match try_get_main_header_info a block_hash with
    | Some _ => (a, Ok true)
    | None =>
        match request_loop fuel 0 a block_hash [] with
        | Ok None => (a, Ok false)
        | Ok (Some block_infos) =>
            match foldR store_info a (reverse block_infos) with
            | Ok a' => (a', Ok true)
            | Err e => (a, Err (REArchive e))
            | Panic => (a, Panic)
            end
        | Err e => (a, Err e)
        | Panic => (a, Panic)
        end
    end.

(** ** The mainchain that the client serves *)
Section served.
Context (V : list (BlockHeaderInfo * BlockInfo)).
Implicit Types (x : BlockHeaderInfo * BlockInfo) (l : list (BlockHeaderInfo * BlockInfo)).

Definition info_hash x : BtcBlockHash := hi_block_hash x.1.
Definition info_prev x : BtcBlockHash := hi_prev_block_hash x.1.

(** Every block but the first extends another block of the mainchain, one
    lower; hashes identify blocks; heights fit [u32]. *)
Record mainchain : Prop := {
  mc_hashes x y : x ∈ V → y ∈ V → info_hash x = info_hash y → x = y;
  mc_not_zeros x : x ∈ V → info_hash x ≠ all_zeros;
  mc_size : (Z.of_nat (length V) < 2 ^ 32 - 1)%Z;
  mc_height x : x ∈ V → (0 ≤ hi_height x.1)%Z;
  mc_prev x : x ∈ V → info_prev x = all_zeros ∨
    ∃ y, y ∈ V ∧ info_hash y = info_prev x ∧ hi_height x.1 = (hi_height y.1 + 1)%Z
}.

(** A path of blocks from [b] back to, but not including, [e]. *)
Fixpoint segment (b : BtcBlockHash) l (e : BtcBlockHash) : Prop :=
  match l with
  | [] => b = e
  | x :: l => info_hash x = b ∧ x ∈ V ∧ segment (info_prev x) l e
  end.

(** The client answers with a block it has and some of its ancestors. *)
Definition serves : Prop :=
  ∀ n b max, b ∈ info_hash <$> V →
    ∃ head tail e, get_block_infos n b max = Ok (Some (head, tail)) ∧ segment b (head :: tail) e.

(** What the archive has stored is from this mainchain, headers together with
    their block infos. *)
Record stored (a : Archive) : Prop := {
  st_ok : archive_ok a;
  st_header m hi : main_header_infos a !! m = Some hi →
    ∃ i, (hi, i) ∈ V ∧ hi_block_hash hi = m ∧ main_block_infos a !! m = Some i
      ∧ is_Some (total_work a !! m);
  st_info m i : main_block_infos a !! m = Some i → ∃ hi, (hi, i) ∈ V ∧ hi_block_hash hi = m;
  st_successors m : main_known a m → is_Some (main_successors a !! m)
}.

Definition reached (a : Archive) (m : BtcBlockHash) : Prop :=
  m = all_zeros ∨ is_Some (main_header_infos a !! m).

Lemma reached_known a m : archive_ok a → reached a m ↔ main_known a m.
Proof. intros Hok. unfold reached, main_known. by rewrite (ok_main_headers a Hok). Qed.

Lemma segment_app b l e l' e' : segment b l e → segment e l' e' → segment b (l ++ l') e'.
Proof.
  revert b. induction l as [|x l IH]; intros b; simpl; [by intros ->|].
  intros (Hh & Hx & Hl) Hl'. split_and!; [done..|]. by apply IH.
Qed.

Lemma segment_last b x l e : segment b (x :: l) e → info_prev (last_info x l) = e ∧ last_info x l ∈ V.
Proof.
  revert b x. induction l as [|y l IH]; intros b x (Hb & Hx & Hl); [done|].
  destruct (IH _ _ Hl) as [H1 H2]. unfold last_info in *. rewrite last_cons.
  by destruct (last l).
Qed.

(** Heights are at most the number of blocks. *)
Lemma main_height_bound a m h :
  mainchain → stored a → main_known a m → get_main_height a m = Ok h → (h <= Z.of_nat (length V))%Z.
Proof.
  intros HV Hst Km Hh. pose proof (st_ok a Hst) as Hok. pose proof (ok_main a Hok) as HL.
  transitivity (Z.of_nat (length (info_hash <$> V))); [|by rewrite length_fmap].
  apply (height_le_blocks (main_lineage a) (main_known a) m h); [done..|].
  intros c k Kc Hc Hk. simpl in Hc. destruct Kc as [->|Kc].
  - unfold get_main_height, try_get_main_height in Hc. rewrite bool_decide_true in Hc by done.
    injection Hc as <-. lia.
  - apply (ok_main_headers a Hok) in Kc as [hi Hhi].
    destruct (st_header a Hst c hi Hhi) as (i & Hin & <- & _).
    apply list_elem_of_fmap. by exists (hi, i).
Qed.

(** ** Storing one block *)
Lemma verified_in_ancestry_total a (l : list (BtcBlockHash * BmmResult)) m :
  LineageLaws (main_lineage a) (main_known a) → main_known a m →
  (∀ m', (m', BmmVerified) ∈ l → main_known a m') → ∃ r, verified_in_ancestry a l m = Ok r.
Proof.
  intros HL Km. induction l as [|[m1 r1] l IH]; intros Hl; [by eexists|].
  destruct IH as [r Hr]; [intros; apply Hl; by right|]. cbn [verified_in_ancestry].
  destruct r1; [|by rewrite ok_bind; exists r].
  destruct (descends_Ok (main_lineage a) (main_known a) m1 m) as (d & Hd & _); [apply Hl; by left|done|].
  unfold is_main_descendant. rewrite Hd, ok_bind. destruct d; [by eexists|by exists r].
Qed.

Lemma bmm_verdict_total a header m :
  iterates_entries iter_bmm → archive_ok a → main_known a m →
  ∃ r, bmm_verdict iter_bmm a header (parent_results a header) m = Ok r.
Proof.
  intros Hiter Hok Km. unfold bmm_verdict, parent_results.
  destruct (prev_side_hash header) as [p|]; simpl; [|by eexists].
  destruct (verified_in_ancestry_total a (iter_bmm (get_bmm_results a p)) m) as [r Hr];
    [apply (ok_main a Hok)|done| |].
  - intros m'. rewrite (Hiter (get_bmm_results a p)), elem_of_map_to_list.
    by apply verified_main_known.
  - rewrite Hr, ok_bind. by eexists.
Qed.

Lemma with_header_table a hi hp w :
  archive_ok a → main_header_new a hi → main_known a (hi_prev_block_hash hi) →
  get_main_height a (hi_prev_block_hash hi) = Ok hp →
  ∃ exp, exp_ancestors (main_lineage (with_main_header a hi (wrap32 (hp + 1)) w))
    (wrap32 (hp + 1)) (Ok (hi_prev_block_hash hi)) = Ok exp.
Proof.
  intros Hok Hnew Kp Hhp. pose proof (ok_main a Hok) as HL.
  destruct (known_node (main_lineage a) (main_known a) _ hp Kp Hhp) as (_ & Hr & _).
  pose proof (with_main_header_same a hi hp w Hok Hnew Hhp (proj1 Hr)) as Hsame.
  assert (wrap32 (hp + 1) = (hp + 1)%Z) as Hw.
  { pose proof (new_height a hi Hnew hp) as Hb. unfold get_main_height in Hhp.
    apply ok_or_Ok in Hhp. specialize (Hb Hhp). unfold wrap32. rewrite Z.mod_small; lia. }
  rewrite Hw in *. set (a1 := with_main_header a hi (hp + 1) w) in *.
  assert (LineageLaws (main_lineage a1) (main_known a)) as HL1.
  { apply (lineage_agree (main_lineage a) _ (main_known a)); [by apply Hsame|done]. }
  destruct (exp_ancestors_ok (main_lineage a1) (main_known a) (hi_prev_block_hash hi) (hp + 1) Kp)
    as (l & Hl & _); [| |by exists l].
  - destruct (Hsame a1 eq_refl eq_refl _ Kp) as [-> _]. simpl. rewrite Hhp. f_equal. lia.
  - pose proof (new_height a hi Hnew hp) as Hb. unfold get_main_height in Hhp.
    apply ok_or_Ok in Hhp. specialize (Hb Hhp). lia.
Qed.

Lemma put_main_header_total a hi :
  archive_ok a → main_header_new a hi → reached a (hi_prev_block_hash hi) →
  (hi_prev_block_hash hi = all_zeros ∨ is_Some (total_work a !! hi_prev_block_hash hi)) →
  is_Some (main_successors a !! hi_prev_block_hash hi) →
  ∃ a', put_main_header_info work_add a hi = Ok a'
    ∧ main_header_infos a' = <[hi_block_hash hi := hi]> (main_header_infos a)
    ∧ main_block_infos a' = main_block_infos a
    ∧ (∃ w, total_work a' = <[hi_block_hash hi := w]> (total_work a))
    ∧ ∀ m, m = hi_block_hash hi ∨ is_Some (main_successors a !! m) → is_Some (main_successors a' !! m).
Proof.
  intros Hok Hnew Hreach Hwork [succ Hsucc].
  set (prev := hi_prev_block_hash hi) in *.
  assert (main_known a prev) as Kp by by apply reached_known.
  destruct (ok_main a Hok prev Kp) as (hp & Hhp & _). simpl in Hhp.
  assert (∃ w, (if bool_decide (prev = all_zeros) then Ok (hi_work hi)
     else prev_work ← get_total_work a prev; Ok (work_add prev_work (hi_work hi))) = Ok w) as [w Hw].
  { case_bool_decide; [by eexists|]. destruct Hwork as [|[w0 Hw0]]; [done|].
    exists (work_add w0 (hi_work hi)). unfold get_total_work, try_get_total_work. by rewrite Hw0. }
  destruct (with_header_table a hi hp w Hok Hnew Kp Hhp) as [exp Hexp]. fold prev in Hexp.
  eexists. split.
  - unfold put_main_header_info. fold prev.
    assert (bool_decide (is_Some (try_get_main_header_info a prev)) || bool_decide (prev = all_zeros) = true)
      as ->.
    { rewrite orb_true_iff, !bool_decide_eq_true. unfold reached in Hreach. tauto. }
    cbn [guard_err]. rewrite ok_bind, Hhp, ok_bind. cbv zeta. rewrite Hw, ok_bind.
    unfold get_main_successors, try_get_main_successors. cbn [main_successors with_main_headers].
    rewrite Hsucc. cbn [ok_or]. rewrite ok_bind.
    match goal with |- context [exp_ancestors ?L _ _] =>
      change L with (main_lineage (with_main_header a hi (wrap32 (hp + 1)) w)) end.
    rewrite Hexp, ok_bind. reflexivity.
  - simpl. split_and!; [done|done|by eexists|].
    intros m Hm. rewrite !lookup_insert_is_Some'. naive_solver.
Qed.

Lemma put_main_info_total a hi i :
  iterates_entries iter_bmm → archive_ok a → main_header_infos a !! hi_block_hash hi = Some hi →
  (hi_prev_block_hash hi = all_zeros ∨ is_Some (main_block_infos a !! hi_prev_block_hash hi)) →
  info_consistent a (hi_block_hash hi) i →
  ∃ a', put_main_block_info iter_bmm a (hi_block_hash hi) i = Ok a'
    ∧ main_block_infos a' = <[hi_block_hash hi := i]> (main_block_infos a)
    ∧ main_header_infos a' = main_header_infos a ∧ total_work a' = total_work a
    ∧ main_successors a' = main_successors a.
Proof.
  intros Hiter Hok Hhi Hprev Hc.
  set (a1 := with_main_block_infos a (<[hi_block_hash hi := i]> (main_block_infos a))).
  assert (archive_ok a1) as Hok1.
  { apply (same_tables_ok a); [done..|]. intros b m' Hv.
    eapply bmm_backed_grows; [by apply with_infos_grows|]. by apply (ok_bmm a Hok). }
  unfold put_main_block_info. unfold get_main_header_info, try_get_main_header_info.
  rewrite Hhi. cbn [ok_or]. rewrite ok_bind.
  assert ((if bool_decide (hi_prev_block_hash hi = all_zeros) then Ok tt
    else _ ← get_main_block_info a (hi_prev_block_hash hi); Ok tt) = Ok tt) as ->.
  { case_bool_decide; [done|]. destruct Hprev as [|[j Hj]]; [done|].
    unfold get_main_block_info, try_get_main_block_info. by rewrite Hj. }
  rewrite ok_bind. cbv zeta. fold a1.
  destruct (bmm_commitment i) as [c|]; [|by exists a1].
  destruct (try_get_header a1 c) as [header|]; [|by exists a1].
  assert (∃ r, (if bool_decide (prev_main_hash header = hi_prev_block_hash hi)
    then bmm_verdict iter_bmm a1 header (parent_results a1 header) (hi_block_hash hi)
    else Ok BmmFailed) = Ok r) as [r ->].
  { case_bool_decide; [|by eexists]. apply bmm_verdict_total; [done..|].
    right. apply (ok_main_headers a Hok). by eexists. }
  rewrite ok_bind. by eexists.
Qed.

Lemma store_one a x :
  mainchain → iterates_entries iter_bmm → stored a → x ∈ V → reached a (info_prev x) →
  ∃ a', store_info a x = Ok a' ∧ stored a'
    ∧ ∀ m, reached a' m ↔ m = info_hash x ∨ reached a m.
Proof.
  intros HV Hiter Hst Hx Hprev. destruct x as [hi i]. unfold info_hash, info_prev in *. simpl in *.
  pose proof (st_ok a Hst) as Hok.
  assert (main_header_new a hi) as Hnew.
  { split.
    - by apply (mc_not_zeros HV (hi, i)).
    - intros hi' (i' & Hin & Hh & _)%(st_header a Hst).
      by pose proof (mc_hashes HV (hi', i') (hi, i) Hin Hx Hh) as [= ->].
    - intros h Hh. pose proof (mc_size HV).
      pose proof (main_height_bound a (hi_prev_block_hash hi) h HV Hst) as Hb.
      unfold get_main_height in Hb. rewrite Hh in Hb. cbn [ok_or] in Hb.
      specialize (Hb (proj1 (reached_known a _ Hok) Hprev) eq_refl). lia. }
  destruct (put_main_header_total a hi) as (a1 & Ha1 & Eh & Ei & (w & Ew) & Es); [done..| | |].
  { destruct Hprev as [|[hp Hp]]; [by left|right]. by destruct (st_header a Hst _ hp Hp) as (_ & _ & _ & _ & ?). }
  { by apply (st_successors a Hst), reached_known. }
  assert (archive_ok a1) as Hok1 by by eapply put_main_header_preserves.
  assert (info_consistent a1 (hi_block_hash hi) i) as Hc.
  { intros i'. rewrite Ei. intros (hi' & Hin & Hh)%(st_info a Hst).
    by pose proof (mc_hashes HV (hi', i') (hi, i) Hin Hx Hh) as [= _ ->]. }
  destruct (put_main_info_total a1 hi i) as (a2 & Ha2 & Ei2 & Eh2 & Ew2 & Es2); [done..| | |done|].
  { rewrite Eh. apply lookup_insert_eq. }
  { destruct Hprev as [|[hp Hp]]; [by left|right]. rewrite Ei.
    destruct (st_header a Hst _ hp Hp) as (ip & _ & _ & Hip & _). by eexists. }
  exists a2. split_and!.
  - unfold store_info. rewrite Ha1, ok_bind. exact Ha2.
  - assert (archive_ok a2) as Hok2 by by eapply put_main_block_info_preserves. split; [done|..].
    + intros m hi'. rewrite Eh2, Eh, Ei2, Ei, Ew2, Ew. intros [[<- <-]|[Hne Hm]]%lookup_insert_Some.
      * exists i. rewrite !lookup_insert_eq. split_and!; [done..|by eexists].
      * destruct (st_header a Hst m hi' Hm) as (i' & ? & ? & ? & ?). exists i'.
        by rewrite !lookup_insert_ne by done.
    + intros m i'. rewrite Ei2, Ei. intros [[<- <-]|[Hne Hm]]%lookup_insert_Some; [by exists hi|].
      by apply (st_info a Hst).
    + intros m Km%(reached_known a2 m Hok2). rewrite Es2. apply Es. unfold reached in Km.
      rewrite Eh2, Eh, lookup_insert_is_Some' in Km.
      destruct Km as [Hz|[Hm|Hm]]; [|by left|]; right; apply (st_successors a Hst), reached_known;
        [done|by left|done|by right].
  - intros m. unfold reached. rewrite Eh2, Eh, lookup_insert_is_Some'. naive_solver.
Qed.

(** ** The loop *)
Lemma segment_lower b l e x y :
  mainchain → segment b l e → l ≠ [] → x ∈ V → info_hash x = b → y ∈ V → info_hash y = e →
  (hi_height y.1 < hi_height x.1)%Z.
Proof.
  intros HV. revert b x. induction l as [|z l IH]; intros b x Hl Hne Hx Hb Hy He; [done|].
  destruct Hl as (Hz & Hzin & Hl).
  assert (z = x) as -> by (apply (mc_hashes HV); congruence).
  assert (∀ w, w ∈ V → info_hash w = info_prev x → (hi_height x.1 = hi_height w.1 + 1)%Z) as Hprev.
  { intros w Hw Hwp. destruct (mc_prev HV x Hx) as [Hzero|(w' & Hw' & Hwp' & Hh)].
    - destruct (mc_not_zeros HV w Hw). congruence.
    - by rewrite (mc_hashes HV w w' Hw Hw') by congruence. }
  destruct l as [|x' l].
  - simpl in Hl. assert (info_hash y = info_prev x) as Hyp by congruence.
    specialize (Hprev y Hy Hyp). lia.
  - destruct Hl as (Hx' & Hxin' & Hl').
    specialize (IH (info_prev x) x'). assert (hi_height y.1 < hi_height x'.1)%Z.
    { apply IH; [by split_and!|done..]. }
    specialize (Hprev x' Hxin' Hx'). lia.
Qed.

Lemma request_loop_ok fuel n a x acc :
  mainchain → serves → stored a → x ∈ V → (hi_height x.1 < Z.of_nat fuel)%Z →
  ∃ l e, request_loop fuel n a (info_hash x) acc = Ok (Some (acc ++ l))
    ∧ segment (info_hash x) l e ∧ l ≠ [] ∧ reached a e.
Proof.
  intros HV Hs Hst. revert n x acc. induction fuel as [|fuel IH]; intros n x acc Hx Hf.
  { pose proof (mc_height HV x Hx). lia. }
  cbn [request_loop].
  destruct (Hs n (info_hash x) (BATCH_REQUEST_SIZE - 1)%Z) as (hd & tl & e & -> & Hseg);
    [by apply list_elem_of_fmap_2|]. cbn [map_err]. rewrite ok_bind.
  destruct (segment_last _ hd tl e Hseg) as [Hprev Hlast].
  unfold info_prev in Hprev. rewrite Hprev. cbv zeta.
  case_bool_decide as Hz; [exists (hd :: tl), e; split_and!; [done..|by left]|].
  unfold try_get_main_header_info. destruct (main_header_infos a !! e) as [hi|] eqn:Hhi.
  { exists (hd :: tl), e. split_and!; [done..|right; by eexists]. }
  destruct (mc_prev HV _ Hlast) as [Hzero|(y & Hy & Hye & _)]; [unfold info_prev in Hzero; congruence|].
  assert (info_hash y = e) as He by (unfold info_prev in Hye; congruence).
  pose proof (segment_lower _ _ _ x y HV Hseg ltac:(done) Hx eq_refl Hy He) as Hlow.
  rewrite <- He. destruct (IH (S n) y (acc ++ hd :: tl) Hy) as (l & e' & Hl & Hsl & _ & Hr); [lia|].
  exists ((hd :: tl) ++ l), e'. rewrite Hl, <- app_assoc. split_and!; [done| |done|done].
  eapply segment_app; [exact Hseg|by rewrite <- He].
Qed.

Lemma store_segment a b l e :
  mainchain → iterates_entries iter_bmm → stored a → segment b l e → reached a e →
  ∃ a', foldR store_info a (reverse l) = Ok a' ∧ stored a'
    ∧ ∀ m, reached a' m ↔ m ∈ info_hash <$> l ∨ reached a m.
Proof.
  intros HV Hiter Hst. revert b. induction l as [|x l IH]; intros b Hl He.
  { exists a. split_and!; [done..|]. intros m. csimpl. rewrite elem_of_nil. tauto. }
  destruct Hl as (Hb & Hx & Hl). destruct (IH _ Hl He) as (a1 & Ha1 & Hst1 & Hr1).
  destruct (store_one a1 x HV Hiter Hst1 Hx) as (a2 & Ha2 & Hst2 & Hr2).
  { apply Hr1. destruct l as [|y l]; [by right; rewrite Hl|]. left. destruct Hl as (<- & _).
    by left. }
  exists a2. rewrite reverse_cons, foldR_app, Ha1, ok_bind. cbn [foldR]. rewrite Ha2, ok_bind.
  split_and!; [done..|]. intros m. rewrite Hr2, Hr1. csimpl. rewrite elem_of_cons. tauto.
Qed.

Lemma request_ancestor_infos_ok fuel a x :
  mainchain → serves → iterates_entries iter_bmm → stored a → x ∈ V →
  (hi_height x.1 < Z.of_nat fuel)%Z →
  ∃ a', request_ancestor_infos fuel a (info_hash x) = (a', Ok true) ∧ stored a'
    ∧ reached a' (info_hash x) ∧ ∀ m, reached a m → reached a' m.
Proof.
  intros HV Hs Hiter Hst Hx Hf. unfold request_ancestor_infos.
  rewrite (bool_decide_false (info_hash x = all_zeros)) by by apply (mc_not_zeros HV).
  unfold try_get_main_header_info. destruct (main_header_infos a !! info_hash x) as [hi|] eqn:Hhi.
  { exists a. split_and!; [done..|right; by eexists|done]. }
  destruct (request_loop_ok fuel 0 a x [] HV Hs Hst Hx Hf) as (l & e & -> & Hl & Hne & He).
  cbn [app]. destruct (store_segment a (info_hash x) l e HV Hiter Hst Hl He) as (a' & -> & Hst' & Hr).
  exists a'. split_and!; [done..| |].
  - apply Hr. left. destruct l as [|y l]; [done|]. destruct Hl as (<- & _). by left.
  - intros m Hm. apply Hr. by right.
Qed.
End served.
End task.

(** ** Properties *)
Section properties.
Context `{E : Externals}.
Context (iter_bmm : gmap BtcBlockHash BmmResult → list (BtcBlockHash * BmmResult)).
Context (work_add : Z → Z → Z).
Context {ProtoError : Type}.
Context (get_block_infos : nat → BtcBlockHash → Z →
  Res ProtoError (option ((BlockHeaderInfo * BlockInfo) * list (BlockHeaderInfo * BlockInfo)))).

(** Fetching mainchain ancestors terminates and succeeds.  Against a
    client that serves a mainchain [V] (every answer is a block and some of
    its ancestors), a request for any of its blocks returns [true] after at
    most as many rounds as the block has ancestors; then the block's header
    and its block info are in the archive, as are those of all its ancestors,
    nothing stored before is lost, and the archive keeps its invariant. *)
Theorem ancestor_infos_available (V : list (BlockHeaderInfo * BlockInfo)) (fuel : nat) (a : Archive)
    (x : BlockHeaderInfo * BlockInfo)
    (HV : mainchain V) (Hs : serves get_block_infos V) (Hiter : iterates_entries iter_bmm)
    (Hst : stored V a) (Hx : x ∈ V) (Hfuel : (hi_height x.1 < Z.of_nat fuel)%Z) :
  ∃ a', request_ancestor_infos iter_bmm work_add get_block_infos fuel a (info_hash x) = (a', Ok true)
    ∧ archive_ok a' ∧ stored V a'
    ∧ main_header_infos a' !! info_hash x = Some x.1 ∧ main_block_infos a' !! info_hash x = Some x.2
    ∧ (∀ c, ancestor_of (main_lineage a') c (info_hash x) →
         c = all_zeros ∨ is_Some (main_block_infos a' !! c))
    ∧ ∀ m, is_Some (main_header_infos a !! m) → is_Some (main_header_infos a' !! m).
Proof.
  destruct (request_ancestor_infos_ok iter_bmm work_add get_block_infos V fuel a x)
    as (a' & Ha' & Hst' & Hr & Hmono); [done..|].
  pose proof (st_ok V a' Hst') as Hok'.
  destruct Hr as [Hz|[hi Hhi]]; [by destruct (mc_not_zeros V HV x Hx)|].
  destruct (st_header V a' Hst' _ hi Hhi) as (i & Hin & Hh & Hi & _).
  assert ((hi, i) = x) as <- by by apply (mc_hashes V HV).
  exists a'. split_and!; [done..| |].
  - intros c (n & Hn). assert (main_known a' (info_hash (hi, i))) as Kx.
    { right. apply (ok_main_headers a' Hok'). by eexists. }
    destruct (ok_main a' Hok' _ Kx) as (h & Hh' & _).
    pose proof (ok_main a' Hok') as HL.
    destruct (up_depth (main_lineage a') (main_known a') n _ h c Kx Hh' Hn) as (_ & Kc & _).
    apply reached_known in Kc; [|done]. destruct Kc as [|[hi' Hhi']]; [by left|right].
    destruct (st_header V a' Hst' _ hi' Hhi') as (i' & _ & _ & Hi' & _). by eexists.
  - intros m Hm. destruct (Hmono m) as [->|]; [by right| |done].
    rewrite (ok_zeros a (st_ok V a Hst)) in Hm. by destruct Hm.
Qed.
End properties.

(** ** A client that answers with one ancestor at a time *)
Module MainchainTaskToy.
#[local] Existing Instance Toy.externals.
Import ArchiveToy.

Definition toy_info (z : Z) : BlockHeaderInfo * BlockInfo := (main_header z, mk_BlockInfo None []).
(** Blocks 1 to 5; [main_header] numbers heights from 1. *)
Definition toy_chain : list (BlockHeaderInfo * BlockInfo) :=
  (λ n, toy_info (Z.of_nat n)) <$> seq 1 5.
Definition toy_client (n : nat) (b : BtcBlockHash) (max_ancestors : Z) :
    Res unit (option ((BlockHeaderInfo * BlockInfo) * list (BlockHeaderInfo * BlockInfo))) :=
  Ok (match list_find (λ x, info_hash x = b) toy_chain with
      | Some (_, x) => Some (x, [])
      | None => None
      end).
Definition opened : Archive :=
  match Archive_new (0, 16, 0)%Z Archive_empty_dbs with Ok a => a | _ => Archive_empty_dbs end.

Lemma toy_chain_elem x : x ∈ toy_chain ↔ ∃ n, x = toy_info (Z.of_nat n) ∧ (1 ≤ n ≤ 5)%nat.
Proof.
  unfold toy_chain. rewrite list_elem_of_fmap. setoid_rewrite elem_of_seq.
  split; intros (n & -> & Hn); exists n; (split; [done|lia]).
Qed.

Definition toy_hashes : list BtcBlockHash := mh <$> [0; 1; 2; 3; 4; 5]%Z.
Lemma toy_hashes_differ : bool_decide (NoDup toy_hashes) = true.
Proof. vm_compute. reflexivity. Qed.
Lemma mh_inj n m : (n ≤ 5)%nat → (m ≤ 5)%nat → mh (Z.of_nat n) = mh (Z.of_nat m) → n = m.
Proof.
  intros Hn Hm Hh. pose proof (bool_decide_eq_true_1 _ toy_hashes_differ) as Hnd.
  assert (∀ k, (k ≤ 5)%nat → toy_hashes !! k = Some (mh (Z.of_nat k))) as Hk.
  { intros k Hk. do 6 (destruct k as [|k]; [reflexivity|]). lia. }
  apply (NoDup_lookup _ _ _ _ Hnd (Hk n Hn)). by rewrite Hh, Hk.
Qed.

Lemma toy_mainchain : mainchain toy_chain.
Proof.
  split.
  - intros x y (n & -> & Hn)%toy_chain_elem (m & -> & Hm)%toy_chain_elem Hh.
    by rewrite (mh_inj n m) by (lia || done).
  - intros x (n & -> & Hn)%toy_chain_elem Hz. assert (mh (Z.of_nat 0) = all_zeros) as H0 by reflexivity.
    assert (n = 0); [|lia]. apply mh_inj; [lia..|]. by rewrite H0.
  - simpl. lia.
  - intros x (n & -> & Hn)%toy_chain_elem. simpl. lia.
  - intros x (n & -> & Hn)%toy_chain_elem. destruct (decide (n = 1)) as [->|Hne]; [by left|right].
    exists (toy_info (Z.of_nat (n - 1))). split_and!.
    + apply toy_chain_elem. exists (n - 1). split; [done|lia].
    + unfold info_hash, info_prev. simpl. f_equal. lia.
    + simpl. lia.
Qed.

Lemma toy_serves : serves toy_client toy_chain.
Proof.
  intros n b max (x & -> & Hx)%list_elem_of_fmap.
  unfold toy_client. destruct (list_find (λ y, info_hash y = info_hash x) toy_chain) as [[k y]|] eqn:Hy.
  - apply list_find_Some in Hy as (Hk & Hh & _). exists y, [], (info_prev y).
    split; [done|]. split_and!; [done| |done]. by eapply list_elem_of_lookup_2.
  - exfalso. apply list_find_None in Hy. rewrite Forall_forall in Hy. by apply (Hy x).
Qed.

Lemma opened_eq : opened = {|
    accumulators := {[ None := Accumulator_default ]}; block_hash_to_height := ∅;
    bmm_results := ∅; bodies := ∅; exponential_ancestors := ∅; exponential_main_ancestors := ∅;
    headers := ∅; main_block_hash_to_height := ∅; main_block_infos := ∅; main_header_infos := ∅;
    main_successors := {[ all_zeros := ∅ ]};
    orchard_frontiers := {[ None := frontier_empty ]}; successors := {[ None := ∅ ]};
    total_work := ∅; txid_to_inclusions := ∅; archive_version := Some (0, 16, 0)%Z |}.
Proof. reflexivity. Qed.

Lemma opened_stored : stored toy_chain opened.
Proof.
  assert (archive_ok opened) as Hok.
  { apply (archive_step_ok set_order map_order Z.add Archive_empty_dbs);
      [apply map_order_iterates|by eapply (step_open _ _ _ _ _ (0, 16, 0)%Z)|apply empty_archive_ok]. }
  split; [done| | |]; rewrite opened_eq; simpl.
  - intros m hi Hm. by rewrite lookup_empty in Hm.
  - intros m i Hm. by rewrite lookup_empty in Hm.
  - intros m [->|[h Hm]]; [rewrite lookup_singleton_eq; by eexists|].
    simpl in Hm. by rewrite lookup_empty in Hm.
Qed.

#[local] Opaque opened.
Lemma ancestor_infos_available_witness :
  ∃ a', request_ancestor_infos map_order Z.add toy_client 6 opened (mh 5) = (a', Ok true)
    ∧ main_header_infos a' !! mh 5 = Some (main_header 5).
Proof.
  assert (toy_info (Z.of_nat 5) ∈ toy_chain) as Hx by (apply toy_chain_elem; exists 5; split; [done|lia]).
  destruct (ancestor_infos_available map_order Z.add toy_client toy_chain 6 opened (toy_info (Z.of_nat 5))
    toy_mainchain toy_serves map_order_iterates opened_stored Hx ltac:(simpl; lia))
    as (a' & Ha' & _ & _ & Hh & _).
  exists a'. split; [exact Ha'|exact Hh].
Defined.
End MainchainTaskToy.
