(* ===== verification/ProtoFacts.v ===== *)
(** Properties of the messages of the mainchain node ([Proto]): what is
    decoded, what is rejected, and the composition with the task that fetches
    mainchain ancestors ([MainchainTask]). *)
From S2P Require Import Prelude.
From S2P Require Import Borsh.
From S2P Require Import Serde.
From S2P Require Import Externals.
From S2P Require Import Toy.
From S2P Require Import Types.
From S2P Require Import AccumulatorDiff.
From S2P Require Import Address.
From S2P Require Import WithdrawalBundle.
From S2P Require Import TwoWayPeg.
From S2P Require Import Lineage.
From S2P Require Import Archive.
From S2P Require Import ArchiveFacts.
From S2P Require Import MainchainTask.
From S2P Require Import OrchardTypes.
From S2P Require Import Proto.

(** Documented behaviour of [bitcoin]'s consensus encoding. *)
Class ConsensusLaws `{ConsensusCrate} : Prop := {
  consensus_round_trip h : consensus_deserialize (consensus_serialize h) = Some h
}.

(** ** Text *)
Lemma is_utf8_ascii l : Forall (λ b, (Z_of_byte b < 128)%Z) l → is_utf8 l = true.
Proof.
  induction 1 as [|b l Hb _ IH]; [done|]. simpl.
  assert (between 0 127 b = true) as ->; [|done].
  unfold between. pose proof (Z_of_byte_range b). lia.
Qed.

Section facts.
Context `{E : Externals} `{HL : HexLaws} `{CL : ConsensusLaws} `{AL : AddressLaws}.

(** ** Encoding, the reference

    What the mainchain node sends for a value: [form] is the encoding that the
    schema gives to a field. *)
Context (form : string → bool).
Definition enc_hash (name : string) (h : Hash) : HashHex :=
  if form name then InConsensusHex (ConsensusHex_encode h) else InReverseHex (ReverseHex_encode h).
Definition enc_output (o : Output) : G_DepositOutput :=
  mk_G_DepositOutput (Some (mk_Hex (Some (hex_encode (as_base58 (Types.address o))))))
    (Some (match content o with Value v => v | Withdrawal v _ _ => v end)).
Definition enc_deposit (d : DepositEvent) : G_Deposit :=
  mk_G_Deposit (Some (deposit_tx_index d))
    (Some (mk_G_OutPoint (Some (enc_hash "txid" (bop_txid (deposit_outpoint d))))
      (Some (u32_val (bop_vout (deposit_outpoint d))))))
    (Some (enc_output (deposit_output d))).
Definition enc_status (s : WithdrawalBundleEventStatus) : G_BundleEventKind :=
  match s with EvFailed => G_Failed | EvSubmitted => G_Submitted | EvConfirmed => G_Succeeded None None end.
Definition enc_event (e : BlockEvent) : option G_EventKind :=
  Some match e with
       | EvDeposit d => G_EvDeposit (enc_deposit d)
       | EvWithdrawalBundle w =>
           G_EvWithdrawalBundle (mk_G_WithdrawalBundleEvent (Some (enc_hash "m6id" (ev_m6id w)))
             (Some (Some (enc_status (ev_status w)))))
       end.
Definition enc_block_info (b : BlockInfo) : G_BlockInfo :=
  mk_G_BlockInfo (enc_hash "bmm_commitment" <$> bmm_commitment b) (enc_event <$> events b).
Definition enc_header_info (h : BlockHeaderInfo) : G_BlockHeaderInfo :=
  mk_G_BlockHeaderInfo (Some (enc_hash "block_hash" (hi_block_hash h)))
    (Some (enc_hash "prev_block_hash" (hi_prev_block_hash h))) (hi_height h)
    (Some (enc_hash "work" (le_vec 32 (hi_work h)))).
Definition enc_info (x : BlockHeaderInfo * BlockInfo) : G_Info :=
  mk_G_Info (Some (enc_header_info x.1)) (Some (enc_block_info x.2)).

(** Deposits pay values, and work is a 256-bit integer. *)
Definition event_ok (e : BlockEvent) : Prop :=
  match e with EvDeposit d => is_value (content (deposit_output d)) = true | _ => True end.
Definition info_ok (x : BlockHeaderInfo * BlockInfo) : Prop :=
  (0 ≤ hi_work x.1 < 2 ^ 256)%Z ∧ Forall event_ok (events x.2).

(** ** Round trips *)
Lemma ReverseHex_round_trip m h name : ReverseHex_decode m (ReverseHex_encode h) name = Ok h.
Proof.
  unfold ReverseHex_decode, ReverseHex_encode. cbn [rh_hex ok_or]. rewrite ok_bind, hex_decode_encode.
  cbn [ok_or]. by rewrite ok_bind, reverse_involutive, consensus_round_trip.
Qed.
Lemma HashHex_round_trip m name n h : HashHex_decode m (enc_hash name h) n = Ok h.
Proof.
  unfold enc_hash. destruct (form name); simpl; [|apply ReverseHex_round_trip].
  unfold ConsensusHex_decode, ConsensusHex_encode. cbn [ch_hex ok_or].
  rewrite ok_bind, hex_decode_encode. cbn [mbind option_bind]. by rewrite consensus_round_trip.
Qed.

Lemma deposit_address_round_trip a : deposit_address (as_base58 a) = a.
Proof.
  unfold deposit_address, from_utf8. rewrite is_utf8_ascii, transparent_round_trip; [done|].
  apply Forall_forall. intros b. apply base58_ascii.
Qed.
Lemma deposit_round_trip d :
  is_value (content (deposit_output d)) = true → Deposit_try_from (enc_deposit d) = Ok d.
Proof.
  intros Hv. destruct d as [i [txid vout] [a c]]. destruct c as [v|]; [|done].
  unfold Deposit_try_from, enc_deposit, required. simpl.
  unfold BtcOutPoint_try_from, required. simpl. rewrite HashHex_round_trip. simpl. rewrite u32_of_val.
  unfold deposit_Output_try_from, required, Hex_decode_bytes. simpl. rewrite hex_decode_encode. simpl.
  by rewrite deposit_address_round_trip.
Qed.
Lemma event_round_trip e : event_ok e → BlockEvent_try_from (enc_event e) = Ok e.
Proof.
  destruct e as [d|[m6id st]]; intros He; unfold BlockEvent_try_from, required; simpl.
  - by rewrite deposit_round_trip.
  - unfold WithdrawalBundleEvent_try_from, required. simpl. rewrite HashHex_round_trip. simpl. by destruct st.
Qed.
Lemma mapR_enc {A B} (dec : B → Res ProtoError A) (enc : A → B) l :
  Forall (λ a, dec (enc a) = Ok a) l → mapR dec (enc <$> l) = Ok l.
Proof. induction 1 as [|a l Ha _ IH]; [done|]. rewrite fmap_cons. cbn [mapR]. by rewrite Ha, ok_bind, IH. Qed.
Lemma block_info_round_trip b : Forall event_ok (events b) → BlockInfo_try_from (enc_block_info b) = Ok b.
Proof.
  intros Hb. unfold BlockInfo_try_from, enc_block_info. destruct b as [c evs]. simpl.
  rewrite (mapR_enc BlockEvent_try_from enc_event).
  - destruct c as [c|]; simpl; [by rewrite HashHex_round_trip|done].
  - eapply Forall_impl; [exact Hb|]. apply event_round_trip.
Qed.
Lemma header_info_round_trip h :
  (0 ≤ hi_work h < 2 ^ 256)%Z → BlockHeaderInfo_try_from (enc_header_info h) = Ok h.
Proof.
  intros Hw. unfold BlockHeaderInfo_try_from, enc_header_info, required. simpl.
  repeat (rewrite HashHex_round_trip; simpl).
  rewrite le_val_le_vec. rewrite Z.mod_small by (change (256 ^ Z.of_nat 32)%Z with (2 ^ 256)%Z; done).
  by destruct h.
Qed.
Lemma info_round_trip x : info_ok x → Info_try_from (enc_info x) = Ok x.
Proof.
  intros [Hw He]. unfold Info_try_from, enc_info, required. cbn [ok_or gi_header_info gi_block_info].
  rewrite ok_bind, header_info_round_trip by done. rewrite !ok_bind, block_info_round_trip by done.
  by destruct x.
Qed.

Lemma stream_event_round_trip x : info_ok x →
  StreamEvent_try_from (G_ConnectBlock (gi_header_info (enc_info x)) (gi_block_info (enc_info x)))
  = Ok (ConnectBlock x.1 x.2).
Proof.
  intros [Hw He]. unfold StreamEvent_try_from, enc_info, required. cbn [ok_or gi_header_info gi_block_info].
  rewrite !ok_bind, header_info_round_trip by done. by rewrite ok_bind, block_info_round_trip.
Qed.

(** Blocks of the mainchain round-trip through messages: whatever
    encoding the schema gives to each hash, the header and the block info that
    the mainchain node encodes are what the client decodes, deposits and bundle
    events in their order. *)
Theorem mainchain_block_round_trip (x : BlockHeaderInfo * BlockInfo) (Hok : info_ok x) :
  Info_try_from (enc_info x) = Ok x
  ∧ StreamEvent_try_from (G_ConnectBlock (gi_header_info (enc_info x)) (gi_block_info (enc_info x)))
    = Ok (ConnectBlock x.1 x.2).
Proof.
  split; [by apply info_round_trip|by apply stream_event_round_trip].
Qed.

(** C36: Nobody can stop the sidechain with a deposit address: a deposit
    whose address field holds any bytes at all is decoded, with its value; its
    address is the one that the bytes spell in Base58, or all zeros if they are
    not text or not an address.  So a deposit with a malformed address is not
    ignored, as a comment of the code has it: its value goes to the zero
    address. *)
Theorem deposit_address_never_fails (address_bytes : list byte) (value : Z) :
  ∃ o, deposit_Output_try_from
         (mk_G_DepositOutput (Some (mk_Hex (Some (hex_encode address_bytes)))) (Some value)) = Ok o
    ∧ content o = Value value
    ∧ (TransparentAddress_from_str address_bytes = Ok (Types.address o) ∨ Types.address o = ALL_ZEROS)
    ∧ (∀ a, address_bytes = as_base58 a → Types.address o = a)
    ∧ (from_utf8 address_bytes = None ∨ (∀ a, TransparentAddress_from_str address_bytes ≠ Ok a) →
       Types.address o = ALL_ZEROS).
Proof.
  exists (mk_Output (deposit_address address_bytes) (Value value)).
  unfold deposit_Output_try_from, required, Hex_decode_bytes. cbn [gdo_address gdo_value_sats ok_or].
  rewrite !ok_bind. cbn [h_hex ok_or]. rewrite ok_bind, hex_decode_encode. cbn [ok_or]. rewrite !ok_bind.
  split_and!; [done..| | |].
  - unfold deposit_address, from_utf8. simpl. destruct (is_utf8 address_bytes); [|by right].
    destruct (TransparentAddress_from_str address_bytes); [by left|by right..].
  - intros a ->. apply deposit_address_round_trip.
  - unfold deposit_address, from_utf8. simpl. destruct (is_utf8 address_bytes); [|done].
    intros [?|Hno]; [done|]. by destruct (TransparentAddress_from_str address_bytes) as [a| |]; [destruct (Hno a)|..].
Qed.

(** ** Sequential ancestors *)
Definition linked (l : list (BlockHeaderInfo * BlockInfo)) : Prop :=
  ∀ i x y, l !! i = Some x → l !! S i = Some y → hi_block_hash y.1 = hi_prev_block_hash x.1.

Lemma linked_cons x y l : linked (x :: y :: l) ↔ hi_block_hash y.1 = hi_prev_block_hash x.1 ∧ linked (y :: l).
Proof.
  split.
  - intros Hl. split; [by apply (Hl 0)|]. intros i. apply (Hl (S i)).
  - intros [Hxy Hl] [|i] u v Hu Hv; simplify_eq/=; [done|]. by apply (Hl i).
Qed.
Lemma linked_dec_total x l : linked (x :: l) ∨ ¬ linked (x :: l).
Proof.
  revert x. induction l as [|y l IH]; intros x; [by left; intros [|i] ??|].
  destruct (decide (hi_block_hash y.1 = hi_prev_block_hash x.1)) as [Hxy|]; [|right; by intros [??]%linked_cons].
  destruct (IH y) as [Hl|Hl]; [left|right]; rewrite linked_cons; naive_solver.
Qed.
Lemma check_sequential_spec error x l :
  check_sequential fst error (hi_prev_block_hash x.1) l = Ok tt ∧ linked (x :: l)
  ∨ check_sequential fst error (hi_prev_block_hash x.1) l = Err error ∧ ¬ linked (x :: l).
Proof.
  revert x. induction l as [|y l IH]; intros x; simpl.
  { left. split; [done|]. by intros [|i] ??. }
  rewrite linked_cons. case_bool_decide as Hxy; [|right; naive_solver].
  destruct (IH y) as [[-> Hl]|[-> Hl]]; [left|right]; naive_solver.
Qed.

Lemma nonempty_map_Ok {A B} (f : A → Res ProtoError B) l x k :
  mapR f l = Ok (x :: k) → nonempty_map f l = Ok (Some (mk_NonEmpty x k)).
Proof.
  unfold nonempty_map. destruct l as [|a l]; [done|]. simpl. intros Hl.
  apply bind_Ok in Hl as (b & -> & Hl). apply bind_Ok in Hl as (k' & -> & Hl). by simplify_eq/=.
Qed.

Lemma block_infos_sequential (service : ValidatorService) block_hash max_ancestors infos x l :
  rpc_get_block_info service (mk_GetBlockInfoRequest (Some (ReverseHex_encode block_hash))
    (Some THIS_SIDECHAIN) (Some max_ancestors)) = Ok infos →
  mapR Info_try_from infos = Ok (x :: l) →
  (linked (x :: l) ∧ get_block_infos service block_hash max_ancestors = Ok (Some (mk_NonEmpty x l)))
  ∨ (¬ linked (x :: l) ∧ get_block_infos service block_hash max_ancestors
       = Err (InvalidRepeatedValue "infos" M_GetBlockInfoResponse)).
Proof.
  intros Hcall Hinfos. unfold get_block_infos. rewrite Hcall. cbn [map_err]. rewrite ok_bind.
  rewrite (nonempty_map_Ok _ _ _ _ Hinfos), ok_bind. cbn [ne_head ne_tail].
  destruct (check_sequential_spec (invalid_repeated_value M_GetBlockInfoResponse "infos") x l)
    as [[-> Hl]|[-> Hl]]; [left|right]; done.
Qed.

(** The client checks what it is sent: asked for a block and ancestors,
    it returns the blocks that it decoded exactly if each extends the next one,
    and otherwise rejects the whole answer, naming the field; so no consumer
    sees a gap in the mainchain. *)
Theorem block_infos_are_sequential (service : ValidatorService) (block_hash : BtcBlockHash) (max_ancestors : Z)
    (infos : list G_Info) (x : BlockHeaderInfo * BlockInfo) (l : list (BlockHeaderInfo * BlockInfo))
    (Hcall : rpc_get_block_info service (mk_GetBlockInfoRequest (Some (ReverseHex_encode block_hash))
               (Some THIS_SIDECHAIN) (Some max_ancestors)) = Ok infos)
    (Hinfos : mapR Info_try_from infos = Ok (x :: l)) :
  (linked (x :: l) ∧ get_block_infos service block_hash max_ancestors = Ok (Some (mk_NonEmpty x l)))
  ∨ (¬ linked (x :: l) ∧ get_block_infos service block_hash max_ancestors
       = Err (InvalidRepeatedValue "infos" M_GetBlockInfoResponse)).
Proof. by apply block_infos_sequential with infos. Qed.

(** ** The client as the mainchain task sees it *)
Definition task_client (service : nat → ValidatorService) (n : nat) (block_hash : BtcBlockHash)
    (max_ancestors : Z) :
    Res ProtoError (option ((BlockHeaderInfo * BlockInfo) * list (BlockHeaderInfo * BlockInfo))) :=
  infos ← get_block_infos (service n) block_hash max_ancestors;
  Ok match infos with Some l => Some (ne_head l, ne_tail l) | None => None end.

(** The mainchain node has the mainchain [V] and answers a request for one of
    its blocks with the block and some of its ancestors; the [n]-th call of a
    request has its own answer. *)
Definition answers_from (V : list (BlockHeaderInfo * BlockInfo)) (service : nat → ValidatorService) : Prop :=
  ∀ n b max, b ∈ info_hash <$> V →
    ∃ x l e, rpc_get_block_info (service n) (mk_GetBlockInfoRequest (Some (ReverseHex_encode b))
               (Some THIS_SIDECHAIN) (Some max)) = Ok (enc_info <$> x :: l)
      ∧ segment V b (x :: l) e.

Lemma segment_linked V b l e : segment V b l e → linked l.
Proof.
  revert b. induction l as [|x l IH]; intros b; [by intros _ [|i] ??|].
  destruct l as [|y l]; [by intros _ [|i] ??|].
  intros (_ & _ & Hy). rewrite linked_cons. split; [by destruct Hy|by eapply IH].
Qed.
Lemma segment_in V b l e : segment V b l e → Forall (λ x, x ∈ V) l.
Proof.
  revert b. induction l as [|x l IH]; intros b; [done|]. intros (_ & ? & ?). constructor; [done|by eapply IH].
Qed.
Lemma client_serves V service :
  Forall info_ok V → answers_from V service → serves (task_client service) V.
Proof.
  intros HV Ha n b max Hb. destruct (Ha n b max Hb) as (x & l & e & Hcall & Hseg).
  exists x, l, e. split; [|done]. unfold task_client.
  destruct (block_infos_sequential (service n) b max (enc_info <$> x :: l) x l Hcall) as [[_ ->]|[[]]].
  - apply mapR_enc. eapply Forall_impl; [by eapply segment_in|]. intros y Hy. apply info_round_trip.
    rewrite Forall_forall in HV. by apply HV.
  - done.
  - by eapply segment_linked.
Qed.
End facts.

Section composition.
Context `{E : Externals} `{HL : HexLaws} `{CL : ConsensusLaws} `{AL : AddressLaws}.
Context (form : string → bool).
Context (iter_bmm : gmap BtcBlockHash BmmResult → list (BtcBlockHash * BmmResult)).
Context (work_add : Z → Z → Z).

(** C37: The mainchain task over the client over an honest mainchain node: a
    request for the ancestors of a block of the node's mainchain succeeds, in
    as many rounds as the block has ancestors at most, and leaves the block's
    header and all that was stored before in the archive, whose contents are
    the node's mainchain.  Requests and answers pass through their messages. *)
Theorem ancestors_fetched_over_grpc (V : list (BlockHeaderInfo * BlockInfo)) (service : nat → ValidatorService)
    (fuel : nat) (a : Archive) (x : BlockHeaderInfo * BlockInfo)
    (HV : mainchain V) (Hok : Forall info_ok V) (Hservice : answers_from form V service)
    (Hiter : iterates_entries iter_bmm) (Hst : stored V a) (Hx : x ∈ V)
    (Hfuel : (hi_height x.1 < Z.of_nat fuel)%Z) :
  ∃ a', request_ancestor_infos iter_bmm work_add (task_client service) fuel a (info_hash x) = (a', Ok true)
    ∧ stored V a' ∧ main_header_infos a' !! info_hash x = Some x.1
    ∧ ∀ m, reached a m → reached a' m.
Proof.
  destruct (request_ancestor_infos_ok iter_bmm work_add (task_client service) V fuel a x)
    as (a' & Ha' & Hst' & Hr & Hmono); [done|by eapply client_serves|done..|].
  exists a'. split_and!; [done..| |done].
  destruct Hr as [Hz|[hi Hhi]]; [by destruct (mc_not_zeros V HV x Hx)|].
  destruct (st_header V a' Hst' _ hi Hhi) as (i & Hin & Hh & _).
  assert ((hi, i) = x) as <- by by apply (mc_hashes V HV).
  done.
Qed.
End composition.

(** ** Witnesses: a mainchain node with five blocks *)
Module ProtoToy.
#[local] Existing Instances Toy.externals AddressToy.hex AddressToy.hex_laws AddressToy.crates AddressToy.laws.
#[local] Instance consensus : ConsensusCrate := {|
  consensus_deserialize l := match read_vec 32 l with Some (v, []) => Some v | _ => None end;
  consensus_serialize := vec_to_list
|}.
#[local] Instance consensus_laws : ConsensusLaws.
Proof. split. intros h. unfold consensus_deserialize, consensus, consensus_serialize. by rewrite read_vec_all_of. Qed.

(** As in the enforcer's schema: hashes of blocks are reversed. *)
Definition form (name : string) : bool :=
  negb (bool_decide (name = "block_hash" ∨ name = "prev_block_hash" ∨ name = "txid"))%string.

Definition block_of (request : GetBlockInfoRequest) : option (BlockHeaderInfo * BlockInfo) :=
  match gir_block_hash request with
  | Some h =>
      match ReverseHex_decode M_BlockHeaderInfo h "block_hash" with
      | Ok b => snd <$> list_find (λ x, info_hash x = b) MainchainTaskToy.toy_chain
      | _ => None
      end
  | None => None
  end.
Definition node : ValidatorService := {|
  rpc_get_block_header_info _ := Ok [];
  rpc_get_block_info request :=
    Ok match block_of request with Some x => [enc_info form x] | None => [] end;
  rpc_get_bmm_h_star_commitment _ := Ok None;
  rpc_get_chain_info := Ok 0%Z;
  rpc_get_chain_tip := Ok None;
  rpc_get_two_way_peg_data _ := Ok [];
  rpc_subscribe_events _ := Ok []
|}.

Lemma node_answers : answers_from form MainchainTaskToy.toy_chain (λ _, node).
Proof.
  intros n b max (x & -> & Hx)%list_elem_of_fmap.
  unfold node, rpc_get_block_info, block_of, gir_block_hash. rewrite ReverseHex_round_trip.
  destruct (list_find (λ y, info_hash y = info_hash x) MainchainTaskToy.toy_chain) as [[k y]|] eqn:Hy.
  - apply list_find_Some in Hy as (Hk & Hh & _). exists y, [], (info_prev y).
    split; [done|]. split_and!; [done| |done]. by eapply list_elem_of_lookup_2.
  - exfalso. apply list_find_None in Hy. rewrite Forall_forall in Hy. by apply (Hy x).
Qed.
Lemma toy_info_ok z : info_ok (MainchainTaskToy.toy_info z).
Proof. split; [simpl; lia|constructor]. Qed.
Lemma chain_ok : Forall info_ok MainchainTaskToy.toy_chain.
Proof. apply Forall_forall. intros x (n & -> & _)%MainchainTaskToy.toy_chain_elem. apply toy_info_ok. Qed.

#[local] Opaque MainchainTaskToy.opened.
Lemma ancestors_fetched_over_grpc_witness :
  ∃ a', request_ancestor_infos ArchiveToy.map_order Z.add (task_client (λ _, node)) 6
          MainchainTaskToy.opened (ArchiveToy.mh 5) = (a', Ok true)
    ∧ main_header_infos a' !! ArchiveToy.mh 5 = Some (ArchiveToy.main_header 5).
Proof.
  assert (MainchainTaskToy.toy_info (Z.of_nat 5) ∈ MainchainTaskToy.toy_chain) as Hx
    by (apply MainchainTaskToy.toy_chain_elem; exists 5; split; [done|lia]).
  destruct (ancestors_fetched_over_grpc form ArchiveToy.map_order Z.add MainchainTaskToy.toy_chain (λ _, node) 6
    MainchainTaskToy.opened (MainchainTaskToy.toy_info (Z.of_nat 5)) MainchainTaskToy.toy_mainchain chain_ok
    node_answers ArchiveToy.map_order_iterates MainchainTaskToy.opened_stored Hx ltac:(simpl; lia))
    as (a' & Ha' & _ & Hh & _).
  exists a'. split; [exact Ha'|exact Hh].
Defined.

(** A block with a deposit to nobody. *)
Definition deposit_block : BlockHeaderInfo * BlockInfo :=
  (ArchiveToy.main_header 1, mk_BlockInfo (Some (le_vec 32 77))
    [EvDeposit (mk_DepositEvent 0 (mk_BtcOutPoint (le_vec 32 5) (u32_of_Z 1)) (mk_Output (le_vec 20 9) (Value 1000)));
     EvWithdrawalBundle (mk_WithdrawalBundleEvent (le_vec 32 6) EvFailed)]).
Lemma mainchain_block_round_trip_witness :
  Info_try_from (enc_info form deposit_block) = Ok deposit_block
  ∧ StreamEvent_try_from (G_ConnectBlock (gi_header_info (enc_info form deposit_block))
      (gi_block_info (enc_info form deposit_block))) = Ok (ConnectBlock deposit_block.1 deposit_block.2).
Proof.
  apply (mainchain_block_round_trip form deposit_block). split; [split; reflexivity || (vm_compute; congruence)|].
  repeat constructor.
Defined.

Lemma deposit_address_never_fails_witness :
  ∃ o, deposit_Output_try_from
         (mk_G_DepositOutput (Some (mk_Hex (Some (hex_encode [xff; x00])))) (Some 1000%Z)) = Ok o
    ∧ content o = Value 1000
    ∧ (TransparentAddress_from_str [xff; x00] = Ok (Types.address o) ∨ Types.address o = ALL_ZEROS)
    ∧ (∀ a, [xff; x00] = as_base58 a → Types.address o = a)
    ∧ (from_utf8 [xff; x00] = None ∨ (∀ a, TransparentAddress_from_str [xff; x00] ≠ Ok a) →
       Types.address o = ALL_ZEROS).
Proof. apply (deposit_address_never_fails [xff; x00] 1000). Defined.

(** A node that leaves out a block. *)
Definition gap : list (BlockHeaderInfo * BlockInfo) := [MainchainTaskToy.toy_info 3; MainchainTaskToy.toy_info 1].
Definition lying_node : ValidatorService := {|
  rpc_get_block_header_info _ := Ok [];
  rpc_get_block_info _ := Ok (enc_info form <$> gap);
  rpc_get_bmm_h_star_commitment _ := Ok None;
  rpc_get_chain_info := Ok 0%Z;
  rpc_get_chain_tip := Ok None;
  rpc_get_two_way_peg_data _ := Ok [];
  rpc_subscribe_events _ := Ok []
|}.
Lemma gap_decodes : mapR Info_try_from (enc_info form <$> gap) = Ok gap.
Proof. apply mapR_enc. repeat constructor; apply info_round_trip, toy_info_ok. Qed.
Lemma block_infos_are_sequential_witness :
  (linked gap ∧ get_block_infos lying_node (ArchiveToy.mh 3) 999
     = Ok (Some (mk_NonEmpty (MainchainTaskToy.toy_info 3) [MainchainTaskToy.toy_info 1])))
  ∨ (¬ linked gap ∧ get_block_infos lying_node (ArchiveToy.mh 3) 999
       = Err (InvalidRepeatedValue "infos" M_GetBlockInfoResponse)).
Proof.
  exact (block_infos_are_sequential lying_node (ArchiveToy.mh 3) 999 (enc_info form <$> gap)
    (MainchainTaskToy.toy_info 3) [MainchainTaskToy.toy_info 1] eq_refl gap_decodes).
Defined.
End ProtoToy.
