(* ===== verification/Miner.v ===== *)
(** Blind merged mining ([src/lib/miner.rs]).

    The miner asks the mainchain to commit to a block, keeps the block, and
    waits for one mainchain block: if that block has the commitment the block
    is handed out, otherwise the request has expired. *)
From S2P Require Import Prelude.
From S2P Require Import Effects.
From S2P Require Import Borsh.
From S2P Require Import Serde.
From S2P Require Import Externals.
From S2P Require Import Toy.
From S2P Require Import Types.
From S2P Require Import AccumulatorDiff.
From S2P Require Import Address.
From S2P Require Import WithdrawalBundle.
From S2P Require Import TwoWayPeg.
From S2P Require Import Lineage.
From S2P Require Import Archive.
From S2P Require Import ArchiveFacts.
From S2P Require Import Proto.
From S2P Require Import ProtoFacts.

Section miner.
Context `{E : Externals} `{HexCrate} `{ConsensusCrate} `{AddressCrates}.

Inductive MinerError :=
  | CusfMainchain (e : ProtoError)
  | InvalidJson (json : value).

Record Miner := mk_Miner {
  cusf_mainchain : ValidatorService;
  cusf_mainchain_wallet : WalletService;
  miner_block : option (Header * Body)
}.
Definition Miner_new (cusf_mainchain : ValidatorService) (cusf_mainchain_wallet : WalletService) : Miner :=
  mk_Miner cusf_mainchain cusf_mainchain_wallet None.
Definition set_block (block : option (Header * Body)) (m : Miner) : Miner :=
  mk_Miner (cusf_mainchain m) (cusf_mainchain_wallet m) block.

Definition proto {A} (r : Res ProtoError A) : StR Miner MinerError A := st_lift (map_err CusfMainchain r).

Definition generate : StR Miner MinerError unit := λ m,
  proto (generate_blocks (cusf_mainchain_wallet m) 1) m.

Definition attempt_bmm (amount height : Z) (header : Header) (body : Body) : StR Miner MinerError Hash := λ m,
  (let critical_hash := Header_hash header in
   txid ← proto (create_bmm_critical_data_tx (cusf_mainchain_wallet m) amount height critical_hash
                   (prev_main_hash header));
   _ ← st_lift (assert_true (bool_decide (merkle_root header = compute_merkle_root body)));
   _ ← st_modify (set_block (Some (header, body)));
   mret txid) m.

(** The commitment of a mainchain block event. *)
Definition commits_to (event : Event) (block_hash : BlockHash) : option BtcBlockHash :=
  match event with
  | ConnectBlock header_info block_info =>
      if bool_decide (bmm_commitment block_info = Some block_hash)
      then Some (hi_block_hash header_info) else None
  | DisconnectBlock _ => None
  end.

(** Wait for a block to be connected that contains our BMM request. *)
Definition confirm_bmm : StR Miner MinerError (option (BtcBlockHash * Header * Body)) := λ m,
  match miner_block m with
  | None => (m, Ok None)
  | Some (header, body) =>
      (let block_hash := Header_hash header in
       events_stream ← proto (subscribe_events (cusf_mainchain m));
       event ← match events_stream with
         | [] => mret None
         | event :: _ => event ← proto event; mret (Some event)
         end;
       _ ← st_modify (set_block None);
       match event ≫= (λ event, commits_to event block_hash) with
       | Some main_hash => mret (Some (main_hash, header, body))
       | None => mret None
       end) m
  end.

(** ** Properties *)

(** The first item of the stream that the mainchain node opens is the
    connection of [main_hash], with a commitment to [block_hash]. *)
Definition committed (service : ValidatorService) (main_hash : BtcBlockHash) (block_hash : BlockHash) : Prop :=
  ∃ header_info block_info rest,
    subscribe_events service = Ok (Ok (ConnectBlock header_info block_info) :: rest)
    ∧ hi_block_hash header_info = main_hash ∧ bmm_commitment block_info = Some block_hash.

(** A block that the miner keeps is one whose header has the body's root. *)
Definition miner_ok (m : Miner) : Prop :=
  ∀ header body, miner_block m = Some (header, body) → merkle_root header = compute_merkle_root body.

Lemma attempt_bmm_keeps amount height header body : keeps miner_ok (attempt_bmm amount height header body).
Proof.
  intros m Hm. unfold attempt_bmm. cbv zeta. unfold mbind at 1, str_bind. unfold proto at 1, st_lift.
  destruct (map_err _ _) as [txid| |]; [|done..]. unfold st_lift. unfold mbind, str_bind.
  unfold assert_true. case_bool_decide as Hroot; simpl; [|done].
  intros h b Hb. by simplify_eq/=.
Qed.

Lemma commits_to_Some event block_hash main_hash :
  commits_to event block_hash = Some main_hash ↔
  ∃ hi bi, event = ConnectBlock hi bi ∧ hi_block_hash hi = main_hash ∧ bmm_commitment bi = Some block_hash.
Proof.
  destruct event as [hi bi|h]; simpl; [|naive_solver]. case_bool_decide; naive_solver.
Qed.

Lemma confirm_bmm_Ok m m' r :
  confirm_bmm m = (m', Ok r) →
  m' = set_block None m
  ∧ (∀ main_hash header body, r = Some (main_hash, header, body) →
       miner_block m = Some (header, body) ∧ committed (cusf_mainchain m) main_hash (Header_hash header)).
Proof.
  unfold confirm_bmm. destruct (miner_block m) as [[header body]|] eqn:Hb.
  2:{ intros Hr. injection Hr as <- <-. split; [|done]. unfold set_block. rewrite <- Hb. by destruct m. }
  cbv zeta. unfold mbind at 1, str_bind. unfold proto at 1, st_lift.
  destruct (subscribe_events (cusf_mainchain m)) as [evs| |] eqn:Hs; [|done..]. simpl.
  destruct evs as [|[event| |] evs]; [|simpl|done..].
  - unfold mbind, str_bind, mret, str_ret. simpl. intros. by simplify_eq.
  - unfold mbind, str_bind, mret, str_ret. simpl. intros Hr.
    destruct (commits_to event (Header_hash header)) as [mh|] eqn:Hc; simplify_eq; (split; [done|]); [|done].
    intros main_hash header' body' Hr. simplify_eq. split; [done|].
    apply commits_to_Some in Hc as (hi & bi & -> & Hh & Hcm). by exists hi, bi, evs.
Qed.

Lemma confirm_bmm_committed m main_hash header body :
  miner_block m = Some (header, body) → committed (cusf_mainchain m) main_hash (Header_hash header) →
  confirm_bmm m = (set_block None m, Ok (Some (main_hash, header, body))).
Proof.
  intros Hb (hi & bi & rest & Hs & <- & Hc). unfold confirm_bmm. rewrite Hb. cbv zeta.
  unfold mbind at 1, str_bind. unfold proto at 1, st_lift. rewrite Hs. cbn [map_err].
  unfold mbind, str_bind, mret, str_ret. simpl. by rewrite bool_decide_eq_true_2.
Qed.

(** The block is kept only when the events could not be read. *)
Lemma confirm_bmm_block m m' r : confirm_bmm m = (m', r) → m' = m ∨ m' = set_block None m.
Proof.
  unfold confirm_bmm. destruct (miner_block m) as [[header body]|]; [|intros; simplify_eq; by left].
  cbv zeta. unfold mbind at 1, str_bind. unfold proto at 1, st_lift.
  destruct (subscribe_events (cusf_mainchain m)) as [evs| |]; simpl; [|intros; simplify_eq; by left..].
  unfold mbind, str_bind, mret, str_ret, st_modify, st_lift.
  destruct evs as [|[event| |] evs]; simpl;
    repeat case_match; intros; simplify_eq; auto.
Qed.

(** What the miner hands out was committed to: after any attempts, a
    confirmed block is the one of the last attempt that was kept, its header
    has the merkle root of its body, and the mainchain node's next event is the
    connection of that mainchain block with the commitment to its hash, and
    such a block is always confirmed;
    whatever the outcome, the block is not kept, so it is handed out once. *)
Theorem confirmed_block_was_committed (m m' : Miner) (r : option (BtcBlockHash * Header * Body))
    (Hm : miner_ok m) (Hr : confirm_bmm m = (m', Ok r)) :
  miner_block m' = None ∧ (confirm_bmm m').2 = Ok None
  ∧ ∀ main_hash header body, r = Some (main_hash, header, body) ↔
      miner_block m = Some (header, body) ∧ merkle_root header = compute_merkle_root body
      ∧ committed (cusf_mainchain m) main_hash (Header_hash header).
Proof.
  pose proof (confirm_bmm_Ok _ _ _ Hr) as [-> Hr']. split_and!; [done..|].
  intros main_hash header body. split.
  - intros ->. destruct (Hr' _ _ _ eq_refl) as [Hb Hc]. split_and!; [done|by apply Hm|done].
  - intros (Hb & _ & Hc). rewrite (confirm_bmm_committed m main_hash header body) in Hr by done. congruence.
Qed.
End miner.

Module MinerToy.
#[local] Existing Instances Toy.externals AddressToy.hex AddressToy.hex_laws AddressToy.crates AddressToy.laws
  ProtoToy.consensus ProtoToy.consensus_laws.

Definition body : Body := mk_Body [] [] [].
Definition header : Header := mk_Header (compute_merkle_root body) None (ArchiveToy.mh 1) [].
Definition info : BlockHeaderInfo * BlockInfo :=
  (ArchiveToy.main_header 2, mk_BlockInfo (Some (Header_hash header)) []).
(** A mainchain node whose next block has the commitment. *)
Definition committing_node : ValidatorService := {|
  rpc_get_block_header_info _ := Ok [];
  rpc_get_block_info _ := Ok [];
  rpc_get_bmm_h_star_commitment _ := Ok None;
  rpc_get_chain_info := Ok 0%Z;
  rpc_get_chain_tip := Ok None;
  rpc_get_two_way_peg_data _ := Ok [];
  rpc_subscribe_events _ :=
    let i := enc_info ProtoToy.form info in
    Ok [Ok (Some (Some (G_ConnectBlock (gi_header_info i) (gi_block_info i))))]
|}.
Definition wallet_service : WalletService := {|
  rpc_broadcast_withdrawal_bundle _ := Ok tt;
  rpc_create_bmm_critical_data_transaction _ := Ok None;
  rpc_create_deposit_transaction _ := Ok None;
  rpc_create_new_address := Ok [];
  rpc_generate_blocks _ := []
|}.
Definition miner : Miner := mk_Miner committing_node wallet_service (Some (header, body)).

Lemma info_is_ok : info_ok info.
Proof. split; [split; reflexivity || (vm_compute; congruence)|constructor]. Qed.
Lemma node_commits : committed committing_node (ArchiveToy.mh 2) (Header_hash header).
Proof.
  exists info.1, info.2, []. split_and!; [|done..].
  unfold subscribe_events, committing_node, rpc_subscribe_events. cbn [map_err]. rewrite ok_bind.
  unfold map, stream_item, Event_try_from, required. cbv zeta. cbn [ok_or]. rewrite ok_bind. cbn [ok_or].
  by rewrite ok_bind, (stream_event_round_trip ProtoToy.form info info_is_ok).
Qed.
Lemma confirms : confirm_bmm miner =
  (set_block None miner, Ok (Some (ArchiveToy.mh 2, header, body))).
Proof. apply confirm_bmm_committed; [done|apply node_commits]. Qed.
Lemma confirmed_block_was_committed_witness :
  miner_block (set_block None miner) = None
  ∧ (confirm_bmm (set_block None miner)).2 = Ok None
  ∧ ∀ main_hash h b, Some (ArchiveToy.mh 2, header, body) = Some (main_hash, h, b) ↔
      miner_block miner = Some (h, b) ∧ merkle_root h = compute_merkle_root b
      ∧ committed (cusf_mainchain miner) main_hash (Header_hash h).
Proof.
  refine (confirmed_block_was_committed miner (set_block None miner) (Some (ArchiveToy.mh 2, header, body)) _ confirms).
  intros h b Hb. injection Hb as <- <-. reflexivity.
Defined.
End MinerToy.
