(* ===== verification/Net.v ===== *)
(** Peers ([src/lib/net]): the messages they exchange and their encoding, the
    queue of outbound requests of a connection ([net/peer/request_queue.rs]),
    and the table of connections and known peers ([net/mod.rs]).

    The transport (QUIC streams) and the tasks that read it are not modelled:
    a connection is its status, and the queue of messages pushed to its task. *)
From S2P Require Import Prelude.
From S2P Require Import Borsh.
From S2P Require Import Externals.
From S2P Require Import Toy.
From S2P Require Import Types.
From S2P Require Import Authorization.
From S2P Require Import Limits.
From S2P Require Import State.
From S2P Require Import TwoWayPeg.
From S2P Require Import Lineage.
From S2P Require Import Archive.

(** ** Addresses ([std::net]) *)
Inductive IpAddr :=
  | Ipv4Addr (a b c d : Z)
  | Ipv6Addr (bits : Z).
Record SocketAddr := mk_SocketAddr {
  ip : IpAddr;
  port : Z;
  flowinfo : Z;
  scope_id : Z
}.
Definition SocketAddr_v4 (ip : IpAddr) (port : Z) : SocketAddr := mk_SocketAddr ip port 0 0.

#[export] Instance IpAddr_eq_dec : EqDecision IpAddr.
Proof. solve_decision. Defined.
#[export] Instance SocketAddr_eq_dec : EqDecision SocketAddr.
Proof. solve_decision. Defined.
#[export] Instance IpAddr_countable : Countable IpAddr.
Proof.
  refine (inj_countable' (λ i, match i with
    | Ipv4Addr a b c d => inl (a, b, c, d)
    | Ipv6Addr z => inr z end)
    (λ x, match x with inl (a, b, c, d) => Ipv4Addr a b c d | inr z => Ipv6Addr z end) _).
  by intros [].
Defined.
#[export] Instance SocketAddr_countable : Countable SocketAddr.
Proof.
  refine (inj_countable' (λ s, (ip s, port s, flowinfo s, scope_id s))
    (λ '(i, p, f, s), mk_SocketAddr i p f s) _).
  by intros [].
Defined.

Definition is_unspecified (i : IpAddr) : bool :=
  match i with
  | Ipv4Addr a b c d => ((a =? 0) && (b =? 0) && (c =? 0) && (d =? 0))%Z
  | Ipv6Addr z => (z =? 0)%Z
  end.

(** ** Networks *)
Inductive Network := Signet | Regtest | Forknet.
#[export] Instance Network_eq_dec : EqDecision Network.
Proof. solve_decision. Defined.

Definition THIS_SIDECHAIN : Z := 98.

Definition magic_bytes (network : Network) : list Z :=
  let b0 := 141%Z in
  let b1 := 25%Z in
  let b2 := 40%Z in
  let b3 := match network with
    | Regtest => 0%Z
    | Signet => Z.lor 0 1
    | Forknet => Z.lor 0 2
    end in
  [b0; b1; b2; b3].

Definition SIGNET_SEED_NODE_ADDRS : list SocketAddr :=
  [SocketAddr_v4 (Ipv4Addr 172 105 148 135) (4000 + THIS_SIDECHAIN);
   SocketAddr_v4 (Ipv4Addr 95 217 243 12) (4000 + THIS_SIDECHAIN)].
Definition FORKNET_SEED_NODE_ADDRS : list SocketAddr :=
  [SocketAddr_v4 (Ipv4Addr 157 180 8 224) (4000 + THIS_SIDECHAIN)].
Definition seed_node_addrs (network : Network) : list SocketAddr :=
  match network with
  | Signet => SIGNET_SEED_NODE_ADDRS
  | Regtest => []
  | Forknet => FORKNET_SEED_NODE_ADDRS
  end.

(** [bitcoin::Work] *)
Abbreviation Work := Z.
Abbreviation PeerStateId := Hash.

Section net.
Context `{E : Externals}.

(** ** Peer states *)

Record Version := mk_Version { major : Z; minor : Z; patch : Z }.
Record TipInfo := mk_TipInfo {
  block_height : Z;
  ti_tip : Tip;
  ti_total_work : Work
}.
Record PeerState := mk_PeerState {
  tip_info : option TipInfo;
  ps_version : Version
}.

#[export] Instance Version_serialize : BorshSerialize Version := λ v,
  borsh_u64 (major v) ++ borsh_u64 (minor v) ++ borsh_u64 (patch v).
#[export] Instance Tip_serialize : BorshSerialize Tip := λ t,
  borsh (tip_block_hash t) ++ borsh (tip_main_block_hash t).
Definition borsh_serialize_work (work : Work) : list byte := vec_to_list (le_vec 32 work).
#[export] Instance TipInfo_serialize : BorshSerialize TipInfo := λ t,
  vec_to_list (le_vec 4 (block_height t)) ++ borsh (ti_tip t) ++ borsh_serialize_work (ti_total_work t).
#[export] Instance PeerState_serialize : BorshSerialize PeerState := λ p,
  borsh (tip_info p) ++ borsh (ps_version p).
Definition PeerStateId_from (peer_state : PeerState) : PeerStateId := hash peer_state.

(** ** Messages *)
Record GetBlockRequest := mk_GetBlockRequest {
  gb_block_hash : BlockHash;
  gb_descendant_tip : option Tip;
  gb_ancestor : option BlockHash;
  gb_peer_state_id : option PeerStateId
}.
Record GetHeadersRequest := mk_GetHeadersRequest {
  gh_start : gset BlockHash;
  gh_end : BlockHash;
  gh_height : option Z;
  gh_peer_state_id : option PeerStateId
}.
Inductive Request :=
  | GetBlock (request : GetBlockRequest)
  | GetHeaders (request : GetHeadersRequest)
  | PushTransaction (transaction : AuthorizedTransaction).

(** A [HashSet] is serialized in the order of its elements; skipped fields are
    not serialized. *)
Definition hash_le (x y : Hash) : Prop := bytes_cmp (vec_to_list x) (vec_to_list y) ≠ Gt.
#[local] Instance hash_le_dec x y : Decision (hash_le x y).
Proof. unfold hash_le. apply _. Defined.
#[export] Instance GetBlockRequest_serialize : BorshSerialize GetBlockRequest := λ r,
  borsh (gb_block_hash r).
#[export] Instance GetHeadersRequest_serialize : BorshSerialize GetHeadersRequest := λ r,
  borsh (merge_sort hash_le (elements (gh_start r))) ++ borsh (gh_end r).
#[export] Instance AuthorizedTransaction_serialize : BorshSerialize AuthorizedTransaction := λ t,
  borsh (at_transaction t) ++ borsh (authorizations t).
#[export] Instance Request_serialize : BorshSerialize Request := λ r,
  match r with
  | GetBlock r => x00 :: borsh r
  | GetHeaders r => x01 :: borsh r
  | PushTransaction t => x02 :: borsh t
  end.

(** The bytes read at most in answer to a request; [usize] has 64 bits. *)
Definition READ_HEADER_LIMIT : Z := 2048.
Definition GetBlockRequest_read_response_limit : Z := (10 * 1024 * 1024)%Z.
Definition GetHeadersRequest_read_response_limit {Er} (r : GetHeadersRequest) : Res Er Z :=
  height ← expect (gh_height r);
  let expected_headers := (height + 1)%Z in
  expect (if (expected_headers * READ_HEADER_LIMIT <? 2 ^ 64)%Z
          then Some (expected_headers * READ_HEADER_LIMIT)%Z else None).
Definition PushTransactionRequest_read_response_limit : Z := 256%Z.
Definition read_response_limit {Er} (r : Request) : Res Er Z :=
  match r with
  | GetBlock _ => Ok GetBlockRequest_read_response_limit
  | GetHeaders r => GetHeadersRequest_read_response_limit r
  | PushTransaction _ => Ok PushTransactionRequest_read_response_limit
  end.

Inductive RequestMessage :=
  | RmHeartbeat (state : PeerState)
  | RmRequest (request : Request).
Inductive ResponseMessage :=
  | RBlock (header : Header) (body : Body)
  | RHeaders (headers : list Header)
  | RNoBlock (block_hash : BlockHash)
  | RNoHeader (block_hash : BlockHash)
  | RTransactionAccepted (txid : Txid)
  | RTransactionRejected (txid : Txid).

(** ** Errors of a connection *)
Inductive BanReason :=
  | BmmVerificationFailed (tip : Tip)
  | IncorrectTotalWork (tip : Tip) (total_work : Work).
Inductive TaskError :=
  | TeArchive (e : ArchiveError)
  | TePeerBan (reason : BanReason)
  | TeSendRequest
  | TeState (e : Error).
Inductive MailboxError :=
  | MbBlockingTask (e : TaskError)
  | MbBlockingTaskJoin
  | MbForwardResponse (e : ArchiveError)
  | MbHeartbeatTimeout
  | MbReceiveRequest
  | MbRequestQueue
  | MbSendResponse.
Inductive ConnectionError :=
  | CeArchive (e : ArchiveError)
  | CeConnection
  | CeMailbox (e : MailboxError)
  | CeMissingPeerState (id : PeerStateId)
  | CeReceiveResponse
  | CeSendHeartbeat
  | CeSendRequest
  | CeState (e : Error).

(** From the net task or node to a connection; the payload of an error is not
    kept. *)
Inductive InternalMessage :=
  | ImBmmVerification (found : bool) (peer_state_id : PeerStateId)
  | ImBmmVerificationError
  | ImForwardRequest (request : Request)
  | ImMainchainAncestors (peer_state_id : PeerStateId)
  | ImMainchainAncestorsError
  | ImHeaders (peer_state_id : PeerStateId)
  | ImBodiesAvailable (peer_state_id : PeerStateId).

(** From a connection to the net task. *)
Inductive Info :=
  | IError (e : ConnectionError)
  | INeedMainchainAncestors (main_hash : BtcBlockHash) (peer_state_id : PeerStateId)
  | INewTipReady (tip : Tip)
  | INewTransaction (transaction : AuthorizedTransaction)
  | IResponse (response : ResponseMessage) (request : Request).

(** ** The request queue of a connection *)
Definition REQUEST_QUOTA : Z := 50000.
Definition request_cost (r : Request) : Z :=
  match r with
  | GetBlock _ => 1000%Z
  | GetHeaders _ => 10000%Z
  | PushTransaction _ => 10%Z
  end.

(** [rq_open]: the receivers of the two channels exist. *)
Record RequestQueue := mk_RequestQueue {
  rq_heartbeats : list PeerState;
  rq_requests : list Request;
  rq_hashes : gset Hash;
  rq_open : bool
}.
Definition RequestQueue_new : RequestQueue := mk_RequestQueue [] [] ∅ true.

Definition send_heartbeat (q : RequestQueue) (heartbeat : PeerState) : RequestQueue * Res ConnectionError unit :=
  if rq_open q
  then (mk_RequestQueue (rq_heartbeats q ++ [heartbeat]) (rq_requests q) (rq_hashes q) true, Ok tt)
  else (q, Err CeSendHeartbeat).
Definition send_request (q : RequestQueue) (request : Request) : RequestQueue * Res TaskError bool :=
  let request_hash := hash request in
  if bool_decide (request_hash ∈ rq_hashes q) then (q, Ok false)
  else
    let hashes := {[request_hash]} ∪ rq_hashes q in
    if rq_open q
    then (mk_RequestQueue (rq_heartbeats q) (rq_requests q ++ [request]) hashes true, Ok true)
    else (mk_RequestQueue (rq_heartbeats q) (rq_requests q) hashes false, Err TeSendRequest).

(** ** Connections and known peers *)
Inductive PeerConnectionStatus := Connecting | Connected.
Definition PeerConnectionStatus_from_repr (repr : bool) : PeerConnectionStatus :=
  if repr then Connected else Connecting.
Definition PeerConnectionStatus_as_repr (s : PeerConnectionStatus) : bool :=
  match s with Connecting => false | Connected => true end.

(** [ch_open]: the connection task has not ended. *)
Record ConnectionHandle := mk_ConnectionHandle {
  received_msg_successfully : bool;
  status_repr : bool;
  ch_messages : list InternalMessage;
  ch_open : bool
}.
Definition connection_status (h : ConnectionHandle) : PeerConnectionStatus :=
  PeerConnectionStatus_from_repr (status_repr h).
Definition peer_handle : ConnectionHandle :=
  mk_ConnectionHandle false (PeerConnectionStatus_as_repr Connected) [] true.
Definition peer_connect : ConnectionHandle :=
  mk_ConnectionHandle false (PeerConnectionStatus_as_repr Connecting) [] true.

Record Net := mk_Net {
  net_network : Network;
  active_peers : gmap SocketAddr ConnectionHandle;
  known_peers : gset SocketAddr;
  net_version : option Version
}.
Definition with_active (n : Net) (a : gmap SocketAddr ConnectionHandle) : Net :=
  mk_Net (net_network n) a (known_peers n) (net_version n).
Definition with_known (n : Net) (k : gset SocketAddr) : Net :=
  mk_Net (net_network n) (active_peers n) k (net_version n).

Section connect.
(** [Endpoint::connect] of quinn, and its error for an invalid remote address. *)
Context {ConnectError : Type} (quinn_connect : SocketAddr → option ConnectError).
Context (InvalidRemoteAddress : SocketAddr → ConnectError).
Context `{EqDecision ConnectError}.
(** The order of the database of known peers. *)
Context (iter_known : gset SocketAddr → list SocketAddr).

Inductive NetError :=
  | NetAlreadyConnected (addr : SocketAddr)
  | NetConnect (e : ConnectError)
  | NetUnspecfiedPeerIP (ip : IpAddr)
  | NetServerEndpointClosed
  | NetConnection (addr : SocketAddr).

Definition add_active_peer (n : Net) (addr : SocketAddr) (h : ConnectionHandle) : Res NetError Net :=
  match active_peers n !! addr with
  | Some _ => Err (NetAlreadyConnected addr)
  | None => Ok (with_active n (<[addr := h]> (active_peers n)))
  end.
Definition remove_active_peer (n : Net) (addr : SocketAddr) : Net :=
  with_active n (delete addr (active_peers n)).
Definition try_with_active_peer_connection {A} (n : Net) (addr : SocketAddr)
    (f : ConnectionHandle → A) : option A := f <$> active_peers n !! addr.
Definition get_active_peers (n : Net) : list (SocketAddr * PeerConnectionStatus) :=
  prod_map id connection_status <$> map_to_list (active_peers n).

Definition connect_peer (n : Net) (addr : SocketAddr) : Net * Res NetError unit :=
  match active_peers n !! addr with
  | Some _ => (n, Err (NetAlreadyConnected addr))
  | None =>
      if is_unspecified (ip addr) then (n, Err (NetUnspecfiedPeerIP (ip addr)))
      else
        match quinn_connect addr with
        | Some e => (n, Err (NetConnect e))
        | None =>
            let n := with_known n ({[addr]} ∪ known_peers n) in
            match add_active_peer n addr peer_connect with
            | Ok n => (n, Ok tt)
            | Err e => (n, Err e)
            | Panic => (n, Panic)
            end
        end
  end.
Definition forget_peer (n : Net) (addr : SocketAddr) : Net * bool :=
  (with_known n (known_peers n ∖ {[addr]}), bool_decide (addr ∈ known_peers n)).

(** The databases and the connections of a new [Net]; [known]: the stored
    peers, if the database exists. *)
Definition connect_known (n : Net) (peer_addr : SocketAddr) : Net * Res NetError unit :=
  match connect_peer n peer_addr with
  | (n, Err (NetConnect e)) =>
      if bool_decide (e = InvalidRemoteAddress peer_addr)
      then (with_known n (known_peers n ∖ {[peer_addr]}), Ok tt)
      else (n, Err (NetConnect e))
  | r => r
  end.
Fixpoint connect_all_known (n : Net) (addrs : list SocketAddr) : Net * Res NetError unit :=
  match addrs with
  | [] => (n, Ok tt)
  | addr :: addrs =>
      match connect_known n addr with
      | (n, Ok _) => connect_all_known n addrs
      | r => r
      end
  end.
Definition Net_new (network : Network) (known : option (gset SocketAddr)) (version : option Version)
    (VERSION : Version) : Net * Res NetError unit :=
  let known_peers := match known with
    | Some known_peers => known_peers
    | None => list_to_set (seed_node_addrs network)
    end in
  let n := mk_Net network ∅ known_peers (Some (default VERSION version)) in
  connect_all_known n (iter_known known_peers).

(** An incoming connection: the handshake failed, or the connection was closed
    since, or it is open. *)
Inductive Handshake := HandshakeFailed | HandshakeClosed | HandshakeOpen.
(** [None]: the endpoint is closed. *)
Definition accept_incoming (n : Net) (incoming : option (SocketAddr * Handshake)) :
    Net * Res NetError (option SocketAddr) :=
  match incoming with
  | None => (n, Err NetServerEndpointClosed)
  | Some (addr, HandshakeFailed) => (n, Err (NetConnection addr))
  | Some (addr, HandshakeClosed) => (n, Ok None)
  | Some (addr, HandshakeOpen) =>
      match active_peers n !! addr with
      | Some _ => (n, Ok None)
      | None =>
          let n := with_known n ({[addr]} ∪ known_peers n) in
          match add_active_peer n addr peer_handle with
          | Ok n => (n, Ok (Some addr))
          | Err e => (n, Err e)
          | Panic => (n, Panic)
          end
      end
  end.

Definition push_to (h : ConnectionHandle) (message : InternalMessage) : ConnectionHandle :=
  mk_ConnectionHandle (received_msg_successfully h) (status_repr h) (ch_messages h ++ [message]) (ch_open h).
Definition push_internal_message (n : Net) (message : InternalMessage) (addr : SocketAddr) : Net * bool :=
  match active_peers n !! addr with
  | None => (n, false)
  | Some h =>
      if ch_open h then (with_active n (<[addr := push_to h message]> (active_peers n)), true)
      else (n, false)
  end.

Definition push_tx_to (exclude : gset SocketAddr) (tx : AuthorizedTransaction) (addr : SocketAddr)
    (h : ConnectionHandle) : ConnectionHandle :=
  if bool_decide (addr ∈ exclude) then h
  else match connection_status h with
    | Connecting => h
    | Connected => if ch_open h then push_to h (ImForwardRequest (PushTransaction tx)) else h
    end.
Definition push_tx (n : Net) (exclude : gset SocketAddr) (tx : AuthorizedTransaction) : Net :=
  with_active n (map_imap (λ addr h, Some (push_tx_to exclude tx addr h)) (active_peers n)).
End connect.

(** ** Requests are sent once *)
Definition sends (q q' : RequestQueue) : Prop := ∃ request, q' = (send_request q request).1.

Lemma sends_hashes q q' : rtc sends q q' → rq_hashes q ⊆ rq_hashes q'.
Proof.
  induction 1 as [|q q1 q2 [request ->] _ IH]; [done|]. etransitivity; [|exact IH].
  unfold send_request. case_bool_decide; [done|]. destruct (rq_open q); simpl; set_solver.
Qed.
Lemma sent_hash q request q' b : send_request q request = (q', Ok b) → hash request ∈ rq_hashes q'.
Proof.
  unfold send_request. case_bool_decide; [by intros [= <- _]|].
  destruct (rq_open q); [|done]. intros [= <- _]. simpl. set_solver.
Qed.

(** A request is sent once: after a request for a block was sent to a
    peer, no later request for the same block is, whatever tip it is for and
    however the first one was answered; the same holds for headers with the
    same start and end. A block that the peer did not have, or an answer that
    was lost, is never asked for again on this connection. *)
Theorem request_never_repeated (q q1 q2 : RequestQueue) (sent again : Request) (b : bool)
    (Hsent : send_request q sent = (q1, Ok b)) (Hlater : rtc sends q1 q2)
    (Hsame : match sent, again with
      | GetBlock r, GetBlock r' => gb_block_hash r' = gb_block_hash r
      | GetHeaders r, GetHeaders r' => gh_start r' = gh_start r ∧ gh_end r' = gh_end r
      | _, _ => False
      end) :
  send_request q2 again = (q2, Ok false).
Proof.
  assert (hash again = hash sent) as Hhash.
  { unfold hash, borsh, Request_serialize, borsh, GetBlockRequest_serialize, GetHeadersRequest_serialize.
    destruct sent, again; try done; [by rewrite Hsame|by destruct Hsame as [-> ->]]. }
  unfold send_request. rewrite bool_decide_true; [done|]. rewrite Hhash.
  apply (sends_hashes q1 q2 Hlater). by eapply sent_hash.
Qed.

(** A full block outgrows the answer that may carry it: from height
    25920 on (six months) the body size limit of consensus is above the ten
    megabytes that a node reads in answer to a request for a block, whatever
    the request; below it the limit of consensus leaves room. The answer is
    longer than the body, so a full block of that height is valid and cannot
    be fetched from a peer. *)
Theorem full_block_exceeds_read_limit {Er} (h : Z) (request : GetBlockRequest) (Hh : (0 ≤ h)%Z) :
  ∃ bytes, read_response_limit (Er := Er) (GetBlock request) = Ok bytes
    ∧ ((bytes < body_size_limit h)%Z ↔ (25920 ≤ h)%Z).
Proof.
  eexists. split; [reflexivity|].
  pose proof (limit_mono _ size_growth_ok) as Hmono.
  assert (body_size_limit 25919 = 10206024%Z ∧ body_size_limit 25920 = 10614265%Z) as [Hlow Hhigh].
  { split; vm_compute; reflexivity. }
  destruct (Z.le_gt_cases 25920 h) as [Hge|Hlt].
  - specialize (Hmono 25920%Z h ltac:(lia)).
    assert (body_size_limit 25920 ≤ body_size_limit h)%Z by exact Hmono.
    unfold GetBlockRequest_read_response_limit. lia.
  - specialize (Hmono h 25919%Z ltac:(lia)).
    assert (body_size_limit h ≤ body_size_limit 25919)%Z by exact Hmono.
    unfold GetBlockRequest_read_response_limit. lia.
Qed.

End net.

(** ** Witness *)
Module NetToy.
#[local] Existing Instance Toy.externals.

(** A block is asked for, then headers, then the same block for another tip. *)
Definition first_tip : Tip := mk_Tip (le_vec 32 1) (le_vec 32 2).
Definition block_request (id : PeerStateId) : Request :=
  GetBlock (mk_GetBlockRequest (le_vec 32 1) (Some first_tip) None (Some id)).
Definition headers_request : Request := GetHeaders (mk_GetHeadersRequest ∅ (le_vec 32 9) (Some 4%Z) None).
Definition queue1 : RequestQueue := (send_request RequestQueue_new (block_request (le_vec 32 5))).1.
Definition queue2 : RequestQueue := (send_request queue1 headers_request).1.
Example both_sent : length (rq_requests queue2) = 2.
Proof. vm_compute. reflexivity. Qed.

Lemma request_never_repeated_witness :
  send_request queue2 (block_request (le_vec 32 6)) = (queue2, Ok false).
Proof.
  refine (request_never_repeated RequestQueue_new queue1 queue2 (block_request (le_vec 32 5))
    (block_request (le_vec 32 6)) true _ _ _).
  - unfold queue1, send_request. by rewrite bool_decide_false by set_solver.
  - apply rtc_once. exists headers_request. exact eq_refl.
  - exact eq_refl.
Defined.

Lemma full_block_exceeds_read_limit_witness :
  body_size_limit 25920 = 10614265%Z
  ∧ ∃ bytes, read_response_limit (Er := ConnectionError) (GetBlock (mk_GetBlockRequest (le_vec 32 1) None None None)) = Ok bytes
      ∧ ((bytes < body_size_limit 25920)%Z ↔ (25920 ≤ 25920)%Z).
Proof.
  split; [vm_compute; reflexivity|].
  refine (full_block_exceeds_read_limit 25920 (mk_GetBlockRequest (le_vec 32 1) None None None) _). lia.
Defined.
End NetToy.
