(* ===== verification/Wire.v ===== *)
(** Frames ([src/lib/net/peer/mod.rs], [message.rs], [error.rs]): how the
    messages of [Net] are written to the streams of a connection, and read.

    A frame is the magic bytes of the network and the message in [bincode].
    The crates [quinn] (streams) and [bincode] are parameters, with laws: a
    stream that was finished and not lost presents the bytes that were written;
    [bincode] reads back what it wrote.  A message is serialized through [Repr],
    without the fields that only matter to the requester. *)
From S2P Require Import Prelude.
From S2P Require Import Borsh.
From S2P Require Import Externals.
From S2P Require Import Toy.
From S2P Require Import Types.
From S2P Require Import Authorization.
From S2P Require Import Effects.
From S2P Require Import Archive.
From S2P Require Import Net.

(** ** Crates [quinn] and [bincode] *)
Class Quinn := {
  SendStream : Type;
  RecvStream : Type;
  QConnectionError : Type;
  QReadExactError : Type;
  QReadToEndError : Type;
  QWriteError : Type;
  QClosedStream : Type;
  stream_id : SendStream → Z;
  read_exact : RecvStream → nat → Res QReadExactError (list byte * RecvStream);
  read_to_end : RecvStream → Z → Res QReadToEndError (list byte);
  write_all : list byte → StR SendStream QWriteError unit;
  finish : StR SendStream QClosedStream unit
}.
(** [presents rx b]: the other side wrote [b] and finished the stream, and
    nothing was lost; [written tx b]: [b] is what was written so far. *)
Class QuinnLaws `{Quinn} := {
  presents : RecvStream → list byte → Prop;
  written : SendStream → list byte → Prop;
  read_exact_enough rx n b : presents rx b → n ≤ length b →
    ∃ rx', read_exact rx n = Ok (take n b, rx') ∧ presents rx' (drop n b);
  read_exact_short rx n b : presents rx b → length b < n → ∃ e, read_exact rx n = Err e;
  read_to_end_all rx limit b : presents rx b → (Z.of_nat (length b) ≤ limit)%Z → read_to_end rx limit = Ok b;
  read_to_end_too_long rx limit b : presents rx b → (limit < Z.of_nat (length b))%Z →
    ∃ e, read_to_end rx limit = Err e;
  write_all_written tx b more tx' : written tx b → write_all more tx = (tx', Ok tt) → written tx' (b ++ more);
  finish_written tx b tx' : written tx b → finish tx = (tx', Ok tt) → written tx' b
}.
Class Bincode (A : Type) := {
  bincode_serialize : A → option (list byte);
  bincode_deserialize : list byte → option A
}.
Class BincodeLaws (A : Type) `{Bincode A} := {
  bincode_ok : A → Prop;
  bincode_round_trip a b : bincode_ok a → bincode_serialize a = Some b → bincode_deserialize b = Some a
}.
#[global] Arguments stream_id {_} _.

Definition MAGIC_BYTES_LEN : nat := 4.
Definition MagicBytes (network : Network) : list byte := byte_of_Z <$> magic_bytes network.
(** 100KB *)
Definition READ_REQUEST_LIMIT : Z := (100 * 1024)%Z.

(** ** Errors *)
Section errors.
Context `{Quinn}.
Inductive Send :=
  | SendBincode
  | ClosedStream (e : QClosedStream)
  | SendConnection (e : QConnectionError)
  | Write (stream_id : Z) (source : QWriteError).
Inductive Receive :=
  | BadMagic (magic : list byte)
  | ReceiveBincode
  | ReceiveConnection (e : QConnectionError)
  | ReadMagic (e : QReadExactError)
  | ReadToEnd (e : QReadToEndError).
End errors.

Section wire.
Context `{E : Externals, Q : Quinn}.

(** ** The serialized form of a request *)
Inductive RequestMessageRef :=
  | RefHeartbeat (heartbeat : PeerState)
  | RefRequest (request : Request).
Definition RequestMessage_as_ref (m : RequestMessage) : RequestMessageRef :=
  match m with RmHeartbeat h => RefHeartbeat h | RmRequest r => RefRequest r end.
Definition RequestMessageRef_read_response_limit {Er} (m : RequestMessageRef) : Res Er (option Z) :=
  match m with
  | RefHeartbeat _ => Ok None
  | RefRequest request => Some <$> read_response_limit request
  end.

Inductive Repr :=
  | ReprHeartbeat (heartbeat : PeerState)
  | ReprGetBlock (block_hash : BlockHash)
  | ReprGetHeaders (start : list BlockHash) (end_ : BlockHash)
  | ReprPushTransaction (transaction : AuthorizedTransaction).
(** The order in which a hash set is iterated. *)
Context (iter_start : gset BlockHash → list BlockHash).
Definition RequestMessageRef_serialize (m : RequestMessageRef) : Repr :=
  match m with
  | RefHeartbeat heartbeat => ReprHeartbeat heartbeat
  | RefRequest (GetBlock r) => ReprGetBlock (gb_block_hash r)
  | RefRequest (GetHeaders r) => ReprGetHeaders (iter_start (gh_start r)) (gh_end r)
  | RefRequest (PushTransaction t) => ReprPushTransaction t
  end.
(** A skipped field is read as its default. *)
Definition RequestMessage_deserialize (repr : Repr) : RequestMessage :=
  match repr with
  | ReprHeartbeat heartbeat => RmHeartbeat heartbeat
  | ReprGetBlock block_hash => RmRequest (GetBlock (mk_GetBlockRequest block_hash None None None))
  | ReprGetHeaders start end_ =>
      RmRequest (GetHeaders (mk_GetHeadersRequest (list_to_set start) end_ None None))
  | ReprPushTransaction t => RmRequest (PushTransaction t)
  end.

Context `{Bincode Repr, Bincode ResponseMessage}.

(** ** Sending

    The state is the stream to write to; a stream that is dropped is finished. *)
Abbreviation Sending := (StR SendStream Send).
Definition write_frame (bytes : list byte) : Sending unit :=
  λ tx, let '(tx', r) := write_all bytes tx in (tx', map_err (Write (stream_id tx')) r).
Definition serialized {A} `{Bincode A} (message : A) : Sending (list byte) :=
  st_lift (match bincode_serialize message with Some b => Ok b | None => Err SendBincode end).
Definition send_message (network : Network) (message : RequestMessageRef) : Sending unit :=
  payload ← serialized (RequestMessageRef_serialize message);
  let message_buf := MagicBytes network ++ payload in
  _ ← write_frame message_buf;
  st_map_err ClosedStream finish.
(** [opened]: what [open_bi] returned, a stream to write to and the stream of
    the answer. *)
Definition on_opened {A} (opened : Res QConnectionError (SendStream * RecvStream))
    (f : RecvStream → Sending A) : option SendStream * Res Send A :=
  match opened with
  | Ok (send, recv) => let '(send, r) := f recv send in (Some send, r)
  | Err e => (None, Err (SendConnection e))
  | Panic => (None, Panic)
  end.
Definition wire_send_heartbeat (network : Network) (heartbeat : PeerState)
    (opened : Res QConnectionError (SendStream * RecvStream)) : option SendStream * Res Send unit :=
  on_opened opened (λ _recv, send_message network (RefHeartbeat heartbeat)).
Definition send_response (network : Network) (response : ResponseMessage) : Sending unit :=
  payload ← serialized response;
  let message_buf := MagicBytes network ++ payload in
  write_frame message_buf.
Definition send_serialized_response (network : Network) (serialized_response : list byte) : Sending unit :=
  _ ← write_frame (MagicBytes network);
  write_frame serialized_response.

(** ** Receiving *)
Definition receive_frame {A} `{Bincode A} (network : Network) (limit : Z) (rx : RecvStream) : Res Receive A :=
  '(magic_bytes, rx) ← map_err ReadMagic (read_exact rx MAGIC_BYTES_LEN);
  if bool_decide (magic_bytes ≠ MagicBytes network) then Err (BadMagic magic_bytes)
  else
    msg_bytes ← map_err ReadToEnd (read_to_end rx limit);
    match bincode_deserialize msg_bytes with
    | Some msg => Ok msg
    | None => Err ReceiveBincode
    end.
(** [accepted]: what [accept_bi] returned. *)
Definition receive_request (network : Network) (accepted : Res QConnectionError (SendStream * RecvStream)) :
    Res Receive (RequestMessage * SendStream) :=
  '(tx, rx) ← map_err ReceiveConnection accepted;
  repr ← receive_frame (A := Repr) network READ_REQUEST_LIMIT rx;
  Ok (RequestMessage_deserialize repr, tx).
Definition receive_response (network : Network) (recv : RecvStream) (read_response_limit : Z) :
    Res Receive ResponseMessage :=
  receive_frame network read_response_limit recv.
(** The request is sent first; then its answer is read. *)
Definition wire_send_request (network : Network) (request : Request)
    (opened : Res QConnectionError (SendStream * RecvStream)) :
    option SendStream * Res Send (Res Receive ResponseMessage) :=
  match read_response_limit request with
  | Ok read_response_limit =>
      on_opened opened (λ recv,
        _ ← send_message network (RefRequest request);
        mret (receive_response network recv read_response_limit))
  | Err e => (None, Err e)
  | Panic => (None, Panic)
  end.

(** ** What arrives *)
Context `{!QuinnLaws, !BincodeLaws Repr, !BincodeLaws ResponseMessage}.
Context (iter_start_elements : ∀ s, iter_start s ≡ₚ elements s).

(** The message without what only matters to the requester. *)
Definition for_peer (m : RequestMessageRef) : RequestMessage :=
  match m with
  | RefHeartbeat heartbeat => RmHeartbeat heartbeat
  | RefRequest (GetBlock r) => RmRequest (GetBlock (mk_GetBlockRequest (gb_block_hash r) None None None))
  | RefRequest (GetHeaders r) =>
      RmRequest (GetHeaders (mk_GetHeadersRequest (gh_start r) (gh_end r) None None))
  | RefRequest (PushTransaction t) => RmRequest (PushTransaction t)
  end.
Lemma deserialize_serialize_request m :
  RequestMessage_deserialize (RequestMessageRef_serialize m) = for_peer m.
Proof.
  destruct m as [|[]]; try done. simpl. do 3 f_equal. apply set_eq. intros h.
  by rewrite elem_of_list_to_set, iter_start_elements, elem_of_elements.
Qed.

Lemma MagicBytes_length network : length (MagicBytes network) = MAGIC_BYTES_LEN.
Proof. by destruct network. Qed.
#[export] Instance MagicBytes_inj : Inj (=) (=) MagicBytes.
Proof. by intros [] []. Qed.

(** How a frame is read, whoever wrote it. *)
Lemma receive_frame_presented {A} `{Bincode A} network network' limit rx payload :
  presents rx (MagicBytes network ++ payload) →
  (network ≠ network' → receive_frame (A := A) network' limit rx = Err (BadMagic (MagicBytes network)))
  ∧ (network = network' → (limit < Z.of_nat (length payload))%Z →
      ∃ e, receive_frame (A := A) network' limit rx = Err (ReadToEnd e))
  ∧ (network = network' → (Z.of_nat (length payload) ≤ limit)%Z →
      receive_frame (A := A) network' limit rx
      = match bincode_deserialize payload with Some m => Ok m | None => Err ReceiveBincode end).
Proof.
  intros Hrx.
  destruct (read_exact_enough rx MAGIC_BYTES_LEN _ Hrx) as (rx' & Hread & Hrx').
  { rewrite length_app, MagicBytes_length. lia. }
  rewrite <- (MagicBytes_length network), take_app_length in Hread.
  rewrite <- (MagicBytes_length network), drop_app_length in Hrx'.
  unfold receive_frame. rewrite <- (MagicBytes_length network), Hread. cbn [map_err]. rewrite ok_bind.
  split_and!.
  - intros Hne. rewrite bool_decide_true; [done|]. by intros ?%(inj MagicBytes).
  - intros -> Hlong. rewrite bool_decide_false by auto.
    destruct (read_to_end_too_long _ _ _ Hrx' Hlong) as [e ->]. by exists e.
  - intros -> Hshort. rewrite bool_decide_false by auto.
    by rewrite (read_to_end_all _ _ _ Hrx' Hshort).
Qed.

(** What a call that succeeded has written. *)
Lemma write_frame_written bytes tx b tx' :
  written tx b → write_frame bytes tx = (tx', Ok tt) → written tx' (b ++ bytes).
Proof.
  intros Hw. unfold write_frame. destruct (write_all bytes tx) as [tx1 [[]|e|]] eqn:Hall; try done.
  intros [= <-]. by eapply write_all_written.
Qed.
Lemma send_message_written network m tx tx' :
  written tx [] → send_message network m tx = (tx', Ok tt) →
  ∃ payload, bincode_serialize (RequestMessageRef_serialize m) = Some payload
    ∧ written tx' (MagicBytes network ++ payload).
Proof.
  intros Hw Hsend. apply st_bind_inv in Hsend as [(payload & tx1 & Hser & Hsend)|[_ Hno]]; [|by destruct (Hno tt)].
  unfold serialized in Hser. destruct (bincode_serialize _) as [p|] eqn:Hp; [|done].
  injection Hser as <- <-. exists p. split; [done|].
  apply st_bind_inv in Hsend as [([] & tx2 & Hwrite & Hfin)|[_ Hno]]; [|by destruct (Hno tt)].
  apply (write_frame_written _ _ _ _ Hw) in Hwrite.
  unfold st_map_err in Hfin. destruct (finish tx2) as [tx3 [[]|e|]] eqn:Hf; try done.
  injection Hfin as <-. by eapply finish_written.
Qed.
Lemma wire_send_request_written network request tx recv tx' answer :
  written tx [] → wire_send_request network request (Ok (tx, recv)) = (Some tx', Ok answer) →
  (∃ limit, read_response_limit (Er := Send) request = Ok limit ∧ answer = receive_response network recv limit)
  ∧ ∃ payload, bincode_serialize (RequestMessageRef_serialize (RefRequest request)) = Some payload
    ∧ written tx' (MagicBytes network ++ payload).
Proof.
  intros Hw. unfold wire_send_request.
  destruct (read_response_limit request) as [limit|e|] eqn:Hlimit; [|done..]. cbn [on_opened].
  match goal with |- context [mbind ?f ?m tx] => destruct (mbind f m tx) as [tx1 r] eqn:Hrun end.
  intros [= -> ->].
  apply st_bind_inv in Hrun as [([] & tx2 & Hsend & Hret)|[_ Hno]]; [|by destruct (Hno answer)].
  injection Hret as <- <-. split; [by exists limit|]. by eapply send_message_written.
Qed.

(** A request that was sent and not lost arrives at a node of the same
    network, without the fields that only matter to the requester, exactly if
    its serialization has at most 100 kB; a longer one is an error of the
    receiving side, which ends its connection task.  A node of another network refuses the magic bytes, whatever follows
    them. *)
Theorem request_crosses (network network' : Network) (request : Request)
    (tx tx' reply : SendStream) (recv rx : RecvStream) (answer : Res Receive ResponseMessage)
    (Hok : bincode_ok (RequestMessageRef_serialize (RefRequest request)))
    (Hnew : written tx [])
    (Hsent : wire_send_request network request (Ok (tx, recv)) = (Some tx', Ok answer))
    (Hjoined : ∀ bytes, written tx' bytes → presents rx bytes) :
  ∃ payload, bincode_serialize (RequestMessageRef_serialize (RefRequest request)) = Some payload
    ∧ match decide (network = network'), decide (Z.of_nat (length payload) ≤ READ_REQUEST_LIMIT)%Z with
      | right _, _ => receive_request network' (Ok (reply, rx)) = Err (BadMagic (MagicBytes network))
      | left _, left _ => receive_request network' (Ok (reply, rx)) = Ok (for_peer (RefRequest request), reply)
      | left _, right _ => ∃ e, receive_request network' (Ok (reply, rx)) = Err (ReadToEnd e)
      end.
Proof.
  destruct (wire_send_request_written _ _ _ _ _ _ Hnew Hsent) as (_ & payload & Hser & Hw).
  exists payload. split; [done|]. apply Hjoined in Hw.
  destruct (receive_frame_presented (A := Repr) network network' READ_REQUEST_LIMIT rx payload Hw)
    as (Hbad & Hlong & Hread).
  unfold receive_request. cbn [map_err]. rewrite ok_bind.
  destruct (decide (network = network')) as [Heq|Hne]; [|by rewrite Hbad].
  destruct (decide (_ ≤ _)%Z) as [Hle|Hgt].
  - rewrite Hread by done. erewrite bincode_round_trip by done.
    by rewrite ok_bind, deserialize_serialize_request.
  - destruct (Hlong Heq) as [e ->]; [lia|]. by exists e.
Qed.

(** An answer arrives, whichever of the two ways it is sent: a peer that
    serialized it before it had the stream writes the same bytes.  What the
    requester makes of it depends on the limit of its own request only. *)
Theorem answer_crosses (network : Network) (request : Request) (response : ResponseMessage)
    (limit : Z) (payload : list byte) (tx tx' : SendStream) (recv : RecvStream)
    (Hok : bincode_ok response) (Hser : bincode_serialize response = Some payload)
    (Hlimit : read_response_limit (Er := Send) request = Ok limit)
    (Hnew : written tx [])
    (Hsent : send_response network response tx = (tx', Ok tt)
      ∨ send_serialized_response network payload tx = (tx', Ok tt))
    (Hjoined : ∀ bytes, written tx' bytes → presents recv bytes) :
  ((Z.of_nat (length payload) ≤ limit)%Z → receive_response network recv limit = Ok response)
  ∧ ((limit < Z.of_nat (length payload))%Z → ∃ e, receive_response network recv limit = Err (ReadToEnd e)).
Proof.
  assert (written tx' (MagicBytes network ++ payload)) as Hw%Hjoined.
  { destruct Hsent as [Hsent|Hsent];
      (apply st_bind_inv in Hsent as [(a & tx1 & Hfst & Hsnd)|[_ Hno]]; [|by destruct (Hno tt)]).
    - unfold serialized in Hfst. rewrite Hser in Hfst. injection Hfst as <- <-.
      by apply (write_frame_written _ _ _ _ Hnew) in Hsnd.
    - destruct a. apply (write_frame_written _ _ _ _ Hnew) in Hfst.
      by apply (write_frame_written _ _ _ _ Hfst) in Hsnd. }
  destruct (receive_frame_presented (A := ResponseMessage) network network limit recv payload Hw)
    as (_ & Hlong & Hread).
  unfold receive_response. split; [|auto]. intros Hle. rewrite Hread by done.
  by erewrite bincode_round_trip.
Qed.
End wire.

(** ** Witness *)
Module WireToy.
#[local] Existing Instance Toy.externals.

(** A stream is the bytes that were written; only requests for blocks and the
    answer that there is none are serialized. *)
#[local] Instance quinn : Quinn := {
  SendStream := list byte;
  RecvStream := list byte;
  QConnectionError := Empty_set;
  QReadExactError := unit;
  QReadToEndError := unit;
  QWriteError := Empty_set;
  QClosedStream := Empty_set;
  stream_id _ := 0%Z;
  read_exact rx n := if decide (n ≤ length rx) then Ok (take n rx, drop n rx) else Err tt;
  read_to_end rx limit := if decide (Z.of_nat (length rx) ≤ limit)%Z then Ok rx else Err tt;
  write_all more tx := (tx ++ more, Ok tt);
  finish tx := (tx, Ok tt)
}.
#[local] Program Instance quinn_laws : QuinnLaws := { presents rx b := rx = b; written tx b := tx = b }.
Next Obligation. intros rx n b -> Hn. eexists. simpl. by rewrite decide_True. Qed.
Next Obligation. intros rx n b -> Hn. exists tt. simpl. rewrite decide_False by lia. done. Qed.
Next Obligation. intros rx limit b -> Hb. simpl. by rewrite decide_True. Qed.
Next Obligation. intros rx limit b -> Hb. exists tt. simpl. rewrite decide_False by lia. done. Qed.
Next Obligation. by intros tx b more tx' -> [= <-]. Qed.
Next Obligation. by intros tx b tx' -> [= <-]. Qed.

#[local] Instance bincode_repr : Bincode Repr := {
  bincode_serialize r := match r with ReprGetBlock h => Some (x01 :: vec_to_list h) | _ => None end;
  bincode_deserialize l := match l with
    | x01 :: l => match read_vec 32 l with Some (h, []) => Some (ReprGetBlock h) | _ => None end
    | _ => None
    end
}.
#[local] Instance bincode_response : Bincode ResponseMessage := {
  bincode_serialize r := match r with RNoBlock h => Some (x02 :: vec_to_list h) | _ => None end;
  bincode_deserialize l := match l with
    | x02 :: l => match read_vec 32 l with Some (h, []) => Some (RNoBlock h) | _ => None end
    | _ => None
    end
}.
#[local] Program Instance bincode_repr_laws : BincodeLaws Repr := { bincode_ok _ := True }.
Next Obligation.
  intros [|h| |] b _ [= <-]. cbn [bincode_deserialize bincode_repr].
  by rewrite <- (app_nil_r (vec_to_list h)), read_vec_app.
Qed.
#[local] Program Instance bincode_response_laws : BincodeLaws ResponseMessage := { bincode_ok _ := True }.
Next Obligation.
  intros [| |h| | |] b _ [= <-]. cbn [bincode_deserialize bincode_response].
  by rewrite <- (app_nil_r (vec_to_list h)), read_vec_app.
Qed.

(** A block is asked for on Signet; the peer does not have it. *)
Definition block_hash : BlockHash := le_vec 32 7.
Definition request : Request := GetBlock (mk_GetBlockRequest block_hash None (Some block_hash) None).
Definition sent : list byte := MagicBytes Signet ++ x01 :: vec_to_list block_hash.
Definition answered : list byte := MagicBytes Signet ++ x02 :: vec_to_list block_hash.
Example frame_sent :
  wire_send_request elements Signet request (Ok ([], answered)) = (Some sent, Ok (Ok (RNoBlock block_hash))).
Proof. reflexivity. Qed.
Example frame_received :
  receive_request Signet (Ok ([], sent))
  = Ok (RmRequest (GetBlock (mk_GetBlockRequest block_hash None None None)), []).
Proof. reflexivity. Qed.
Example truncated_magic : receive_request Signet (Ok ([], take 3 sent)) = Err (ReadMagic tt).
Proof. reflexivity. Qed.
Example oversized :
  receive_response Signet (MagicBytes Signet ++ replicate 300 x00) 256 = Err (ReadToEnd tt).
Proof. reflexivity. Qed.

Lemma request_crosses_witness :
  receive_request Regtest (Ok ([], sent)) = Err (BadMagic (MagicBytes Signet)).
Proof.
  edestruct (request_crosses (Q := quinn) elements (λ s, reflexivity _) Signet Regtest request
    ([] : list byte) sent ([] : list byte) answered sent (Ok (RNoBlock block_hash)))
    as (payload & _ & H); [exact I|reflexivity|exact frame_sent|by intros b|].
  destruct (decide (Signet = Regtest)) as [Heq|_]; [discriminate Heq|exact H].
Defined.
Lemma answer_crosses_witness :
  receive_response Signet answered GetBlockRequest_read_response_limit = Ok (RNoBlock block_hash).
Proof.
  edestruct (answer_crosses (Q := quinn) Signet request (RNoBlock block_hash)
    GetBlockRequest_read_response_limit (x02 :: vec_to_list block_hash) ([] : list byte) answered answered)
    as [H _]; [exact I|reflexivity|reflexivity|reflexivity|by right|by intros b|].
  apply H. vm_compute. discriminate.
Defined.
End WireToy.
