(* ===== verification/PeerTask.v ===== *)
(** The task of a connection to a peer ([src/lib/net/peer/task.rs]).

    The task reads the node's archive and state, keeps the peer's announced
    states, queues requests to the peer and sends information to the net task.
    Its mailbox is modelled one item at a time; the order in which the streams
    of the mailbox are polled is not. *)
From S2P Require Import Prelude.
From S2P Require Import Effects.
From S2P Require Import Borsh.
From S2P Require Import Externals.
From S2P Require Import Toy.
From S2P Require Import Types.
From S2P Require Import AccumulatorDiff.
From S2P Require Import WithdrawalBundle.
From S2P Require Import RollBack.
From S2P Require Import Authorization.
From S2P Require Import Limits.
From S2P Require Import Orchard.
From S2P Require Import State.
From S2P Require Import Block.
From S2P Require Import TwoWayPeg.
From S2P Require Import Lineage.
From S2P Require Import Archive.
From S2P Require Import Net.

Section task.
Context `{E : Externals}.
Context (iter_bmm : gmap BtcBlockHash BmmResult → list (BtcBlockHash * BmmResult)).

(** What the task shares with the node; it only reads it. *)
Record ConnectionContext := mk_ConnectionContext {
  ctx_archive : Archive;
  ctx_state : State
}.

(** ** Missing bodies, one at a time *)

(** [iter_missing_bodies(..).next()]; [fuel] bounds the ancestors visited. *)
Fixpoint next_missing_body (fuel : nat) (a : Archive) (it : AncestorsRev) :
    Res ArchiveError (option BlockHash * AncestorsRev) :=
  match fuel with
  | O => Panic
  | S fuel =>
      '(item, it) ← AncestorsRev_next a it;
      match item with
      | None => Ok (None, it)
      | Some (ancestor, _) =>
          match try_get_body a ancestor with
          | Some _ => next_missing_body fuel a it
          | None => Ok (Some ancestor, it)
          end
      end
  end.
(** [iter_missing_bodies(..).take(n).collect()] *)
Fixpoint take_missing_bodies (n : nat) (fuel : nat) (a : Archive) (it : AncestorsRev) :
    Res ArchiveError (list BlockHash) :=
  match n with
  | O => Ok []
  | S n =>
      '(item, it) ← next_missing_body fuel a it;
      match item with
      | None => Ok []
      | Some b => rest ← take_missing_bodies n fuel a it; Ok (b :: rest)
      end
  end.

(** ** Is the peer's tip better? *)
Abbreviation Q := (StR RequestQueue TaskError).

Definition q_send (request : Request) : Q bool := λ q, send_request q request.
Definition q_archive {A} (r : Res ArchiveError A) : Q A := st_lift (map_err TeArchive r).

(** [Some(true)] when the headers of the peer's tip are stored; otherwise they
    are requested, after one of the blocks in [start]. *)
Definition request_headers (a : Archive) (start : Res ArchiveError (gset BlockHash))
    (peer_tip_info : TipInfo) (peer_state_id : PeerStateId) : Q (option bool) :=
  match try_get_header a (tip_block_hash (ti_tip peer_tip_info)) with
  | Some _ => mret (Some true)
  | None =>
      start ← q_archive start;
      let request := mk_GetHeadersRequest start (tip_block_hash (ti_tip peer_tip_info))
        (Some (block_height peer_tip_info)) (Some peer_state_id) in
      _ ← q_send (GetHeaders request);
      mret (Some false)
  end.
Definition locator_set (a : Archive) (b : BlockHash) : Res ArchiveError (gset BlockHash) :=
  l ← get_block_locator a b; Ok (list_to_set l).

Definition check_peer_tip_and_request_headers (a : Archive) (tip_info : option TipInfo)
    (peer_tip_info : TipInfo) (peer_state_id : PeerStateId) : Q (option bool) :=
  match tip_info with
  | None => request_headers a (Ok ∅) peer_tip_info peer_state_id
  | Some tip_info =>
      let tip := ti_tip tip_info in
      let peer_tip := ti_tip peer_tip_info in
      let main := tip_main_block_hash tip in
      let peer_main := tip_main_block_hash peer_tip in
      let request := request_headers a (locator_set a (tip_block_hash tip)) peer_tip_info peer_state_id in
      match (ti_total_work tip_info ?= ti_total_work peer_tip_info)%Z,
            (block_height tip_info ?= block_height peer_tip_info)%Z with
      | (Lt | Eq), Lt => request
      | (Eq | Gt), Gt => mret None
      | Lt, Eq =>
          shared ← q_archive (shared_mainchain_lineage a main peer_main);
          if shared : bool then mret None else request
      | Gt, Eq =>
          shared ← q_archive (shared_mainchain_lineage a main peer_main);
          if negb shared then mret None else request
      | Lt, Gt =>
          main_ancestor ← q_archive (last_common_main_ancestor a main peer_main);
          tip_ancestor_height ← q_archive (ancestor_height_before a main_ancestor (tip_block_hash tip));
          match option_cmp tip_ancestor_height (Some (block_height peer_tip_info)) with
          | Lt => request
          | _ => mret None
          end
      | Gt, Lt =>
          available ← request;
          match available with
          | Some true =>
              main_ancestor ← q_archive (last_common_main_ancestor a main peer_main);
              peer_tip_ancestor_height ←
                q_archive (ancestor_height_before a main_ancestor (tip_block_hash peer_tip));
              mret (match option_cmp peer_tip_ancestor_height (Some (block_height tip_info)) with
                    | Lt => None | _ => Some true end)
          | r => mret r
          end
      | Eq, Eq =>
          if bool_decide (tip_block_hash peer_tip = tip_block_hash tip) then mret None
          else
            available ← request;
            match available with
            | Some true =>
                main_ancestor ← q_archive (last_common_main_ancestor a main peer_main);
                main_ancestor_height ← q_archive (get_main_height a main_ancestor);
                r ← q_archive (ancestor_height_work_before a main_ancestor main_ancestor_height
                      (tip_block_hash tip));
                peer_r ← q_archive (ancestor_height_work_before a main_ancestor main_ancestor_height
                      (tip_block_hash peer_tip));
                mret (match option_cmp (snd <$> r) (snd <$> peer_r), option_cmp (fst <$> r) (fst <$> peer_r) with
                      | (Lt | Eq), Eq | _, Gt => None
                      | Gt, Eq | _, Lt => Some true
                      end)
            | r => mret r
            end
      end
  end.

(** ** The peer's state *)

(** The node's own tip, as it is announced. *)
Definition own_tip_info (ctxt : ConnectionContext) : Res TaskError (option TipInfo) :=
  match tip (ctx_state ctxt) with
  | None => Ok None
  | Some tip =>
      tip_height ← expect (height (ctx_state ctxt));
      bmm_verification ← map_err TeArchive (get_best_main_verification iter_bmm (ctx_archive ctxt) tip);
      total_work ← map_err TeArchive (get_total_work (ctx_archive ctxt) bmm_verification);
      Ok (Some (mk_TipInfo tip_height (mk_Tip tip bmm_verification) total_work))
  end.

(** The outbox of a task: its request queue, and what it sent to the net
    task, whose receiver lives as long as the task. *)
Record Outbox := mk_Outbox { ob_queue : RequestQueue; ob_info : list Info }.
Abbreviation Out := (StR Outbox TaskError).
Definition o_queue {A} (m : Q A) : Out A :=
  st_zoom ob_queue (λ q o, mk_Outbox q (ob_info o)) m.
Definition o_info (i : Info) : Out unit := st_modify (λ o, mk_Outbox (ob_queue o) (ob_info o ++ [i])).
Definition o_archive {A} (r : Res ArchiveError A) : Out A := st_lift (map_err TeArchive r).
Definition o_ban {A} (reason : BanReason) : Out A := st_lift (Err (TePeerBan reason)).

Definition MAX_BLOCK_REQUESTS : nat := 100.

(** Claimed work and BMM commitment of the peer's tip; [false]: mainchain
    headers are missing and have been asked for. *)
Definition check_claims (a : Archive) (peer_state : PeerState) (peer_tip_info : TipInfo) : Out bool :=
  let peer_tip := ti_tip peer_tip_info in
  match try_get_main_header_info a (tip_main_block_hash peer_tip) with
  | None =>
      _ ← o_info (INeedMainchainAncestors (tip_main_block_hash peer_tip) (PeerStateId_from peer_state));
      mret false
  | Some _ =>
      computed_total_work ← o_archive (get_total_work a (tip_main_block_hash peer_tip));
      if bool_decide (ti_total_work peer_tip_info ≠ computed_total_work)
      then o_ban (IncorrectTotalWork peer_tip (ti_total_work peer_tip_info))
      else
        block_info ← o_archive (get_main_block_info a (tip_main_block_hash peer_tip));
        if bool_decide (bmm_commitment block_info ≠ Some (tip_block_hash peer_tip))
        then o_ban (BmmVerificationFailed peer_tip)
        else mret true
  end.

(** Request the bodies that are missing up to the peer's tip, or announce the
    tip as ready. *)
Definition request_bodies (a : Archive) (tip_info : option TipInfo) (peer_state : PeerState)
    (peer_tip : Tip) : Out unit :=
  common_ancestor ← match tip_info with
    | Some tip_info =>
        o_archive (last_common_ancestor a (tip_block_hash (ti_tip tip_info)) (tip_block_hash peer_tip))
    | None => mret None
    end;
  start_height ← match common_ancestor with
    | Some common_ancestor => o_archive (get_height a common_ancestor)
    | None => mret 0%Z
    end;
  missing_bodies ← o_archive (take_missing_bodies MAX_BLOCK_REQUESTS (ancestors_fuel a) a
    (AncestorsRev_new (tip_block_hash peer_tip) start_height));
  match missing_bodies with
  | [] => o_info (INewTipReady peer_tip)
  | _ =>
      st_for (λ block_hash,
        _ ← o_queue (q_send (GetBlock (mk_GetBlockRequest block_hash (Some peer_tip) common_ancestor
              (Some (PeerStateId_from peer_state)))));
        mret tt) missing_bodies
  end.

Definition handle_peer_state (ctxt : ConnectionContext) (peer_state : PeerState) : Out unit :=
  let a := ctx_archive ctxt in
  match tip_info peer_state with
  | None => mret tt
  | Some peer_tip_info =>
      let peer_tip := ti_tip peer_tip_info in
      tip_info ← st_lift (own_tip_info ctxt);
      claims ← check_claims a peer_state peer_tip_info;
      if negb claims then mret tt
      else
        better ← o_queue (check_peer_tip_and_request_headers a tip_info peer_tip_info
          (PeerStateId_from peer_state));
        match better with
        | Some true =>
            if bool_decide (try_get_bmm_result a (tip_block_hash peer_tip) (tip_main_block_hash peer_tip)
                 = Some BmmVerified)
            then request_bodies a tip_info peer_state peer_tip
            else o_ban (BmmVerificationFailed peer_tip)
        | _ => mret tt
        end
  end.

(** ** Answers to the peer's requests *)
Definition handle_get_block (a : Archive) (block_hash : BlockHash) : ResponseMessage :=
  match try_get_header a block_hash, try_get_body a block_hash with
  | Some header, Some body => RBlock header body
  | _, _ => RNoBlock block_hash
  end.

(** [ancestor_headers(end).take_while(not in start)], newest first. *)
Fixpoint headers_until (fuel : nat) (a : Archive) (start : gset BlockHash) (st : option BlockHash) :
    Res ArchiveError (list Header) :=
  match fuel with
  | O => Panic
  | S fuel =>
      next ← AncestorHeaders_next a st;
      match next with
      | None => Ok []
      | Some ((block_hash, header), st) =>
          if bool_decide (block_hash ∈ start) then Ok []
          else rest ← headers_until fuel a start st; Ok (header :: rest)
      end
  end.
Definition handle_get_headers (a : Archive) (start : gset BlockHash) (end_ : BlockHash) :
    Res ArchiveError ResponseMessage :=
  match try_get_header a end_ with
  | Some _ =>
      headers ← headers_until (ancestors_fuel a) a start (Some end_);
      Ok (RHeaders (reverse headers))
  | None => Ok (RNoHeader end_)
  end.

(** ** The task *)
Record ConnectionTask := mk_ConnectionTask {
  ct_outbox : Outbox;
  (** The current state of the peer, and all states it announced. *)
  ct_peer_state : option PeerStateId;
  ct_peer_states : gmap PeerStateId PeerState;
  (** Blocking tasks to run: [handle_peer_state] on these states. *)
  ct_blocking : list PeerState;
  (** Answers computed on the side, then answers sent. *)
  ct_forward : list (Res ArchiveError ResponseMessage);
  ct_responses : list ResponseMessage
}.
Definition ConnectionTask_new : ConnectionTask :=
  mk_ConnectionTask (mk_Outbox RequestQueue_new []) None ∅ [] [] [].
Abbreviation C := (StR ConnectionTask ConnectionError).

Definition with_outbox (o : Outbox) (t : ConnectionTask) : ConnectionTask :=
  mk_ConnectionTask o (ct_peer_state t) (ct_peer_states t) (ct_blocking t) (ct_forward t) (ct_responses t).
Definition with_queue (q : RequestQueue) (t : ConnectionTask) : ConnectionTask :=
  with_outbox (mk_Outbox q (ob_info (ct_outbox t))) t.
Definition c_info (i : Info) : C unit :=
  st_modify (λ t, with_outbox (mk_Outbox (ob_queue (ct_outbox t)) (ob_info (ct_outbox t) ++ [i])) t).
Definition c_respond (r : ResponseMessage) : C unit :=
  st_modify (λ t, mk_ConnectionTask (ct_outbox t) (ct_peer_state t) (ct_peer_states t) (ct_blocking t)
                    (ct_forward t) (ct_responses t ++ [r])).
Definition c_blocking (p : PeerState) : C unit :=
  st_modify (λ t, mk_ConnectionTask (ct_outbox t) (ct_peer_state t) (ct_peer_states t)
                    (ct_blocking t ++ [p]) (ct_forward t) (ct_responses t)).
Definition c_forward (r : Res ArchiveError ResponseMessage) : C unit :=
  st_modify (λ t, mk_ConnectionTask (ct_outbox t) (ct_peer_state t) (ct_peer_states t) (ct_blocking t)
                    (ct_forward t ++ [r]) (ct_responses t)).
Definition c_announce (id : PeerStateId) (p : PeerState) : C unit :=
  st_modify (λ t, mk_ConnectionTask (ct_outbox t) (ct_peer_state t) (<[id := p]> (ct_peer_states t))
                    (ct_blocking t) (ct_forward t) (ct_responses t)).
Definition c_current (id : PeerStateId) : C unit :=
  st_modify (λ t, mk_ConnectionTask (ct_outbox t) (Some id) (ct_peer_states t) (ct_blocking t)
                    (ct_forward t) (ct_responses t)).
Definition c_send_request (r : Request) : C bool :=
  st_zoom (ob_queue ∘ ct_outbox) with_queue (st_map_err (λ _, CeSendRequest) (q_send r)).

Definition handle_push_tx (ctxt : ConnectionContext) (tx : AuthorizedTransaction) : C unit :=
  let txid := txid (at_transaction tx) in
  match validate_transaction (ctx_state ctxt) tx with
  | Err err =>
      _ ← c_respond (RTransactionRejected txid);
      st_lift (Err (CeState err))
  | Ok _ =>
      _ ← c_respond (RTransactionAccepted txid);
      c_info (INewTransaction tx)
  | Panic => st_lift Panic
  end.

Definition handle_peer_request (ctxt : ConnectionContext) (request_msg : RequestMessage) : C unit :=
  match request_msg with
  | RmHeartbeat new_peer_state =>
      let new_peer_state_id := PeerStateId_from new_peer_state in
      _ ← c_announce new_peer_state_id new_peer_state;
      peer_state ← st_get ct_peer_state;
      if bool_decide (peer_state ≠ Some new_peer_state_id)
      then _ ← c_blocking new_peer_state; c_current new_peer_state_id
      else mret tt
  | RmRequest (GetBlock r) => c_respond (handle_get_block (ctx_archive ctxt) (gb_block_hash r))
  | RmRequest (GetHeaders r) => c_forward (handle_get_headers (ctx_archive ctxt) (gh_start r) (gh_end r))
  | RmRequest (PushTransaction t) => handle_push_tx ctxt t
  end.

(** Handle a known state of the peer again. *)
Definition requeue (peer_state_id : PeerStateId) : C unit :=
  peer_state ← st_get (λ t, ct_peer_states t !! peer_state_id);
  match peer_state with
  | None => st_lift (Err (CeMissingPeerState peer_state_id))
  | Some peer_state => c_blocking peer_state
  end.
Definition handle_internal_message (msg : InternalMessage) : C unit :=
  match msg with
  | ImForwardRequest request => _ ← c_send_request request; mret tt
  | ImBmmVerification found peer_state_id => if found : bool then requeue peer_state_id else mret tt
  | ImBmmVerificationError | ImMainchainAncestorsError => mret tt
  | ImMainchainAncestors peer_state_id | ImHeaders peer_state_id | ImBodiesAvailable peer_state_id =>
      requeue peer_state_id
  end.

(** The items of the mailbox; [MiBlockingTask] and [MiForward] run what is
    queued to run on the side. *)
Inductive MailboxItem :=
  | MiError (e : MailboxError)
  | MiInternalMessage (msg : InternalMessage)
  | MiBlockingTask
  | MiForwardResponse
  | MiHeartbeat
  | MiPeerRequest (request : RequestMessage)
  | MiPeerResponse (request : Request) (response : option ResponseMessage).

Definition run_blocking (ctxt : ConnectionContext) : C unit := λ t,
  match ct_blocking t with
  | [] => (t, Ok tt)
  | p :: ps =>
      let t := mk_ConnectionTask (ct_outbox t) (ct_peer_state t) (ct_peer_states t) ps (ct_forward t)
        (ct_responses t) in
      st_zoom ct_outbox with_outbox
        (st_map_err (λ e, CeMailbox (MbBlockingTask e)) (handle_peer_state ctxt p)) t
  end.
Definition run_forward : C unit := λ t,
  match ct_forward t with
  | [] => (t, Ok tt)
  | r :: rs =>
      let t := mk_ConnectionTask (ct_outbox t) (ct_peer_state t) (ct_peer_states t) (ct_blocking t) rs
        (ct_responses t) in
      match r with
      | Ok response => c_respond response t
      | Err e => (t, Err (CeMailbox (MbForwardResponse e)))
      | Panic => (t, Panic)
      end
  end.
Definition task_error (e : TaskError) : ConnectionError :=
  match e with TeState e => CeState e | TeArchive e => CeArchive e | _ => CeSendHeartbeat end.
Definition run_heartbeat (ctxt : ConnectionContext) (VERSION : Version) : C unit :=
  tip_info ← st_lift (map_err task_error (own_tip_info ctxt));
  st_zoom (ob_queue ∘ ct_outbox) with_queue (λ q, send_heartbeat q (mk_PeerState tip_info VERSION)).

Definition run_item (ctxt : ConnectionContext) (VERSION : Version) (item : MailboxItem) : C unit :=
  match item with
  | MiError e => st_lift (Err (CeMailbox e))
  | MiInternalMessage msg => handle_internal_message msg
  | MiBlockingTask => run_blocking ctxt
  | MiForwardResponse => run_forward
  | MiHeartbeat => run_heartbeat ctxt VERSION
  | MiPeerRequest request => handle_peer_request ctxt request
  | MiPeerResponse request (Some response) => c_info (IResponse response request)
  | MiPeerResponse request None => c_info (IError CeReceiveResponse)
  end.
End task.
