(* ===== verification/NetTask.v ===== *)
(** The net task ([src/lib/node/net_task.rs], [NetTask]).

    The task owns the write side of the node: it stores what peers answer,
    switches to new tips and adds the transactions of peers to the pool.  Its
    mailbox is modelled one item at a time; the channels that it reads itself
    (tips that are ready, requests for the mainchain task, peers to reconnect
    to) are queues of its state. *)
From S2P Require Import Prelude.
From S2P Require Import Effects.
From S2P Require Import Borsh.
From S2P Require Import Externals.
From S2P Require Import Toy.
From S2P Require Import Types.
From S2P Require Import AccumulatorDiff.
From S2P Require Import WithdrawalBundle.
From S2P Require Import RollBack.
From S2P Require Import Authorization.
From S2P Require Import Limits.
From S2P Require Import Orchard.
From S2P Require Import State.
From S2P Require Import Block.
From S2P Require Import TwoWayPeg.
From S2P Require Import Lineage.
From S2P Require Import Archive.
From S2P Require Import MemPool.
From S2P Require Import Node.
From S2P Require Import Net.
From S2P Require Import PeerTask.

#[export] Instance Tip_countable : Countable Tip.
Proof.
  refine (inj_countable' (λ t, (tip_block_hash t, tip_main_block_hash t)) (λ '(b, m), mk_Tip b m) _).
  by intros [].
Defined.

(** Tips to try once a body is stored, with the peers that announced them. *)
Abbreviation Tips := (gmap Tip (gset SocketAddr)).

Section net_task.
Context `{E : Externals}.
Context (iter_set : gset BtcBlockHash → list BtcBlockHash).
Context (iter_bmm : gmap BtcBlockHash BmmResult → list (BtcBlockHash * BmmResult)).
Context (into_values : gmap MainAddress AggregatedWithdrawal → list AggregatedWithdrawal).
Context (iter_tips : Tips → list (Tip * gset SocketAddr)).
Context (iter_addrs : gset SocketAddr → list SocketAddr).
Context (iter_sources : gset (SocketAddr * PeerStateId) → list (SocketAddr * PeerStateId)).
Context {ConnectError : Type} (quinn_connect : SocketAddr → option ConnectError).

Inductive NetTaskError :=
  | NtArchive (e : ArchiveError)
  | NtMemPool (e : MemPoolError)
  | NtState (e : Error)
  | NtPeerInfoRxClosed
  | NtSendMainchainTaskRequest
  | NtSendReorgResultOneshot.

(** The answer to a tip: is somebody still waiting for it? *)
Record NewTipReadyMessage := mk_NewTipReady {
  ntr_tip : Tip;
  ntr_addr : option SocketAddr;
  ntr_resp_tx : option bool
}.

Record NetTask := mk_NetTask {
  nt_node : Node;
  nt_net : Net;
  nt_descendant_tips : gmap BlockHash Tips;
  nt_new_tip_ready : list NewTipReadyMessage;
  nt_forward : list (BtcBlockHash * SocketAddr * PeerStateId);
  nt_sources : gmap BtcBlockHash (gset (SocketAddr * PeerStateId));
  nt_reconnect : list SocketAddr;
  (** Requests to the mainchain task, while it runs; results of
      reorganizations that were sent. *)
  nt_mainchain : option (list BtcBlockHash);
  nt_results : list bool
}.
Abbreviation M := (StR NetTask NetTaskError).

Definition with_node (nd : Node) (t : NetTask) : NetTask :=
  mk_NetTask nd (nt_net t) (nt_descendant_tips t) (nt_new_tip_ready t) (nt_forward t) (nt_sources t)
    (nt_reconnect t) (nt_mainchain t) (nt_results t).
Definition with_net (n : Net) (t : NetTask) : NetTask :=
  mk_NetTask (nt_node t) n (nt_descendant_tips t) (nt_new_tip_ready t) (nt_forward t) (nt_sources t)
    (nt_reconnect t) (nt_mainchain t) (nt_results t).
Definition with_tips (d : gmap BlockHash Tips) (t : NetTask) : NetTask :=
  mk_NetTask (nt_node t) (nt_net t) d (nt_new_tip_ready t) (nt_forward t) (nt_sources t)
    (nt_reconnect t) (nt_mainchain t) (nt_results t).
Definition with_ready (l : list NewTipReadyMessage) (t : NetTask) : NetTask :=
  mk_NetTask (nt_node t) (nt_net t) (nt_descendant_tips t) l (nt_forward t) (nt_sources t)
    (nt_reconnect t) (nt_mainchain t) (nt_results t).
Definition with_forward (l : list (BtcBlockHash * SocketAddr * PeerStateId)) (t : NetTask) : NetTask :=
  mk_NetTask (nt_node t) (nt_net t) (nt_descendant_tips t) (nt_new_tip_ready t) l (nt_sources t)
    (nt_reconnect t) (nt_mainchain t) (nt_results t).
Definition with_sources (s : gmap BtcBlockHash (gset (SocketAddr * PeerStateId))) (t : NetTask) : NetTask :=
  mk_NetTask (nt_node t) (nt_net t) (nt_descendant_tips t) (nt_new_tip_ready t) (nt_forward t) s
    (nt_reconnect t) (nt_mainchain t) (nt_results t).
Definition with_reconnect (l : list SocketAddr) (t : NetTask) : NetTask :=
  mk_NetTask (nt_node t) (nt_net t) (nt_descendant_tips t) (nt_new_tip_ready t) (nt_forward t)
    (nt_sources t) l (nt_mainchain t) (nt_results t).
Definition with_mainchain (m : option (list BtcBlockHash)) (t : NetTask) : NetTask :=
  mk_NetTask (nt_node t) (nt_net t) (nt_descendant_tips t) (nt_new_tip_ready t) (nt_forward t)
    (nt_sources t) (nt_reconnect t) m (nt_results t).
Definition with_results (l : list bool) (t : NetTask) : NetTask :=
  mk_NetTask (nt_node t) (nt_net t) (nt_descendant_tips t) (nt_new_tip_ready t) (nt_forward t)
    (nt_sources t) (nt_reconnect t) (nt_mainchain t) l.

(** ** Steps of the handlers *)
Definition m_archive {A} (f : Archive → Res ArchiveError A) : M A :=
  λ t, (t, map_err NtArchive (f (nd_archive (nt_node t)))).
Definition m_put_archive (a : Archive) : M unit :=
  st_modify (λ t, with_node (mk_Node a (nd_mempool (nt_node t)) (nd_state (nt_node t))) t).
Definition m_remove_peer (addr : SocketAddr) : M unit :=
  st_modify (λ t, with_net (remove_active_peer (nt_net t) addr) t).
Definition m_push (message : InternalMessage) (addr : SocketAddr) : M unit :=
  st_modify (λ t, with_net (push_internal_message (nt_net t) message addr).1 t).
Definition m_ready (tip : Tip) (addr : SocketAddr) : M unit :=
  st_modify (λ t, with_ready (nt_new_tip_ready t ++ [mk_NewTipReady tip (Some addr) None]) t).
(** [descendant_tips.entry(b).or_default().entry(tip).or_default().extend(sources)] *)
Definition m_wait (b : BlockHash) (tip : Tip) (sources : gset SocketAddr) : M unit :=
  st_modify (λ t,
    let tips := default ∅ (nt_descendant_tips t !! b) in
    with_tips (<[b := <[tip := default ∅ (tips !! tip) ∪ sources]> tips]> (nt_descendant_tips t)) t).

Definition earliest_missing_body (a : Archive) (b : BlockHash) (ancestor_height : option Z) :
    Res ArchiveError (option BlockHash) :=
  let start := match ancestor_height with Some height => wrap32 (height + 1) | None => 0%Z end in
  '(b, _) ← next_missing_body (S (ancestors_fuel a)) a (AncestorsRev_new b start);
  Ok b.
Definition node_error (e : NodeError) : NetTaskError :=
  match e with NeArchive e => NtArchive e | NeMemPool e => NtMemPool e | NeState e => NtState e end.

(** The verified BMM result whose mainchain block is an ancestor of the
    mainchain block of the descendant tip. *)
Fixpoint find_main_block (a : Archive) (main_descendant : BtcBlockHash)
    (results : list (BtcBlockHash * BmmResult)) : Res ArchiveError (option BtcBlockHash) :=
  match results with
  | [] => Ok None
  | (_, BmmFailed) :: results => find_main_block a main_descendant results
  | (main_block_hash, BmmVerified) :: results =>
      d ← is_main_descendant a main_block_hash main_descendant;
      if d : bool then Ok (Some main_block_hash) else find_main_block a main_descendant results
  end.

(** ** A block *)

Definition get_height_of (a : Archive) (b : option BlockHash) : Res ArchiveError (option Z) :=
  match b with Some b => h ← get_height a b; Ok (Some h) | None => Ok None end.

(** The peer is told when all bodies it requested are there. *)
Definition notify_bodies (addr : SocketAddr) (block_hash : BlockHash) (descendant_tip : Tip)
    (ancestor : option BlockHash) (peer_state_id : PeerStateId) : M unit :=
  ancestor_height ← m_archive (λ a, get_height_of a ancestor);
  earliest ← m_archive (λ a, earliest_missing_body a block_hash ancestor_height);
  match earliest with
  | Some earliest => m_wait earliest descendant_tip {[addr]}
  | None => m_push (ImBodiesAvailable peer_state_id) addr
  end.

Definition common_ancestor_height (a : Archive) (descendant_tip : Tip) (tip : option Tip) :
    Res ArchiveError (option Z) :=
  common_ancestor ← match tip with
    | Some tip => last_common_ancestor a (tip_block_hash descendant_tip) (tip_block_hash tip)
    | None => Ok None
    end;
  get_height_of a common_ancestor.
(** The parent of the earliest missing body, as a tip. *)
Definition parent_tip (a : Archive) (earliest : BlockHash) : Res ArchiveError (option Tip) :=
  header ← get_header a earliest;
  match prev_side_hash header with
  | Some tip_hash =>
      bmm_verification ← get_best_main_verification iter_bmm a tip_hash;
      Ok (Some (mk_Tip tip_hash bmm_verification))
  | None => Ok None
  end.
Definition is_better (a : Archive) (tip : option Tip) (next_tip : Tip) : Res ArchiveError bool :=
  match tip with
  | Some tip => r ← better_tip a tip next_tip; Ok (bool_decide (r = Some next_tip))
  | None => Ok true
  end.

(** One of the tips that waited for the block. *)
Definition try_descendant_tip (tip : option Tip) (x : Tip * gset SocketAddr) : M unit :=
  let '(descendant_tip, sources) := x in
  common_ancestor_height ← m_archive (λ a, common_ancestor_height a descendant_tip tip);
  earliest ← m_archive (λ a,
    earliest_missing_body a (tip_block_hash descendant_tip) common_ancestor_height);
  next_tip ← match earliest with
    | Some earliest =>
        _ ← m_wait earliest descendant_tip sources;
        m_archive (λ a, parent_tip a earliest)
    | None => mret (Some descendant_tip)
    end;
  match next_tip with
  | None => mret tt
  | Some next_tip =>
      better ← m_archive (λ a, is_better a tip next_tip);
      if better : bool then st_for (λ addr, m_ready next_tip addr) (iter_addrs sources) else mret tt
  end.

(** The tips that waited for the block. *)
Definition try_waiting_tips (tip : option Tip) (block_hash : BlockHash) : M unit :=
  waiting ← st_get (λ t, nt_descendant_tips t !! block_hash);
  match waiting with
  | None => mret tt
  | Some block_descendant_tips =>
      _ ← st_modify (λ t, with_tips (delete block_hash (nt_descendant_tips t)) t);
      st_for (try_descendant_tip tip) (iter_tips block_descendant_tips)
  end.

Definition apply_new_tips (addr : SocketAddr) (header : Header) (block_hash : BlockHash)
    (descendant_tip : Tip) : M unit :=
  nd ← st_get nt_node;
  tip ← st_lift (map_err node_error (current_tip iter_bmm nd));
  main_block_hash ← m_archive (λ a,
    r ← find_main_block a (tip_main_block_hash descendant_tip) (iter_bmm (get_bmm_results a block_hash));
    expect r);
  let block_tip := mk_Tip block_hash main_block_hash in
  _ ← (if bool_decide (prev_side_hash header = tip_block_hash <$> tip) then m_ready block_tip addr
       else mret tt);
  try_waiting_tips tip block_hash.

Definition handle_block (addr : SocketAddr) (block_hash : BlockHash) (descendant_tip : Tip)
    (ancestor : option BlockHash) (peer_state_id : PeerStateId) (header : Header) (body : Body) : M unit :=
  if bool_decide (Header_hash header ≠ block_hash) then m_remove_peer addr
  else
    a ← m_archive (λ a, put_body a block_hash body);
    _ ← m_put_archive a;
    _ ← notify_bodies addr block_hash descendant_tip ancestor peer_state_id;
    apply_new_tips addr header block_hash descendant_tip.

(** ** Headers *)
Fixpoint sequential (prev_side_hash : option BlockHash) (headers : list Header) : bool :=
  match headers with
  | [] => true
  | header :: headers =>
      bool_decide (Types.prev_side_hash header = prev_side_hash)
      && sequential (Some (Header_hash header)) headers
  end.
Fixpoint store_headers (a : Archive) (headers : list Header) : Res ArchiveError Archive :=
  match headers with
  | [] => Ok a
  | header :: headers =>
      match try_get_header a (Header_hash header) with
      | Some _ => store_headers a headers
      | None =>
          if match prev_side_hash header with
             | Some parent => bool_decide (try_get_header a parent = None)
             | None => false
             end
          then Ok a
          else a ← put_header iter_set iter_bmm a header; store_headers a headers
      end
  end.

(** [None]: the answer is not what was asked for. *)
Definition check_headers (a : Archive) (start : gset BlockHash) (end_ : BlockHash) (height : Z)
    (headers : list Header) : Res ArchiveError bool :=
  match last headers, headers with
  | Some end_header, first :: _ =>
      if bool_decide (Header_hash end_header ≠ end_) then Ok false
      else
        let start_hash := prev_side_hash first in
        if match start_hash with Some h => bool_decide (h ∉ start) | None => false end then Ok false
        else
          end_height ← match start_hash with
            | Some start_hash => start_height ← get_height a start_hash; Ok (wrap32 (start_height + zlen headers))
            | None => Ok (wrap32 (zlen headers - 1))
            end;
          if bool_decide (end_height ≠ height) then Ok false
          else Ok (sequential start_hash headers)
  | _, _ => Ok false
  end.
Definition handle_headers (addr : SocketAddr) (start : gset BlockHash) (end_ : BlockHash) (height : Z)
    (peer_state_id : PeerStateId) (headers : list Header) : M unit :=
  valid ← m_archive (λ a, check_headers a start end_ height headers);
  if negb valid then m_remove_peer addr
  else
    a ← m_archive (λ a, store_headers a headers);
    _ ← m_put_archive a;
    m_push (ImHeaders peer_state_id) addr.

Definition handle_response (addr : SocketAddr) (resp : ResponseMessage) (req : Request) : M unit :=
  match req, resp with
  | GetBlock (mk_GetBlockRequest block_hash (Some descendant_tip) ancestor (Some peer_state_id)),
    RBlock header body => handle_block addr block_hash descendant_tip ancestor peer_state_id header body
  | GetBlock (mk_GetBlockRequest block_hash (Some _) _ (Some _)), RNoBlock resp_block_hash =>
      if bool_decide (block_hash = resp_block_hash) then mret tt else m_remove_peer addr
  | GetHeaders (mk_GetHeadersRequest start end_ (Some height) (Some peer_state_id)), RHeaders headers =>
      handle_headers addr start end_ height peer_state_id headers
  | GetHeaders r, RNoHeader block_hash =>
      if bool_decide (gh_end r = block_hash) then mret tt else m_remove_peer addr
  | PushTransaction _, RTransactionAccepted _ | PushTransaction _, RTransactionRejected _ => mret tt
  | _, _ => m_remove_peer addr
  end.

(** ** The mailbox *)
Inductive NetItem :=
  | ItAcceptConnection (incoming : option (SocketAddr * Handshake))
  | ItForwardMainchainTaskRequest
  | ItMainchainTaskResponse (block_hash : BtcBlockHash) (res : option bool)
  | ItNewTipReady
  | ItPeerInfo (info : option (SocketAddr * option Info))
  | ItReconnectPeer.

Definition handle_new_transaction (addr : SocketAddr) (new_tx : AuthorizedTransaction) : M unit := λ t,
  let nd := nt_node t in
  match regenerate_proof (nd_state nd) (at_transaction new_tx) with
  | Ok transaction =>
      let new_tx := mk_AuthorizedTransaction transaction (authorizations new_tx) in
      match mempool_put (nd_mempool nd) new_tx with
      | Ok m =>
          let t := with_node (mk_Node (nd_archive nd) m (nd_state nd)) t in
          (with_net (push_tx (nt_net t) {[addr]} new_tx) t, Ok tt)
      | Err e => (t, Err (NtMemPool e))
      | Panic => (t, Panic)
      end
  | Err e => (t, Err (NtState e))
  | Panic => (t, Panic)
  end.

Definition handle_info (addr : SocketAddr) (info : Info) : M unit :=
  match info with
  | IError (CeMailbox MbHeartbeatTimeout) =>
      received ← st_get (λ t, try_with_active_peer_connection (nt_net t) addr received_msg_successfully);
      match received with
      | None => mret tt
      | Some received =>
          _ ← m_remove_peer addr;
          if received : bool then st_modify (λ t, with_reconnect (nt_reconnect t ++ [addr]) t) else mret tt
      end
  | IError _ => m_remove_peer addr
  | INeedMainchainAncestors main_hash peer_state_id =>
      st_modify (λ t, with_forward (nt_forward t ++ [(main_hash, addr, peer_state_id)]) t)
  | INewTipReady new_tip => m_ready new_tip addr
  | INewTransaction new_tx => handle_new_transaction addr new_tx
  | IResponse resp req => handle_response addr resp req
  end.

Definition forward_request : M unit := λ t,
  match nt_forward t with
  | [] => (t, Ok tt)
  | (request, peer, peer_state_id) :: rest =>
      let t := with_forward rest t in
      let t := with_sources (<[request := {[(peer, peer_state_id)]} ∪ default ∅ (nt_sources t !! request)]>
        (nt_sources t)) t in
      match nt_mainchain t with
      | Some requests => (with_mainchain (Some (requests ++ [request])) t, Ok tt)
      | None => (t, Err NtSendMainchainTaskRequest)
      end
  end.

(** [res]: the block was available, was not, or there was an error. *)
Definition mainchain_message (res : option bool) (peer_state_id : PeerStateId) : InternalMessage :=
  match res with
  | Some true => ImMainchainAncestors peer_state_id
  | Some false | None => ImMainchainAncestorsError
  end.
Definition mainchain_response (block_hash : BtcBlockHash) (res : option bool) : M unit :=
  sources ← st_get (λ t, nt_sources t !! block_hash);
  match sources with
  | None => mret tt
  | Some sources =>
      _ ← st_modify (λ t, with_sources (delete block_hash (nt_sources t)) t);
      st_for (λ '(addr, peer_state_id), m_push (mainchain_message res peer_state_id) addr)
        (iter_sources sources)
  end.

Definition new_tip_ready : M unit := λ t,
  match nt_new_tip_ready t with
  | [] => (t, Ok tt)
  | mk_NewTipReady new_tip _ resp_tx :: rest =>
      let t := with_ready rest t in
      let '(nd, reorg_applied) := reorg_to_tip iter_set iter_bmm into_values (nt_node t) new_tip in
      let t := with_node nd t in
      match reorg_applied with
      | Ok reorg_applied =>
          match resp_tx with
          | Some true => (with_results (nt_results t ++ [reorg_applied]) t, Ok tt)
          | Some false => (t, Err NtSendReorgResultOneshot)
          | None => (t, Ok tt)
          end
      | Err e => (t, Err (node_error e))
      | Panic => (t, Panic)
      end
  end.

Definition run_item (item : NetItem) : M unit :=
  match item with
  | ItAcceptConnection incoming =>
      st_modify (λ t, with_net (accept_incoming (ConnectError:=ConnectError) (nt_net t) incoming).1 t)
  | ItForwardMainchainTaskRequest => forward_request
  | ItMainchainTaskResponse block_hash res => mainchain_response block_hash res
  | ItNewTipReady => new_tip_ready
  | ItPeerInfo None => st_lift (Err NtPeerInfoRxClosed)
  | ItPeerInfo (Some (addr, None)) => m_remove_peer addr
  | ItPeerInfo (Some (addr, Some info)) => handle_info addr info
  | ItReconnectPeer => st_modify (λ t,
      match nt_reconnect t with
      | [] => t
      | addr :: rest => with_net (connect_peer quinn_connect (nt_net t) addr).1 (with_reconnect rest t)
      end)
  end.
(** The task ends at the first error. *)
Definition run (items : list NetItem) : M unit := st_for run_item items.

(** [NetTaskHandle::new_tip_ready_confirm], the part that sends. *)
Definition new_tip_ready_confirm (new_tip : Tip) (waits : bool) (t : NetTask) : NetTask :=
  with_ready (nt_new_tip_ready t ++ [mk_NewTipReady new_tip None (Some waits)]) t.
End net_task.
