(* ===== verification/PeerFacts.v ===== *)
(** What a connection task decides and serves.

    The task's check of a peer's tip is the archive's [better_tip], once the
    headers are there; the headers that it serves pass the checks of the net
    task that asked for them. *)
From S2P Require Import Prelude.
From S2P Require Import Effects.
From S2P Require Import Borsh.
From S2P Require Import Externals.
From S2P Require Import Toy.
From S2P Require Import Types.
From S2P Require Import Lineage.
From S2P Require Import TwoWayPeg.
From S2P Require Import Archive.
From S2P Require Import ArchiveFacts.
From S2P Require Import ArchiveIter.
From S2P Require Import Net.
From S2P Require Import PeerTask.
From S2P Require Import NetTask.

#[local] Opaque nth_ancestor.

Section peer.
Context `{E : Externals}.

(** ** The better tip *)
Lemma headers_available (a : Archive) start (p : TipInfo) id (q : RequestQueue) :
  is_Some (headers a !! tip_block_hash (ti_tip p)) → request_headers a start p id q = (q, Ok (Some true)).
Proof. unfold request_headers, try_get_header. by intros [h ->]. Qed.

Lemma available_bind (a : Archive) start (p : TipInfo) id {B} (k : option bool → StR RequestQueue TaskError B) q :
  is_Some (headers a !! tip_block_hash (ti_tip p)) →
  (request_headers a start p id ≫= k) q = k (Some true) q.
Proof. intros Hh. by apply st_bind_eq, headers_available. Qed.

Lemma q_archive_bind {A B} (r : Res ArchiveError A) (k : A → StR RequestQueue TaskError B) q :
  (q_archive r ≫= k) q = match r with
    | Ok x => k x q | Err e => (q, Err (TeArchive e)) | Panic => (q, Panic) end.
Proof. by destruct r. Qed.

(** A connection task chooses as the archive does: when both tips are
    above height 0, the announced heights and works are those of the archive
    and the header of the peer's tip is stored, the check of the peer's tip
    requests nothing and answers "better, headers available" exactly when
    [better_tip] prefers the peer's tip; an error of one is an error of the
    other. *)
Theorem peer_tip_check_agrees (a : Archive) (own peer : TipInfo) (id : PeerStateId) (q : RequestQueue)
    (Hheight : get_height a (tip_block_hash (ti_tip own)) = Ok (block_height own))
    (Hpeer_height : get_height a (tip_block_hash (ti_tip peer)) = Ok (block_height peer))
    (Hwork : get_total_work a (tip_main_block_hash (ti_tip own)) = Ok (ti_total_work own))
    (Hpeer_work : get_total_work a (tip_main_block_hash (ti_tip peer)) = Ok (ti_total_work peer))
    (Hne : ti_tip own ≠ ti_tip peer) (H0 : block_height own ≠ 0%Z) (H1 : block_height peer ≠ 0%Z)
    (Hheader : is_Some (headers a !! tip_block_hash (ti_tip peer))) :
  check_peer_tip_and_request_headers a (Some own) peer id q
  = (q, map_err TeArchive (
      better ← better_tip a (ti_tip own) (ti_tip peer);
      Ok (if bool_decide (better = Some (ti_tip peer)) then Some true else None))).
Proof.
  unfold better_tip. rewrite (bool_decide_false (ti_tip own = ti_tip peer)) by done.
  rewrite Hheight, Hpeer_height, !ok_bind.
  rewrite (proj2 (Z.eqb_neq _ _) H0), (proj2 (Z.eqb_neq _ _) H1). cbn [andb].
  rewrite Hwork, Hpeer_work, !ok_bind. unfold check_peer_tip_and_request_headers. cbv zeta.
  assert (bool_decide (Some (ti_tip own) = Some (ti_tip peer)) = false) as Hb
    by (apply bool_decide_false; congruence).
  assert (bool_decide (Some (ti_tip peer) = Some (ti_tip peer)) = true) as Hb'
    by by apply bool_decide_true.
  destruct (ti_total_work own ?= ti_total_work peer)%Z, (block_height own ?= block_height peer)%Z;
    rewrite ?ok_bind, ?Hb, ?Hb', ?q_archive_bind; try by rewrite ?headers_available.
  - unfold better_equal_tip. 
    rewrite (bool_decide_ext (tip_block_hash (ti_tip own) = _) (tip_block_hash (ti_tip peer) = tip_block_hash (ti_tip own)))
      by done.
    destruct (bool_decide (_ = tip_block_hash (ti_tip own))); [by rewrite ok_bind, Hb|].
    rewrite (available_bind _ _ _ _ _ _ Hheader), q_archive_bind.
    destruct (last_common_main_ancestor _ _ _) as [c| |]; [|done..]. rewrite ok_bind, q_archive_bind.
    destruct (get_main_height a c) as [mh| |]; [|done..]. rewrite ok_bind, q_archive_bind.
    destruct (ancestor_height_work_before _ _ _ (tip_block_hash (ti_tip own))) as [r0| |]; [|done..].
    rewrite ok_bind, q_archive_bind.
    destruct (ancestor_height_work_before _ _ _ _) as [r1| |]; [|done..]. rewrite !ok_bind.
    by destruct (option_cmp (snd <$> r0) (snd <$> r1)), (option_cmp (fst <$> r0) (fst <$> r1));
      rewrite ?Hb, ?Hb'.
  - destruct (shared_mainchain_lineage _ _ _) as [[]| |]; [..|done|done]; rewrite !ok_bind, ?Hb, ?Hb';
      [done|by rewrite headers_available].
  - destruct (last_common_main_ancestor _ _ _) as [c| |]; [|done..]. rewrite ok_bind, q_archive_bind.
    destruct (ancestor_height_before _ _ _) as [r| |]; [|done..]. rewrite !ok_bind.
    destruct (option_cmp r _); rewrite ?Hb, ?Hb'; [done| |done]. by rewrite headers_available.
  - destruct (shared_mainchain_lineage _ _ _) as [[]| |]; [..|done|done]; rewrite !ok_bind, ?Hb, ?Hb'; cbn [negb];
      [by rewrite headers_available|done].
  - rewrite (available_bind _ _ _ _ _ _ Hheader), q_archive_bind.
    destruct (last_common_main_ancestor _ _ _) as [c| |]; [|done..]. rewrite ok_bind, q_archive_bind.
    destruct (ancestor_height_before _ _ _) as [r| |]; [|done..]. rewrite !ok_bind.
    by destruct (option_cmp r _); rewrite ?Hb, ?Hb'.
Qed.

(** ** Serving headers *)

(** Headers are stored under their hashes. *)
Definition hashes_ok (a : Archive) : Prop := ∀ b h, headers a !! b = Some h → Header_hash h = b.

Lemma hashes_step iter_set iter_bmm work_add a a' :
  archive_step iter_set iter_bmm work_add a a' → hashes_ok a → hashes_ok a'.
Proof.
  intros Hstep Hh. assert (headers a' = headers a ∨ ∃ h, headers a' = <[Header_hash h := h]> (headers a)) as [E'|[h E']].
  - destruct Hstep; [..|left|left].
    + left. unfold Archive_new in Hput. apply bind_Ok in Hput as (a1 & Ha1 & [= <-]). simpl.
      destruct (archive_version a); [|by injection Ha1 as <-]. destruct (version_lt _ _); [done|by injection Ha1 as <-].
    + left. by subst.
    + left. by subst.
    + left. apply bind_Ok in Hput as (h & _ & [= <-]).
      destruct (put_inclusions_tables b (with_bodies a (<[b:=body]> (bodies a)) (txid_to_inclusions a))
        (imap pair (transactions body))) as (i & ->). done.
    + right. exists header. by apply put_header_Ok in Hput as (? & ? & ? & ? & ? & _ & _ & _ & _ & ->).
    + by apply put_main_header_info_Ok in Hput as (? & ? & ? & ? & _ & _ & _ & ->).
    + unfold put_main_block_info in Hput. apply bind_Ok in Hput as (hi & _ & Hput).
      apply bind_Ok in Hput as (u & _ & Hput). cbv zeta in Hput.
      destruct (bmm_commitment info); [|by injection Hput as <-].
      destruct (try_get_header _ _); [|by injection Hput as <-].
      by apply bind_Ok in Hput as (r & _ & [= <-]).
  - intros b h. rewrite E'. apply Hh.
  - intros b h'. rewrite E'. intros [[<- <-]|[_ Hb]]%lookup_insert_Some; [done|by apply Hh].
Qed.

Section serve.
Context (a : Archive) (Hok : archive_ok a) (Hhash : hashes_ok a).
Context (b : BlockHash) (H : Z) (Hb : get_height a b = Ok H).

Lemma headers_until_ok start fuel n :
  (Z.of_nat n <= H + 1)%Z → (H + 1 - Z.of_nat n < Z.of_nat fuel)%Z →
  ∃ k, headers_until fuel a start (at_depth a b H n) = Ok (hdr a b <$> seq n k)
    ∧ (Z.of_nat (n + k) <= H + 1)%Z
    ∧ (Z.of_nat (n + k) = H + 1 ∨ anc a b (n + k) ∈ start)%Z
    ∧ ∀ j, n ≤ j < n + k → anc a b j ∉ start.
Proof.
  revert n. induction fuel as [|fuel IH]; intros n Hn Hf; [lia|]. cbn [headers_until].
  destruct (decide (Z.of_nat n <= H)%Z) as [Hle|Hgt].
  - rewrite (next_item a Hok b H Hb n Hle), ok_bind. cbv beta iota. cbn [item].
    case_bool_decide as Hin.
    + exists 0. rewrite Nat.add_0_r. split_and!; [done|lia|by right|lia].
    + destruct (IH (S n)) as (k & -> & Hk & Hend & Hmid); [lia..|]. rewrite ok_bind. exists (S k).
      replace (n + S k) with (S n + k) by lia. split_and!; [done..|].
      intros j Hj. destruct (decide (j = n)) as [->|]; [done|]. apply Hmid. lia.
  - rewrite next_end by lia. rewrite ok_bind. exists 0. rewrite Nat.add_0_r.
    split_and!; [done|lia|left; lia|lia].
Qed.

Lemma hdr_hash n : (Z.of_nat n <= H)%Z → Header_hash (hdr a b n) = anc a b n.
Proof. intros Hn. apply Hhash. by apply (anc_spec a Hok b H Hb). Qed.

Lemma sequential_served k :
  (Z.of_nat k <= H + 1)%Z →
  sequential (if decide (Z.of_nat k = H + 1)%Z then None else Some (anc a b k))
    (reverse (hdr a b <$> seq 0 k)) = true.
Proof.
  induction k as [|k IH]; intros Hk; [done|].
  rewrite seq_S, fmap_app. cbn [fmap list_fmap Nat.add]. rewrite reverse_snoc. cbn [sequential].
  rewrite hdr_hash by lia. rewrite (hdr_prev a Hok b H Hb) by lia. rewrite andb_true_iff, bool_decide_eq_true.
  split; [repeat case_decide; (done || lia)|].
  specialize (IH ltac:(lia)). case_decide; [lia|]. done.
Qed.
End serve.

(** Headers that an honest peer serves are accepted: for any request that
    starts from blocks of which the two nodes know the same heights, and ends
    at a block of the peer that is not among them, at the height that the peer
    announced, the answer passes all checks of the node that asked. *)
Theorem served_headers_accepted (a a' : Archive) (start : gset BlockHash) (end_ : BlockHash) (height : Z)
    (Hok : archive_ok a) (Hhash : hashes_ok a) (Hheight : get_height a end_ = Ok height)
    (Hend : end_ ∉ start)
    (Hstart : ∀ b h, b ∈ start → get_height a b = Ok h → get_height a' b = Ok h) :
  ∃ headers, handle_get_headers a start end_ = Ok (RHeaders headers)
    ∧ check_headers a' start end_ height headers = Ok true.
Proof.
  pose proof (tip_range a Hok end_ height Hheight) as Hr.
  pose proof (depth_bound a Hok end_ height Hheight) as Hd.
  destruct (anc_spec a Hok end_ height Hheight 0) as (Hup & _ & _ & Hh0); [lia|].
  assert (anc a end_ 0 = end_) as Hanc0 by reflexivity.
  assert (Some end_ = at_depth a end_ height 0) as Hat.
  { unfold at_depth. by rewrite decide_True, Hanc0 by lia. }
  destruct (headers_until_ok a Hok end_ height Hheight start (ancestors_fuel a) 0) as (k & Hk & Hle & Hlast & _);
    [lia|unfold ancestors_fuel; lia|].
  exists (reverse (hdr a end_ <$> seq 0 k)). split.
  { unfold handle_get_headers, try_get_header. rewrite <- Hanc0 at 1. rewrite Hh0, Hat, Hk. done. }
  cbn [Nat.add] in *. destruct k as [|k].
  { destruct Hlast as [?|Hin]; [lia|]. by rewrite Hanc0 in Hin. }
  pose proof (sequential_served a Hok Hhash end_ height Hheight (S k) Hle) as Hseq.
  set (served := reverse (hdr a end_ <$> seq 0 (S k))) in *.
  assert (last served = Some (hdr a end_ 0)) as Hl.
  { unfold served. cbn [seq fmap list_fmap]. by rewrite reverse_cons, last_snoc. }
  assert (served = hdr a end_ k :: reverse (hdr a end_ <$> seq 0 k)) as Hfirst.
  { unfold served. rewrite seq_S, fmap_app. cbn [fmap list_fmap Nat.add]. by rewrite reverse_snoc. }
  assert (zlen served = Z.of_nat (S k)) as Hlen.
  { unfold zlen, served. by rewrite length_reverse, length_fmap, length_seq. }
  clearbody served. unfold check_headers. rewrite Hl, Hlen. destruct served as [|h0 rest]; [done|].
  injection Hfirst as -> _.
  rewrite (hdr_hash a Hok Hhash end_ height Hheight), Hanc0 by lia.
  rewrite (bool_decide_false (end_ ≠ end_)) by (intros Hx; by apply Hx).
  rewrite (hdr_prev a Hok end_ height Hheight) by lia. cbv zeta.
  destruct (decide (Z.of_nat (S k) = height + 1)%Z), (decide (Z.of_nat k = height)%Z); try lia.
  - rewrite ok_bind. unfold wrap32. rewrite Z.mod_small by lia.
    rewrite bool_decide_false by lia. by rewrite Hseq.
  - destruct Hlast as [?|Hin]; [lia|]. rewrite (bool_decide_false (_ ∉ start)) by (intros Hx; by apply Hx).
    destruct (anc_spec a Hok end_ height Hheight (S k)) as (_ & _ & Hh & _); [lia|].
    rewrite (Hstart _ _ Hin Hh), !ok_bind. unfold wrap32. rewrite Z.mod_small by lia.
    rewrite bool_decide_false by lia. by rewrite Hseq.
Qed.
End peer.

(** ** Witnesses *)
Module PeerToy.
#[local] Existing Instance Toy.externals.
Import ArchiveToy.

Definition own_info : TipInfo := mk_TipInfo 3 tip_b 40.
Definition peer_info : TipInfo := mk_TipInfo 5 tip_a 60.
Definition tip_known (i : TipInfo) : bool :=
  res_is (get_height archive1 (tip_block_hash (ti_tip i))) (block_height i)
  && res_is (get_total_work archive1 (tip_main_block_hash (ti_tip i))) (ti_total_work i)
  && negb (is_none (headers archive1 !! tip_block_hash (ti_tip i))).
Lemma tip_known_ok i : tip_known i = true →
  get_height archive1 (tip_block_hash (ti_tip i)) = Ok (block_height i)
  ∧ get_total_work archive1 (tip_main_block_hash (ti_tip i)) = Ok (ti_total_work i)
  ∧ is_Some (headers archive1 !! tip_block_hash (ti_tip i)).
Proof.
  unfold tip_known. rewrite !andb_true_iff. intros [[?%res_is_Ok ?%res_is_Ok] Hh]. split_and!; [done..|].
  by destruct (headers archive1 !! _).
Qed.
Lemma own_known : tip_known own_info = true.
Proof. vm_compute. reflexivity. Qed.
Lemma peer_known : tip_known peer_info = true.
Proof. vm_compute. reflexivity. Qed.

Lemma peer_tip_check_agrees_witness :
  check_peer_tip_and_request_headers archive1 (Some own_info) peer_info all_zeros RequestQueue_new
  = (RequestQueue_new, map_err TeArchive (
      better ← better_tip archive1 (ti_tip own_info) (ti_tip peer_info);
      Ok (if bool_decide (better = Some (ti_tip peer_info)) then Some true else None))).
Proof.
  destruct (tip_known_ok own_info own_known) as (Ho & Ho' & _).
  destruct (tip_known_ok peer_info peer_known) as (Hp & Hp' & Hp'').
  refine (peer_tip_check_agrees archive1 own_info peer_info all_zeros RequestQueue_new Ho Hp Ho' Hp' _ _ _ Hp'');
    [|simpl; lia..].
  apply (bool_decide_unpack _). vm_compute. exact I.
Defined.

(** The node that asks has the first three headers. *)
Definition short_writes : list write :=
  WOpen :: ((λ n, WMainHeader (main_header (Z.of_nat n))) <$> seq 1 6)
  ++ ((λ n, WMainInfo (mh (Z.of_nat n)) (info_for (n - 1))) <$> seq 1 6)
  ++ ((λ n, WHeader (chain n)) <$> seq 0 3).
Definition archive_short : Archive := default Archive_empty_dbs (run Archive_empty_dbs short_writes).
Definition locator : gset BlockHash := {[ Header_hash (chain 2) ]}.
Definition served : list Header :=
  match handle_get_headers archive1 locator tip5 with Ok (RHeaders l) => l | _ => [] end.
Example three_served : length served = 3.
Proof. vm_compute. reflexivity. Qed.

Lemma archive1_hashes : hashes_ok archive1.
Proof.
  assert (map_all (λ b h, bool_decide (Header_hash h = b)) (headers archive1) = true) as Hall
    by (vm_compute; reflexivity).
  intros b h Hb. exact (bool_decide_eq_true_1 _ (map_all_lookup _ _ _ _ Hall Hb)).
Qed.
Lemma locator_height : res_is (get_height archive1 (Header_hash (chain 2))) 2%Z
  && res_is (get_height archive_short (Header_hash (chain 2))) 2%Z
  && bool_decide (tip5 ∉ locator) = true.
Proof. vm_compute. reflexivity. Qed.

Lemma served_headers_accepted_witness :
  ∃ headers, handle_get_headers archive1 locator tip5 = Ok (RHeaders headers)
    ∧ check_headers archive_short locator tip5 5 headers = Ok true.
Proof.
  pose proof locator_height as Hl. rewrite !andb_true_iff, bool_decide_eq_true in Hl.
  destruct Hl as [[H1%res_is_Ok H2%res_is_Ok] H3].
  refine (served_headers_accepted archive1 archive_short locator tip5 5 archive1_ok archive1_hashes tip5_height H3 _).
  intros b h Hb%elem_of_singleton. subst b. rewrite H1, H2. done.
Defined.
End PeerToy.
