(* ===== verification/TipFacts.v ===== *)
(** Comparing verified tips never fails.

    A tip is verified when its BMM result is.  On an archive that keeps its
    invariant, with total works for its mainchain headers, everything the
    tasks compute about verified tips returns: the best verification of a
    block, the better of two tips, the first missing body, the mainchain block
    of an ancestor. *)
From S2P Require Import Prelude.
From S2P Require Import Borsh.
From S2P Require Import Externals.
From S2P Require Import Toy.
From S2P Require Import Types.
From S2P Require Import TwoWayPeg.
From S2P Require Import Lineage.
From S2P Require Import Archive.
From S2P Require Import ArchiveFacts.
From S2P Require Import ArchiveIter.
From S2P Require Import PeerTask.
From S2P Require Import NetTask.

#[local] Opaque nth_ancestor.

Section tips.
Context `{E : Externals}.
Context (iter_bmm : gmap BtcBlockHash BmmResult → list (BtcBlockHash * BmmResult)).
Context (Hiter : iterates_entries iter_bmm).

(** What the archive knows besides [archive_ok]: the total work of every
    mainchain header, and chains short enough for the searches. *)
Record chains_ok (a : Archive) : Prop := {
  ca_ok : archive_ok a;
  ca_work m : is_Some (main_header_infos a !! m) → is_Some (total_work a !! m);
  ca_height b h : get_height a b = Ok h → (h < 2 ^ 31)%Z;
  ca_main_height m h : get_main_height a m = Ok h → (h < 2 ^ 31)%Z
}.
Definition tip_verified (a : Archive) (t : Tip) : Prop :=
  verified a (tip_block_hash t) (tip_main_block_hash t).

Section archive.
Context (a : Archive) (Hca : chains_ok a).
#[local] Existing Instance ok_side.
Let Hok := ca_ok a Hca.
Implicit Types (b c : BlockHash) (m : BtcBlockHash).

Lemma verified_facts b m :
  verified a b m →
  ∃ header h mh w hi, headers a !! b = Some header ∧ get_height a b = Ok h
    ∧ get_main_height a m = Ok mh ∧ get_total_work a m = Ok w
    ∧ main_header_infos a !! m = Some hi ∧ hi_prev_block_hash hi = prev_main_hash header.
Proof.
  intros Hv. destruct (ok_bmm a Hok b m Hv) as (header & Hh & info & hi & _ & _ & Hhi & Hprev & _).
  destruct (proj1 (ok_headers a Hok b)) as [h Hhh]; [by eexists|].
  destruct (proj1 (ok_main_headers a Hok m)) as [mh Hmh]; [by eexists|].
  destruct (ca_work a Hca m) as [w Hw]; [by eexists|].
  exists header, h, mh, w, hi. split_and!; try done.
  - unfold get_height, try_get_height. by rewrite Hhh.
  - unfold get_main_height, try_get_main_height. rewrite Hmh. case_bool_decide; [|done].
    subst. by rewrite (ok_zeros a Hok) in Hhi.
  - unfold get_total_work, try_get_total_work. by rewrite Hw.
Qed.

(** The mainchain parent of a verified block is known. *)
Lemma verified_prev_main b m header :
  verified a b m → headers a !! b = Some header → main_known a (prev_main_hash header).
Proof.
  intros Hv Hh. destruct (verified_facts b m Hv) as (header' & h & mh & w & hi & Hh' & _ & Hmh & _ & Hhi & Hp).
  rewrite Hh in Hh'. injection Hh' as <-. pose proof (get_main_height_known a m mh Hmh) as Km.
  destruct (ok_main a Hok m Km) as (mh' & Hm' & Hr & _ & Hpar).
  destruct (decide (mh' = 0%Z)) as [->|Hne].
  - pose proof (main_height_zero a m Hok Km Hm') as ->. by rewrite (ok_zeros a Hok) in Hhi.
  - destruct Hpar as (p & l & Hpp & Kp & _); [lia|]. simpl in Hpp.
    unfold get_main_header_info, try_get_main_header_info in Hpp. rewrite Hhi in Hpp. simpl in Hpp.
    injection Hpp as <-. by rewrite <- Hp.
Qed.

Lemma verified_at b m n c :
  verified a b m → up (side_lineage a) n b = Ok c →
  ∃ header, headers a !! c = Some header ∧ main_known a (prev_main_hash header).
Proof.
  intros Hv Hup. destruct (verified_ancestor a n b m c Hok Hv Hup) as (m' & Hv' & _).
  destruct (verified_facts c m' Hv') as (header & _ & _ & _ & _ & Hh & _).
  exists header. split; [done|]. by eapply verified_prev_main.
Qed.

(** ** Searches through the ancestors of a block *)
Section ancestors.
Context (b : BlockHash) (H : Z) (Hb : get_height a b = Ok H).

Lemma find_map_loop_total {A} (f : BlockHash → Res ArchiveError (option A)) fuel n :
  (Z.of_nat n ≤ H + 1)%Z → (H + 1 - Z.of_nat n < Z.of_nat fuel)%Z →
  (∀ k, (Z.of_nat k ≤ H)%Z → ∃ r, f (anc a b k) = Ok r) →
  ∃ r, find_map_loop fuel a f (at_depth a b H n) = Ok r.
Proof.
  revert n. induction fuel as [|fuel IH]; intros n Hn Hf Htot; [lia|].
  cbn [find_map_loop]. destruct (decide (Z.of_nat n ≤ H)%Z) as [Hle|Hgt].
  - rewrite (next_item a Hok b H Hb) by done. rewrite ok_bind. cbv beta iota. cbn [item].
    destruct (Htot n Hle) as [r Hr]. rewrite Hr, ok_bind. destruct r; [by eexists|].
    apply IH; [lia..|done].
  - rewrite next_end by lia. rewrite ok_bind. by eexists.
Qed.

Lemma find_map_total {A} (f : BlockHash → Res ArchiveError (option A)) :
  (∀ n c, up (side_lineage a) n b = Ok c → ∃ r, f c = Ok r) →
  ∃ r, ancestors_find_map a b f = Ok r.
Proof.
  intros Htot. pose proof (tip_range a Hok b H Hb) as Hr. pose proof (depth_bound a Hok b H Hb).
  unfold ancestors_find_map, ancestors_fuel.
  assert (Some b = at_depth a b H 0) as -> by (unfold at_depth; by rewrite decide_True by lia).
  apply find_map_loop_total; [lia..|]. intros k Hk.
  apply (Htot k). by apply (anc_spec a Hok b H Hb).
Qed.
End ancestors.

(** ** The better of two verified tips *)
Lemma before_common_total main_ancestor c header :
  main_known a main_ancestor → headers a !! c = Some header → main_known a (prev_main_hash header) →
  ∃ r, before_common a main_ancestor c = Ok r
    ∧ ∀ header', r = Some header' → header' = header
        ∧ ancestor_of (main_lineage a) (prev_main_hash header) main_ancestor
        ∧ prev_main_hash header ≠ main_ancestor.
Proof.
  intros Km Hc Kp. pose proof (ok_main a Hok) as HL. unfold before_common, get_header, try_get_header.
  rewrite Hc. cbn [ok_or]. rewrite ok_bind.
  destruct (descends_Ok (main_lineage a) (main_known a) _ _ Kp Km) as (d & Hd & Hiff).
  unfold is_main_descendant. rewrite Hd, ok_bind.
  destruct d; cbn [negb]; [|by eexists]. case_bool_decide; [by eexists|].
  eexists. split; [done|]. intros header' [= <-]. split; [done|]. split; [by apply Hiff|done].
Qed.

Lemma common_main m0 m1 h0 h1 :
  get_main_height a m0 = Ok h0 → get_main_height a m1 = Ok h1 →
  ∃ c, last_common_main_ancestor a m0 m1 = Ok c ∧ main_known a c.
Proof.
  intros Hh0 Hh1.
  destruct (last_common_main_ancestor_ok a m0 m1 h0 h1) as (c & Hc & Hg); [done..| | |].
  1,2: by eapply ca_main_height.
  exists c. split; [done|]. destruct Hg as ((n & Hn) & _ & _). pose proof (ok_main a Hok) as HL.
  destruct (up_depth (main_lineage a) (main_known a) n m0 h0 c (get_main_height_known _ _ _ Hh0) Hh0 Hn)
    as (_ & Kc & _). done.
Qed.

Lemma ancestor_height_total main_ancestor b m :
  main_known a main_ancestor → verified a b m → ∃ r, ancestor_height_before a main_ancestor b = Ok r.
Proof.
  intros Km Hv. destruct (verified_facts b m Hv) as (_ & h & _ & _ & _ & _ & Hh & _).
  apply (find_map_total b h Hh). intros n c Hup.
  destruct (verified_at b m n c Hv Hup) as (header & Hc & Kp).
  destruct (before_common_total main_ancestor c header Km Hc Kp) as (r & Hr & _).
  rewrite Hr, ok_bind. destruct r; [|by eexists].
  destruct (proj1 (ok_headers a Hok c)) as [hc Hhc]; [by eexists|].
  unfold get_height, try_get_height. rewrite Hhc. by eexists.
Qed.

Lemma ancestor_work_total main_ancestor mah b m :
  main_known a main_ancestor → get_main_height a main_ancestor = Ok mah → verified a b m →
  ∃ r, ancestor_height_work_before a main_ancestor mah b = Ok r.
Proof.
  intros Km Hmah Hv. destruct (verified_facts b m Hv) as (_ & h & _ & _ & _ & _ & Hh & _).
  pose proof (ok_main a Hok) as HL.
  apply (find_map_total b h Hh). intros n c Hup.
  destruct (verified_at b m n c Hv Hup) as (header & Hc & Kp).
  destruct (before_common_total main_ancestor c header Km Hc Kp) as (r & Hr & Hsome).
  rewrite Hr, ok_bind. destruct r as [header'|]; [|by eexists].
  destruct (Hsome header' eq_refl) as (-> & (k & Hk) & Hne).
  destruct (proj1 (ok_headers a Hok c)) as [hc Hhc]; [by eexists|].
  unfold get_height, try_get_height. rewrite Hhc. cbn [ok_or]. rewrite ok_bind.
  destruct (up_depth (main_lineage a) (main_known a) k main_ancestor mah _ Km Hmah Hk) as (Hle & _ & Hph).
  simpl in Hph. rewrite Hph, ok_bind.
  assert (k ≠ 0) as Hk0 by (intros ->; apply Hne; by injection Hk).
  destruct (known_node (main_lineage a) (main_known a) main_ancestor mah Km Hmah) as (_ & Hr0 & _).
  assert (wrap32 (mah - wrap32 (mah - Z.of_nat k + 1)) = Z.of_nat k - 1)%Z as ->.
  { unfold wrap32. rewrite (Z.mod_small (mah - Z.of_nat k + 1)) by lia.
    rewrite Z.mod_small by lia. lia. }
  unfold get_nth_main_ancestor.
  destruct (nth_ancestor_Ok (main_lineage a) (main_known a) main_ancestor (Z.of_nat k - 1) mah Km Hmah)
    as (x & -> & _ & Kx & Hx); [lia|]. rewrite ok_bind.
  assert (is_Some (total_work a !! x)) as [w Hw].
  { apply (ca_work a Hca), (ok_main_headers a Hok). destruct Kx as [->|]; [|done].
    simpl in Hx. unfold get_main_height, try_get_main_height in Hx. rewrite bool_decide_true in Hx by done.
    injection Hx as Hx. lia. }
  unfold get_total_work, try_get_total_work. rewrite Hw. by eexists.
Qed.

Lemma better_tip_total t0 t1 :
  tip_verified a t0 → tip_verified a t1 → ∃ r, better_tip a t0 t1 = Ok r.
Proof.
  intros Hv0 Hv1. unfold better_tip. case_bool_decide; [by eexists|]. pose proof (ok_main a Hok) as HL.
  destruct (verified_facts _ _ Hv0) as (_ & h0 & mh0 & w0 & _ & _ & Hh0 & Hm0 & Hw0 & _).
  destruct (verified_facts _ _ Hv1) as (_ & h1 & mh1 & w1 & _ & _ & Hh1 & Hm1 & Hw1 & _).
  rewrite Hh0, Hh1, !ok_bind.
  destruct (h0 =? 0)%Z eqn:Ez0; simpl; [destruct (h1 =? 0)%Z; by eexists|].
  destruct (h1 =? 0)%Z eqn:Ez1; [by eexists|].
  rewrite Hw0, Hw1, !ok_bind.
  destruct (common_main _ _ _ _ Hm0 Hm1) as (c & Hc & Kc).
  assert (∃ r, shared_mainchain_lineage a (tip_main_block_hash t0) (tip_main_block_hash t1) = Ok r)
    as [sh Hsh].
  { unfold shared_mainchain_lineage. rewrite Hm0, Hm1, !ok_bind.
    destruct (equalize_ok (main_lineage a) (main_known a) (tip_main_block_hash t0) (tip_main_block_hash t1)
      mh0 mh1) as (c0 & c1 & n0 & n1 & Heq & _); [by eapply get_main_height_known..|done|done|].
    rewrite Heq. by eexists. }
  destruct (ancestor_height_total c _ _ Kc Hv0) as [r0 Hr0].
  destruct (ancestor_height_total c _ _ Kc Hv1) as [r1 Hr1].
  destruct (w0 ?= w1)%Z, (h0 ?= h1)%Z; try (by eexists).
  - unfold better_equal_tip. case_bool_decide; [by eexists|]. rewrite Hc, ok_bind.
    destruct (ok_main a Hok c Kc) as (hc & Hhc & _). simpl in Hhc. rewrite Hhc, ok_bind.
    destruct (ancestor_work_total c hc _ _ Kc Hhc Hv0) as [x0 ->].
    destruct (ancestor_work_total c hc _ _ Kc Hhc Hv1) as [x1 ->]. by eexists.
  - rewrite Hsh. by eexists.
  - rewrite Hc, ok_bind, Hr0. by eexists.
  - rewrite Hsh. by eexists.
  - rewrite Hc, ok_bind, Hr1. by eexists.
Qed.

(** ** The best verification of a block *)
Lemma max_work_loop l best :
  Forall (λ m, is_Some (total_work a !! m)) l →
  ∃ r, foldR (max_work_step a) best l = Ok r
    ∧ (∀ w m, r = Some (w, m) → (∃ w, best = Some (w, m)) ∨ m ∈ l)
    ∧ (is_Some best ∨ l ≠ [] → is_Some r).
Proof.
  revert best. induction l as [|m l IH]; intros best Hl; cbn [foldR].
  { exists best. split; [done|]. split; [intros w m ->; eauto|]. by intros []. }
  apply Forall_cons in Hl as [[w Hw] Hl]. 
  set (best' := match best with
    | Some (w0, m') => if (w <? w0)%Z then Some (w0, m') else Some (w, m)
    | None => Some (w, m)
    end).
  assert (max_work_step a best m = Ok best') as ->.
  { unfold max_work_step, get_total_work, try_get_total_work. by rewrite Hw. }
  rewrite ok_bind. destruct (IH best' Hl) as (r & Hr & Hin & Hsome). exists r. split; [done|]. split.
  - intros w' m' Hr'. destruct (Hin w' m' Hr') as [[w1 Hb]|]; [|right; by right].
    unfold best' in Hb. destruct best as [[w0 m0]|]; [|injection Hb as _ <-; right; by left].
    destruct (w <? w0)%Z; injection Hb as <- <-; [left; eauto|right; by left].
  - intros _. apply Hsome. left. unfold best'. destruct best as [[w0 m0]|]; [|by eexists].
    destruct (w <? w0)%Z; by eexists.
Qed.

Lemma verifications_elem b m : m ∈ verifications (iter_bmm (get_bmm_results a b)) ↔ verified a b m.
Proof.
  unfold verifications, verified. rewrite list_elem_of_fmap. split.
  - intros ([m' r] & -> & Hr%list_elem_of_filter). destruct Hr as [Hr Hin]. simpl in *. subst r.
    rewrite (Hiter _) in Hin. by apply elem_of_map_to_list in Hin.
  - intros Hv. exists (m, BmmVerified). split; [done|]. apply list_elem_of_filter. split; [done|].
    rewrite (Hiter _). by apply elem_of_map_to_list.
Qed.

Lemma best_verification b m :
  verified a b m → ∃ m', get_best_main_verification iter_bmm a b = Ok m' ∧ verified a b m'.
Proof.
  intros Hv. unfold get_best_main_verification, try_get_best_main_verification.
  destruct (max_work_loop (verifications (iter_bmm (get_bmm_results a b))) None) as (r & Hr & Hin & Hsome).
  { apply Forall_forall. intros m' Hm'%verifications_elem.
    destruct (verified_facts b m' Hm') as (_ & _ & _ & w & hi & _ & _ & _ & _ & Hhi & _).
    apply (ca_work a Hca). by eexists. }
  rewrite Hr, ok_bind. destruct Hsome as [[w m'] ->].
  { right. intros Hnil. apply verifications_elem in Hv. rewrite Hnil in Hv. by apply elem_of_nil in Hv. }
  exists m'. split; [done|]. destruct (Hin w m' eq_refl) as [[? ?]|Hm']; [done|].
  by apply verifications_elem.
Qed.

(** ** Missing bodies *)
Section missing.
Context (b : BlockHash) (H : Z) (Hb : get_height a b = Ok H).

Definition body_missing (c : BlockHash) : Prop :=
  ancestor_of (side_lineage a) c b ∧ bodies a !! c = None.

Lemma remains_new start :
  (0 <= start)%Z → ∃ l, remains a b H (AncestorsRev_new b start) l ∧ (Z.of_nat (length l) <= H + 1)%Z
    ∧ Forall (λ n, Z.of_nat n <= H)%Z l.
Proof.
  intros Hs. pose proof (tip_range a Hok b H Hb). exists (reverse (seq 0 (Z.to_nat (H - start + 1)))). split_and!.
  - split_and!; [done|by intros s [= <-]|]. exists []. by rewrite app_nil_r.
  - rewrite length_reverse, length_seq. lia.
  - apply Forall_forall. intros n Hn%elem_of_reverse%elem_of_seq. lia.
Qed.

Lemma next_missing fuel it l :
  remains a b H it l → length l < fuel → Forall (λ n, Z.of_nat n <= H)%Z l →
  ∃ o it', next_missing_body fuel a it = Ok (o, it')
    ∧ match o with
      | Some c => body_missing c ∧ ∃ l', remains a b H it' l' ∧ length l' < length l ∧ Forall (λ n, Z.of_nat n <= H)%Z l'
      | None => Forall (λ n, is_Some (bodies a !! anc a b n)) l
      end.
Proof.
  revert it l. induction fuel as [|fuel IH]; intros it l Hr Hlen Hl; [lia|].
  cbn [next_missing_body]. pose proof (iterator_step a Hok b H Hb it l Hr) as Hstep.
  destruct l as [|n l].
  { destruct Hstep as (it' & ->). rewrite ok_bind. by exists None, it'. }
  destruct Hstep as (it' & -> & Hr'). rewrite ok_bind. cbv beta iota. cbn [item].
  apply Forall_cons in Hl as [Hn Hl]. unfold try_get_body. simpl in Hlen.
  destruct (bodies a !! anc a b n) as [body|] eqn:Hbody.
  - destruct (IH it' l Hr' ltac:(lia) Hl) as (o & it2 & Ho & Hspec). exists o, it2. split; [done|].
    destruct o as [c|].
    + destruct Hspec as (? & l' & ? & ? & ?). split; [done|]. exists l'. simpl. split_and!; [done|lia|done].
    + constructor; [by eexists|done].
  - exists (Some (anc a b n)), it'. split; [done|]. split.
    + split; [|done]. exists n. by apply (anc_spec a Hok b H Hb).
    + exists l. simpl. split_and!; [done|lia|done].
Qed.

Lemma take_missing n fuel it l :
  remains a b H it l → length l < fuel → Forall (λ n, Z.of_nat n <= H)%Z l →
  ∃ r, take_missing_bodies n fuel a it = Ok r ∧ Forall body_missing r.
Proof.
  revert it l. induction n as [|n IH]; intros it l Hr Hlen Hl; [by exists []|]. cbn [take_missing_bodies].
  destruct (next_missing fuel it l Hr Hlen Hl) as (o & it' & -> & Ho). rewrite ok_bind. cbv beta iota.
  destruct o as [c|]; [|by exists []]. destruct Ho as (Hc & l' & Hr' & Hlen' & Hl').
  destruct (IH it' l' Hr' ltac:(lia) Hl') as (r & -> & Hrs). rewrite ok_bind.
  exists (c :: r). split; [done|]. by constructor.
Qed.

Lemma take_missing_total n start :
  (0 <= start)%Z → ∃ r, take_missing_bodies n (ancestors_fuel a) a (AncestorsRev_new b start) = Ok r
    ∧ Forall body_missing r.
Proof.
  intros Hs. destruct (remains_new start Hs) as (l & Hr & Hlen & Hl). pose proof (depth_bound a Hok b H Hb).
  apply (take_missing n _ _ l Hr); [unfold ancestors_fuel; lia|done].
Qed.

Lemma earliest_missing_total o :
  ∃ r, earliest_missing_body a b o = Ok r ∧ ∀ c, r = Some c → body_missing c.
Proof.
  unfold earliest_missing_body. set (start := match o with Some _ => _ | None => _ end).
  assert (0 <= start)%Z as Hs.
  { unfold start. destruct o; [|done]. unfold wrap32. by apply Z.mod_pos_bound. }
  destruct (remains_new start Hs) as (l & Hr & Hlen & Hl). pose proof (depth_bound a Hok b H Hb).
  destruct (next_missing (S (ancestors_fuel a)) _ l Hr) as (r & it' & -> & Hspec);
    [unfold ancestors_fuel; lia|done|].
  rewrite ok_bind. exists r. split; [done|]. intros c ->. by destruct Hspec.
Qed.
End missing.

(** ** The mainchain block of an ancestor of a verified tip *)
Lemma find_main_total main_descendant l :
  main_known a main_descendant → Forall (λ r, r.2 = BmmVerified → main_known a r.1) l →
  ∃ r, find_main_block a main_descendant l = Ok r
    ∧ (∀ m, r = Some m → (m, BmmVerified) ∈ l)
    ∧ (∀ m, (m, BmmVerified) ∈ l → ancestor_of (main_lineage a) m main_descendant → is_Some r).
Proof.
  intros Km. induction l as [|[m res] l IH]; intros Hl; cbn [find_main_block].
  { exists None. split; [done|]. split; [done|]. by intros m Hm%elem_of_nil. }
  apply Forall_cons in Hl as [Hm Hl]. destruct (IH Hl) as (r & Hr & Hin & Hsome). pose proof (ok_main a Hok).
  destruct res.
  - destruct (descends_Ok (main_lineage a) (main_known a) m main_descendant (Hm eq_refl) Km)
      as (d & Hd & Hiff).
    unfold is_main_descendant. rewrite Hd, ok_bind. destruct d.
    + exists (Some m). split; [done|]. split; [intros m' [= <-]; by left|by eexists].
    + exists r. split; [done|]. split; [intros m' Hm'; right; by apply Hin|].
      intros m' [[= ->]|Hm']%elem_of_cons Ha; [by apply Hiff in Ha|by eapply Hsome].
  - exists r. split; [done|]. split; [intros m' Hm'; right; by apply Hin|].
    intros m' [[=]|Hm']%elem_of_cons Ha. by eapply Hsome.
Qed.

Lemma find_main_ok t c :
  tip_verified a t → ancestor_of (side_lineage a) c (tip_block_hash t) →
  ∃ m, find_main_block a (tip_main_block_hash t) (iter_bmm (get_bmm_results a c)) = Ok (Some m)
    ∧ verified a c m.
Proof.
  intros Hv [n Hn]. destruct (verified_ancestor a n _ _ c Hok Hv Hn) as (m & Hvm & Ha).
  destruct (find_main_total (tip_main_block_hash t) (iter_bmm (get_bmm_results a c)))
    as (r & Hr & Hin & Hsome).
  - by eapply verified_main_known.
  - apply Forall_forall. intros [m' r'] Hm' Hr'. simpl in *. subst r'. rewrite (Hiter _) in Hm'.
    apply elem_of_map_to_list in Hm'. by eapply verified_main_known.
  - destruct (Hsome m) as [m' Hm']; [|done|].
    { rewrite (Hiter _). by apply elem_of_map_to_list. }
    subst r. exists m'. split; [done|]. specialize (Hin m' eq_refl). rewrite (Hiter _) in Hin.
    by apply elem_of_map_to_list in Hin.
Qed.
End archive.

Lemma chains_same a a' :
  chains_ok a → archive_ok a' → main_header_infos a' = main_header_infos a → total_work a' = total_work a →
  block_hash_to_height a' = block_hash_to_height a →
  main_block_hash_to_height a' = main_block_hash_to_height a → chains_ok a'.
Proof.
  intros Hca Hok Eh Ew Ehh Emh. split; [done| | |].
  - intros m. rewrite Eh, Ew. apply (ca_work a Hca).
  - intros b h. unfold get_height, try_get_height. rewrite Ehh. apply (ca_height a Hca b).
  - intros m h. unfold get_main_height, try_get_main_height. rewrite Emh. apply (ca_main_height a Hca m).
Qed.
End tips.
