(* ===== verification/NetTaskFacts.v ===== *)
(** What the net task keeps, and what stops it.

    The answer of a peer to a request for a block never stops the task,
    whatever it is, when the request is one that the connection tasks make
    ([request_ok]); such requests are the only ones they make.  An answer to a
    request for headers can stop it, and so can a transaction of a peer. *)
From S2P Require Import Prelude.
From S2P Require Import Effects.
From S2P Require Import Borsh.
From S2P Require Import Externals.
From S2P Require Import Toy.
From S2P Require Import Types.
From S2P Require Import AccumulatorDiff.
From S2P Require Import WithdrawalBundle.
From S2P Require Import RollBack.
From S2P Require Import Authorization.
From S2P Require Import Limits.
From S2P Require Import Orchard.
From S2P Require Import State.
From S2P Require Import Block.
From S2P Require Import TwoWayPeg.
From S2P Require Import Lineage.
From S2P Require Import Archive.
From S2P Require Import ArchiveFacts.
From S2P Require Import MemPool.
From S2P Require Import Node.
From S2P Require Import NodeFacts.
From S2P Require Import Net.
From S2P Require Import PeerTask.
From S2P Require Import NetTask.
From S2P Require Import TipFacts.

Section net_task.
Context `{E : Externals}.
Context (iter_set : gset BtcBlockHash → list BtcBlockHash).
Context (iter_bmm : gmap BtcBlockHash BmmResult → list (BtcBlockHash * BmmResult)).
Context (into_values : gmap MainAddress AggregatedWithdrawal → list AggregatedWithdrawal).
Context (iter_tips : Tips → list (Tip * gset SocketAddr)).
Context (iter_addrs : gset SocketAddr → list SocketAddr).
Context (iter_sources : gset (SocketAddr * PeerStateId) → list (SocketAddr * PeerStateId)).
Context {ConnectError : Type} (quinn_connect : SocketAddr → option ConnectError).
Context (Hbmm : iterates_entries iter_bmm).
Context (Htips : ∀ tips x, x ∈ iter_tips tips → tips !! x.1 = Some x.2).

Abbreviation response := (handle_response iter_set iter_bmm iter_tips iter_addrs).
Implicit Types (t : NetTask) (a : Archive).

(** ** Well-formed requests and tasks *)
Definition block_request_ok a (r : GetBlockRequest) : Prop :=
  ∃ tip id, gb_descendant_tip r = Some tip ∧ gb_peer_state_id r = Some id
    ∧ tip_verified a tip ∧ ancestor_of (side_lineage a) (gb_block_hash r) (tip_block_hash tip)
    ∧ ∀ c, gb_ancestor r = Some c → side_known a c.

Definition task_archive t : Archive := nd_archive (nt_node t).
(** The tips that wait and the tips that are ready are verified, and so is the
    node's own. *)
Record task_ok t : Prop := {
  to_chains : chains_ok (task_archive t);
  to_tip b : tip (nd_state (nt_node t)) = Some b → ∃ m, verified (task_archive t) b m;
  to_waiting b tips x : nt_descendant_tips t !! b = Some tips → is_Some (tips !! x) →
    tip_verified (task_archive t) x;
  to_ready : Forall (λ n, tip_verified (task_archive t) (ntr_tip n)) (nt_new_tip_ready t)
}.
(** The steps of a handler after the body is stored: they change neither the
    archive nor the state of the node. *)
Definition step_ok a (nd : Node) t : Prop := task_ok t ∧ nt_node t = nd ∧ task_archive t = a.

Lemma returns_archive {A} (f : Archive → Res ArchiveError A) t (x : A) (Q : A → NetTask → Prop) :
  f (task_archive t) = Ok x → Q x t → returns (m_archive f) t Q.
Proof. intros Hf HQ. exists x, t. unfold m_archive. unfold task_archive in Hf. by rewrite Hf. Qed.

Lemma push_ok a nd t message addr : step_ok a nd t → returns (m_push message addr) t (λ _, step_ok a nd).
Proof. intros ([H1 H2 H3 H4] & <- & <-). apply returns_modify. by split; [split|]. Qed.
Lemma remove_ok a nd t addr : step_ok a nd t → returns (m_remove_peer addr) t (λ _, step_ok a nd).
Proof. intros ([H1 H2 H3 H4] & <- & <-). apply returns_modify. by split; [split|]. Qed.
Lemma ready_ok a nd t tip addr :
  step_ok a nd t → tip_verified a tip → returns (m_ready tip addr) t (λ _, step_ok a nd).
Proof.
  intros ([H1 H2 H3 H4] & <- & <-) Hv. apply returns_modify. split; [split; try done|done].
  simpl. apply Forall_app. split; [done|]. by constructor.
Qed.
Lemma wait_ok a nd t b tip sources :
  step_ok a nd t → tip_verified a tip → returns (m_wait b tip sources) t (λ _, step_ok a nd).
Proof.
  intros ([H1 H2 H3 H4] & <- & <-) Hv. apply returns_modify. split; [split; try done|done].
  intros b' tips x. simpl. rewrite lookup_insert_Some. intros [[<- <-]|[_ Hl]]; [|by eapply H3].
  rewrite lookup_insert_is_Some. intros [<-|[_ [src Hsrc]]]; [done|].
  destruct (nt_descendant_tips t !! b) as [tips|] eqn:Htp; simpl in Hsrc.
  - eapply H3; [exact Htp|by eexists].
  - by rewrite lookup_empty in Hsrc.
Qed.
Lemma unwait_ok a nd t b :
  step_ok a nd t → returns (Er:=NetTaskError) (st_modify (λ t, with_tips (delete b (nt_descendant_tips t)) t)) t (λ _, step_ok a nd).
Proof.
  intros ([H1 H2 H3 H4] & <- & <-). apply returns_modify. split; [split; try done|done].
  intros b' tips' x. simpl. rewrite lookup_delete_Some. intros [_ Hl]. by apply (H3 b').
Qed.

Lemma archive_bind {A B} (f : Archive → Res ArchiveError A) (k : A → StR NetTask NetTaskError B) t x Q :
  f (task_archive t) = Ok x → returns (k x) t Q → returns (m_archive f ≫= k) t Q.
Proof.
  intros Hf Hk. eapply returns_bind; [by apply (returns_archive f t x (λ y t', y = x ∧ t' = t))|].
  by intros y t' [-> ->].
Qed.
Lemma get_bind {A B} (g : NetTask → A) (k : A → StR NetTask NetTaskError B) t Q :
  returns (k (g t)) t Q → returns (st_get g ≫= k) t Q.
Proof. intros Hk. apply (returns_bind _ _ _ (λ y t', y = g t ∧ t' = t)); [by eexists _, _|]. by intros y t' [-> ->]. Qed.
Lemma lift_bind {A B} (x : A) (k : A → StR NetTask NetTaskError B) t Q :
  returns (k x) t Q → returns (st_lift (Ok x) ≫= k) t Q.
Proof. intros Hk. apply (returns_bind _ _ _ (λ y t', y = x ∧ t' = t)); [by eexists _, _|]. by intros y t' [-> ->]. Qed.
Lemma ret_bind {A B} (x : A) (k : A → StR NetTask NetTaskError B) t Q :
  returns (k x) t Q → returns (mret x ≫= k) t Q.
Proof. apply lift_bind. Qed.

(** ** After a body is stored *)
Section block.
Context (a : Archive) (nd : Node).
Implicit Types (tip : Tip).

Lemma notify_ok t addr b tip ancestor id h :
  step_ok a nd t → tip_verified a tip → get_height a b = Ok h → (∀ c, ancestor = Some c → side_known a c) →
  returns (notify_bodies addr b tip ancestor id) t (λ _, step_ok a nd).
Proof.
  intros Hs Hv Hh Hanc. pose proof Hs as ([Hca _ _ _] & Hnd & Ha). rewrite Ha in Hca.
  assert (∃ o, get_height_of a ancestor = Ok o) as [o Ho].
  { destruct ancestor as [c|]; [|by eexists]. destruct (Hanc c eq_refl) as [hc Hc]. simpl.
    unfold get_height, try_get_height. rewrite Hc. by eexists. }
  unfold notify_bodies. apply (archive_bind _ _ _ o); [by rewrite Ha|].
  destruct (earliest_missing_total a Hca b h Hh o) as (r & Hr & _).
  apply (archive_bind _ _ _ r); [by rewrite Ha|].
  destruct r; [by apply wait_ok|by apply push_ok].
Qed.

Lemma common_height_total tip own :
  chains_ok a → tip_verified a tip → (∀ o, own = Some o → tip_verified a o) →
  ∃ r, common_ancestor_height a tip own = Ok r.
Proof.
  intros Hca Hv Hown. pose proof (ca_ok a Hca) as Hok. pose proof (ok_side a Hok) as HL.
  destruct (verified_facts a Hca _ _ Hv) as (header & h & _ & _ & _ & Hheader & Hh & _).
  unfold common_ancestor_height. destruct own as [own|]; [|by eexists].
  destruct (verified_facts a Hca _ _ (Hown own eq_refl)) as (_ & ho & _ & _ & _ & _ & Hho & _).
  destruct (last_common_ancestor_ok a _ _ h ho Hok Hh Hho) as [(c & Hc & (n & Hn) & _)|[Hc _]];
    [by eapply ca_height..| |]; rewrite Hc, ok_bind; [|by eexists].
  destruct (up_depth (side_lineage a) (side_known a) n _ h c (get_height_known _ _ _ Hh) Hh Hn)
    as (_ & _ & Hch). simpl in Hch. unfold get_height_of. rewrite Hch. by eexists.
Qed.

Lemma parent_tip_total tip c :
  chains_ok a → tip_verified a tip → body_missing a (tip_block_hash tip) c →
  ∃ o, parent_tip iter_bmm a c = Ok o ∧ ∀ p, o = Some p → tip_verified a p.
Proof.
  intros Hca Hv [[n Hn] _]. pose proof (ca_ok a Hca) as Hok. unfold parent_tip.
  destruct (verified_at a Hca _ _ n c Hv Hn) as (header & Hc & _).
  assert (get_header a c = Ok header) as Hgc by (unfold get_header, try_get_header; by rewrite Hc).
  rewrite Hgc, ok_bind. destruct (prev_side_hash header) as [p|] eqn:Hp; [|by eexists].
  assert (up (side_lineage a) (n + 1) (tip_block_hash tip) = Ok p) as Hup.
  { rewrite (up_add_Ok _ _ _ _ _ Hn). cbn [up side_lineage lin_parent]. by rewrite Hgc, ok_bind, Hp. }
  destruct (verified_ancestor a _ _ _ p Hok Hv Hup) as (m & Hvm & _).
  destruct (best_verification iter_bmm Hbmm a Hca p m Hvm) as (m' & Hm' & Hv').
  rewrite Hm', ok_bind. eexists. split; [done|]. by intros p' [= <-].
Qed.

Lemma is_better_total own next :
  chains_ok a → (∀ o, own = Some o → tip_verified a o) → tip_verified a next →
  ∃ r, is_better a own next = Ok r.
Proof.
  intros Hca Hown Hv. unfold is_better. destruct own as [own|]; [|by eexists].
  destruct (better_tip_total a Hca own next (Hown own eq_refl) Hv) as [r ->]. by eexists.
Qed.

Lemma try_tip_ok t own x :
  step_ok a nd t → (∀ o, own = Some o → tip_verified a o) → tip_verified a x.1 →
  returns (try_descendant_tip iter_bmm iter_addrs own x) t (λ _, step_ok a nd).
Proof.
  intros Hs Hown Hv. pose proof Hs as ([Hca _ _ _] & Hnd & Ha). rewrite Ha in Hca.
  destruct x as [tip sources]. cbn [fst] in Hv. unfold try_descendant_tip.
  destruct (common_height_total tip own Hca Hv Hown) as [o Ho].
  apply (archive_bind _ _ _ o); [by rewrite Ha|].
  destruct (verified_facts a Hca _ _ Hv) as (_ & h & _ & _ & _ & _ & Hh & _).
  destruct (earliest_missing_total a Hca _ h Hh o) as (e & He & Hmiss).
  apply (archive_bind _ _ _ e); [by rewrite Ha|].
  apply (returns_bind _ _ _ (λ next t', step_ok a nd t' ∧ ∀ p, next = Some p → tip_verified a p)).
  - destruct e as [c|].
    + apply (returns_bind _ _ _ (λ _, step_ok a nd)); [by apply wait_ok|]. intros _ t1 Hs1.
      destruct (parent_tip_total tip c Hca Hv (Hmiss c eq_refl)) as (next & Hnext & Hp).
      pose proof (proj2 (proj2 Hs1)) as Ha1. apply (returns_archive _ _ next); [by rewrite Ha1|done].
    + apply returns_ret. split; [done|]. by intros p [= <-].
  - intros next t1 [Hs1 Hnext]. destruct next as [next|]; [|by apply returns_ret].
    destruct (is_better_total own next Hca Hown (Hnext next eq_refl)) as [r Hr].
    pose proof (proj2 (proj2 Hs1)) as Ha1. apply (archive_bind _ _ _ r); [by rewrite Ha1|].
    destruct r; [|by apply returns_ret]. apply returns_for; [|done].
    intros x t2 _ Hs2. by apply ready_ok; [|apply Hnext].
Qed.

Lemma waiting_ok t own b :
  step_ok a nd t → (∀ o, own = Some o → tip_verified a o) →
  returns (try_waiting_tips iter_bmm iter_tips iter_addrs own b) t (λ _, step_ok a nd).
Proof.
  intros Hs1 Hownv. unfold try_waiting_tips.
  apply get_bind. destruct (nt_descendant_tips t !! b) as [tips|] eqn:Htb; [|by apply returns_ret].
  assert (∀ x, x ∈ iter_tips tips → tip_verified a x.1) as Hwait.
  { intros x Hx%Htips. destruct Hs1 as ([_ _ Hw _] & _ & Ha1). rewrite <- Ha1.
    eapply Hw; [exact Htb|by eexists]. }
  apply (returns_bind _ _ _ (λ _, step_ok a nd)); [by apply unwait_ok|].
  intros _ t2 Hs2. apply returns_for; [|done]. intros x t3 Hx Hs3. by apply try_tip_ok; [..|apply Hwait].
Qed.

(** The block is announced as a tip, if it extends the node's own; then the
    tips that waited for it are tried. *)
Lemma apply_new_eq t addr header b tip :
  step_ok a nd t → tip_verified a tip → ancestor_of (side_lineage a) b (tip_block_hash tip) →
  ∃ own m, current_tip iter_bmm nd = Ok own ∧ (∀ o, own = Some o → tip_verified a o) ∧ verified a b m
    ∧ apply_new_tips iter_bmm iter_tips iter_addrs addr header b tip t
      = (_ ← (if bool_decide (prev_side_hash header = tip_block_hash <$> own) then m_ready (mk_Tip b m) addr
              else mret tt);
         try_waiting_tips iter_bmm iter_tips iter_addrs own b) t.
Proof.
  intros Hs Hv Hanc. pose proof Hs as ([Hca Hown _ _] & Hnd & Ha). rewrite Ha in Hca, Hown.
  assert (∃ own, current_tip iter_bmm nd = Ok own ∧ ∀ o, own = Some o → tip_verified a o)
    as (own & Hcur & Hownv).
  { rewrite <- Hnd. unfold current_tip. destruct (State.tip (nd_state (nt_node t))) as [h|]; [|by eexists].
    destruct (Hown h eq_refl) as [m Hm].
    destruct (best_verification iter_bmm Hbmm a Hca h m Hm) as (m' & Hm' & Hv'). unfold tip_of.
    change (nd_archive (nt_node t)) with (task_archive t). rewrite Ha, Hm'. eexists. split; [done|].
    by intros o [= <-]. }
  destruct (find_main_ok iter_bmm Hbmm a Hca tip b Hv Hanc) as (m & Hm & Hvm).
  exists own, m. split_and!; [done..|]. unfold apply_new_tips. rewrite st_get_bind, Hnd, Hcur.
  unfold map_err. rewrite st_lift_bind. erewrite st_bind_eq; [done|].
  unfold m_archive. fold (task_archive t). by rewrite Ha, Hm.
Qed.

Lemma apply_new_ok t addr header b tip :
  step_ok a nd t → tip_verified a tip → ancestor_of (side_lineage a) b (tip_block_hash tip) →
  returns (apply_new_tips iter_bmm iter_tips iter_addrs addr header b tip) t (λ _, step_ok a nd).
Proof.
  intros Hs Hv Hanc. destruct (apply_new_eq t addr header b tip Hs Hv Hanc) as (own & m & _ & Hown & Hm & Heq).
  unfold returns. rewrite Heq. apply (returns_bind _ _ _ (λ _, step_ok a nd)).
  { case_bool_decide; [by apply ready_ok|by apply returns_ret]. }
  intros _ t1 Hs1. by apply waiting_ok.
Qed.
End block.

Lemma put_body_same a b body a' :
  iterates_entries iter_bmm → archive_ok a → put_body a b body = Ok a' →
  archive_ok a' ∧ ∃ bs inc, a' = with_bodies a bs inc.
Proof.
  intros Hit Hok Hput. split.
  - eapply (archive_step_ok iter_set iter_bmm Z.add); [done|by eapply step_body|done].
  - apply bind_Ok in Hput as (h & _ & Hput). injection Hput as <-.
    destruct (put_inclusions_tables b (with_bodies a (<[b:=body]> (bodies a)) (txid_to_inclusions a))
      (imap pair (transactions body))) as (i & ->).
    by eexists _, _.
Qed.

Lemma put_body_step t b body a' :
  task_ok t → put_body (task_archive t) b body = Ok a' →
  step_ok a' (mk_Node a' (nd_mempool (nt_node t)) (nd_state (nt_node t)))
    (with_node (mk_Node a' (nd_mempool (nt_node t)) (nd_state (nt_node t))) t).
Proof.
  intros [Hca Ht Hw Hr] Hput. destruct (put_body_same _ b body a' Hbmm (ca_ok _ Hca) Hput) as (Hok & bs & inc & ->).
  split; [split|done].
  - by apply (chains_same (task_archive t)).
  - exact Ht.
  - exact Hw.
  - exact Hr.
Qed.

Lemma handle_block_ok t addr r id tip header body :
  task_ok t → block_request_ok (task_archive t) r →
  gb_descendant_tip r = Some tip → gb_peer_state_id r = Some id →
  returns (handle_block iter_bmm iter_tips iter_addrs addr (gb_block_hash r) tip (gb_ancestor r) id header body)
    t (λ _ t', task_ok t' ∧ nd_state (nt_node t') = nd_state (nt_node t)
       ∧ nd_mempool (nt_node t') = nd_mempool (nt_node t)).
Proof.
  intros Hok (tip' & id' & Htip & _ & Hv & Hanc & Hancestor) Htip' _.
  rewrite Htip in Htip'. injection Htip' as ->. unfold handle_block. case_bool_decide as Hhash.
  { eapply returns_wand; [|by apply (remove_ok (task_archive t) (nt_node t))].
    intros _ t' (? & -> & _). done. }
  pose proof (to_chains t Hok) as Hca. destruct Hanc as [n Hn].
  destruct (verified_at _ Hca _ _ n _ Hv Hn) as (hd & Hhd & _).
  destruct (proj1 (ok_headers _ (ca_ok _ Hca) _) (ex_intro _ hd Hhd)) as [h Hh].
  assert (∃ a', put_body (task_archive t) (gb_block_hash r) body = Ok a') as [a' Ha'].
  { unfold put_body, get_header, try_get_header. rewrite Hhd. cbn [ok_or]. rewrite ok_bind. by eexists. }
  apply (archive_bind _ _ _ a'); [done|]. pose proof (put_body_step t _ _ _ Hok Ha') as Hs1.
  destruct (put_body_same _ _ _ _ Hbmm (ca_ok _ Hca) Ha') as (_ & bs & inc & ->).
  set (nd' := mk_Node _ _ _) in Hs1. eapply returns_bind.
  { apply (returns_modify _ _ (λ _, step_ok (with_bodies (task_archive t) bs inc) nd')), Hs1. }
  intros [] t1 Hs2. eapply returns_bind.
  { apply (notify_ok _ _ _ _ _ _ _ _ h Hs2); [done| |done]. unfold get_height, try_get_height.
    simpl. by rewrite Hh. }
  intros [] t2 Hs3. eapply returns_wand;
    [|by apply (apply_new_ok (with_bodies (task_archive t) bs inc) nd'); [..|exists n]].
  intros _ t3 (? & -> & _). done.
Qed.

(** ** Requests made before the archive grew *)
Definition grows a a' : Prop :=
  (∀ b h, headers a !! b = Some h → headers a' !! b = Some h) ∧ (∀ b m, verified a b m → verified a' b m).

Lemma up_grows a a' n b c :
  (∀ b h, headers a !! b = Some h → headers a' !! b = Some h) →
  up (side_lineage a) n b = Ok c → up (side_lineage a') n b = Ok c.
Proof.
  intros Hg. revert b. induction n as [|n IH]; intros b; [done|]. cbn [up side_lineage lin_parent].
  unfold get_header, try_get_header. intros (p & (h & Hh%ok_or_Ok & Hp)%bind_Ok & Hup)%bind_Ok.
  rewrite (Hg b h Hh). cbn [ok_or]. rewrite ok_bind, Hp, ok_bind. by apply IH.
Qed.
Lemma request_grows a a' r :
  archive_ok a → archive_ok a' → grows a a' → block_request_ok a r → block_request_ok a' r.
Proof.
  intros Hok Hok' [Hg Hgv] (tip & id & ? & ? & Hv & [n Hn] & Hc). exists tip, id. split_and!; [done..| |exists n|].
  - by apply Hgv.
  - by eapply up_grows.
  - intros c Hanc. apply (ok_headers a' Hok').
    destruct (proj2 (ok_headers a Hok c) (Hc c Hanc)) as [h Hh]. exists h. by apply Hg.
Qed.

(** ** The requests of a connection task *)
Section requests.
Context (a : Archive) (Hca : chains_ok a).
Implicit Types (q : RequestQueue) (o : Outbox).

Definition queue_ok q : Prop := ∀ r, GetBlock r ∈ rq_requests q → block_request_ok a r.
Definition outbox_ok o : Prop := queue_ok (ob_queue o).

Lemma send_keeps request :
  (∀ r, request = GetBlock r → block_request_ok a r) → keeps queue_ok (q_send request).
Proof.
  intros Hr q Hq. unfold q_send, send_request. case_bool_decide; [done|].
  destruct (rq_open q); simpl; [|done]. intros r. simpl.
  rewrite elem_of_app, list_elem_of_singleton. intros [Hin|Heq]; [by apply Hq|by apply Hr].
Qed.
Lemma archive_keeps {A} (r : Res ArchiveError A) : keeps queue_ok (q_archive r).
Proof. apply keeps_lift. Qed.
Lemma request_headers_keeps start p id : keeps queue_ok (request_headers a start p id).
Proof.
  unfold request_headers. destruct (try_get_header _ _); [apply keeps_ret|].
  apply keeps_bind; [apply archive_keeps|]. intros s. apply keeps_bind; [|intros; apply keeps_ret].
  by apply send_keeps.
Qed.

#[local] Hint Resolve archive_keeps request_headers_keeps : keeps.
Lemma check_peer_tip_keeps tip p id : keeps queue_ok (check_peer_tip_and_request_headers a tip p id).
Proof.
  unfold check_peer_tip_and_request_headers. cbv zeta.
  repeat first [apply keeps_bind; [|intros ?] | apply keeps_ret | apply archive_keeps
    | apply request_headers_keeps | case_match].
Qed.

Lemma queue_keeps {A} (m : StR RequestQueue TaskError A) : keeps queue_ok m → keeps outbox_ok (o_queue m).
Proof. intros Hm. by apply (keeps_zoom _ queue_ok). Qed.
Lemma info_keeps i : keeps outbox_ok (o_info i).
Proof. by apply keeps_modify. Qed.
Lemma claims_keeps p i : keeps outbox_ok (check_claims a p i).
Proof.
  unfold check_claims, o_archive, o_ban.
  repeat first [apply keeps_bind; [|intros ?] | apply keeps_ret | apply keeps_lift | apply info_keeps | case_match].
Qed.

Lemma bind_result {A B} (m : StR Outbox TaskError A) (k : A → StR Outbox TaskError B) :
  keeps outbox_ok m → (∀ o o' x, m o = (o', Ok x) → keeps outbox_ok (k x)) → keeps outbox_ok (m ≫= k).
Proof.
  intros Hm Hk o Ho. unfold mbind, str_bind. specialize (Hm o Ho).
  destruct (m o) as [o' [x|e|]] eqn:Hmo; simpl in *; [by eapply Hk|done..].
Qed.

Lemma request_bodies_keeps own p tip : tip_verified a tip → keeps outbox_ok (request_bodies a own p tip).
Proof.
  intros Hv. destruct (verified_facts a Hca _ _ Hv) as (_ & h & _ & _ & _ & _ & Hh & _).
  pose proof (ca_ok a Hca) as Hok. pose proof (ok_side a Hok) as HL.
  unfold request_bodies. apply bind_result.
  { destruct own; [apply keeps_lift|apply keeps_ret]. }
  intros o o' common Hcommon.
  assert (∀ c, common = Some c → side_known a c) as Hknown.
  { intros c ->. destruct own as [own|]; [|done]. unfold o_archive, st_lift in Hcommon.
    injection Hcommon as _ Hc%map_err_Ok. pose proof Hc as Hc'. unfold last_common_ancestor in Hc'.
    apply bind_Ok in Hc' as (h0 & Hh0 & _).
    destruct (last_common_ancestor_ok a _ _ h0 h Hok Hh0 Hh) as [(c' & Hc' & (n & Hn) & _)|[Hc' _]];
      [by eapply ca_height..| |congruence].
    rewrite Hc in Hc'. injection Hc' as <-.
    by destruct (up_depth (side_lineage a) (side_known a) n _ h0 c (get_height_known _ _ _ Hh0) Hh0 Hn)
      as (_ & Kc & _). }
  apply bind_result; [destruct common; [apply keeps_lift|apply keeps_ret]|].
  intros o1 o1' start Hstart.
  assert (0 <= start)%Z as Hpos.
  { destruct common as [c|]; [|by injection Hstart as _ <-]. unfold o_archive, st_lift in Hstart.
    injection Hstart as _ Hs%map_err_Ok.
    destruct (known_node (side_lineage a) (side_known a) c start (get_height_known _ _ _ Hs) Hs) as (_ & Hr & _).
    lia. }
  apply bind_result; [apply keeps_lift|]. intros o2 o2' bodies Hbodies.
  destruct (take_missing_total a Hca (tip_block_hash tip) h Hh MAX_BLOCK_REQUESTS start Hpos)
    as (r & Hr & Hmiss).
  unfold o_archive, st_lift in Hbodies. rewrite Hr in Hbodies. injection Hbodies as _ <-.
  assert (keeps outbox_ok (st_for (λ block_hash,
    _ ← o_queue (q_send (GetBlock (mk_GetBlockRequest block_hash (Some tip) common (Some (PeerStateId_from p)))));
    mret tt) r)) as Hloop.
  { clear Hr. induction Hmiss as [|c r Hc _ IH]; [apply keeps_ret|]. cbn [st_for].
    apply keeps_bind; [|intros _; exact IH]. apply keeps_bind; [|intros _; apply keeps_ret].
    apply queue_keeps, send_keeps. intros r' [= <-].
    exists tip, (PeerStateId_from p). split_and!; [done..|apply Hc|done]. }
  destruct r as [|c r]; [apply info_keeps|exact Hloop].
Qed.

(** Whatever state a peer announces, the blocks that its task requests are
    ancestors of a verified tip. *)
Lemma peer_state_keeps s p : keeps outbox_ok (handle_peer_state iter_bmm (mk_ConnectionContext a s) p).
Proof.
  unfold handle_peer_state. destruct (tip_info p) as [i|]; [|apply keeps_ret]. cbv zeta.
  apply keeps_bind; [apply keeps_lift|]. intros own.
  apply keeps_bind; [apply claims_keeps|]. intros claims. destruct claims; cbn [negb]; [|apply keeps_ret].
  apply keeps_bind; [apply queue_keeps, check_peer_tip_keeps|]. intros [[]|]; [|apply keeps_ret..].
  case_bool_decide as Hb; [|apply keeps_lift]. by apply request_bodies_keeps.
Qed.
End requests.

(** ** The node of the task *)
Definition node_of_ok t : Prop := node_ok (nt_node t).

Lemma same_accumulators nd a' :
  node_ok nd → accumulators a' = accumulators (nd_archive nd) →
  node_ok (mk_Node a' (nd_mempool nd) (nd_state nd)).
Proof.
  intros [Hm Hh (acc & Hacc & Hget)] Ea. split; [done..|]. exists acc. split; [done|].
  revert Hget. unfold Archive.get_accumulator, try_get_accumulator. simpl. by rewrite Ea.
Qed.
Lemma put_body_accumulators a b body a' : put_body a b body = Ok a' → accumulators a' = accumulators a.
Proof.
  intros (h & _ & [= <-])%bind_Ok.
  destruct (put_inclusions_tables b (with_bodies a (<[b:=body]> (bodies a)) (txid_to_inclusions a))
    (imap pair (transactions body))) as (i & ->). done.
Qed.
Lemma store_headers_accumulators a l a' :
  store_headers iter_set iter_bmm a l = Ok a' → accumulators a' = accumulators a.
Proof.
  revert a. induction l as [|h l IH]; intros a; cbn [store_headers]; [by intros [= <-]|].
  destruct (try_get_header a (Header_hash h)); [apply IH|].
  destruct (match prev_side_hash h with Some _ => _ | None => _ end); [by intros [= <-]|].
  intros (a1 & Ha1 & Hl)%bind_Ok. rewrite (IH a1 Hl).
  by apply put_header_Ok in Ha1 as (? & ? & ? & ? & ? & _ & _ & _ & _ & ->).
Qed.

Lemma archive_bind_eq {A B} (f : Archive → Res ArchiveError A) (k : A → StR NetTask NetTaskError B) t :
  (m_archive f ≫= k) t = match f (task_archive t) with
    | Ok x => k x t | Err e => (t, Err (NtArchive e)) | Panic => (t, Panic) end.
Proof. unfold mbind, str_bind, m_archive, task_archive. by destruct (f _). Qed.

(** Store the archive that a call on the archive returns, and go on. *)
Lemma put_keeps {B} (f : Archive → Res ArchiveError Archive) (k : StR NetTask NetTaskError B) :
  (∀ a a', f a = Ok a' → accumulators a' = accumulators a) → keeps node_of_ok k →
  keeps node_of_ok (a ← m_archive f; _ ← m_put_archive a; k).
Proof.
  intros Hf Hk t Ht. rewrite archive_bind_eq.
  destruct (f (task_archive t)) as [a'|e|] eqn:Hfa; [|done..].
  unfold m_put_archive. rewrite st_modify_bind. apply Hk. unfold node_of_ok. simpl.
  apply same_accumulators; [done|by eapply Hf].
Qed.
Lemma read_keeps {A} (f : Archive → Res ArchiveError A) : keeps node_of_ok (m_archive f).
Proof. intros t Ht. done. Qed.

#[local] Hint Resolve read_keeps : keeps.
Lemma remove_keeps addr : keeps node_of_ok (m_remove_peer addr).
Proof. by apply keeps_modify. Qed.
Lemma push_keeps m addr : keeps node_of_ok (m_push m addr).
Proof. by apply keeps_modify. Qed.
Lemma ready_keeps tip addr : keeps node_of_ok (m_ready tip addr).
Proof. by apply keeps_modify. Qed.
Lemma wait_keeps b tip src : keeps node_of_ok (m_wait b tip src).
Proof. by apply keeps_modify. Qed.
#[local] Hint Resolve remove_keeps push_keeps ready_keeps wait_keeps : keeps.

Ltac keeps_steps :=
  repeat first [apply keeps_bind; [|intros ?] | apply keeps_ret | apply keeps_lift | apply keeps_get
    | apply read_keeps | apply remove_keeps | apply push_keeps | apply ready_keeps | apply wait_keeps
    | apply keeps_for; intros ? | (apply keeps_modify; intros ? ?; assumption) | case_match].

Lemma response_keeps addr resp req : keeps node_of_ok (response addr resp req).
Proof.
  unfold handle_response. destruct req as [[b [tip|] anc [id|]]|[start e [height|] [id|]]|tx], resp;
    try (keeps_steps; fail).
  - unfold handle_block. case_bool_decide; [apply remove_keeps|].
    apply put_keeps; [intros ? ?; apply put_body_accumulators|].
    unfold notify_bodies, apply_new_tips, try_waiting_tips, try_descendant_tip. keeps_steps.
  - unfold handle_headers. apply keeps_bind; [apply read_keeps|]. intros []; cbn [negb]; [|apply remove_keeps].
    apply put_keeps; [intros ? ?; apply store_headers_accumulators|apply push_keeps].
Qed.

Lemma new_transaction_keeps addr tx : keeps node_of_ok (handle_new_transaction addr tx).
Proof.
  intros t Ht. unfold handle_new_transaction. destruct (regenerate_proof _ _) as [tx'| |]; [|done..].
  destruct (mempool_put _ _) as [m| |] eqn:Hput; [|done..].
  destruct Ht as [Hm Hh Hacc]. split; simpl; [|done..]. eapply mempool_step_ok; [exact Hm|by eapply step_put].
Qed.

Abbreviation item := (run_item iter_set iter_bmm into_values iter_tips iter_addrs iter_sources quinn_connect).
Lemma item_keeps i : keeps node_of_ok (item i).
Proof.
  destruct i as [incoming| |b res| |[[addr [info|]]|]|]; cbn [run_item].
  - by apply keeps_modify.
  - intros t Ht. unfold forward_request. destruct (nt_forward t) as [|[[r p] id] l]; [done|]. cbv zeta.
    cbn. by destruct (nt_mainchain t).
  - unfold mainchain_response. keeps_steps.
  - intros t Ht. unfold new_tip_ready. destruct (nt_new_tip_ready t) as [|[tip addr resp] l]; [done|].
    cbn. destruct (reorg_to_tip _ _ _ (nt_node t) tip) as [nd [r|e|]] eqn:Hrun;
      pose proof (reorg_ok iter_set iter_bmm into_values _ _ _ _ Ht Hrun); [|done..].
    by destruct resp as [[]|].
  - destruct info as [[]| | |tx|]; unfold handle_info; try (keeps_steps; fail).
    + apply new_transaction_keeps.
    + apply response_keeps.
  - apply remove_keeps.
  - apply keeps_lift.
  - apply keeps_modify. intros t Ht. by destruct (nt_reconnect t).
Qed.

(** ** A reorganization onto a body that does not match its header *)
Abbreviation reorg := (reorg_to_tip iter_set iter_bmm into_values).
Lemma apply_blocks_last tip c nd batch blocks block c' nd' :
  apply_blocks iter_set iter_bmm into_values tip c nd batch (blocks ++ [block]) = (c', Ok nd') →
  ∃ nd1 data, connect_tip_ iter_set iter_bmm into_values nd1 block.1 block.2 data = Ok nd'.
Proof.
  revert c nd batch. induction blocks as [|x blocks IH]; intros c nd batch; simpl;
    destruct (apply_one _ _ _ tip nd batch _) as [[[nd1 b1] cm]| |] eqn:H1; try done.
  - intros [= <- <-]. apply apply_one_inv in H1 as (data & H1 & _). by exists nd, data.
  - apply IH.
Qed.
Lemma reorg_connects nd new_tip nd' :
  reorg nd new_tip = (nd', Ok true) →
  ∃ header body, get_header (nd_archive nd) (tip_block_hash new_tip) = Ok header
    ∧ get_body (nd_archive nd) (tip_block_hash new_tip) = Ok body
    ∧ compute_merkle_root body = merkle_root header.
Proof.
  unfold reorg_to_tip. destruct (prepare_reorg iter_bmm nd new_tip) as [[[[[cur work] batch] blocks]|]| |] eqn:Hp; try done.
  unfold prepare_reorg in Hp. apply bind_Ok in Hp as (t & _ & Hp). apply bind_Ok in Hp as (bt & _ & Hp).
  destruct bt; [|done]. cbn [negb] in Hp. apply bind_Ok in Hp as (ca & _ & Hp).
  apply bind_Ok in Hp as ([[header body] tl] & Hblocks%map_err_Ok & Hp).
  apply bind_Ok in Hp as (w & _ & Hp). apply bind_Ok in Hp as ([] & _ & Hp).
  apply bind_Ok in Hp as (stop & _ & Hp). apply bind_Ok in Hp as (bs & _ & Hp). injection Hp as <- <- <- <-.
  unfold blocks_to_apply in Hblocks. apply bind_Ok in Hblocks as (header' & Hh & Hblocks).
  apply bind_Ok in Hblocks as (body' & Hb & Hblocks). apply bind_Ok in Hblocks as (tl' & _ & Hblocks).
  injection Hblocks as <- <- <-. rewrite reverse_cons.
  destruct (apply_blocks _ _ _ _ _ _ _ _) as [c [work'|e|]] eqn:Hrun; try done. intros _.
  apply apply_blocks_last in Hrun as (nd1 & data & (s1 & fr & acc & Ha & _)%connect_tip_Ok).
  exists header', body'. split_and!; [done..|]. simpl in Ha. unfold apply_block in Ha.
  apply bind_Ok in Ha as (p & Hp%map_err_Ok & _).
  by apply prevalidate_Ok in Hp as (? & ? & ? & _ & Hm & _).
Qed.

(** ** Theorems *)
Abbreviation run_items := (run iter_set iter_bmm into_values iter_tips iter_addrs iter_sources quinn_connect).

(** C7: The node stays consistent: whatever items arrive, in whatever order,
    and also when one of them ends the task, the pool, the height and the
    accumulator of the node agree with its tip and its archive. *)
Theorem net_task_invariant (t : NetTask) (items : list NetItem) (Hok : node_ok (nt_node t)) :
  node_ok (nt_node (run_items items t).1).
Proof. apply (keeps_for node_of_ok); [exact item_keeps|exact Hok]. Qed.

(** C8: The answer to a request for a block cannot stop the net task: if a
    connection task made the request when a peer announced some state, and the
    archive has grown since, then every answer that the peer can give, right or
    wrong, is handled without an error, and leaves the tips that wait and the
    tips that are ready verified. *)
Theorem block_answers_never_stop (a : Archive) (s : State) (p : PeerState) (o : Outbox)
    (t : NetTask) (addr : SocketAddr) (r : GetBlockRequest) (resp : ResponseMessage)
    (Hca : chains_ok a) (Hempty : rq_requests (ob_queue o) = [])
    (Hsent : GetBlock r ∈ rq_requests (ob_queue (handle_peer_state iter_bmm (mk_ConnectionContext a s) p o).1))
    (Hok : task_ok t) (Hgrow : grows a (task_archive t)) :
  returns (response addr resp (GetBlock r)) t (λ _ t', task_ok t'
    ∧ nd_state (nt_node t') = nd_state (nt_node t) ∧ nd_mempool (nt_node t') = nd_mempool (nt_node t)).
Proof.
  assert (block_request_ok (task_archive t) r) as Hr.
  { eapply request_grows; [apply (ca_ok a Hca)|apply (ca_ok _ (to_chains t Hok))|exact Hgrow|].
    eapply (peer_state_keeps a Hca s p o); [|exact Hsent]. intros r'. rewrite Hempty. by intros ?%elem_of_nil. }
  pose proof Hr as (tip & id & Htip & Hid & _). destruct r as [b tip' anc id']. simpl in Htip, Hid. subst tip' id'.
  assert (returns (m_remove_peer addr) t (λ _ t', task_ok t'
    ∧ nd_state (nt_node t') = nd_state (nt_node t) ∧ nd_mempool (nt_node t') = nd_mempool (nt_node t))) as Hrem.
  { eapply returns_wand; [|by apply (remove_ok (task_archive t) (nt_node t))]. intros _ t' (? & -> & _). done. }
  destruct resp; try exact Hrem; cbn [handle_response].
  - by apply (handle_block_ok t addr _ id tip _ _ Hok Hr).
  - case_bool_decide; [by apply returns_ret|exact Hrem].
Qed.

(** The poisoned body is stored, and the block announced. *)
Lemma poisoned_steps t addr b tip anc id header body :
  task_ok t → block_request_ok (task_archive t) (mk_GetBlockRequest b (Some tip) anc (Some id)) →
  headers (task_archive t) !! b = Some header → Header_hash header = b →
  prev_side_hash header = State.tip (nd_state (nt_node t)) → nt_new_tip_ready t = [] →
  returns (response addr (RBlock header body) (GetBlock (mk_GetBlockRequest b (Some tip) anc (Some id)))) t
    (λ _ t', ∃ inc m, nt_node t' = mk_Node (with_bodies (task_archive t) (<[b:=body]> (bodies (task_archive t))) inc)
        (nd_mempool (nt_node t)) (nd_state (nt_node t))
      ∧ verified (task_archive t) b m
      ∧ head (nt_new_tip_ready t') = Some (mk_NewTipReady (mk_Tip b m) (Some addr) None)).
Proof.
  intros Hok (tip' & id' & [= <-] & [= <-] & Hv & Hanc & Hancestor) Hheader Hhash Hparent Hready.
  cbn [gb_block_hash gb_ancestor] in *. cbn [handle_response]. unfold handle_block.
  rewrite bool_decide_false by (intros Hx; by apply Hx). pose proof (to_chains t Hok) as Hca.
  destruct (proj1 (ok_headers _ (ca_ok _ Hca) _) (ex_intro _ header Hheader)) as [h Hh].
  destruct (put_inclusions_tables b (with_bodies (task_archive t) (<[b:=body]> (bodies (task_archive t)))
    (txid_to_inclusions (task_archive t))) (imap pair (transactions body))) as (inc & Hinc).
  assert (put_body (task_archive t) b body
    = Ok (with_bodies (task_archive t) (<[b:=body]> (bodies (task_archive t))) inc)) as Hput.
  { unfold put_body, get_header, try_get_header. rewrite Hheader. cbn [ok_or]. rewrite ok_bind, Hinc. done. }
  apply (archive_bind _ _ _ _ _ Hput). pose proof (put_body_step t _ _ _ Hok Hput) as Hs1.
  clear Hput Hinc. set (a' := with_bodies _ _ _) in *. set (nd' := mk_Node _ _ _) in *.
  apply (returns_bind _ _ _ (λ _ t', step_ok a' nd' t' ∧ nt_new_tip_ready t' = [])).
  { apply returns_modify. split; [exact Hs1|done]. }
  intros [] t1 [Hs2 Hr1]. apply (returns_bind _ _ _ (λ _ t', step_ok a' nd' t' ∧ nt_new_tip_ready t' = [])).
  { apply returns_keeps; [|done|].
    - unfold notify_bodies. repeat first [apply keeps_bind; [|intros ?] | by apply keeps_modify | case_match | by intros ? ?].
    - apply (notify_ok a' nd' _ _ _ _ _ _ h Hs2); [done| |done]. unfold get_height, try_get_height. simpl. by rewrite Hh. }
  intros [] t2 [Hs3 Hr2].
  destruct (apply_new_eq a' nd' t2 addr header b tip Hs3 Hv Hanc) as (own & m & Hcur & Hown & Hm & Heq).
  unfold returns. rewrite Heq.
  rewrite bool_decide_true.
  2:{ rewrite Hparent. revert Hcur. unfold current_tip. cbn [nd_state nd' ]. destruct (State.tip _) as [x|].
      - intros (x' & (y & _ & Hy)%bind_Ok & Hx')%bind_Ok. injection Hy as <-. by injection Hx' as <-.
      - by intros [= <-]. }
  apply (returns_bind _ _ _ (λ _ t', step_ok a' nd' t'
    ∧ head (nt_new_tip_ready t') = Some (mk_NewTipReady (mk_Tip b m) (Some addr) None))).
  { destruct (ready_ok a' nd' t2 (mk_Tip b m) addr Hs3 Hm) as ([] & t3 & Ht3 & Hs4).
    exists tt, t3. split_and!; [done..|]. injection Ht3 as <-. simpl. by rewrite Hr2. }
  intros [] t3 [Hs4 Hhead].
  set (announced := λ t : NetTask, head (nt_new_tip_ready t) = Some (mk_NewTipReady (mk_Tip b m) (Some addr) None)).
  eapply returns_wand; [|apply (returns_keeps _ _ (λ _, step_ok a' nd') announced); [|exact Hhead|by apply (waiting_ok a' nd')]].
  - intros [] t4 [(_ & Hnd & _) Hhead4]. exists inc, m. done.
  - assert (∀ tip addr, keeps announced (m_ready tip addr)) as Hmr.
    { intros tip1 addr1. apply keeps_modify. intros t' Ht'. unfold announced in *. simpl. by destruct (nt_new_tip_ready t'). }
    unfold try_waiting_tips, try_descendant_tip.
    repeat first [apply keeps_bind; [|intros ?] | apply keeps_for; intros ? | apply Hmr | by apply keeps_modify
      | case_match | by intros ? ?].
Qed.

Lemma find_map_bodies {A} fuel a bs inc (f g : BlockHash → Res ArchiveError (option A)) st :
  (∀ b, f b = g b) → find_map_loop fuel (with_bodies a bs inc) f st = find_map_loop fuel a g st.
Proof.
  intros Hfg. revert st. induction fuel as [|fuel IH]; intros st; [done|]. cbn [find_map_loop].
  change (AncestorHeaders_next (with_bodies a bs inc) st) with (AncestorHeaders_next a st).
  destruct (AncestorHeaders_next a st) as [[[[b h] st']|]| |]; [|done..]. rewrite !ok_bind, Hfg.
  destruct (g b) as [[]| |]; [done| |done..]. rewrite !ok_bind. apply IH.
Qed.
Lemma before_common_bodies a bs inc m b : before_common (with_bodies a bs inc) m b = before_common a m b.
Proof. reflexivity. Qed.
Lemma nth_main_bodies a bs inc m n :
  get_nth_main_ancestor (with_bodies a bs inc) m n = get_nth_main_ancestor a m n.
Proof.
  unfold get_nth_main_ancestor. assert (main_lineage (with_bodies a bs inc) = main_lineage a) as -> by reflexivity.
  reflexivity.
Qed.
Lemma main_height_bodies a bs inc m : get_main_height (with_bodies a bs inc) m = get_main_height a m.
Proof. reflexivity. Qed.
Lemma last_main_bodies a bs inc m m' :
  last_common_main_ancestor (with_bodies a bs inc) m m' = last_common_main_ancestor a m m'.
Proof.
  unfold last_common_main_ancestor. assert (main_lineage (with_bodies a bs inc) = main_lineage a) as -> by reflexivity.
  reflexivity.
Qed.
Lemma lineage_bodies a bs inc m m' :
  shared_mainchain_lineage (with_bodies a bs inc) m m' = shared_mainchain_lineage a m m'.
Proof.
  unfold shared_mainchain_lineage. assert (main_lineage (with_bodies a bs inc) = main_lineage a) as -> by reflexivity.
  reflexivity.
Qed.
Lemma total_work_bodies a bs inc m : get_total_work (with_bodies a bs inc) m = get_total_work a m.
Proof. reflexivity. Qed.
Lemma height_bodies a bs inc b : get_height (with_bodies a bs inc) b = get_height a b.
Proof. reflexivity. Qed.
Lemma height_before_bodies a bs inc m b :
  ancestor_height_before (with_bodies a bs inc) m b = ancestor_height_before a m b.
Proof. unfold ancestor_height_before, ancestors_find_map. apply find_map_bodies. reflexivity. Qed.
Lemma height_work_bodies a bs inc m h b :
  ancestor_height_work_before (with_bodies a bs inc) m h b = ancestor_height_work_before a m h b.
Proof.
  unfold ancestor_height_work_before, ancestors_find_map.
  apply find_map_bodies. intros b'. rewrite before_common_bodies. apply res_bind_ext. intros [header|]; [|done].
  rewrite height_bodies. apply res_bind_ext. intros hb. rewrite main_height_bodies. apply res_bind_ext. intros hm.
  by rewrite nth_main_bodies.
Qed.
(** The choice of the tip does not look at bodies. *)
Lemma better_tip_bodies a bs inc x y : better_tip (with_bodies a bs inc) x y = better_tip a x y.
Proof.
  assert (better_equal_tip (with_bodies a bs inc) x y = better_equal_tip a x y) as Heq.
  { unfold better_equal_tip. case_bool_decide; [done|]. rewrite last_main_bodies. apply res_bind_ext. intros c.
    rewrite main_height_bodies. apply res_bind_ext. intros h. by rewrite !height_work_bodies. }
  unfold better_tip. cbv zeta. rewrite Heq. case_bool_decide; [done|].
  rewrite ?height_bodies. apply res_bind_ext. intros h0.
  rewrite ?height_bodies. apply res_bind_ext. intros h1.
  destruct (_ && _); [done|]. destruct (h0 =? 0)%Z; [done|]. destruct (h1 =? 0)%Z; [done|].
  rewrite ?total_work_bodies. apply res_bind_ext. intros w0.
  rewrite ?total_work_bodies. apply res_bind_ext. intros w1.
  rewrite ?lineage_bodies, ?last_main_bodies.
  destruct (w0 ?= w1)%Z, (h0 ?= h1)%Z;
    lazymatch goal with
    | |- _ ≫= _ = _ => apply res_bind_ext; intros c; rewrite ?height_before_bodies; reflexivity
    | |- _ => reflexivity
    end.
Qed.

(** C35: A peer can stop the net task with a body that it makes up: the body
    of an answer is stored without a comparison with the header.  When a peer
    answers the request for a block that extends the node's tip with a body of
    another merkle root, the answer is handled without an error, the body is
    stored, so the block is not requested again, and if the archive prefers the
    block to the current tip, then the next tip taken ends the task, whatever
    items follow. *)
Theorem poisoned_body_stops_net_task (t : NetTask) (addr : SocketAddr) (b : BlockHash) (tip : Tip)
    (anc : option BlockHash) (id : PeerStateId) (header : Header) (body : Body) (items : list NetItem)
    (Hok : task_ok t)
    (Hreq : block_request_ok (task_archive t) (mk_GetBlockRequest b (Some tip) anc (Some id)))
    (Hheader : headers (task_archive t) !! b = Some header) (Hhash : Header_hash header = b)
    (Hroot : compute_merkle_root body ≠ merkle_root header)
    (Hparent : prev_side_hash header = State.tip (nd_state (nt_node t)))
    (Hready : nt_new_tip_ready t = [])
    (Hbetter : ∀ own m, current_tip iter_bmm (nt_node t) = Ok (Some own) → verified (task_archive t) b m →
      better_tip (task_archive t) own (mk_Tip b m) = Ok (Some (mk_Tip b m))) :
  ∃ t', response addr (RBlock header body) (GetBlock (mk_GetBlockRequest b (Some tip) anc (Some id))) t = (t', Ok tt)
    ∧ bodies (task_archive t') !! b = Some body
    ∧ run_items (ItNewTipReady :: items) t' = new_tip_ready iter_set iter_bmm into_values t'
    ∧ (new_tip_ready iter_set iter_bmm into_values t').2 ≠ Ok tt.
Proof.
  destruct (poisoned_steps t addr b tip anc id header body Hok Hreq Hheader Hhash Hparent Hready)
    as ([] & t' & Hrun & inc & m & Hnd & Hm & Hhead).
  assert ((new_tip_ready iter_set iter_bmm into_values t').2 ≠ Ok tt) as Hstop.
  { unfold new_tip_ready. destruct (nt_new_tip_ready t') as [|x rest]; [done|]. injection Hhead as ->.
    cbv zeta. cbn [nt_node with_ready]. rewrite Hnd.
    destruct (reorg_to_tip _ _ _ _ _) as [nd [[]|e|]] eqn:Hreorg; [exfalso..|done|done].
    - apply reorg_connects in Hreorg as (h' & b' & Hh' & Hb' & Heq). simpl in Hh', Hb'.
      unfold get_header, try_get_header in Hh'. unfold get_body, try_get_body in Hb'. simpl in Hh', Hb'.
      rewrite Hheader in Hh'. rewrite lookup_insert_eq in Hb'. injection Hh' as <-. injection Hb' as <-. done.
    - apply reorg_results in Hreorg as [_ Hf]. destruct (Hf eq_refl) as (_ & own & o & Hcur & Hbt & Hne).
      cbn [nd_archive] in Hbt. rewrite better_tip_bodies, (Hbetter own m Hcur Hm) in Hbt. by injection Hbt as <-. }
  exists t'. split_and!; [exact Hrun| |exact (st_for_stop (run_item iter_set iter_bmm into_values iter_tips iter_addrs iter_sources quinn_connect) ItNewTipReady items t' Hstop)|exact Hstop].
  unfold task_archive. rewrite Hnd. simpl. by rewrite lookup_insert_eq.
Qed.

(** A peer can stop the net task with a header: an answer to a request
    for headers that passes all checks, with a first header that is new and
    that names a mainchain block that the node does not know, ends the task
    and stores nothing, whatever items follow. *)
Theorem unknown_main_parent_stops_net_task (t : NetTask) (addr : SocketAddr) (start : gset BlockHash)
    (end_ : BlockHash) (height : Z) (id : PeerStateId) (header : Header) (rest : list Header)
    (items : list NetItem)
    (Hcheck : check_headers (task_archive t) start end_ height (header :: rest) = Ok true)
    (Hnew : headers (task_archive t) !! Header_hash header = None)
    (Hparent : ∀ p, prev_side_hash header = Some p → is_Some (headers (task_archive t) !! p))
    (Hmain : main_successors (task_archive t) !! prev_main_hash header = None) :
  let answer := IResponse (RHeaders (header :: rest)) (GetHeaders (mk_GetHeadersRequest start end_ (Some height) (Some id))) in
  ∃ r, run_items (ItPeerInfo (Some (addr, Some answer)) :: items) t = (t, r) ∧ r ≠ Ok tt.
Proof.
  cbv zeta. set (answer := ItPeerInfo _).
  assert (∃ r, run_item iter_set iter_bmm into_values iter_tips iter_addrs iter_sources quinn_connect answer t = (t, r)
    ∧ r ≠ Ok tt) as (r & Hr & Hne).
  { unfold answer. cbn [run_item handle_info handle_response]. unfold handle_headers.
    rewrite archive_bind_eq, Hcheck. cbn [negb]. rewrite archive_bind_eq. cbn [store_headers].
    unfold try_get_header. rewrite Hnew.
    destruct (put_header iter_set iter_bmm (task_archive t) header) as [a'| |] eqn:Hput.
    { apply put_header_Ok in Hput as (_ & _ & _ & _ & mb & _ & _ & Hmb & _). by rewrite Hmain in Hmb. }
    all: destruct (prev_side_hash header) as [p|] eqn:Hp;
      [destruct (Hparent p eq_refl) as [h ->]; rewrite bool_decide_false by done|]; eexists; by split. }
  exists r. split; [|done]. unfold run. rewrite st_for_stop; [exact Hr|by rewrite Hr].
Qed.

(** A peer can stop the net task with a transaction: when a connection
    task accepts a transaction of its peer that spends an output which a
    transaction of the pool spends as well, the peer is told that it is
    accepted, the transaction is handed to the net task, and there it ends the
    task, whatever items follow. *)
Theorem peer_transaction_stops_net_task (t : NetTask) (a : Archive) (c : ConnectionTask) (addr : SocketAddr)
    (tx : AuthorizedTransaction) (fee : Amount) (o : OutPoint) (items : list NetItem)
    (Hvalid : validate_transaction (nd_state (nt_node t)) tx = Ok fee)
    (Hnew : mp_transactions (nd_mempool (nt_node t)) !! txid (at_transaction tx) = None)
    (Hspends : o ∈ spends (at_transaction tx))
    (Hspent : is_Some (mp_spent_utxos (nd_mempool (nt_node t)) !! o)) :
  (∃ c', handle_push_tx (mk_ConnectionContext a (nd_state (nt_node t))) tx c = (c', Ok tt)
     ∧ ct_responses c' = ct_responses c ++ [RTransactionAccepted (txid (at_transaction tx))]
     ∧ ob_info (ct_outbox c') = ob_info (ct_outbox c) ++ [INewTransaction tx])
  ∧ ∃ r, run_items (ItPeerInfo (Some (addr, Some (INewTransaction tx))) :: items) t = (t, r) ∧ r ≠ Ok tt.
Proof.
  split.
  { unfold handle_push_tx. cbn [ctx_state]. rewrite Hvalid. eexists. split; [reflexivity|done]. }
  assert (∃ r, handle_new_transaction addr tx t = (t, r) ∧ r ≠ Ok tt) as (r & Hr & Hne).
  { unfold handle_new_transaction. destruct (regenerate_proof _ _) as [tx'| |] eqn:Htx; [|by eexists..].
    unfold regenerate_proof in Htx. apply bind_Ok in Htx as (p & _ & [= <-]).
    destruct (mempool_put _ _) as [m| |] eqn:Hput; [exfalso|by eexists..].
    unfold mempool_put in Hput. cbn [at_transaction] in Hput.
    change (txid (mk_Transaction _ _ _ _)) with (txid (at_transaction tx)) in Hput. rewrite Hnew in Hput.
    apply bind_Ok in Hput as (m1 & Hs%put_spent_loop & _). destruct Hs as (Hnone & _).
    rewrite (Hnone o Hspends) in Hspent. by destruct Hspent. }
  exists r. split; [|done]. unfold run. rewrite st_for_stop; [exact Hr|].
  change ((handle_new_transaction addr tx t).2 ≠ Ok tt). by rewrite Hr.
Qed.
End net_task.

(** ** Witnesses *)
Module NetTaskToy.
#[local] Existing Instance Toy.externals.
Import StateToy.
Import ArchiveToy.
Import NodeToy.

Definition tips_order : Tips → list (Tip * gset SocketAddr) := map_to_list.
Definition addr_order : gset SocketAddr → list SocketAddr := elements.
Definition source_order : gset (SocketAddr * PeerStateId) → list (SocketAddr * PeerStateId) := elements.
Definition no_connection (addr : SocketAddr) : option unit := None.
Lemma tips_order_lookup (tips : Tips) x : x ∈ tips_order tips → tips !! x.1 = Some x.2.
Proof. destruct x. apply elem_of_map_to_list. Qed.
Definition peer : SocketAddr := SocketAddr_v4 (Ipv4Addr 10 0 0 1) 4000.

Definition task_with (nd : Node) (ready : list NewTipReadyMessage) : NetTask :=
  mk_NetTask nd (mk_Net Regtest ∅ ∅ None) ∅ ready [] ∅ [] (Some []) [].

(** A node with the headers of two blocks, but without their bodies. *)
Definition bodiless_writes : list write := take 9 node_writes.
Definition bodiless : Archive := default Archive_empty_dbs (run Archive_empty_dbs bodiless_writes).
Definition task : NetTask := task_with (mk_Node bodiless MemPool_empty_dbs genesis) [].

(** [chains_ok], decided. *)
Definition chains_b (a : Archive) : bool :=
  map_all (λ m _, negb (is_none (total_work a !! m))) (main_header_infos a)
  && map_all (λ _ h, h <? 2 ^ 31)%Z (block_hash_to_height a)
  && map_all (λ _ h, h <? 2 ^ 31)%Z (main_block_hash_to_height a).
Lemma chains_b_ok a : archive_ok a → chains_b a = true → chains_ok a.
Proof.
  unfold chains_b. rewrite !andb_true_iff. intros Hok [[Hw Hh] Hm]. split; [exact Hok|..].
  - intros m [hi Hhi]. apply (map_all_lookup _ _ _ _ Hw) in Hhi. by destruct (total_work a !! m).
  - intros b h Hb%ok_or_Ok. apply (map_all_lookup _ _ _ _ Hh) in Hb. lia.
  - intros m h Hb%ok_or_Ok. unfold try_get_main_height in Hb. case_bool_decide; [injection Hb as <-; lia|].
    apply (map_all_lookup _ _ _ _ Hm) in Hb. lia.
Qed.
Lemma bodiless_chains : chains_ok bodiless.
Proof.
  apply chains_b_ok; [|vm_compute; reflexivity].
  apply (reachable_ok set_order map_order Z.add _ map_order_iterates), (run_reach _ bodiless_writes), default_ok.
  vm_compute. reflexivity.
Qed.
Lemma no_tip : State.tip genesis = None.
Proof. vm_compute. reflexivity. Qed.
Lemma task_is_ok : task_ok task.
Proof.
  split.
  - exact bodiless_chains.
  - intros b Hb. change (State.tip genesis = Some b) in Hb. rewrite no_tip in Hb. discriminate Hb.
  - intros b tips x Hb. change ((∅ : gmap BlockHash Tips) !! b = Some tips) in Hb. by rewrite lookup_empty in Hb.
  - constructor.
Qed.

(** A peer announces [tip1]; the bodies of both blocks are requested. *)
Definition announced : PeerState := mk_PeerState (Some (mk_TipInfo 1 tip1 30)) (mk_Version 0 16 0).
Definition outbox : Outbox := mk_Outbox RequestQueue_new [].
Definition requests : list Request :=
  rq_requests (ob_queue (handle_peer_state map_order (mk_ConnectionContext bodiless genesis) announced outbox).1).
Definition block_of (l : list Request) : option GetBlockRequest :=
  match l with GetBlock r :: _ => Some r | _ => None end.
Definition request : GetBlockRequest :=
  default (mk_GetBlockRequest all_zeros None None None) (block_of requests).
Lemma block_of_elem l r : block_of l = Some r → GetBlock r ∈ l.
Proof. destruct l as [|[]]; try done. intros [= ->]. by left. Qed.
Lemma request_sent : GetBlock request ∈ requests.
Proof. apply block_of_elem, default_ok. vm_compute. reflexivity. Qed.
Example request_block : gb_block_hash request = Header_hash block0.
Proof. apply (bool_decide_unpack _). vm_compute. exact I. Qed.

Definition poison : Body := mk_Body [coin 5] [] [].

Lemma block_answers_never_stop_witness :
  returns (handle_response set_order map_order tips_order addr_order peer (RBlock block0 poison) (GetBlock request))
    task (λ _ t', task_ok t' ∧ nd_state (nt_node t') = nd_state (nt_node task)
      ∧ nd_mempool (nt_node t') = nd_mempool (nt_node task)).
Proof.
  refine (block_answers_never_stop set_order map_order tips_order addr_order map_order_iterates tips_order_lookup
    bodiless genesis announced outbox task peer request (RBlock block0 poison) bodiless_chains _ request_sent task_is_ok _).
  - reflexivity.
  - split; intros; assumption.
Defined.

Definition run_toy := NetTask.run set_order map_order values_of tips_order addr_order source_order no_connection.
Definition ready1 : list NewTipReadyMessage := [mk_NewTipReady tip1 (Some peer) None].
Lemma net_task_invariant_witness :
  node_ok (nt_node (run_toy [ItNewTipReady; ItPeerInfo None] (task_with node0 ready1)).1).
Proof.
  exact (net_task_invariant set_order map_order values_of tips_order addr_order source_order no_connection
    (task_with node0 ready1) [ItNewTipReady; ItPeerInfo None] node0_ok).
Defined.

(** The answer with the made-up body. *)
Definition request0 : GetBlockRequest :=
  mk_GetBlockRequest (Header_hash block0) (Some tip1) None (Some (PeerStateId_from announced)).
Lemma tip1_verified : tip_verified bodiless tip1.
Proof. apply is_verified_ok. vm_compute. reflexivity. Qed.
Lemma block0_below : up (side_lineage bodiless) 1 (Header_hash block1) = Ok (Header_hash block0).
Proof. vm_ok. Qed.
Lemma request0_ok : block_request_ok bodiless request0.
Proof.
  exists tip1, (PeerStateId_from announced). split_and!; [reflexivity|reflexivity|exact tip1_verified| |].
  - exists 1. exact block0_below.
  - intros c Hc. discriminate Hc.
Qed.
#[local] Instance Header_eq_dec : EqDecision Header.
Proof. solve_decision. Defined.
Lemma block0_stored : headers bodiless !! Header_hash block0 = Some block0.
Proof. apply (bool_decide_unpack _). vm_compute. exact I. Qed.
Lemma poison_root : compute_merkle_root poison ≠ merkle_root block0.
Proof. apply (bool_decide_unpack _). vm_compute. exact I. Qed.

Lemma poisoned_body_stops_net_task_witness :
  ∃ t', handle_response set_order map_order tips_order addr_order peer (RBlock block0 poison) (GetBlock request0) task
      = (t', Ok tt)
    ∧ bodies (task_archive t') !! Header_hash block0 = Some poison
    ∧ run_toy [ItNewTipReady] t' = new_tip_ready set_order map_order values_of t'
    ∧ (new_tip_ready set_order map_order values_of t').2 ≠ Ok tt.
Proof.
  refine (poisoned_body_stops_net_task set_order map_order values_of tips_order addr_order source_order no_connection
    map_order_iterates tips_order_lookup task peer (Header_hash block0) tip1 None (PeerStateId_from announced)
    block0 poison [] task_is_ok request0_ok block0_stored eq_refl poison_root _ eq_refl _).
  - change (None = State.tip genesis). by rewrite no_tip.
  - intros own m Hcur. exfalso. revert Hcur. unfold current_tip.
    change (nd_state (nt_node task)) with genesis. rewrite no_tip. intros Hcur. discriminate Hcur.
Defined.

(** A header on a mainchain block that nobody has seen. *)
Definition stray : Header := mk_Header body_root None (mh 77) [].
Lemma stray_checks :
  res_is (check_headers bodiless ∅ (Header_hash stray) 0 [stray]) true
  && is_none (headers bodiless !! Header_hash stray) && is_none (main_successors bodiless !! mh 77) = true.
Proof. vm_compute. reflexivity. Qed.
Lemma unknown_main_parent_stops_net_task_witness :
  ∃ r, run_toy [ItPeerInfo (Some (peer, Some (IResponse (RHeaders [stray])
      (GetHeaders (mk_GetHeadersRequest ∅ (Header_hash stray) (Some 0%Z) (Some all_zeros))))))] task = (task, r)
    ∧ r ≠ Ok tt.
Proof.
  pose proof stray_checks as Hs. rewrite !andb_true_iff in Hs.
  destruct Hs as [[H1%res_is_Ok H2%is_none_ok] H3%is_none_ok].
  refine (unknown_main_parent_stops_net_task set_order map_order values_of tips_order addr_order source_order
    no_connection task peer ∅ (Header_hash stray) 0 all_zeros stray [] [] H1 H2 _ H3).
  intros p Hp. discriminate Hp.
Defined.

(** [atx] is valid, but a transaction of the pool spends its input. *)
Definition rival : AuthorizedTransaction :=
  mk_AuthorizedTransaction (mk_Transaction (inputs tx) (proof tx) [coin 90] None) (authorizations atx).
Definition pool : MemPool :=
  match mempool_put MemPool_empty_dbs rival with Ok m => m | _ => MemPool_empty_dbs end.
Definition pool_task : NetTask := task_with (mk_Node bodiless pool s0) [].
Lemma atx_valid : validate_transaction s0 atx = Ok 5%Z.
Proof. vm_ok. Qed.
Lemma pool_conflicts :
  is_none (mp_transactions pool !! txid tx) && negb (is_none (mp_spent_utxos pool !! op 1)) = true.
Proof. vm_compute. reflexivity. Qed.
Lemma peer_transaction_stops_net_task_witness :
  (∃ c', handle_push_tx (mk_ConnectionContext bodiless s0) atx ConnectionTask_new = (c', Ok tt)
     ∧ ct_responses c' = ct_responses ConnectionTask_new ++ [RTransactionAccepted (txid tx)]
     ∧ ob_info (ct_outbox c') = ob_info (ct_outbox ConnectionTask_new) ++ [INewTransaction atx])
  ∧ ∃ r, run_toy [ItPeerInfo (Some (peer, Some (INewTransaction atx)))] pool_task = (pool_task, r) ∧ r ≠ Ok tt.
Proof.
  pose proof pool_conflicts as Hc. rewrite andb_true_iff in Hc. destruct Hc as [H1%is_none_ok H2].
  refine (peer_transaction_stops_net_task set_order map_order values_of tips_order addr_order source_order
    no_connection pool_task bodiless ConnectionTask_new peer atx 5 (op 1) [] atx_valid H1 _ _).
  - left.
  - change (is_Some (mp_spent_utxos pool !! op 1)). revert H2. generalize (mp_spent_utxos pool !! op 1).
    intros [x|] Hx; [by exists x|discriminate Hx].
Defined.
End NetTaskToy.
