(* ===== verification/NodeApi.v ===== *)
(** The interface of the node ([src/lib/node/mod.rs]) and the block template
    ([App::mine], [app/app.rs]).

    A node has the stores of [Node.v] and the peers of [Net.v].  Here are the queries on them, the
    submission of transactions and blocks, and the construction of the block
    to mine from the memory pool. *)
From S2P Require Import Prelude.
From S2P Require Import Net.
From S2P Require Import Borsh.
From S2P Require Import Externals.
From S2P Require Import Toy.
From S2P Require Import Types.
From S2P Require Import AccumulatorDiff.
From S2P Require Import WithdrawalBundle.
From S2P Require Import RollBack.
From S2P Require Import Authorization.
From S2P Require Import Limits.
From S2P Require Import Orchard.
From S2P Require Import State.
From S2P Require Import Block.
From S2P Require Import TwoWayPeg.
From S2P Require Import Lineage.
From S2P Require Import Archive.
From S2P Require Import ArchiveFacts.
From S2P Require Import MemPool.
From S2P Require Import MainchainTask.
From S2P Require Import Node.
From S2P Require Import NodeFacts.

Section api.
Context `{E : Externals}.
Context (iter_set : gset BtcBlockHash → list BtcBlockHash).
Context (iter_bmm : gmap BtcBlockHash BmmResult → list (BtcBlockHash * BmmResult)).
Context (into_values : gmap MainAddress AggregatedWithdrawal → list AggregatedWithdrawal).
Context (work_add : Z → Z → Z).
Context {ProtoError : Type}.

Inductive ApiError :=
  | NdAmountOverflow
  | NdAmountUnderflow
  | NdArchive (e : ArchiveError)
  | NdCusfMainchain (e : ProtoError)
  | NdMainchainAncestors (e : ResponseError (ProtoError:=ProtoError))
  | NdMemPool (e : MemPoolError)
  | NdNoCusfMainchainWalletClient
  | NdReceiveReorgResult
  | NdState (e : Error)
  | NdUtreexo.

(** ** Transactions *)
(** The transaction is stored, then pushed to the peers of the node. *)
Definition submit_transaction (nd : Node) (net : Net) (transaction : AuthorizedTransaction) :
    Res ApiError (Node * Net) :=
  _ ← map_err NdState (validate_transaction (nd_state nd) transaction);
  m ← map_err NdMemPool (mempool_put (nd_mempool nd) transaction);
  let net := push_tx net ∅ transaction in
  Ok (mk_Node (nd_archive nd) m (nd_state nd), net).

Definition remove_from_mempool (nd : Node) (txid : Txid) : Res ApiError Node :=
  m ← map_err NdMemPool (mempool_delete (nd_mempool nd) txid);
  Ok (mk_Node (nd_archive nd) m (nd_state nd)).

Definition get_spent_utxos (nd : Node) (outpoints : list OutPoint) : list (OutPoint * SpentOutput) :=
  omap (λ outpoint, pair outpoint <$> stxos (nd_state nd) !! OutPointKey_from outpoint) outpoints.

(** A [BTreeMap] iterates in the order of its keys. *)
Definition inclusion_le (x y : BlockHash * Z) : Prop :=
  bytes_cmp (vec_to_list x.1) (vec_to_list y.1) ≠ Gt.
#[local] Instance inclusion_le_dec x y : Decision (inclusion_le x y).
Proof. unfold inclusion_le. apply _. Defined.
Definition iter_inclusions (m : gmap BlockHash Z) : list (BlockHash * Z) :=
  merge_sort inclusion_le (map_to_list m).

(** [find] over the blocks that include the transaction. *)
Fixpoint find_inclusion (a : Archive) (tip : BlockHash) (inclusions : list (BlockHash * Z)) :
    Res ArchiveError (option (BlockHash * Z)) :=
  match inclusions with
  | [] => Ok None
  | (block_hash, txin) :: inclusions =>
      d ← is_descendant a tip block_hash;
      if d : bool then Ok (Some (block_hash, txin)) else find_inclusion a tip inclusions
  end.
Definition try_get_transaction (nd : Node) (txid : Txid) :
    Res ApiError (option (Transaction * option BlockHash)) :=
  included ← match tip (nd_state nd) with
    | Some tip =>
        map_err NdArchive (find_inclusion (nd_archive nd) tip
          (iter_inclusions (get_tx_inclusions (nd_archive nd) txid)))
    | None => Ok None
    end;
  match included with
  | Some (block_hash, txin) =>
      body ← map_err NdArchive (get_body (nd_archive nd) block_hash);
      tx ← expect (transactions body !! Z.to_nat txin);
      Ok (Some (tx, Some block_hash))
  | None =>
      match mp_transactions (nd_mempool nd) !! txid with
      | Some auth_tx => Ok (Some (at_transaction auth_tx, None))
      | None => Ok None
      end
  end.

(** ** Blocks *)

(** [ancestors(block_hash).nth(n)] *)
Fixpoint ancestors_nth (n : nat) (a : Archive) (st : option BlockHash) :
    Res ArchiveError (option BlockHash) :=
  next ← AncestorHeaders_next a st;
  match next with
  | None => Ok None
  | Some ((b, _), st) => match n with O => Ok (Some b) | S n => ancestors_nth n a st end
  end.
Definition try_get_block_hash (nd : Node) (height : Z) : Res ApiError (option BlockHash) :=
  match tip (nd_state nd), State.height (nd_state nd) with
  | Some tip, Some tip_height =>
      if (height <=? tip_height)%Z
      then map_err NdArchive (ancestors_nth (Z.to_nat (tip_height - height)) (nd_archive nd) (Some tip))
      else Ok None
  | _, _ => Ok None
  end.

Definition get_bmm_inclusions (nd : Node) (block_hash : BlockHash) : list BtcBlockHash :=
  verifications (iter_bmm (get_bmm_results (nd_archive nd) block_hash)).

(** ** Transactions for a block *)
Record Template := mk_Template {
  te_mempool : MemPool;
  te_fee : Amount;
  te_returned : list AuthorizedTransaction;
  te_spent : list (OutPoint * Hash)
}.

Definition template_fee (t : FilledTransaction) : Res ApiError Amount :=
  value_in ← ok_or (checked_sum (get_value <$> spent_utxos t)) NdAmountOverflow;
  value_out ← ok_or (checked_sum (get_value <$> outputs (transaction t))) NdAmountOverflow;
  '(value_in, value_out) ←
    match orchard_bundle (transaction t) with
    | Some orchard_bundle =>
        let value_balance := bundle_value_balance orchard_bundle in
        if (0 <? value_balance)%Z then
          value_in ← ok_or (checked_add value_in (Z.abs value_balance)) NdAmountOverflow;
          Ok (value_in, value_out)
        else
          value_out ← ok_or (checked_add value_out (Z.abs value_balance)) NdAmountOverflow;
          Ok (value_in, value_out)
    | None => Ok (value_in, value_out)
    end;
  ok_or (checked_sub value_in value_out) NdAmountOverflow.

Definition is_disjoint (spent inputs : list (OutPoint * Hash)) : bool :=
  forallb (λ i, bool_decide (i ∉ spent)) inputs.

(** The loop over the transactions taken from the pool. *)
Definition template_step (s : State) (acc : Template) (t : AuthorizedTransaction) :
    Res ApiError Template :=
  let tx := at_transaction t in
  let drop_it :=
    m ← map_err NdMemPool (mempool_delete (te_mempool acc) (txid tx));
    Ok (mk_Template m (te_fee acc) (te_returned acc) (te_spent acc)) in
  if negb (is_disjoint (te_spent acc) (inputs tx)) then drop_it
  else
    match validate_transaction s t with
    | Err _ => drop_it
    | Panic => Panic
    | Ok _ =>
        filled_transaction ← map_err NdState (fill_transaction s tx);
        tx_fee ← template_fee filled_transaction;
        fee ← ok_or (checked_add (te_fee acc) tx_fee) NdAmountUnderflow;
        Ok (mk_Template (te_mempool acc) fee (te_returned acc ++ [t]) (te_spent acc ++ inputs tx))
    end.

Definition get_transactions (nd : Node) (number : nat) :
    Res ApiError (Node * list AuthorizedTransaction * Amount) :=
  acc ← foldR (template_step (nd_state nd)) (mk_Template (nd_mempool nd) 0%Z [] [])
    (mempool_take (nd_mempool nd) number);
  Ok (mk_Node (nd_archive nd) (te_mempool acc) (nd_state nd), te_returned acc, te_fee acc).

(** ** Submitting a block *)

(** Everything up to [nd] is committed; an error ends the call. *)
Definition attempt {A B} (nd : Node) (m : Res ApiError A) (k : A → Node * Res ApiError B) :
    Node * Res ApiError B :=
  match m with Ok a => k a | Err e => (nd, Err e) | Panic => (nd, Panic) end.

Definition with_archive (nd : Node) (a : Archive) : Node := mk_Node a (nd_mempool nd) (nd_state nd).

(** Are the bodies of all ancestors stored?  [Some true]: all but the block's. *)
Definition bodies_ready (nd : Node) (block_hash : BlockHash) : Res ArchiveError (option bool) :=
  let a := nd_archive nd in
  common_ancestor ← match tip (nd_state nd) with
    | Some tip => last_common_ancestor a tip block_hash
    | None => Ok None
    end;
  missing_bodies ← get_missing_bodies a block_hash common_ancestor;
  Ok (match missing_bodies with
      | [] => Some false
      | [b] => if bool_decide (b = block_hash) then Some true else None
      | _ => None
      end).

Section submit.
Context (get_block_infos : nat → BtcBlockHash → Z →
  Res ProtoError (option ((BlockHeaderInfo * BlockInfo) * list (BlockHeaderInfo * BlockInfo)))).
(** The client of the mainchain wallet, if there is one. *)
Context (wallet : option (BtcTransaction → Res ApiError unit)).

(** After the reorganization, broadcast the pending withdrawal bundle. *)
Definition broadcast_pending (nd : Node) (broadcast : BtcTransaction → Res ApiError unit) :
    Res ApiError bool :=
  bundle ← map_err NdState (try_get_pending_withdrawal_bundle (nd_state nd));
  match bundle with
  | Some (bundle, _) => _ ← broadcast (bundle_tx bundle); Ok true
  | None => Ok true
  end.

(** The block is stored; the net task switches to it if it is better.  The
    task ends when it fails, and the answer is never sent. *)
Definition submit_tip (nd : Node) (broadcast : BtcTransaction → Res ApiError unit) (new_tip : Tip) :
    Node * Res ApiError bool :=
  let '(nd, confirmed) := reorg_to_tip iter_set iter_bmm into_values nd new_tip in
  attempt nd (map_err (λ _, NdReceiveReorgResult) confirmed) (λ confirmed,
    if confirmed : bool then attempt nd (broadcast_pending nd broadcast) (λ b, (nd, Ok b))
    else (nd, Ok false)).

Definition submit_body (nd : Node) (broadcast : BtcTransaction → Res ApiError unit)
    (main_block_hash : BtcBlockHash) (block_hash : BlockHash) (body : Body) : Node * Res ApiError bool :=
  attempt nd (map_err NdArchive (get_bmm_result (nd_archive nd) block_hash main_block_hash))
    (λ bmm_result,
      if bool_decide (bmm_result = BmmFailed) then (nd, Ok false)
      else
        attempt nd (map_err NdArchive (bodies_ready nd block_hash)) (λ ready,
          let new_tip := mk_Tip block_hash main_block_hash in
          match ready with
          | None => (nd, Ok false)
          | Some true =>
              attempt nd (map_err NdArchive (put_body (nd_archive nd) block_hash body)) (λ a,
                submit_tip (with_archive nd a) broadcast new_tip)
          | Some false => submit_tip nd broadcast new_tip
          end)).

Definition submit_block (fuel : nat) (nd : Node) (main_block_hash : BtcBlockHash) (header : Header)
    (body : Body) : Node * Res ApiError bool :=
  match wallet with
  | None => (nd, Err NdNoCusfMainchainWalletClient)
  | Some broadcast =>
      let block_hash := Header_hash header in
      if match prev_side_hash header with
         | Some parent => bool_decide (try_get_header (nd_archive nd) parent = None)
         | None => false
         end
      then (nd, Ok false)
      else
        let '(a, res) :=
          request_ancestor_infos iter_bmm work_add get_block_infos fuel (nd_archive nd) main_block_hash in
        let nd := with_archive nd a in
        attempt nd (map_err NdMainchainAncestors res) (λ available,
          if negb available then (nd, Ok false)
          else
            attempt nd (map_err NdArchive (put_header iter_set iter_bmm (nd_archive nd) header)) (λ a,
              submit_body (with_archive nd a) broadcast main_block_hash block_hash body))
  end.
End submit.

(** ** Mining *)

(** The callback of [find_map]: the first ancestor of the tip on a mainchain
    block below the common ancestor. *)
Definition can_mine_on (a : Archive) (last_common_main_ancestor : BtcBlockHash) (b : BlockHash) :
    Res ArchiveError (option BlockHash) :=
  header ← get_header a b;
  if bool_decide (prev_main_hash header = last_common_main_ancestor) then Ok None
  else
    d ← is_main_descendant a (prev_main_hash header) last_common_main_ancestor;
    Ok (if d : bool then Some b else None).

(** The parent of the block to mine on mainchain block [prev_main_hash],
    whose header is stored. *)
Definition mining_parent (nd : Node) (prev_main : BtcBlockHash) : Res ArchiveError (option BlockHash) :=
  match tip (nd_state nd) with
  | None => Ok None
  | Some tip_hash =>
      let a := nd_archive nd in
      tip_header ← get_header a tip_hash;
      last_common ← last_common_main_ancestor a prev_main (prev_main_hash tip_header);
      if bool_decide (last_common = prev_main_hash tip_header) then Ok (Some tip_hash)
      else ancestors_find_map a tip_hash (can_mine_on a last_common)
  end.

Definition mining_coinbase (address : TransparentAddress) (tx_fees : Amount) : list Output :=
  if bool_decide (tx_fees = 0%Z) then [] else [mk_Output address (Value tx_fees)].

Definition NUM_TRANSACTIONS : nat := 1000.
Definition EMPTY_BLOCK_BMM_BRIBE : Amount := 1000%Z.

(** A block on the tip. *)
Definition coinbase_template (nd : Node) (txs : list AuthorizedTransaction) (coinbase : list Output)
    (prev_main : BtcBlockHash) : Res ApiError (Header * Body) :=
  let body := Body_new txs coinbase in
  let tip_hash := tip (nd_state nd) in
  accumulator ← map_err NdArchive (Archive.get_accumulator (nd_archive nd) tip_hash);
  memforest ← ok_or (modify_memforest body (forest accumulator)) NdUtreexo;
  Ok (mk_Header (compute_merkle_root body) tip_hash prev_main (forest_roots memforest), body).
(** The coinbase claims the fees; the transactions that the pool loses on
    the way stay lost when the block cannot be built. *)
Definition block_template (nd : Node) (txs : list AuthorizedTransaction) (tx_fees : Amount)
    (address : TransparentAddress) (prev_main : BtcBlockHash) : Res ApiError (Header * Body) :=
  coinbase_template nd txs (mining_coinbase address tx_fees) prev_main.
Definition full_template (nd : Node) (number : nat) (address : TransparentAddress)
    (prev_main : BtcBlockHash) : Node * Res ApiError (Header * Body * Amount) :=
  attempt nd (get_transactions nd number) (λ '(nd, txs, tx_fees),
    attempt nd (block_template nd txs tx_fees address prev_main) (λ block, (nd, Ok (block, tx_fees)))).

(** An empty block on another block. *)
Definition empty_template (nd : Node) (prev_side : option BlockHash) (prev_main : BtcBlockHash) :
    Res ApiError (Header * Body) :=
  let body := Body_new [] [] in
  accumulator ← map_err NdArchive (Archive.get_accumulator (nd_archive nd) prev_side);
  Ok (mk_Header (compute_merkle_root body) prev_side prev_main (get_roots accumulator), body).

(** [fee.unwrap_or_else] *)
Definition bribe_of (fee : option Amount) (tx_fees : Amount) : Amount :=
  default (if (0 <? tx_fees)%Z then tx_fees else EMPTY_BLOCK_BMM_BRIBE) fee.

(** The block that [mine] asks the mainchain to commit to, and the bribe. *)
Definition mining_block (nd : Node) (fee : option Amount) (address : TransparentAddress)
    (prev_main : BtcBlockHash) : Node * Res ApiError (Amount * (Header * Body)) :=
  attempt nd (map_err NdArchive (mining_parent nd prev_main)) (λ prev_side,
    if bool_decide (prev_side = tip (nd_state nd)) then
      let '(nd, res) := full_template nd NUM_TRANSACTIONS address prev_main in
      attempt nd res (λ '(block, tx_fees),
        (nd, Ok (bribe_of fee tx_fees, block)))
    else
      attempt nd (empty_template nd prev_side prev_main) (λ block,
        (nd, Ok (EMPTY_BLOCK_BMM_BRIBE, block)))).
End api.
