(* ===== verification/WalletNode.v ===== *)
(** The wallet and the node together ([update_wallet] and
    [App::sign_and_send] of [app/app.rs]).

    The wallet follows the node: it disconnects and connects the orchard
    bundles of the blocks that separate its tip from the node's, then stores
    and spends outputs as the node's tables say. *)
From S2P Require Import Prelude.
From S2P Require Import Effects.
From S2P Require Import Net.
From S2P Require Import Borsh.
From S2P Require Import Externals.
From S2P Require Import Types.
From S2P Require Import AccumulatorDiff.
From S2P Require Import Authorization.
From S2P Require Import ShardTreeDb.
From S2P Require Import State.
From S2P Require Import Block.
From S2P Require Import Lineage.
From S2P Require Import Archive.
From S2P Require Import ArchiveFacts.
From S2P Require Import MemPool.
From S2P Require Import MainchainTask.
From S2P Require Import Node.
From S2P Require Import NodeApi.
From S2P Require Import Wallet.
From S2P Require Import WalletFacts.

Section app.
Context `{E : Externals} `{SE : !ShardTreeExternals} `{WE : !WalletExternals}.
Context {ProtoError : Type}.

Inductive AppError :=
  | App_Node (e : ApiError (ProtoError := ProtoError))
  | App_Archive (e : ArchiveError)
  | App_State (e : Error)
  | App_Wallet (e : WalletError).

(** The header and the body of a block. *)
Definition get_block (a : Archive) (block_hash : BlockHash) : Res AppError (Header * Body) :=
  header ← map_err App_Archive (get_header a block_hash);
  body ← map_err App_Archive (get_body a block_hash);
  Ok (header, body).

(** [while wallet_tip != common_ancestor]: each round goes to the parent of a
    block of the archive, so the number of its headers bounds the rounds. *)
Fixpoint disconnect_loop (fuel : nat) (a : Archive) (w : Wallet) (wallet_tip common_ancestor : option BlockHash) :
    Res AppError Wallet :=
  if bool_decide (wallet_tip = common_ancestor) then Ok w
  else
    match fuel with
    | O => Panic
    | S fuel =>
        block_hash ← expect wallet_tip;
        '(header, body) ← get_block a block_hash;
        w ← map_err App_Wallet (disconnect_orchard_block w header body);
        disconnect_loop fuel a w (prev_side_hash header) common_ancestor
    end.

(** [ancestors(tip).take_while(!= common_ancestor).collect()] *)
Fixpoint blocks_until (fuel : nat) (a : Archive) (common_ancestor : option BlockHash)
    (st : option BlockHash) : Res ArchiveError (list BlockHash) :=
  match fuel with
  | O => Panic
  | S fuel =>
      next ← AncestorHeaders_next a st;
      match next with
      | None => Ok []
      | Some ((b, _), st) =>
          if bool_decide (Some b = common_ancestor) then Ok []
          else rest ← blocks_until fuel a common_ancestor st; Ok (b :: rest)
      end
  end.

Definition connect_block (a : Archive) (w : Wallet) (block_hash : BlockHash) : Res AppError Wallet :=
  '(header, body) ← get_block a block_hash;
  map_err App_Wallet (connect_orchard_block w header body).

(** The notes: the wallet's tip becomes the node's. *)
Definition update_notes (nd : Node) (w : Wallet) : Res AppError Wallet :=
  let a := nd_archive nd in
  let node_tip := tip (nd_state nd) in
  let wallet_tip := try_get_tip w in
  common_ancestor ← match node_tip, wallet_tip with
    | Some node_tip, Some wallet_tip =>
        map_err App_Archive (last_common_ancestor a node_tip wallet_tip)
    | _, _ => Ok None
    end;
  w ← disconnect_loop (size (headers a)) a w wallet_tip common_ancestor;
  blocks_to_connect ← match node_tip with
    | Some node_tip => map_err App_Archive (blocks_until (ancestors_fuel a) a common_ancestor (Some node_tip))
    | None => Ok []
    end;
  foldR (connect_block a) w (reverse blocks_to_connect).

(** The outputs: what the node has at the wallet's addresses. *)
Definition update_outputs (nd : Node) (w : Wallet) : Res AppError Wallet :=
  let addresses := get_transparent_addresses w in
  utxos ← map_err App_State (get_utxos_by_addresses (nd_state nd) addresses);
  let outpoints := (fst <$> map_to_list (w_utxos w)) ++ (fst <$> map_to_list (w_stxos_unconfirmed w)) in
  let spent := (λ s, (s.1, inpoint s.2)) <$> get_spent_utxos nd outpoints in
  let w := put_utxos_confirmed w (list_to_map utxos) in
  Ok (spend_utxos_confirmed w spent).

Definition update_wallet (nd : Node) (w : Wallet) : Res AppError Wallet :=
  w ← update_notes nd w; update_outputs nd w.

(** [App::update]: the update is committed, or nothing is. *)
Definition App_update : StR (Node * Wallet) AppError unit := λ s,
  match update_wallet s.1 s.2 with
  | Ok w => ((s.1, w), Ok tt)
  | Err e => (s, Err e)
  | Panic => (s, Panic)
  end.

Definition spent_inputs (tx : Transaction) : list (OutPoint * InPoint) :=
  imap (λ vin i, (i.1, InRegular (txid tx) (u32_of_Z (Z.of_nat vin)))) (inputs tx).
Definition unconfirmed_outputs (tx : Transaction) : gmap OutPoint Output :=
  insert_outputs ∅ (pointed_outputs (Regular (txid tx)) (outputs tx)).

(** [App::sign_and_send]: the node commits the submission by itself, and
    pushes the transaction to its peers; the wallet's transaction is committed
    by the update at the end. *)
Definition sign_and_send (tx : Transaction) : StR (Node * Net * Wallet) AppError unit := λ s,
  let '(nd, net, w) := s in
  match
    authorized_transaction ← map_err App_Wallet (Wallet_authorize w tx);
    let tx := at_transaction authorized_transaction in
    let w := spend_utxos_unconfirmed w (spent_inputs tx) in
    let w := put_utxos_unconfirmed w (unconfirmed_outputs tx) in
    w ← match orchard_bundle tx with
      | Some orchard_bundle =>
          map_err App_Wallet (connect_orchard_bundle_unconfirmed w (txid tx) orchard_bundle)
      | None => Ok w
      end;
    '(nd, net) ← map_err App_Node (submit_transaction nd net authorized_transaction);
    Ok (nd, net, w)
  with
  | Ok (nd, net, w') =>
      match update_wallet nd w' with
      | Ok w' => ((nd, net, w'), Ok tt)
      | Err e => ((nd, net, w), Err e)
      | Panic => ((nd, net, w), Panic)
      end
  | Err e => (s, Err e)
  | Panic => (s, Panic)
  end.
End app.
