(* ===== verification/WalletNodeFacts.v ===== *)
(** Properties of the wallet together with the node ([WalletNode.v]): the
    wallet follows the chain of the node, its outputs become the node's, and
    the node accepts the payments that it creates. *)
From S2P Require Import Prelude.
From S2P Require Import Effects.
From S2P Require Import Borsh.
From S2P Require Import Externals.
From S2P Require Import Types.
From S2P Require Import AccumulatorDiff.
From S2P Require Import Authorization.
From S2P Require Import Keys.
From S2P Require Import ShardTreeDb.
From S2P Require Import State.
From S2P Require Import Block.
From S2P Require Import Lineage.
From S2P Require Import Archive.
From S2P Require Import ArchiveFacts.
From S2P Require Import ArchiveIter.
From S2P Require Import MemPool.
From S2P Require Import MainchainTask.
From S2P Require Import Node.
From S2P Require Import NodeApi.
From S2P Require Import Wallet.
From S2P Require Import WalletFacts.
From S2P Require Import WalletNode.

(** ** Following the chain *)
Section follow.
Context `{E : Externals} `{SE : !ShardTreeExternals} `{WE : !WalletExternals}.
Context {ProtoError : Type}.

(** The blocks from one block down to another, newest first; [None] is below
    the first block. *)
Inductive path (a : Archive) : option BlockHash → list BlockHash → option BlockHash → Prop :=
  | path_nil x : path a x [] x
  | path_cons b h l y (Hh : headers a !! b = Some h) (Hl : path a (prev_side_hash h) l y) :
      path a (Some b) (b :: l) y.

(** One round of the first loop of [update_wallet]. *)
Definition disconnect_block (a : Archive) (w : Wallet) (b : BlockHash) :
    Res (AppError (ProtoError:=ProtoError)) Wallet :=
  '(header, body) ← get_block a b;
  map_err App_Wallet (disconnect_orchard_block w header body).

Section path.
Context (a : Archive).
Abbreviation L := (side_lineage a).

Lemma parent_header b p : lin_parent (Lineage:=L) b = Ok p ↔
  ∃ h, headers a !! b = Some h ∧ prev_side_hash h = Some p.
Proof.
  simpl. unfold get_header, try_get_header. split.
  - intros (h & Hh%ok_or_Ok & Hp)%bind_Ok. apply expect_Ok in Hp. by exists h.
  - intros (h & -> & Hp). simpl. by rewrite Hp.
Qed.

Lemma path_of_up n b c :
  up L n b = Ok c → ∃ l, path a (Some b) l (Some c) ∧ length l = n.
Proof.
  revert b. induction n as [|n IH]; intros b Hup.
  - injection Hup as <-. exists []. split; [constructor|done].
  - simpl in Hup. apply bind_Ok in Hup as (p & Hp & Hup).
    apply parent_header in Hp as (h & Hh & Hp). destruct (IH p Hup) as (l & Hl & <-).
    exists (b :: l). split; [|done]. apply (path_cons a b h l); [done|by rewrite Hp].
Qed.

Lemma path_up b l y i c : path a (Some b) l y → l !! i = Some c → up L i b = Ok c.
Proof.
  intros Hp. remember (Some b) as x eqn:Hx. revert b i Hx.
  induction Hp as [x|b' h l y Hh Hp IH]; intros b i Hx; [done|]. injection Hx as ->.
  destruct i as [|i]; [by intros [= ->]|]. simpl. intros Hc.
  destruct (prev_side_hash h) as [p|] eqn:Hprev.
  - assert (lin_parent (Lineage:=L) b = Ok p) as Hpar by (apply parent_header; by exists h).
    simpl in Hpar. rewrite Hpar. by apply IH.
  - inversion Hp; subst. by rewrite lookup_nil in Hc.
Qed.

Lemma get_block_header b h : headers a !! b = Some h →
  get_block (ProtoError:=ProtoError) a b = body ← map_err App_Archive (get_body a b); Ok (h, body).
Proof. intros Hh. unfold get_block, get_header, try_get_header. by rewrite Hh. Qed.

Lemma disconnect_loop_path fuel w x l y :
  path a x l y → (∀ b, y = Some b → b ∉ l) → length l ≤ fuel →
  disconnect_loop fuel a w x y = foldR (disconnect_block a) w l.
Proof.
  intros Hp. revert fuel w. induction Hp as [x|b h l y Hh Hp IH]; intros fuel w Hy Hf.
  { destruct fuel; simpl; by rewrite bool_decide_true. }
  destruct fuel as [|fuel]; simpl in Hf; [lia|]. cbn [disconnect_loop foldR].
  rewrite bool_decide_false by (intros <-; apply (Hy b eq_refl); by left).
  cbn [expect]. rewrite ok_bind.
  assert (∀ w, disconnect_block a w b = body ← map_err App_Archive (get_body a b);
    map_err App_Wallet (disconnect_orchard_block w h body)) as ->.
  { intros w'. unfold disconnect_block. rewrite (get_block_header b h Hh). by destruct (get_body a b). }
  rewrite (get_block_header b h Hh).
  destruct (get_body a b) as [body| |]; [|done..]. cbn [map_err]. rewrite !ok_bind.
  destruct (disconnect_orchard_block w h body) as [w'| |]; [|done..]. cbn [map_err]. rewrite !ok_bind.
  apply IH; [|lia]. intros c -> Hin. apply (Hy c eq_refl). by right.
Qed.

Lemma blocks_until_path fuel x l y :
  path a x l y → (∀ b, y = Some b → b ∉ l ∧ is_Some (headers a !! b)) → length l < fuel →
  blocks_until fuel a y x = Ok l.
Proof.
  intros Hp. revert fuel. induction Hp as [x|b h l y Hh Hp IH]; intros fuel Hy Hf;
    (destruct fuel as [|fuel]; [lia|]); cbn [blocks_until].
  - destruct x as [b|]; [|done]. destruct (Hy b eq_refl) as [_ [h Hh]].
    unfold AncestorHeaders_next, get_header, try_get_header. rewrite Hh. cbn [ok_or].
    rewrite !ok_bind. by rewrite bool_decide_true.
  - unfold AncestorHeaders_next, get_header, try_get_header. rewrite Hh. cbn [ok_or].
    rewrite !ok_bind. rewrite bool_decide_false.
    + rewrite IH; [done| |simpl in Hf; lia]. intros c ->. destruct (Hy c eq_refl) as [Hn ?].
      split; [|done]. intros Hin. apply Hn. by right.
    + intros <-. destruct (Hy b eq_refl) as [Hn _]. apply Hn. by left.
Qed.
End path.

Section tree.
Context (a : Archive) (Hok : archive_ok a).
Abbreviation L := (side_lineage a).
Abbreviation K := (side_known a).

Lemma laws : LineageLaws L K.
Proof. exact (ok_side a Hok). Qed.
#[local] Existing Instance laws.

Lemma path_to_root b h : get_height a b = Ok h → ∃ l, path a (Some b) l None ∧ Z.of_nat (length l) = (h + 1)%Z.
Proof.
  intros Hb. pose proof (get_height_known _ _ _ Hb) as Kb.
  destruct (known_node L K b h Kb Hb) as (_ & [Hr _] & _).
  revert b Hb Kb. pattern h. apply Zlt_0_ind; [|done]. clear h Hr.
  intros h IH Hr b Hb Kb. destruct (known_node L K b h Kb Hb) as (_ & _ & Hroot & Hpar).
  apply (ok_headers a Hok) in Kb as [hd Hd]. destruct (decide (h = 0)%Z) as [->|Hne].
  - exists [b]. split; [|done]. apply (path_cons a b hd); [done|].
    destruct (prev_side_hash hd) as [p|] eqn:Hp; [|constructor].
    assert (lin_parent (Lineage:=L) b = Ok p) as Hc by (apply parent_header; by exists hd).
    by rewrite Hc in Hroot; specialize (Hroot eq_refl).
  - destruct Hpar as (p & t & Hp & Kp & Hph & _); [lia|].
    destruct (IH (h - 1)%Z ltac:(lia) p Hph Kp) as (l & Hl & Hlen).
    apply parent_header in Hp as (hd' & Hd' & Hp). exists (b :: l).
    split; [|simpl; lia]. apply (path_cons a b hd'); [done|by rewrite Hp].
Qed.

(** The branch above an ancestor, and all of a chain. *)
Lemma branch_above b h c : get_height a b = Ok h → ancestor_of L c b →
  ∃ l, path a (Some b) l (Some c) ∧ c ∉ l ∧ length l ≤ size (headers a) ∧ is_Some (headers a !! c)
    ∧ ∀ x, x ∈ l → ancestor_of L x b ∧ (ancestor_of L x c → False).
Proof.
  intros Hb [n Hn]. pose proof (get_height_known _ _ _ Hb) as Kb.
  destruct (up_depth L K n b h c Kb Hb Hn) as (Hle & Kc & Hc).
  destruct (path_of_up a n b c Hn) as (l & Hl & Hlen). exists l.
  assert (∀ x, x ∈ l → ancestor_of L x b ∧ ∃ hx, get_height a x = Ok hx ∧ (h - Z.of_nat n < hx)%Z) as Hx.
  { intros x (i & Hi)%list_elem_of_lookup_1. pose proof (lookup_lt_Some _ _ _ Hi).
    pose proof (path_up a b l (Some c) i x Hl Hi) as Hup. split; [by exists i|].
    destruct (up_depth L K i b h x Kb Hb Hup) as (_ & _ & Hhx). exists (h - Z.of_nat i)%Z. split; [done|lia]. }
  pose proof (depth_bound a Hok b h Hb). split_and!; [done| |lia|by apply (ok_headers a Hok)|].
  - intros Hin. destruct (Hx c Hin) as (_ & hx & Hhx & Hlt). simpl in Hc. rewrite Hc in Hhx.
    injection Hhx as ?. lia.
  - intros x Hin. destruct (Hx x Hin) as (Hanc & hx & Hhx & Hlt). split; [done|]. intros [m Hm].
    destruct (up_depth L K m c _ x Kc Hc Hm) as (_ & _ & Hhx'). simpl in Hhx'. rewrite Hhx in Hhx'.
    injection Hhx' as ?. lia.
Qed.

Lemma branch_all b h : get_height a b = Ok h →
  ∃ l, path a (Some b) l None ∧ length l ≤ size (headers a) ∧ ∀ x, x ∈ l → ancestor_of L x b.
Proof.
  intros Hb. destruct (path_to_root b h Hb) as (l & Hl & Hlen). exists l.
  pose proof (depth_bound a Hok b h Hb). split_and!; [done|lia|].
  intros x (i & Hi)%list_elem_of_lookup_1. exists i. by eapply path_up.
Qed.

Definition height_known (x : option BlockHash) : Prop :=
  ∀ b, x = Some b → ∃ h, get_height a b = Ok h ∧ (h < 2 ^ 31)%Z.

(** The branches of two tips above their last common ancestor. *)
Lemma branches x y : height_known x → height_known y →
  ∃ c old new, path a x old c ∧ path a y new c
    ∧ (∀ b, c = Some b → b ∉ old ∧ b ∉ new ∧ is_Some (headers a !! b))
    ∧ length old ≤ size (headers a) ∧ length new ≤ size (headers a)
    ∧ (∀ b, b ∈ old → b ∉ new)
    ∧ match y, x with Some y, Some x => last_common_ancestor a y x | _, _ => Ok None end = Ok c.
Proof.
  intros Hx Hy. destruct x as [x|], y as [y|].
  - destruct (Hx x eq_refl) as (hx & Hhx & Hbx). destruct (Hy y eq_refl) as (hy & Hhy & Hby).
    destruct (last_common_ancestor_ok a y x hy hx Hok Hhy Hhx Hby Hbx) as [(c & Hc & Hay & Hax & Hg)|(Hc & Hnone)].
    + destruct (branch_above x hx c Hhx Hax) as (old & Ho & Hno & Hlo & Hs & Hano).
      destruct (branch_above y hy c Hhy Hay) as (new & Hn & Hnn & Hln & _ & Hann).
      exists (Some c), old, new. split_and!; try done; [by intros b [= <-]|].
      intros b Hb1 Hb2. destruct (Hano b Hb1) as [? Habove], (Hann b Hb2) as [? _]. by apply Habove, Hg.
    + destruct (branch_all x hx Hhx) as (old & Ho & Hlo & Hano).
      destruct (branch_all y hy Hhy) as (new & Hn & Hln & Hann).
      exists None, old, new. split_and!; try done.
      intros b Hb1 Hb2. by apply (Hnone b); [apply Hann|apply Hano].
  - destruct (Hx x eq_refl) as (hx & Hhx & _). destruct (branch_all x hx Hhx) as (old & Ho & Hlo & _).
    exists None, old, []. split_and!; try done; [constructor|simpl; lia|]. intros b _. by apply not_elem_of_nil.
  - destruct (Hy y eq_refl) as (hy & Hhy & _). destruct (branch_all y hy Hhy) as (new & Hn & Hln & _).
    exists None, [], new. split_and!; try done; [constructor|simpl; lia|]. intros b Hb. by apply not_elem_of_nil in Hb.
  - exists None, [], []. split_and!; try done; try constructor; simpl; try lia.
    intros b Hb. by apply not_elem_of_nil in Hb.
Qed.
End tree.
End follow.

(** ** The wallet's tip *)
Section tips.
Context `{E : Externals} `{SE : !ShardTreeExternals} `{WE : !WalletExternals}.
Context {ProtoError : Type}.

Lemma put_shard_tree_tip w tree w' : put_shard_tree_unwrap w tree = Ok w' → w_tip w' = w_tip w.
Proof.
  unfold put_shard_tree_unwrap, put_shard_tree. intros H. res_step H. res_step H. subst v.
  res_step Hv. destruct (txn v); [|done]. res_step Hv. injection Hv as Hv. by destruct v0; simplify_eq.
Qed.

Lemma disconnect_orchard_block_tip w header body w' :
  disconnect_orchard_block w header body = Ok w' → w_tip w' = prev_side_hash header.
Proof.
  unfold disconnect_orchard_block. intros H. do 6 (apply bind_Ok in H as (? & _ & H)). cbn zeta in H.
  do 2 (apply bind_Ok in H as (? & _ & H)). apply bind_Ok in H as ([? tree] & _ & H).
  apply bind_Ok in H as (? & _ & H). by apply put_shard_tree_tip in H.
Qed.
Lemma connect_orchard_block_tip w header body w' :
  connect_orchard_block w header body = Ok w' → w_tip w' = Some (Header_hash header).
Proof.
  unfold connect_orchard_block. intros H. do 6 (apply bind_Ok in H as (? & _ & H)).
  apply bind_Ok in H as ([w1 tree1] & _ & H). cbn zeta in H. apply bind_Ok in H as (? & _ & H).
  apply bind_Ok in H as ([? tree] & _ & H). by apply put_shard_tree_tip in H.
Qed.

Lemma get_block_inv a b header body :
  get_block (ProtoError:=ProtoError) a b = Ok (header, body) → headers a !! b = Some header.
Proof.
  unfold get_block. intros (h & Hh%map_err_Ok & H)%bind_Ok. apply bind_Ok in H as (? & _ & [= -> _]).
  by apply ok_or_Ok in Hh.
Qed.
Lemma disconnect_block_inv a w b w' :
  disconnect_block (ProtoError:=ProtoError) a w b = Ok w' →
  ∃ h, headers a !! b = Some h ∧ w_tip w' = prev_side_hash h ∧ same_transparent w w'.
Proof.
  intros ([h body] & Hg%get_block_inv & H%map_err_Ok)%bind_Ok. exists h.
  split_and!; [done|by eapply disconnect_orchard_block_tip|by eapply disconnect_orchard_block_same].
Qed.
Lemma connect_block_inv a w b w' :
  connect_block (ProtoError:=ProtoError) a w b = Ok w' →
  ∃ h, headers a !! b = Some h ∧ w_tip w' = Some (Header_hash h) ∧ same_transparent w w'.
Proof.
  intros ([h body] & Hg%get_block_inv & H%map_err_Ok)%bind_Ok. exists h.
  split_and!; [done|by eapply connect_orchard_block_tip|by eapply connect_orchard_block_same].
Qed.

Lemma disconnect_path_tip a l y w w' :
  path a (w_tip w) l y → foldR (disconnect_block (ProtoError:=ProtoError) a) w l = Ok w' → w_tip w' = y.
Proof.
  intros Hp. remember (w_tip w) as x eqn:Hx. revert w Hx.
  induction Hp as [x|b h l y Hh Hp IH]; intros w Hx H; [by injection H as <-|].
  simpl in H. apply bind_Ok in H as (w1 & H1 & H). apply disconnect_block_inv in H1 as (h' & Hh' & Ht & _).
  rewrite Hh in Hh'. injection Hh' as <-. by apply (IH w1).
Qed.
Lemma connect_path_tip a x l y w w' :
  (∀ b h, headers a !! b = Some h → Header_hash h = b) →
  path a x l y → w_tip w = y → foldR (connect_block (ProtoError:=ProtoError) a) w (reverse l) = Ok w' → w_tip w' = x.
Proof.
  intros Hhash Hp Hw H. destruct Hp as [x|b h l y Hh Hp]; [by injection H as <-|].
  rewrite reverse_cons, foldR_app in H. apply bind_Ok in H as (w1 & _ & H). simpl in H.
  apply bind_Ok in H as (w2 & H2 & H). injection H as <-.
  apply connect_block_inv in H2 as (h' & Hh' & -> & _). f_equal. by apply Hhash.
Qed.

Lemma disconnect_loop_same fuel a w x y w' :
  disconnect_loop (ProtoError:=ProtoError) fuel a w x y = Ok w' → same_transparent w w'.
Proof.
  revert w x. induction fuel as [|fuel IH]; intros w x H; simpl in H;
    (case_bool_decide; [by injection H as <-|]); [done|].
  apply bind_Ok in H as (b & _ & H). apply bind_Ok in H as ([h body] & _ & H).
  apply bind_Ok in H as (w1 & H1%map_err_Ok & H). apply disconnect_orchard_block_same in H1.
  etransitivity; [exact H1|by eapply IH].
Qed.
Lemma update_notes_same nd w w' :
  update_notes (ProtoError:=ProtoError) nd w = Ok w' → same_transparent w w'.
Proof.
  unfold update_notes. cbn zeta. intros (c & _ & H)%bind_Ok. apply bind_Ok in H as (w1 & H1 & H).
  apply disconnect_loop_same in H1. apply bind_Ok in H as (l & _ & H).
  apply (foldR_keep (same_transparent w)) in H; [done| |done].
  intros w2 b w3 _ H2 (h & _ & _ & H3)%connect_block_inv. by etransitivity.
Qed.

(** C12: The wallet follows the chain of the node: [update_notes] disconnects
    the blocks of the wallet's branch above the last common ancestor, newest
    first, and then connects the blocks of the node's branch, oldest first,
    and nothing else: the two branches share no block, a wallet or node
    without a tip counts as being below the first block, and the bounds on the
    two loops are never reached.  When all of them succeed the wallet's tip is
    the node's. *)
Theorem update_notes_follows_node (nd : Node) (w : Wallet)
    (Hok : archive_ok (nd_archive nd))
    (Hhashes : ∀ b h, headers (nd_archive nd) !! b = Some h → Header_hash h = b)
    (Hnode : height_known (nd_archive nd) (tip (nd_state nd)))
    (Hwallet : height_known (nd_archive nd) (try_get_tip w)) :
  let a := nd_archive nd in
  ∃ ancestor old new,
    path a (try_get_tip w) old ancestor ∧ path a (tip (nd_state nd)) new ancestor
    ∧ (∀ b, b ∈ old → b ∉ new)
    ∧ update_notes (ProtoError:=ProtoError) nd w
      = (w ← foldR (disconnect_block a) w old; foldR (connect_block a) w (reverse new))
    ∧ ∀ w', update_notes (ProtoError:=ProtoError) nd w = Ok w' → try_get_tip w' = tip (nd_state nd).
Proof.
  intros a. destruct (branches a Hok _ _ Hwallet Hnode)
    as (c & old & new & Hold & Hnew & Hc & Hlo & Hln & Hdis & Hlca).
  exists c, old, new.
  assert (update_notes (ProtoError:=ProtoError) nd w
    = (w ← foldR (disconnect_block a) w old; foldR (connect_block a) w (reverse new))) as Heq.
  { unfold update_notes. cbn zeta. fold a.
    replace (match tip (nd_state nd), try_get_tip w with
      | Some node_tip, Some wallet_tip => map_err App_Archive (last_common_ancestor a node_tip wallet_tip)
      | _, _ => Ok None end) with (Ok (E:=AppError (ProtoError:=ProtoError)) c)
      by (destruct (tip (nd_state nd)), (try_get_tip w); first [by rewrite Hlca|by injection Hlca as <-]).
    rewrite ok_bind, (disconnect_loop_path a _ w _ old c Hold) by (done || naive_solver).
    destruct (foldR (disconnect_block a) w old) as [w1| |]; [|done..]. rewrite !ok_bind.
    assert (blocks_until (ancestors_fuel a) a c (tip (nd_state nd)) = Ok new) as Hb.
    { apply (blocks_until_path a); [done|naive_solver|unfold ancestors_fuel; lia]. }
    destruct (tip (nd_state nd)); [by rewrite Hb|]. inversion Hnew; subst. done. }
  split_and!; [done..|]. rewrite Heq. intros w' (w1 & H1 & H2)%bind_Ok.
  apply (disconnect_path_tip a old c) in H1; [|done]. by apply (connect_path_tip a _ new c w1 w').
Qed.
End tips.

(** ** The wallet's outputs *)
Section outputs.
Context `{E : Externals} `{SE : !ShardTreeExternals} `{WE : !WalletExternals}.
Context {ProtoError : Type}.

Lemma canonical_key k : is_Some (outpoint_of k) → ∃ o, k = OutPointKey_from o.
Proof.
  intros [o Ho]. unfold outpoint_of in Ho.
  destruct (deborsh (A:=OutPoint) (vec_to_list (key_bytes k))) as [[o' l]|] eqn:Hd; [|done].
  apply deborsh_outpoint_canonical in Hd. exists o'. apply OutPointKey_eq. rewrite OutPointKey_from_bytes.
  pose proof (f_equal length Hd) as Hl. rewrite length_vec_to_list, length_app, borsh_outpoint_length in Hl.
  rewrite Hd. destruct l; [by rewrite app_nil_r|cbn [length] in Hl; lia].
Qed.

Lemma get_utxos_by_addresses_Ok s addresses :
  keys_canonical (utxos s) →
  ∃ l, get_utxos_by_addresses s addresses = Ok l
    ∧ ∀ o out, (o, out) ∈ l ↔ utxos s !! OutPointKey_from o = Some out ∧ address out ∈ addresses.
Proof.
  intros Hc. unfold get_utxos_by_addresses.
  set (F := filter (λ kv : OutPointKey * Output, address kv.2 ∈ addresses) (db_iter (utxos s))).
  assert (∀ kv, kv ∈ F ↔ utxos s !! kv.1 = Some kv.2 ∧ address kv.2 ∈ addresses) as HF.
  { intros [k v]. unfold F. rewrite list_elem_of_filter, elem_of_db_iter. simpl. tauto. }
  clearbody F. assert (Forall (λ kv : OutPointKey * Output, ∃ o, kv.1 = OutPointKey_from o) F) as Hcan.
  { rewrite Forall_forall. intros [k v] [Hk _]%HF. apply canonical_key, Hc. by eexists. }
  assert (∃ l, mapR (λ '(outpoint_key, output),
      outpoint ← OutPoint_from outpoint_key; Ok (outpoint, output)) F = Ok (E:=Error) l
    ∧ F = (λ e, (OutPointKey_from e.1, e.2)) <$> l) as (l & Hl & HFl).
  { clear HF. induction Hcan as [|[k v] F (o & Ho) _ (l & Hl & HFl)]; [by exists []|].
    simpl in Ho. exists ((o, v) :: l). simpl. rewrite Ho, OutPoint_from_key, ok_bind. simpl. rewrite Hl.
    by rewrite ok_bind, HFl. }
  exists l. split; [done|]. intros o out. rewrite <- (HF (OutPointKey_from o, out)), HFl, list_elem_of_fmap.
  split.
  - intros Hin. by exists (o, out).
  - intros ([o' out'] & Heq & Hin). cbn [fst snd] in Heq.
    pose proof (inj OutPointKey_from o o' (f_equal fst Heq)) as ->. by rewrite (f_equal snd Heq : out = out').
Qed.

Lemma get_spent_utxos_elem nd outpoints o so :
  (o, so) ∈ get_spent_utxos nd outpoints ↔
  o ∈ outpoints ∧ stxos (nd_state nd) !! OutPointKey_from o = Some so.
Proof.
  unfold get_spent_utxos. rewrite list_elem_of_omap. split.
  - intros (o' & Ho & H). destruct (stxos _ !! _) eqn:Hs in H; [|done]. by injection H as -> ->.
  - intros [Ho Hs]. exists o. by rewrite Hs.
Qed.

(** *** Storing and spending, outpoint by outpoint *)
Definition known (w : Wallet) (o : OutPoint) : option Output :=
  match w_utxos w !! o with
  | Some output => Some output
  | None => so_output <$> w_stxos_unconfirmed w !! o
  end.

Lemma put_confirmed_lookup w l o :
  (∀ out out', (o, out) ∈ l → (o, out') ∈ l → out = out') →
  let w' := foldl put_utxo_confirmed w l in
  w_stxos w' = w_stxos w ∧ w_stxos_unconfirmed w' = w_stxos_unconfirmed w
  ∧ w_address_to_index w' = w_address_to_index w ∧ w_tip w' = w_tip w
  ∧ (o ∉ l.*1 → w_utxos w' !! o = w_utxos w !! o)
  ∧ (∀ out, (o, out) ∈ l → w_utxos w' !! o =
      if owns w out then match w_stxos_unconfirmed w !! o with Some _ => w_utxos w !! o | None => Some out end
      else w_utxos w !! o).
Proof.
  intros Hf. cbv zeta. revert w. induction l as [|[o1 out1] l IH]; intros w.
  { split_and!; [done..|]. by intros out ?%not_elem_of_nil. }
  cbn [foldl]. set (w1 := put_utxo_confirmed w (o1, out1)).
  assert (w_stxos w1 = w_stxos w ∧ w_stxos_unconfirmed w1 = w_stxos_unconfirmed w
    ∧ w_address_to_index w1 = w_address_to_index w ∧ w_tip w1 = w_tip w
    ∧ (o1 ≠ o → w_utxos w1 !! o = w_utxos w !! o)
    ∧ (o1 = o → w_utxos w1 !! o = if owns w out1 then
        match w_stxos_unconfirmed w !! o with Some _ => w_utxos w !! o | None => Some out1 end
        else w_utxos w !! o)) as (H1 & H2 & H3 & H4 & H5 & H6).
  { unfold w1, put_utxo_confirmed. destruct (owns w out1); [|done]. simpl.
    destruct (decide (o1 = o)) as [<-|Hne]; destruct (w_stxos_unconfirmed w !! o1) eqn:Hs; simpl;
      split_and!; try done; by rewrite ?lookup_insert_eq, ?lookup_insert_ne. }
  destruct (IH ltac:(intros out out' Ha Hb; apply Hf; by right) w1) as (I1 & I2 & I3 & I4 & I5 & I6).
  rewrite I1, I2, I3, I4. split_and!; [done..| |].
  - rewrite fmap_cons, not_elem_of_cons. simpl. intros [Hne Hn]. rewrite I5, H5 by done. done.
  - intros out Hin. assert (∀ out', owns w1 out' = owns w out') as Howns by (intros; unfold owns; by rewrite H3).
    destruct (decide (o ∈ l.*1)) as [Hl|Hl].
    + apply list_elem_of_fmap in Hl as ([o' out'] & -> & Hl). simpl in *.
      assert (out' = out) as -> by (apply Hf; [by right|done]).
      rewrite (I6 out Hl), Howns, H2. destruct (decide (o1 = o')) as [->|Hne].
      * assert (out1 = out) as -> by (apply Hf; [by left|done]). rewrite H6 by done.
        by destruct (owns w out), (w_stxos_unconfirmed w !! o').
      * by rewrite H5.
    + apply elem_of_cons in Hin as [[= <- <-]|Hin]; [by rewrite I5, H6|].
      destruct Hl. apply list_elem_of_fmap. by exists (o, out).
Qed.

Lemma spend_confirmed_lookup (f : OutPoint → InPoint) w l o :
  (∀ o i, (o, i) ∈ l → i = f o) →
  let w' := spend_utxos_confirmed w l in
  w_tip w' = w_tip w
  ∧ match known w o with
    | Some out =>
        if decide (o ∈ l.*1) then
          w_utxos w' !! o = None ∧ w_stxos_unconfirmed w' !! o = None
          ∧ w_stxos w' !! o = Some (mk_SpentOutput out (f o))
        else w_utxos w' !! o = w_utxos w !! o ∧ w_stxos_unconfirmed w' !! o = w_stxos_unconfirmed w !! o
          ∧ w_stxos w' !! o = w_stxos w !! o
    | None => w_utxos w' !! o = w_utxos w !! o ∧ w_stxos_unconfirmed w' !! o = w_stxos_unconfirmed w !! o
        ∧ w_stxos w' !! o = w_stxos w !! o
    end.
Proof.
  intros Hf. cbv zeta. unfold spend_utxos_confirmed. revert w. induction l as [|[o1 i1] l IH]; intros w.
  { split; [done|]. destruct (known w o); done. }
  cbn [foldl]. assert (i1 = f o1) as -> by (apply Hf; by left).
  set (w1 := spend_utxo_confirmed w (o1, f o1)).
  destruct (IH ltac:(intros o' i' Ha; apply Hf; by right) w1) as [I1 I2]. clear IH.
  assert (w_tip w1 = w_tip w) as Ht.
  { unfold w1, spend_utxo_confirmed. by destruct (match w_utxos w !! o1 with Some x => Some x | None => _ end). }
  split; [congruence|]. destruct (decide (o1 = o)) as [->|Hne].
  - destruct (known w o) as [out|] eqn:Hk.
    + rewrite decide_True by (rewrite fmap_cons; by left).
      assert (w1 = with_stxos (with_utxos w (delete o (w_utxos w)) (w_utxos_unconfirmed w))
        (<[o := mk_SpentOutput out (f o)]> (w_stxos w)) (delete o (w_stxos_unconfirmed w))) as Hw1.
      { unfold w1, spend_utxo_confirmed. unfold known in Hk. by rewrite Hk. }
      assert (known w1 o = None) as Hk1.
      { unfold known. rewrite Hw1. simpl. by rewrite !lookup_delete_eq. }
      rewrite Hk1 in I2. destruct I2 as (-> & -> & ->). rewrite Hw1. simpl.
      by rewrite !lookup_delete_eq, lookup_insert_eq.
    + assert (w1 = w) as Hw1 by (unfold w1, spend_utxo_confirmed; unfold known in Hk; by rewrite Hk).
      rewrite Hw1, Hk in I2. by rewrite Hw1.
  - assert (w_utxos w1 !! o = w_utxos w !! o ∧ w_stxos_unconfirmed w1 !! o = w_stxos_unconfirmed w !! o
      ∧ w_stxos w1 !! o = w_stxos w !! o) as (H1 & H2 & H3).
    { unfold w1, spend_utxo_confirmed. destruct (match w_utxos w !! o1 with Some x => Some x | None => _ end); [|done].
      simpl. by rewrite !lookup_delete_ne, lookup_insert_ne by done. }
    assert (known w1 o = known w o) as Hk by (unfold known; by rewrite H1, H2). rewrite Hk, H1, H2, H3 in I2.
    destruct (known w o); [|done]. rewrite fmap_cons. simpl. destruct (decide (o ∈ l.*1)).
    + by rewrite decide_True by by right.
    + by rewrite decide_False by by (rewrite not_elem_of_cons; split; [congruence|done]).
Qed.

Lemma owned_address w output :
  wallet_wf w → owns w output = true ↔ address output ∈ get_transparent_addresses w.
Proof.
  intros Hwf. unfold owns, get_transparent_addresses, is_some_opt.
  rewrite elem_of_list_to_set, list_elem_of_fmap. split.
  - destruct (w_address_to_index w !! address output) as [i|] eqn:Hi; [|done]. intros _.
    apply (wf_address w Hwf) in Hi. exists (i, address output). split; [done|]. by apply elem_of_map_to_list.
  - intros ([i a] & -> & Hin%elem_of_map_to_list). apply (wf_index w Hwf) in Hin as (_ & _ & [j Hj]).
    simpl in *. by rewrite Hj.
Qed.

(** What the two lists of the update say of an outpoint. *)
Lemma spent_outpoints nd w o :
  let outpoints := (fst <$> map_to_list (w_utxos w)) ++ (fst <$> map_to_list (w_stxos_unconfirmed w)) in
  o ∈ ((λ s : OutPoint * SpentOutput, (s.1, inpoint s.2)) <$> get_spent_utxos nd outpoints).*1
  ↔ is_Some (known w o) ∧ is_Some (stxos (nd_state nd) !! OutPointKey_from o).
Proof.
  cbv zeta. rewrite <- list_fmap_compose, list_elem_of_fmap. unfold known. split.
  - intros ([o' so] & -> & [Ho Hs]%get_spent_utxos_elem). simpl. split; [|by eexists].
    apply elem_of_app in Ho as [([? out] & -> & Ho%elem_of_map_to_list)%list_elem_of_fmap
      |([? out] & -> & Ho%elem_of_map_to_list)%list_elem_of_fmap]; simpl; rewrite Ho; [done|].
    by destruct (w_utxos w !! _).
  - intros [[out Ho] [so Hs]]. exists (o, so). split; [done|]. apply get_spent_utxos_elem. split; [|done].
    apply elem_of_app.
    destruct (w_utxos w !! o) as [x|] eqn:Hw; [left|right]; apply list_elem_of_fmap.
    + exists (o, x). split; [done|]. by apply elem_of_map_to_list.
    + destruct (w_stxos_unconfirmed w !! o) as [y|] eqn:Hw'; [|done].
      exists (o, y). split; [done|]. by apply elem_of_map_to_list.
Qed.

(** The unspent outputs after the node's are stored. *)
Definition stored_output (nd : Node) (w : Wallet) (o : OutPoint) : option Output :=
  match w_stxos_unconfirmed w !! o, utxos (nd_state nd) !! OutPointKey_from o with
  | None, Some output => if owns w output then Some output else w_utxos w !! o
  | _, _ => w_utxos w !! o
  end.

Lemma put_node_utxos nd w l :
  wallet_wf w →
  (∀ o out, (o, out) ∈ l ↔ utxos (nd_state nd) !! OutPointKey_from o = Some out
     ∧ address out ∈ get_transparent_addresses w) →
  let w' := put_utxos_confirmed w (list_to_map l) in
  w_stxos w' = w_stxos w ∧ w_stxos_unconfirmed w' = w_stxos_unconfirmed w ∧ w_tip w' = w_tip w
  ∧ ∀ o, w_utxos w' !! o = stored_output nd w o.
Proof.
  intros Hwf Hin. cbv zeta.
  assert (∀ o out, (o, out) ∈ map_to_list (list_to_map (M:=gmap OutPoint Output) l)
    ↔ utxos (nd_state nd) !! OutPointKey_from o = Some out ∧ owns w out = true) as Hl.
  { intros o out. rewrite owned_address, <- Hin, elem_of_map_to_list by done. split.
    - apply elem_of_list_to_map_2.
    - intros Hm. apply elem_of_list_to_map_1'; [|done]. intros out' [H1 _]%Hin. apply Hin in Hm as [H2 _]. congruence. }
  assert (∀ o out out', (o, out) ∈ map_to_list (list_to_map (M:=gmap OutPoint Output) l) →
    (o, out') ∈ map_to_list (list_to_map (M:=gmap OutPoint Output) l) → out = out') as Hf.
  { intros o out out' [H1 _]%Hl [H2 _]%Hl. congruence. }
  unfold put_utxos_confirmed. split_and!;
    try (by destruct (put_confirmed_lookup w _ (Regular (vreplicate 32 x00) (u32_of_Z 0)) (Hf _))
      as (? & ? & _ & ? & _)).
  intros o. destruct (put_confirmed_lookup w _ o (Hf o)) as (_ & _ & _ & _ & P5 & P6). unfold stored_output.
  destruct (utxos (nd_state nd) !! OutPointKey_from o) as [out|] eqn:Ho; [destruct (owns w out) eqn:Hown|].
  - rewrite (P6 out), Hown by by apply Hl. by destruct (w_stxos_unconfirmed w !! o).
  - rewrite P5; [by destruct (w_stxos_unconfirmed w !! o)|].
    intros ([o' out'] & -> & [H1 H2]%Hl)%list_elem_of_fmap. simpl in Ho. congruence.
  - rewrite P5; [by destruct (w_stxos_unconfirmed w !! o)|]. intros ([o' out'] & -> & [H1 H2]%Hl)%list_elem_of_fmap. simpl in Ho. congruence.
Qed.

Lemma stored_output_same nd w w1 o : same_transparent w w1 → stored_output nd w1 o = stored_output nd w o.
Proof. intros (_ & Ha & _ & Hu & _ & _ & Hy). unfold stored_output, owns. by rewrite Ha, Hu, Hy. Qed.

(** C13: After an update the wallet's outputs are the node's.  Once the notes
    are updated the rest of the update succeeds, and for every outpoint: an
    output of the wallet, unspent or spent by an unconfirmed transaction, that
    the node has as spent moves to the confirmed spent outputs, with the input
    that the node recorded; an unspent output of the node at one of the
    wallet's addresses becomes an unspent output of the wallet, unless an
    unconfirmed transaction of the wallet spends it; everything else stays as
    it was, also the outputs that the node no longer knows. *)
Theorem update_wallet_outputs (nd : Node) (w w1 : Wallet)
    (Hwf : wallet_wf w) (Hkeys : keys_canonical (utxos (nd_state nd))) (Htxos : txos_disjoint (nd_state nd))
    (Hnotes : update_notes (ProtoError:=ProtoError) nd w = Ok w1) :
  ∃ w', update_wallet (ProtoError:=ProtoError) nd w = Ok w' ∧ w_tip w' = w_tip w1
    ∧ ∀ o, match known w o, stxos (nd_state nd) !! OutPointKey_from o with
      | Some output, Some spent =>
          w_utxos w' !! o = None ∧ w_stxos_unconfirmed w' !! o = None
          ∧ w_stxos w' !! o = Some (mk_SpentOutput output (inpoint spent))
      | _, _ =>
          w_stxos w' !! o = w_stxos w !! o ∧ w_stxos_unconfirmed w' !! o = w_stxos_unconfirmed w !! o
          ∧ w_utxos w' !! o = stored_output nd w o
      end.
Proof.
  pose proof (update_notes_same nd w w1 Hnotes) as Hsame. pose proof (wf_same w w1 Hsame Hwf) as Hwf1.
  destruct (get_utxos_by_addresses_Ok (nd_state nd) (get_transparent_addresses w1) Hkeys) as (l & Hl & Hin).
  unfold update_wallet. rewrite Hnotes, ok_bind. unfold update_outputs. cbn zeta. rewrite Hl. cbn [map_err].
  rewrite ok_bind. eexists. split; [reflexivity|].
  pose proof (spent_outpoints nd w1) as Hsp. cbv zeta in Hsp. set (spent := _ <$> get_spent_utxos _ _) in *.
  destruct (put_node_utxos nd w1 l Hwf1 Hin) as (P1 & P2 & P3 & P4). set (w2 := put_utxos_confirmed _ _) in *.
  set (f o := match stxos (nd_state nd) !! OutPointKey_from o with
    Some s => inpoint s | None => InRegular (vreplicate 32 x00) (u32_of_Z 0) end).
  assert (∀ o i, (o, i) ∈ spent → i = f o) as Hf.
  { intros o i ([o' so] & [= -> ->] & [_ Hs]%get_spent_utxos_elem)%list_elem_of_fmap. unfold f. by rewrite Hs. }
  split.
  { rewrite <- P3. apply (spend_confirmed_lookup f w2 spent (Regular (vreplicate 32 x00) (u32_of_Z 0)) Hf). }
  intros o. destruct (spend_confirmed_lookup f w2 spent o Hf) as [_ S].
  specialize (Hsp o). specialize (P4 o). rewrite (stored_output_same nd w w1 o Hsame) in P4.
  destruct Hsame as (_ & _ & _ & Hu & _ & Hx & Hy). rewrite P1, P2, P4, Hx, Hy in S.
  assert (known w1 o = known w o) as Hk1 by (unfold known; by rewrite Hu, Hy). rewrite Hk1 in Hsp.
  destruct (stxos (nd_state nd) !! OutPointKey_from o) as [so|] eqn:Hs.
  - assert (stored_output nd w o = w_utxos w !! o) as Hst.
    { unfold stored_output. destruct (utxos (nd_state nd) !! OutPointKey_from o) as [out|] eqn:Ho;
        [apply Htxos in Ho; congruence|]. by destruct (w_stxos_unconfirmed w !! o). }
    assert (known w2 o = known w o) as Hk by (unfold known; by rewrite P4, P2, Hy, Hst).
    rewrite Hk in S. destruct (known w o) as [out|]; [|by destruct S as (? & ? & ?)].
    rewrite decide_True in S by by apply Hsp. unfold f in S. by rewrite Hs in S.
  - assert (o ∉ spent.*1) as Hns by (intros [_ [? ?]]%Hsp; congruence).
    destruct (known w2 o); [rewrite decide_False in S by done|];
      destruct (known w o); destruct S as (? & ? & ?); done.
Qed.
End outputs.

(** ** Payments that the wallet creates *)
Section payments.
Context `{E : Externals} `{SE : !ShardTreeExternals} `{WE : !WalletExternals}.

Lemma select_total_max `{HA : !AmountLaws} w value total coins :
  select_transparent_coins w value = Ok (total, coins) → (total ≤ amount_max)%Z.
Proof.
  unfold select_transparent_coins. cbv zeta. intros ([t s] & Hs & H)%bind_Ok.
  apply bind_Ok in H as (? & _ & [= <- _]).
  assert (∀ l t0 s0, (t0 ≤ amount_max)%Z → select_loop value l t0 s0 = Ok (t, s) → (t ≤ amount_max)%Z) as Hl.
  { induction l as [|[o out] l IH]; intros t0 s0 Ht H; simpl in H; [by injection H as <- _|].
    destruct (is_withdrawal (content out)); [by eapply IH|]. destruct (value <? t0)%Z; [by injection H as <- _|].
    apply bind_Ok in H as (t1 & H1%ok_or_Ok & H). apply checked_add_Some in H1 as [-> H1]. by eapply IH. }
  eapply Hl; [|exact Hs]. pose proof amount_max_range. lia.
Qed.

(** The wallet signs for every coin that it holds. *)
Lemma Wallet_authorize_Ok w tx (coins : list (OutPoint * Output)) :
  wallet_wf w → inputs tx = hash_inputs coins → Forall (λ c, w_utxos w !! c.1 = Some c.2) coins →
  ∃ keys, Forall2 (λ k c, get_address (verifying_key_of k) = address c.2) keys coins
    ∧ Wallet_authorize w tx = Ok (mk_AuthorizedTransaction tx
        ((λ k, mk_Authorization (verifying_key_of k) (sign k tx)) <$> keys)).
Proof.
  intros Hwf Hin Hcoins. unfold Wallet_authorize. rewrite Hin. unfold hash_inputs. clear Hin.
  set (step := λ (auths : list Authorization) '((outpoint, _) : OutPoint * Hash), _).
  assert (∀ acc, ∃ keys, Forall2 (λ k c, get_address (verifying_key_of k) = address c.2) keys coins
    ∧ foldR step acc ((λ '(outpoint, output),
        (outpoint, hash_with_scratch_buffer (mk_PointedOutput outpoint output))) <$> coins)
      = Ok (acc ++ ((λ k, mk_Authorization (verifying_key_of k) (sign k tx)) <$> keys))) as Hl.
  { induction Hcoins as [|[o out] coins Ho _ IH]; intros acc.
    { exists []. split; [constructor|]. by rewrite app_nil_r. }
    simpl in Ho. destruct (wf_stored w Hwf out) as [i Hi]; [by exists o; left|].
    apply (wf_address w Hwf) in Hi as Hi'. apply (wf_index w Hwf) in Hi' as (_ & (k & Hk & Hka) & _).
    destruct (IH (acc ++ [mk_Authorization (verifying_key_of k) (sign k tx)])) as (keys & Hkeys & Hfold).
    exists (k :: keys). split; [by constructor|]. rewrite !fmap_cons. cbn [foldR].
    assert (∀ h, step acc (o, h) = Ok (acc ++ [mk_Authorization (verifying_key_of k) (sign k tx)])) as Hstep.
    { intros h. unfold step. rewrite Ho. cbn [ok_or]. rewrite ok_bind, Hi. cbn [ok_or].
      by rewrite ok_bind, Hk. }
    rewrite Hstep, ok_bind, Hfold. by rewrite <- app_assoc. }
  destruct (Hl []) as (keys & Hkeys & Hfold). exists keys. split; [done|]. by rewrite Hfold.
Qed.

(** The wallet's unspent outputs are outputs that the node has. *)
Definition in_sync (w : Wallet) (s : State) : Prop :=
  ∀ o output, w_utxos w !! o = Some output →
    utxos s !! OutPointKey_from o = Some output ∧ (0 ≤ get_value output)%Z.

Lemma spent_by_coins s (coins : list (OutPoint * Output)) :
  Forall (λ c, utxos s !! OutPointKey_from c.1 = Some c.2) coins →
  Forall2 (λ i o, utxos s !! OutPointKey_from i.1 = Some o) (hash_inputs coins) coins.*2.
Proof. unfold hash_inputs. induction 1 as [|[o out] coins Ho _ IH]; simpl; constructor; done. Qed.
Lemma coin_hashes (coins : list (OutPoint * Output)) :
  Forall (λ i, i.1.2 = hash (mk_PointedOutput i.1.1 i.2)) (zip (hash_inputs coins) coins.*2).
Proof. unfold hash_inputs. induction coins as [|[o out] coins IH]; simpl; constructor; done. Qed.
Lemma signers_own keys (coins : list (OutPoint * Output)) tx :
  Forall2 (λ k c, get_address (verifying_key_of k) = address c.2) keys coins →
  Forall (λ p, Authorization_get_address p.1 = address p.2)
    (zip ((λ k, mk_Authorization (verifying_key_of k) (sign k tx)) <$> keys) coins.*2).
Proof. induction 1 as [|k [o out] keys coins Hk _ IH]; simpl; constructor; done. Qed.

(** A transaction over coins of the wallet is accepted for the fee left over. *)
Lemma payment_accepted `{HA : !AmountLaws, !BatchVerify, !SignVerify} w s tx coins fee :
  wallet_wf w → in_sync w s → inputs tx = hash_inputs coins → orchard_bundle tx = None →
  Forall (λ c, w_utxos w !! c.1 = Some c.2) coins →
  Forall (λ o, 0 ≤ get_value o)%Z (outputs tx) → (0 ≤ fee)%Z → (coins_value coins ≤ amount_max)%Z →
  coins_value coins = (sumZ (get_value <$> outputs tx) + fee)%Z →
  ∃ t, Wallet_authorize w tx = Ok t ∧ at_transaction t = tx ∧ validate_transaction s t = Ok fee.
Proof.
  intros Hwf Hsync Hin Hb Hcoins Hout Hfee Hmax Hsum.
  destruct (Wallet_authorize_Ok w tx coins Hwf Hin Hcoins) as (keys & Hkeys & Hauth).
  eexists. split_and!; [exact Hauth|done|].
  assert (Forall (λ c, utxos s !! OutPointKey_from c.1 = Some c.2 ∧ (0 ≤ get_value c.2)%Z) coins) as Hs
    by (eapply Forall_impl; [exact Hcoins|]; intros c Hc; by apply Hsync).
  apply Forall_and in Hs as [Hs Hpos].
  unfold validate_transaction. cbn [at_transaction authorizations].
  assert (fill_transaction s tx = Ok (mk_FilledTransaction tx coins.*2)) as ->.
  { apply fill_transaction_Ok. split; [done|]. rewrite Hin. by apply spent_by_coins. }
  rewrite ok_bind. cbn [spent_utxos].
  rewrite (proj2 (check_addresses_Ok _ _) (signers_own keys coins tx Hkeys)), ok_bind, Hb, ok_bind.
  assert (verify_authorized_transaction (mk_AuthorizedTransaction tx
    ((λ k, mk_Authorization (verifying_key_of k) (sign k tx)) <$> keys)) = Ok tt) as ->.
  { apply verify_authorized_transaction_Ok. simpl. split_and!.
    - rewrite length_fmap, Hin. unfold hash_inputs. rewrite length_fmap. by eapply Forall2_length.
    - unfold verify_orchard. by rewrite Hb.
    - rewrite Hin. unfold hash_inputs. rewrite length_fmap, <- (Forall2_length _ _ _ Hkeys). clear Hkeys Hauth.
      induction keys as [|k keys IH]; [constructor|]. csimpl. constructor; [apply verify_sign|done]. }
  cbn [map_err]. rewrite ok_bind. apply validate_filled_transaction_Ok.
  - split; [|done]. simpl. by rewrite Forall_fmap.
  - unfold total_in, total_out, value_balance. simpl. rewrite Hb, <- list_fmap_compose.
    change (get_value ∘ snd <$> coins) with (coin_value <$> coins). fold (coins_value coins).
    split_and!; [|lia..]. apply validate_utxo_hashes_Ok. unfold filled_inputs. simpl. rewrite Hin.
    apply coin_hashes.
Qed.

(** A payment or a withdrawal that the wallet created with a fee. *)
Inductive created (w : Wallet) (fee : Amount) (w' : Wallet) (tx : Transaction) : Prop :=
  | Created_payment acc address value (Hvalue : (0 ≤ value)%Z)
      (H : create_transaction w acc address value fee = Ok (w', tx))
  | Created_withdrawal acc address value main_fee (Hvalue : (0 ≤ value)%Z) (Hmain : (0 ≤ main_fee)%Z)
      (H : create_withdrawal w acc address value main_fee fee = Ok (w', tx)).

(** What [created] says of the transaction, whichever it is. *)
Lemma created_coins `{HA : !AmountLaws, HS : !SortUnstable} w fee w' tx :
  wallet_wf w → (0 ≤ fee)%Z → created w fee w' tx →
  wallet_wf w' ∧ w_utxos w' = w_utxos w ∧ orchard_bundle tx = None
  ∧ Forall (λ o, 0 ≤ get_value o)%Z (outputs tx)
  ∧ ∃ coins, inputs tx = hash_inputs coins ∧ Forall (λ c, w_utxos w !! c.1 = Some c.2) coins
      ∧ (coins_value coins ≤ amount_max)%Z ∧ coins_value coins = (sumZ (get_value <$> outputs tx) + fee)%Z.
Proof.
  assert (∀ value total coins, select_transparent_coins w value = Ok (total, coins) →
    Forall (λ c, w_utxos w !! c.1 = Some c.2) coins ∧ (coins_value coins ≤ amount_max)%Z
    ∧ total = coins_value coins) as Hsel.
  { intros value total coins Hsel. pose proof (select_total_max w _ _ _ Hsel) as Hmax.
    destruct (select_elements w _ _ _ Hsel) as [_ Hall]. destruct (select_Ok w _ _ _ Hsel) as (_ & _ & -> & _ & _).
    split_and!; [|done..]. eapply Forall_impl; [exact Hall|]. by intros c [? _]. }
  intros Hwf Hfee [acc address value Hvalue H|acc address value main_fee Hvalue Hmain H].
  - destruct (create_transaction_Ok w _ _ _ _ _ _ H) as (total & coins & a & Hs & _ & Hle & Ha & Hin & Hout & Hb).
    apply Hsel in Hs as (Hcoins & Hmax & ->). pose proof (new_transparent_wf w w' a Hwf Ha).
    apply new_transparent_Ok in Ha as (k & _ & _ & ->). rewrite Hout. split_and!; [done..| |].
    + repeat constructor; unfold get_value, Output_get_value, get_value, Content_get_value; simpl; lia.
    + exists coins. split_and!; [done..|]. rewrite !fmap_cons, !sumZ_cons.
      unfold get_value, Output_get_value, get_value, Content_get_value. simpl. unfold sumZ. simpl. lia.
  - destruct (create_withdrawal_Ok w _ _ _ _ _ _ _ H)
      as (total & coins & w1 & a1 & a2 & Hs & Hm & Hle & Ha1 & Ha2 & Hin & Hout & Hb).
    apply Hsel in Hs as (Hcoins & Hmax & ->). pose proof (new_transparent_wf w w1 a1 Hwf Ha1) as Hwf1.
    pose proof (new_transparent_wf w1 w' a2 Hwf1 Ha2).
    apply new_transparent_Ok in Ha1 as (k1 & _ & _ & ->). apply new_transparent_Ok in Ha2 as (k2 & _ & _ & ->).
    assert (checked_add value main_fee = Some (value + main_fee)%Z) as Hadd by (apply checked_add_Some; lia).
    rewrite Hout. split_and!; [done..| |].
    + repeat constructor; unfold get_value, Output_get_value, get_value, Content_get_value; simpl;
        rewrite ?Hadd; simpl; lia.
    + exists coins. split_and!; [done..|]. rewrite !fmap_cons, !sumZ_cons.
      unfold get_value, Output_get_value, get_value, Content_get_value. simpl. rewrite Hadd. unfold sumZ. simpl. lia.
Qed.

(** C11: The node accepts what the wallet creates: a payment or withdrawal
    that the wallet creates from outputs that the node has unspent, with
    amounts that are not negative, the wallet can authorize, and the node
    validates it and finds in it exactly the fee that was asked for. *)
Theorem created_payment_accepted `{HA : !AmountLaws, HS : !SortUnstable, !BatchVerify, !SignVerify}
    (w w' : Wallet) (s : State) (fee : Amount) (tx : Transaction)
    (Hwf : wallet_wf w) (Hsync : in_sync w s) (Hfee : (0 ≤ fee)%Z) (Hcreated : created w fee w' tx) :
  ∃ t, Wallet_authorize w' tx = Ok t ∧ at_transaction t = tx ∧ validate_transaction s t = Ok fee.
Proof.
  destruct (created_coins w fee w' tx Hwf Hfee Hcreated)
    as (Hwf' & Hu & Hb & Hout & coins & Hin & Hcoins & Hmax & Hsum).
  apply (payment_accepted w' s tx coins fee); try done; [|by rewrite Hu].
  intros o output. rewrite Hu. apply Hsync.
Qed.
End payments.
