(* ===== verification/WalletNodeToy.v ===== *)
(** Witnesses of the theorems of [WalletNodeFacts.v]: the wallet of
    [WalletToy.v] beside a node whose chain forks at the second block. *)
From S2P Require Import Prelude.
From S2P Require Import Effects.
From S2P Require Import Borsh.
From S2P Require Import Externals.
From S2P Require Import Toy.
From S2P Require Import Types.
From S2P Require Import AccumulatorDiff.
From S2P Require Import Authorization.
From S2P Require Import Keys.
From S2P Require Import ShardTreeDb.
From S2P Require Import ShardTreeFacts.
From S2P Require Import State.
From S2P Require Import Block.
From S2P Require Import Lineage.
From S2P Require Import Archive.
From S2P Require Import ArchiveFacts.
From S2P Require Import MemPool.
From S2P Require Import Node.
From S2P Require Import NodeApi.
From S2P Require Import Wallet.
From S2P Require Import WalletFacts.
From S2P Require Import WalletToy.
From S2P Require Import WalletNode.
From S2P Require Import WalletNodeFacts.

Module WalletNodeToy.
#[local] Existing Instances Toy.externals ShardTreeToy.shard_externals WalletToy.wallet_externals
  AuthorizationToy.batch_verify AuthorizationToy.sign_verify.
Import ArchiveToy.
Import WalletToy.

(** The wallet is at [header2], the node at [fork2] on the same parent. *)
Definition receive2 : list (Z * Z) := [(800, 98)%Z].
Definition fork2 : Header := orchard_header (Some (Header_hash header1)) receive2.
Definition forked_writes : list write :=
  WOpen :: ((λ n, WMainHeader (main_header (Z.of_nat n))) <$> seq 1 9)
  ++ [WHeader header1; WHeader header2; WHeader fork2;
      WBody (Header_hash header1) (orchard_body receive);
      WBody (Header_hash header2) (orchard_body spend);
      WBody (Header_hash fork2) (orchard_body receive2)].
Definition forked : Archive := default Archive_empty_dbs (run Archive_empty_dbs forked_writes).
Lemma forked_ok : archive_ok forked.
Proof.
  apply (reachable_ok set_order map_order Z.add _ map_order_iterates), (run_reach _ forked_writes), default_ok.
  vm_compute. reflexivity.
Qed.
Definition hashes_to (b : BlockHash) (h : Header) : bool := bool_decide (Header_hash h = b).
Lemma forked_hashes b h : headers forked !! b = Some h → Header_hash h = b.
Proof.
  intros H. apply (bool_decide_unpack _), Is_true_true. revert H.
  change (headers forked !! b = Some h → hashes_to b h = true).
  apply (map_all_lookup hashes_to). vm_compute. reflexivity.
Qed.

(** The node has the first output of the wallet as spent, the second and the
    third as unspent, and a fourth that the wallet does not know. *)
Definition out (v : Z) : Output := mk_Output own_address (Value v).
Definition bundle_out : Output := mk_Output own_address (Withdrawal 900 10 []).
Definition spent_by : InPoint := InRegular (le_vec 32 55) (u32_of_Z 0).
Definition node_utxos : gmap OutPointKey Output :=
  <[OutPointKey_from (op 2) := out 300]> (<[OutPointKey_from (op 3) := bundle_out]>
    (<[OutPointKey_from (op 4) := out 70]> ∅)).
Definition node_stxos : gmap OutPointKey SpentOutput :=
  <[OutPointKey_from (op 1) := mk_SpentOutput (out 500) spent_by]> ∅.
Definition node_state : State :=
  with_txos (with_tip_height StateToy.s0 (Some (Header_hash fork2)) (Some 1%Z)) node_utxos node_stxos.
Definition forked_node : Node := mk_Node forked MemPool_empty_dbs node_state.

Definition height_is (a : Archive) (b : BlockHash) (h : Z) : bool :=
  match get_height a b with Ok k => (k =? h)%Z | _ => false end.
Lemma height_is_known a b h : height_is a b h = true → (h < 2 ^ 31)%Z → height_known a (Some b).
Proof.
  unfold height_is, height_known. intros Hh Hb b' [= <-]. exists h.
  destruct (get_height a b) as [k| |]; [|done..]. by apply Z.eqb_eq in Hh as ->.
Qed.
Lemma wallet5_tip : try_get_tip wallet5 = Some (Header_hash header2).
Proof. vm_compute. reflexivity. Qed.
Lemma wallet5_height : height_known forked (try_get_tip wallet5).
Proof. rewrite wallet5_tip. apply (height_is_known _ _ 1); [vm_compute; reflexivity|done]. Qed.
Lemma node_height : height_known forked (tip node_state).
Proof. apply (height_is_known _ _ 1); [vm_compute; reflexivity|done]. Qed.

Definition updated : Wallet :=
  match update_notes (ProtoError:=unit) forked_node wallet5 with Ok w => w | _ => wallet0 end.
Lemma updated_ok : update_notes (ProtoError:=unit) forked_node wallet5 = Ok updated.
Proof.
  unfold updated. assert (is_ok (update_notes (ProtoError:=unit) forked_node wallet5) = true) as H
    by (vm_compute; reflexivity).
  by destruct (update_notes forked_node wallet5).
Qed.

Lemma update_notes_follows_node_witness : try_get_tip updated = Some (Header_hash fork2).
Proof.
  destruct (update_notes_follows_node (ProtoError:=unit) forked_node wallet5 forked_ok forked_hashes
    node_height wallet5_height) as (c & old & new & _ & _ & _ & _ & Htip).
  exact (Htip updated updated_ok).
Defined.

Lemma steps_wf w w' : wallet_wf w → rtc wallet_step w w' → wallet_wf w'.
Proof.
  intros Hwf Hr. refine (rtc_ind_r wallet_wf _ Hwf _ w' Hr). intros w1 w2 _ Hstep H1. by eapply wallet_step_wf.
Qed.
Lemma wallet3_wf : wallet_wf wallet3.
Proof. exact (steps_wf wallet0 wallet3 wf_new wallet3_reach). Qed.
Lemma wallet5_wf : wallet_wf wallet5.
Proof.
  apply (steps_wf wallet3 wallet5 wallet3_wf).
  eapply rtc_l; [apply (Step_connect wallet3 wallet4 header1 (orchard_body receive))|
    apply rtc_once, (Step_connect wallet4 wallet5 header2 (orchard_body spend))];
    apply ok_or_default_ok; vm_compute; reflexivity.
Qed.
Lemma node_keys : keys_canonical (utxos node_state).
Proof.
  intros k [o Ho]. change (node_utxos !! k = Some o) in Ho. unfold node_utxos in Ho.
  repeat (apply lookup_insert_Some in Ho as [[<- _]|[_ Ho]]; [rewrite outpoint_of_key; by eexists|]).
  by rewrite lookup_empty in Ho.
Qed.
Definition unspent_key (k : OutPointKey) (_ : Output) : bool := is_none (stxos node_state !! k).
Lemma node_txos : txos_disjoint node_state.
Proof.
  intros k o Ho. apply is_none_ok. revert Ho. apply (map_all_lookup unspent_key). vm_compute. reflexivity.
Qed.

Lemma node_state_eq : nd_state forked_node = node_state.
Proof. reflexivity. Qed.
Lemma spent1 : stxos node_state !! OutPointKey_from (op 1) = Some (mk_SpentOutput (out 500) spent_by).
Proof. apply (bool_decide_unpack _). vm_compute. exact I. Qed.
Lemma known1 : known wallet5 (op 1) = Some (out 500).
Proof. apply (bool_decide_unpack _). vm_compute. exact I. Qed.
Lemma known2 : known wallet5 (op 2) = Some (out 300).
Proof. apply (bool_decide_unpack _). vm_compute. exact I. Qed.
Lemma unknown4 : is_none (known wallet5 (op 4)) = true.
Proof. vm_compute. reflexivity. Qed.
Lemma unlocked : Nat.eqb (size (w_stxos_unconfirmed wallet5)) 0 = true.
Proof. vm_compute. reflexivity. Qed.
Lemma owned v : is_some_opt (w_address_to_index wallet5 !! own_address) = true → owns wallet5 (out v) = true.
Proof. intros H. exact H. Qed.
Lemma owned_here : is_some_opt (w_address_to_index wallet5 !! own_address) = true.
Proof. vm_compute. reflexivity. Qed.
Lemma not_spent z : bool_decide (OutPointKey_from (op 1) = OutPointKey_from (op z)) = false →
  stxos node_state !! OutPointKey_from (op z) = None.
Proof.
  intros Hne%bool_decide_eq_false. change (node_stxos !! OutPointKey_from (op z) = None). unfold node_stxos.
  by rewrite lookup_insert_ne.
Qed.
Lemma utxo2 : utxos node_state !! OutPointKey_from (op 2) = Some (out 300).
Proof. apply (bool_decide_unpack _). vm_compute. exact I. Qed.
Lemma utxo4 : utxos node_state !! OutPointKey_from (op 4) = Some (out 70).
Proof. apply (bool_decide_unpack _). vm_compute. exact I. Qed.
Lemma unlocked_at o : w_stxos_unconfirmed wallet5 !! o = None.
Proof. by rewrite (map_size_empty_inv _ (proj1 (Nat.eqb_eq _ _) unlocked)), lookup_empty. Qed.

#[local] Opaque wallet5 updated forked_node node_state out op.
Lemma update_wallet_outputs_witness :
  ∃ w, update_wallet (ProtoError:=unit) forked_node wallet5 = Ok w
    ∧ w_utxos w !! op 1 = None ∧ w_utxos w !! op 2 = Some (out 300) ∧ w_utxos w !! op 4 = Some (out 70).
Proof.
  destruct (update_wallet_outputs (ProtoError:=unit) forked_node wallet5 updated wallet5_wf node_keys node_txos
    updated_ok) as (w & Hw & _ & Hall).
  exists w. split; [exact Hw|].
  pose proof (Hall (op 1)) as H1. pose proof (Hall (op 2)) as H2. pose proof (Hall (op 4)) as H4. clear Hall.
  rewrite node_state_eq in H1, H2, H4. unfold stored_output in H2, H4. rewrite node_state_eq in H2, H4.
  rewrite known1, spent1 in H1. rewrite known2, not_spent, unlocked_at, utxo2, (owned _ owned_here) in H2
    by (vm_compute; reflexivity).
  rewrite (is_none_ok _ unknown4), unlocked_at, utxo4, (owned _ owned_here) in H4.
  destruct H1 as (A & _), H2 as (_ & _ & C), H4 as (_ & _ & D).
  split; [exact A|]. split; [exact C|exact D].
Defined.

(** A payment of 400 with a fee of 10 out of the two outputs of [wallet3]. *)
Definition synced_state : State :=
  with_txos StateToy.s0 (<[OutPointKey_from (op 1) := out 500]> node_utxos) ∅.
Definition wallet_leaves : Accumulator :=
  mk_Accumulator ((λ c, hash (mk_PointedOutput c.1 c.2)) <$> [(op 1, out 500); (op 2, out 300)] : list Hash).
Definition payment : Wallet * Transaction :=
  match create_transaction wallet3 wallet_leaves StateToy.alice_addr 400 10 with
  | Ok r => r | _ => (wallet0, orchard_tx []) end.
Lemma payment_ok : create_transaction wallet3 wallet_leaves StateToy.alice_addr 400 10 = Ok (payment.1, payment.2).
Proof.
  unfold payment. assert (is_ok (create_transaction wallet3 wallet_leaves StateToy.alice_addr 400 10) = true) as H
    by (vm_compute; reflexivity).
  by destruct (create_transaction wallet3 wallet_leaves StateToy.alice_addr 400 10) as [[]| |].
Qed.
Definition synced (o : OutPoint) (output : Output) : bool :=
  bool_decide (utxos synced_state !! OutPointKey_from o = Some output) && (0 <=? get_value output)%Z.
Lemma wallet3_sync : in_sync wallet3 synced_state.
Proof.
  intros o output H. assert (synced o output = true) as Hb.
  { revert H. apply (map_all_lookup synced). vm_compute. reflexivity. }
  apply andb_true_iff in Hb as [Hu%bool_decide_eq_true Hv]. split; [done|lia].
Qed.
#[local] Opaque payment.
Lemma created_payment_accepted_witness :
  ∃ t, Wallet_authorize payment.1 payment.2 = Ok t ∧ at_transaction t = payment.2
    ∧ validate_transaction synced_state t = Ok 10%Z.
Proof.
  refine (created_payment_accepted wallet3 payment.1 synced_state 10 payment.2 wallet3_wf wallet3_sync _
    (Created_payment wallet3 10 payment.1 payment.2 wallet_leaves StateToy.alice_addr 400 _ payment_ok));
    apply Z.leb_le; reflexivity.
Defined.
End WalletNodeToy.
