(* ===== verification/App.v ===== *)
(** The application ([src/app/app.rs]): the node, the wallet and the miner
    together.

    [mine] asks the mainchain to commit to a block, submits the block if it
    was committed to, and lets the wallet follow the node.  Every step is
    committed when it ends: when a later one fails, what the earlier ones did
    to the node, the wallet and the miner stays. *)
From S2P Require Import Prelude.
From S2P Require Import Effects.
From S2P Require Import Borsh.
From S2P Require Import Serde.
From S2P Require Import Externals.
From S2P Require Import Toy.
From S2P Require Import Types.
From S2P Require Import AccumulatorDiff.
From S2P Require Import Address.
From S2P Require Import WithdrawalBundle.
From S2P Require Import ShardTreeDb.
From S2P Require Import ShardTreeFacts.
From S2P Require Import State.
From S2P Require Import Block.
From S2P Require Import Lineage.
From S2P Require Import TwoWayPeg.
From S2P Require Import Archive.
From S2P Require Import ArchiveFacts.
From S2P Require Import MemPool.
From S2P Require Import MainchainTask.
From S2P Require Import Node.
From S2P Require Import NodeFacts.
From S2P Require Import NodeApi.
From S2P Require Import Wallet.
From S2P Require Import WalletFacts.
From S2P Require Import WalletToy.
From S2P Require Import WalletNode.
From S2P Require Import Proto.
From S2P Require Import ProtoFacts.
From S2P Require Import Miner.
From S2P Require Import NetTaskFacts.

Section app.
Context `{E : Externals} `{SE : !ShardTreeExternals} `{WE : !WalletExternals}.
Context `{HexCrate} `{ConsensusCrate} `{AddressCrates}.
Context (iter_set : gset BtcBlockHash → list BtcBlockHash).
Context (iter_bmm : gmap BtcBlockHash BmmResult → list (BtcBlockHash * BmmResult)).
Context (into_values : gmap MainAddress AggregatedWithdrawal → list AggregatedWithdrawal).
Context (work_add : Z → Z → Z).
(** The client of the mainchain task. *)
Context (get_block_infos : nat → BtcBlockHash → Z →
  Res ProtoError (option ((BlockHeaderInfo * BlockInfo) * list (BlockHeaderInfo * BlockInfo)))).
(** [bitcoin::consensus::serialize] of a transaction. *)
Context (serialize_transaction : BtcTransaction → list byte).

(** The variants of [app::Error]; those for node and wallet errors are
    [AppError]. *)
Inductive AppFailure :=
  | AppMainchain (e : ProtoError)
  | AppMiner (e : MinerError)
  | AppStores (e : AppError (ProtoError := ProtoError))
  | NoCusfMainchainWalletClient
  | RequestMainchainAncestorInfos (block_hash : BtcBlockHash).
Definition app_node_error (e : ApiError (ProtoError := ProtoError)) : AppFailure := AppStores (App_Node e).
Definition app_archive_error (e : ArchiveError) : AppFailure := AppStores (App_Archive e).
Definition app_wallet_error (e : WalletError) : AppFailure := AppStores (App_Wallet e).

Record App := mk_App {
  app_node : Node;
  app_wallet : Wallet;
  app_miner : option Miner
}.
Definition with_node (nd : Node) (a : App) : App := mk_App nd (app_wallet a) (app_miner a).
Definition with_wallet (w : Wallet) (a : App) : App := mk_App (app_node a) w (app_miner a).
Definition with_miner (m : Miner) (a : App) : App := mk_App (app_node a) (app_wallet a) (Some m).

(** [self.miner.as_ref()] and [miner.write()] *)
Definition the_miner : StR App AppFailure Miner := λ a, (a, ok_or (app_miner a) NoCusfMainchainWalletClient).
Definition on_miner {A} (m : StR Miner MinerError A) : StR App AppFailure A :=
  miner ← the_miner;
  let '(miner, r) := m miner in
  _ ← st_modify (with_miner miner);
  st_lift (map_err AppMiner r).
Definition on_node {A} (m : Node → Node * Res (ApiError (ProtoError := ProtoError)) A) : StR App AppFailure A :=
  st_map_err app_node_error (st_zoom app_node with_node m).
Definition on_archive {A} (f : Node → Res ArchiveError A) : StR App AppFailure A := λ a,
  (a, map_err app_archive_error (f (app_node a))).

(** [App::update] *)
Definition update : StR App AppFailure unit :=
  st_map_err AppStores (st_zoom (λ a, (app_node a, app_wallet a))
    (λ s a, mk_App s.1 s.2 (app_miner a)) App_update).

(** [App::task]: at each change of the node's state, an update of the wallet
    with the node at that time; the task ends when one fails. *)
Definition App_task (nodes : list Node) : StR Wallet (AppError (ProtoError := ProtoError)) unit :=
  st_for (λ node wallet, let '(s, r) := App_update (node, wallet) in (s.2, r)) nodes.

(** ** Mainchain addresses and deposits *)
Context (parse_main_address : list byte → option MainAddress).
(** The numbering of [generated::Network], and [Address::require_network]. *)
Context (network_try_from : Z → option GeneratedNetwork).
Context {CheckedAddress : Type} (require_network : MainAddress → BitcoinNetwork → option CheckedAddress).

Definition get_new_main_address : StR App AppFailure CheckedAddress :=
  miner ← the_miner;
  mainchain_info ← st_lift (map_err AppMainchain (get_chain_info (cusf_mainchain miner) network_try_from));
  address ← st_lift (map_err AppMainchain (create_new_address (cusf_mainchain_wallet miner) parse_main_address));
  st_lift (expect (require_network address (ci_network mainchain_info))).

Definition deposit (address : TransparentAddress) (amount fee : Amount) : StR App AppFailure Hash :=
  miner ← the_miner;
  st_lift (map_err AppMainchain (create_deposit_tx (cusf_mainchain_wallet miner) address amount fee)).

(** ** Mining *)
Section mine.
(** Bounds the requests of the mainchain task. *)
Context (fuel : nat).

(** The client that the node broadcasts withdrawal bundles with is a clone of
    the miner's. *)
Definition node_wallet (a : App) : option (BtcTransaction → Res (ApiError (ProtoError := ProtoError)) unit) :=
  (λ miner tx, map_err NdCusfMainchain
     (broadcast_withdrawal_bundle (cusf_mainchain_wallet miner) serialize_transaction tx)) <$> app_miner a.

Definition request_mainchain_ancestor_infos (block_hash : BtcBlockHash) (nd : Node) :
    Node * Res (ApiError (ProtoError := ProtoError)) bool :=
  let '(a, res) := request_ancestor_infos iter_bmm work_add get_block_infos fuel (nd_archive nd) block_hash in
  (with_archive nd a, map_err NdMainchainAncestors res).

(** The mainchain headers up to [prev_main_hash] are needed to compare. *)
Definition ensure_main_header (prev_main_hash : BtcBlockHash) : StR App AppFailure unit :=
  known ← st_get (λ a, bool_decide
    (is_Some (try_get_main_header_info (nd_archive (app_node a)) prev_main_hash)));
  if known : bool then mret tt
  else
    available ← on_node (request_mainchain_ancestor_infos prev_main_hash);
    if available : bool then mret tt
    else st_lift (Err (RequestMainchainAncestorInfos prev_main_hash)).

Definition choose_parent (prev_main_hash : BtcBlockHash) : StR App AppFailure (option BlockHash) :=
  tip_hash ← st_get (λ a, tip (nd_state (app_node a)));
  match tip_hash with
  | Some tip_hash =>
      _ ← on_archive (λ nd, get_header (nd_archive nd) tip_hash);
      _ ← ensure_main_header prev_main_hash;
      on_archive (λ nd, mining_parent nd prev_main_hash)
  | None => mret None
  end.

(** A coinbase output to a new address of the wallet, if there are fees. *)
Definition new_coinbase (tx_fees : Amount) : StR App AppFailure (list Output) := λ a,
  if bool_decide (tx_fees = 0%Z) then (a, Ok [])
  else
    match get_new_transparent_address (app_wallet a) with
    | Ok (w, address) => (with_wallet w a, Ok (mining_coinbase address tx_fees))
    | Err e => (a, Err (app_wallet_error e))
    | Panic => (a, Panic)
    end.

Definition mining_transactions (number : nat) (nd : Node) :
    Node * Res (ApiError (ProtoError := ProtoError)) (list AuthorizedTransaction * Amount) :=
  attempt nd (get_transactions nd number) (λ '(nd, txs, tx_fees), (nd, Ok (txs, tx_fees))).

Definition build_block (fee : option Amount) (prev_side_hash : option BlockHash) (prev_main_hash : BtcBlockHash) :
    StR App AppFailure (Amount * Header * Body) :=
  tip_hash ← st_get (λ a, tip (nd_state (app_node a)));
  if bool_decide (prev_side_hash = tip_hash) then
    '(txs, tx_fees) ← on_node (mining_transactions NUM_TRANSACTIONS);
    coinbase ← new_coinbase tx_fees;
    '(header, body) ← on_node (λ nd, (nd, coinbase_template nd txs coinbase prev_main_hash));
    mret (bribe_of fee tx_fees, header, body)
  else
    '(header, body) ← on_node (λ nd, (nd, empty_template nd prev_side_hash prev_main_hash));
    mret (EMPTY_BLOCK_BMM_BRIBE, header, body).

(** Submit the block that the mainchain committed to. *)
Definition submit_confirmed (confirmed : option (BtcBlockHash * Header * Body)) : StR App AppFailure unit :=
  match confirmed with
  | Some (main_hash, header, body) => λ a,
      (_ ← on_node (λ nd, submit_block iter_set iter_bmm into_values work_add get_block_infos (node_wallet a)
                            fuel nd main_hash header body);
       mret tt) a
  | None => mret tt
  end.

(** [App::mine] *)
Definition mine (fee : option Amount) : StR App AppFailure unit :=
  miner ← the_miner;
  tip_info ← st_lift (map_err AppMainchain (get_chain_tip (cusf_mainchain miner)));
  let prev_main_hash := hi_block_hash tip_info in
  prev_side_hash ← choose_parent prev_main_hash;
  '(bribe, header, body) ← build_block fee prev_side_hash prev_main_hash;
  _ ← on_miner (attempt_bmm bribe 0 header body);
  confirmed ← on_miner confirm_bmm;
  _ ← submit_confirmed confirmed;
  update.

End mine.

(** ** The calls on the node *)
Abbreviation submit := (submit_block iter_set iter_bmm into_values work_add get_block_infos).
Implicit Types (a : App) (nd : Node).

Lemma store_info_accumulators (ar : Archive) i ar' :
  store_info iter_bmm work_add ar i = Ok ar' → accumulators ar' = accumulators ar.
Proof.
  destruct i as [hi bi]. unfold store_info. intros (a1 & Ha1 & Ha')%bind_Ok.
  apply put_main_header_info_Ok in Ha1 as (hp & w & succ & exp & _ & _ & _ & ->).
  revert Ha'. unfold put_main_block_info. intros (h & _ & Ha')%bind_Ok.
  apply bind_Ok in Ha' as ([] & _ & Ha').
  destruct (bmm_commitment bi); [|by injection Ha' as <-].
  destruct (try_get_header _ _); [|by injection Ha' as <-].
  by apply bind_Ok in Ha' as (r & _ & [= <-]).
Qed.
Lemma request_accumulators fuel ar b :
  accumulators (request_ancestor_infos iter_bmm work_add get_block_infos fuel ar b).1 = accumulators ar.
Proof.
  unfold request_ancestor_infos. repeat case_match; try done. simpl.
  eapply (foldR_keep (λ x, accumulators x = accumulators ar)); [|done|eassumption].
  intros x i x' _ Hx Hs%store_info_accumulators. congruence.
Qed.
Lemma put_header_accumulators (ar : Archive) h ar' :
  put_header iter_set iter_bmm ar h = Ok ar' → accumulators ar' = accumulators ar.
Proof. by intros (? & ? & ? & ? & ? & _ & _ & _ & _ & ->)%put_header_Ok. Qed.

(** The node afterwards, for each answer; [Ok true]: the block is the tip. *)
Definition answered nd (block_hash : BlockHash) (o : Node * Res (ApiError (ProtoError := ProtoError)) bool) : Prop :=
  match o.2 with
  | Ok true => tip (nd_state o.1) = Some block_hash
  | Ok false => nd_state o.1 = nd_state nd
  | _ => True
  end
  ∧ (node_ok nd → node_ok o.1).

Lemma submit_tip_answered nd broadcast new_tip :
  answered nd (tip_block_hash new_tip) (submit_tip iter_set iter_bmm into_values nd broadcast new_tip).
Proof.
  unfold submit_tip, answered. destruct (reorg_to_tip _ _ _ nd new_tip) as [nd' r] eqn:Hr.
  pose proof (reorg_results _ _ _ _ _ _ _ Hr) as [Ht Hf].
  pose proof (λ Hok, reorg_ok _ _ _ _ _ _ _ Hok Hr) as Hok. unfold attempt.
  destruct r as [[]|e|]; simpl; [|by destruct (Hf eq_refl) as [-> _]|done..].
  unfold broadcast_pending. destruct (map_err NdState _) as [[[b h]|]|e|]; simpl; [|by auto..].
  destruct (broadcast _) as [[]| |]; simpl; by auto.
Qed.

Lemma answered_trans nd nd' b o :
  nd_state nd' = nd_state nd → (node_ok nd → node_ok nd') → answered nd' b o → answered nd b o.
Proof. unfold answered. intros <- Hok [Ho Hok']. split; [done|]. by auto. Qed.
Lemma answered_same nd b (r : Res ApiError bool) : r ≠ Ok true → answered nd b (nd, r).
Proof. intros Hr. split; [|done]. by destruct r as [[]| |]. Qed.
Lemma with_archive_ok nd ar : accumulators ar = accumulators (nd_archive nd) → node_ok nd → node_ok (with_archive nd ar).
Proof. intros. by apply same_accumulators. Qed.

Lemma submit_body_answered nd broadcast main_hash b body :
  answered nd b (submit_body iter_set iter_bmm into_values nd broadcast main_hash b body).
Proof.
  unfold submit_body, attempt. destruct (map_err _ (get_bmm_result _ _ _)) as [bmm| |]; [|by apply answered_same..].
  case_bool_decide; [by apply answered_same|].
  destruct (map_err _ (bodies_ready _ _)) as [[[]|]| |]; [| |by apply answered_same..].
  - destruct (put_body (nd_archive nd) b body) as [ar| |] eqn:Hput; [|by apply answered_same..]. cbn [map_err].
    apply (answered_trans nd (with_archive nd ar)); [done| |apply (submit_tip_answered _ _ (mk_Tip b main_hash))].
    apply with_archive_ok. by eapply put_body_accumulators.
  - apply (submit_tip_answered _ _ (mk_Tip b main_hash)).
Qed.

Lemma submit_block_answered fuel wallet nd main_hash header body :
  answered nd (Header_hash header) (submit wallet fuel nd main_hash header body).
Proof.
  unfold submit_block. destruct wallet as [broadcast|]; [|by apply answered_same]. cbv zeta.
  destruct (match prev_side_hash header with Some _ => _ | None => _ end); [by apply answered_same|].
  pose proof (request_accumulators fuel (nd_archive nd) main_hash) as Hacc.
  destruct (request_ancestor_infos _ _ _ _ _ _) as [ar res]. simpl in Hacc.
  apply (answered_trans nd (with_archive nd ar)); [done|by apply with_archive_ok|].
  destruct res as [[]| |]; cbn [attempt map_err negb]; [|by apply answered_same..].
  destruct (put_header _ _ _ header) as [ar'| |] eqn:Hput; cbn [attempt map_err]; [|by apply answered_same..].
  eapply answered_trans; [| |apply submit_body_answered]; [done|].
  apply with_archive_ok. by apply put_header_accumulators in Hput.
Qed.

Lemma request_main_ok fuel b nd :
  nd_state (request_mainchain_ancestor_infos fuel b nd).1 = nd_state nd
  ∧ (node_ok nd → node_ok (request_mainchain_ancestor_infos fuel b nd).1).
Proof.
  unfold request_mainchain_ancestor_infos. pose proof (request_accumulators fuel (nd_archive nd) b) as Hacc.
  destruct (request_ancestor_infos _ _ _ _ _ _) as [ar res]. split; [done|]. by apply with_archive_ok.
Qed.

Lemma template_step_mempool s acc t acc' :
  mempool_ok (te_mempool acc) → template_step (ProtoError := ProtoError) s acc t = Ok acc' → mempool_ok (te_mempool acc').
Proof.
  intros Hok. unfold template_step. cbv zeta.
  destruct (mempool_delete_ok (te_mempool acc) (txid (at_transaction t)) Hok) as (m' & -> & Hm' & _).
  cbn [map_err]. destruct (negb _); [by intros [= <-]|].
  destruct (validate_transaction s t); [|by intros [= <-]|done].
  intros (ft & _ & Hr)%bind_Ok. apply bind_Ok in Hr as (fee & _ & Hr). by apply bind_Ok in Hr as (f & _ & [= <-]).
Qed.
Lemma mining_transactions_ok number nd :
  nd_state (mining_transactions number nd).1 = nd_state nd
  ∧ (node_ok nd → node_ok (mining_transactions number nd).1).
Proof.
  unfold mining_transactions, attempt, get_transactions.
  destruct (foldR _ _ _) as [acc| |] eqn:Hf; simpl; [|done..]. split; [done|].
  intros [Hm Hh Ha]. split; [|done..]. simpl.
  apply (foldR_keep (λ x, mempool_ok (te_mempool x))) in Hf; [done| |done].
  intros x t x' _. apply template_step_mempool.
Qed.

(** ** The steps before the submission

    They leave the state of the node and the services of the miner alone. *)
Definition services a : option (ValidatorService * WalletService) :=
  (λ m, (cusf_mainchain m, cusf_mainchain_wallet m)) <$> app_miner a.
Definition quiet a a' : Prop :=
  nd_state (app_node a') = nd_state (app_node a) ∧ services a' = services a
  ∧ (node_ok (app_node a) → node_ok (app_node a')).

Lemma quiet_refl a : quiet a a.
Proof. done. Qed.
Lemma on_node_quiet {A} a0 (f : Node → Node * Res (ApiError (ProtoError := ProtoError)) A) :
  (∀ nd, nd_state (f nd).1 = nd_state nd ∧ (node_ok nd → node_ok (f nd).1)) → keeps (quiet a0) (on_node f).
Proof.
  intros Hf a (Hs & Hm & Hok). unfold on_node, st_map_err, st_zoom.
  destruct (Hf (app_node a)) as [Hs' Hok']. destruct (f (app_node a)) as [nd r]. simpl in *.
  unfold quiet, services. simpl. split_and!; [by rewrite Hs'|done|by auto].
Qed.
Lemma on_archive_quiet {A} a0 (f : Node → Res ArchiveError A) : keeps (quiet a0) (on_archive f).
Proof. by intros a Ha. Qed.
Lemma the_miner_quiet a0 : keeps (quiet a0) the_miner.
Proof. by intros a Ha. Qed.
Lemma on_miner_quiet {A} a0 (m : StR Miner MinerError A) :
  (∀ x, (cusf_mainchain (m x).1, cusf_mainchain_wallet (m x).1) = (cusf_mainchain x, cusf_mainchain_wallet x)) →
  keeps (quiet a0) (on_miner m).
Proof.
  intros Hm a (Hs & Hsv & Hok). unfold on_miner, the_miner, mbind, str_bind.
  destruct (app_miner a) as [x|] eqn:Hx; simpl; [|done]. specialize (Hm x). destruct (m x) as [x' r].
  split_and!; [done| |done]. rewrite <- Hsv. unfold services. simpl. rewrite Hx. simpl in *. congruence.
Qed.
Lemma new_coinbase_quiet a0 fees : keeps (quiet a0) (new_coinbase fees).
Proof. intros a Ha. unfold new_coinbase. repeat case_match; by simplify_eq/=. Qed.
#[local] Hint Resolve on_archive_quiet the_miner_quiet new_coinbase_quiet : keeps.

Lemma choose_parent_quiet a0 fuel b : keeps (quiet a0) (choose_parent fuel b).
Proof.
  unfold choose_parent. apply keeps_bind; [apply keeps_get|]. intros [t|]; [|apply keeps_ret].
  apply keeps_bind; [apply on_archive_quiet|intros _]. apply keeps_bind; [|intros _; apply on_archive_quiet].
  unfold ensure_main_header. apply keeps_bind; [apply keeps_get|]. intros []; [apply keeps_ret|].
  apply keeps_bind; [|intros []; solve_keeps]. apply on_node_quiet. apply request_main_ok.
Qed.
Lemma build_block_quiet a0 fee b m : keeps (quiet a0) (build_block fee b m).
Proof.
  unfold build_block. apply keeps_bind; [apply keeps_get|]. intros t. case_bool_decide.
  - apply keeps_bind; [by apply on_node_quiet, mining_transactions_ok|]. intros [txs fees].
    apply keeps_bind; [apply new_coinbase_quiet|]. intros cb.
    apply keeps_bind; [by apply on_node_quiet|]. intros []. apply keeps_ret.
  - apply keeps_bind; [by apply on_node_quiet|]. intros []. apply keeps_ret.
Qed.
Lemma attempt_bmm_services amount height header body x :
  let x' := (attempt_bmm amount height header body x).1 in
  (cusf_mainchain x', cusf_mainchain_wallet x') = (cusf_mainchain x, cusf_mainchain_wallet x).
Proof.
  cbv zeta. unfold attempt_bmm. cbv zeta. unfold mbind, str_bind, proto, st_lift.
  destruct (map_err _ _); [|done..]. by destruct (assert_true _).
Qed.
Lemma confirm_bmm_services x :
  (cusf_mainchain (confirm_bmm x).1, cusf_mainchain_wallet (confirm_bmm x).1)
  = (cusf_mainchain x, cusf_mainchain_wallet x).
Proof. destruct (confirm_bmm x) as [x' r] eqn:Hx. by destruct (confirm_bmm_block _ _ _ Hx) as [->| ->]. Qed.

Lemma on_node_Ok {A} (f : Node → Node * Res (ApiError (ProtoError := ProtoError)) A) a a' x :
  on_node f a = (a', Ok x) → f (app_node a) = (app_node a', Ok x).
Proof.
  unfold on_node, st_map_err, st_zoom. destruct (f (app_node a)) as [nd r]. intros [= <- Hr].
  by apply map_err_Ok in Hr as ->.
Qed.
Lemma on_miner_Ok {A} (m : StR Miner MinerError A) a a' x :
  on_miner m a = (a', Ok x) →
  ∃ y y', app_miner a = Some y ∧ m y = (y', Ok x) ∧ a' = with_miner y' a.
Proof.
  unfold on_miner, the_miner, mbind, str_bind. destruct (app_miner a) as [y|]; [|done]. simpl.
  destruct (m y) as [y' r] eqn:Hy. unfold st_lift. simpl. intros [= <- Hr].
  apply map_err_Ok in Hr as ->. by exists y, y'.
Qed.

Lemma build_block_Ok fee b m a a' bribe header body :
  build_block fee b m a = (a', Ok (bribe, header, body)) → prev_main_hash header = m ∧ prev_side_hash header = b.
Proof.
  unfold build_block. rewrite st_get_bind. case_bool_decide as Hb.
  - intros [([txs fees] & a1 & Hx1 & Hr)|[_ Hr]]%st_bind_inv; [|by edestruct Hr].
    pose proof (on_node_quiet a _ (mining_transactions_ok NUM_TRANSACTIONS) a (quiet_refl a)) as Hq1.
    rewrite Hx1 in Hq1. apply st_bind_inv in Hr as [(cb & a2 & Hx2 & Hr)|[_ Hr]]; [|by edestruct Hr].
    pose proof (new_coinbase_quiet a fees a1 Hq1) as (Hs & _). rewrite Hx2 in Hs. simpl in Hs.
    apply st_bind_inv in Hr as [([h bd] & a3 & Hx3%on_node_Ok & [= _ _ <- _])|[_ Hr]]; [|by edestruct Hr].
    injection Hx3 as _ Hx3. unfold coinbase_template in Hx3.
    apply bind_Ok in Hx3 as (acc & _ & Hx3). apply bind_Ok in Hx3 as (f & _ & [= <- _]). simpl.
    by rewrite Hs.
  - intros [([h bd] & a1 & Hx1%on_node_Ok & [= _ _ <- _])|[_ Hr]]%st_bind_inv; [|by edestruct Hr].
    injection Hx1 as _ Hx1. unfold empty_template in Hx1. by apply bind_Ok in Hx1 as (acc & _ & [= <- _]).
Qed.

Lemma attempt_bmm_Ok amount height header body x x' txid :
  attempt_bmm amount height header body x = (x', Ok txid) →
  miner_block x' = Some (header, body) ∧ merkle_root header = compute_merkle_root body.
Proof.
  unfold attempt_bmm. cbv zeta. intros [(t & x1 & Hx1 & Hr)|[_ Hr]]%st_bind_inv; [|by edestruct Hr].
  apply st_bind_inv in Hr as [([] & x2 & Hx2 & Hr)|[_ Hr]]; [|by edestruct Hr].
  injection Hx2 as _ Hx2. unfold assert_true in Hx2. case_bool_decide; [|done].
  by injection Hr as <- _.
Qed.

(** The update changes the wallet only. *)
Lemma update_node a : app_node (update a).1 = app_node a.
Proof. unfold update, st_map_err, st_zoom, App_update. simpl. by destruct (update_wallet _ _). Qed.
Lemma update_Ok a a' : update a = (a', Ok tt) →
  update_wallet (ProtoError := ProtoError) (app_node a') (app_wallet a) = Ok (app_wallet a').
Proof.
  unfold update, st_map_err, st_zoom, App_update. simpl. destruct (update_wallet _ _) eqn:Hw; [|done..].
  by intros [= <-].
Qed.

(** What a submission leaves. *)
Lemma submit_confirmed_answered fuel a main_hash header body a' r :
  submit_confirmed fuel (Some (main_hash, header, body)) a = (a', r) →
  (node_ok (app_node a) → node_ok (app_node a'))
  ∧ (r = Ok tt → nd_state (app_node a') = nd_state (app_node a)
       ∨ tip (nd_state (app_node a')) = Some (Header_hash header)).
Proof.
  unfold submit_confirmed, mbind, str_bind, on_node, st_map_err, st_zoom.
  pose proof (submit_block_answered fuel (node_wallet a) (app_node a) main_hash header body) as [Ht Hok].
  destruct (submit_block _ _ _ _ _ _ _ _ _ _ _) as [nd res]. simpl in Ht, Hok.
  destruct res as [[]| |]; simpl; intros [= <- <-]; (split; [done|]); intros [=]; simpl; auto.
Qed.

Lemma quiet_bind {A B} a0 (m : StR App AppFailure A) (f : A → StR App AppFailure B) a a' r :
  keeps (quiet a0) m → quiet a0 a → (m ≫= f) a = (a', r) →
  (∃ x a1, m a = (a1, Ok x) ∧ quiet a0 a1 ∧ f x a1 = (a', r)) ∨ (quiet a0 a' ∧ ∀ b, r ≠ Ok b).
Proof.
  intros Hm Ha. specialize (Hm a Ha).
  intros [(x & a1 & Hx & Hf)|[<- Hr]]%st_bind_inv; [left|by right]. rewrite Hx in Hm. by exists x, a1.
Qed.

(** The block that is submitted. *)
Definition asked_for a (main_hash : BtcBlockHash) (header : Header) (body : Body) : Prop :=
  ∃ miner tip_info, app_miner a = Some miner ∧ get_chain_tip (cusf_mainchain miner) = Ok tip_info
    ∧ prev_main_hash header = hi_block_hash tip_info ∧ merkle_root header = compute_merkle_root body
    ∧ committed (cusf_mainchain miner) main_hash (Header_hash header).

(** A run either ends before the submission, or comes to it with a block that
    was committed to. *)
Lemma mine_inv fuel fee a a' r :
  mine fuel fee a = (a', r) →
  (quiet a a' ∧ r ≠ Ok tt)
  ∨ ∃ confirmed a1, quiet a a1
      ∧ (∀ main_hash header body, confirmed = Some (main_hash, header, body) → asked_for a main_hash header body)
      ∧ (submit_confirmed fuel confirmed ≫= (λ _, update)) a1 = (a', r).
Proof.
  unfold mine.
  intros [(miner & a1 & Hm & Hq & Hr)|[Hq Hr]]%(quiet_bind a); [|by left|solve_keeps|done].
  injection Hm as <- Hm%ok_or_Ok.
  apply (quiet_bind a) in Hr as [(tip_info & a2 & Htip & Hq2 & Hr)|[Hq2 Hr]]; [|by left|apply keeps_lift|done].
  injection Htip as <- Htip%map_err_Ok.
  apply (quiet_bind a) in Hr as [(side & a2 & _ & Hq2' & Hr)|[Hq2' Hr]];
    [|by left|apply choose_parent_quiet|done].
  apply (quiet_bind a) in Hr as [([[bribe header] body] & a3 & Hb & Hq3 & Hr)|[Hq3 Hr]];
    [|by left|apply build_block_quiet|done].
  apply build_block_Ok in Hb as [Hmain _].
  apply (quiet_bind a) in Hr as [(txid & a4 & Hat & Hq4 & Hr)|[Hq4 Hr]];
    [|by left|by apply on_miner_quiet; intros; apply attempt_bmm_services|done].
  apply on_miner_Ok in Hat as (y & y1 & _ & Hat%attempt_bmm_Ok & ->). destruct Hat as [Hy1 Hroot].
  apply (quiet_bind a) in Hr as [(confirmed & a5 & Hc & Hq5 & Hr)|[Hq5 Hr]];
    [|by left|by apply on_miner_quiet; intros; apply confirm_bmm_services|done].
  right. exists confirmed, a5. split_and!; [done| |done]. intros main_hash h b ->.
  apply on_miner_Ok in Hc as (z & z' & [= <-] & Hc & ->).
  apply confirm_bmm_Ok in Hc as [_ Hc]. destruct (Hc _ _ _ eq_refl) as [Hz Hcommit].
  rewrite Hy1 in Hz. injection Hz as <- <-. exists miner, tip_info. split_and!; try done.
  destruct Hq4 as (_ & Hsv & _). unfold services in Hsv. rewrite Hm in Hsv. simpl in Hsv. by injection Hsv as <- _.
Qed.

(** C14: The node's tip follows the mainchain's commitments: a run of [mine],
    however it ends, changes the state of the node only if the block that the
    mainchain node reports next has the commitment to a block that was built for
    the mainchain tip reported first, with the merkle root of its body; when it
    succeeds, that block is the tip of the node, or the state is as before, and
    the wallet was updated with the node as it is now. *)
Theorem mine_follows_commitments (fuel : nat) (fee : option Amount) (a a' : App) (r : Res AppFailure unit)
    (Hrun : mine fuel fee a = (a', r)) :
  (nd_state (app_node a') = nd_state (app_node a)
   ∨ ∃ main_hash header body, asked_for a main_hash header body
       ∧ (r = Ok tt → tip (nd_state (app_node a')) = Some (Header_hash header)))
  ∧ (r = Ok tt → ∃ w, update_wallet (ProtoError := ProtoError) (app_node a') w = Ok (app_wallet a')).
Proof.
  apply mine_inv in Hrun as [[(Hs & _) Hr]|(confirmed & a1 & (Hs & _) & Hc & Hrun)]; [by split; [left|]|].
  assert (∀ a2, update a2 = (a', r) → r = Ok tt →
    ∃ w, update_wallet (ProtoError := ProtoError) (app_node a') w = Ok (app_wallet a')) as Hw.
  { intros a2 Hu ->. exists (app_wallet a2). by apply update_Ok. }
  destruct confirmed as [[[main_hash header] body]|]; cycle 1.
  - change (update a1 = (a', r)) in Hrun. split; [left|by eapply Hw]. by rewrite <- Hs, <- (update_node a1), Hrun.
  - apply st_bind_inv in Hrun as [([] & a2 & Hsub & Hrun)|[Hsub Hr]].
    + apply submit_confirmed_answered in Hsub as [_ Hsub]. pose proof (update_node a2) as Hn.
      rewrite Hrun in Hn. simpl in Hn. split; [|by eapply Hw]. rewrite Hn.
      destruct (Hsub eq_refl) as [->|Ht]; [by left|]. right. exists main_hash, header, body. split; [by apply Hc|done].
    + split; [right|by intros ->; edestruct Hr]. exists main_hash, header, body.
      split; [by apply Hc|by intros ->; edestruct Hr].
Qed.

(** Mining keeps the node consistent: state, archive and memory pool
    stay consistent through a run of [mine], in whatever step it ends. *)
Theorem mine_keeps_node_consistent (fuel : nat) (fee : option Amount) (a : App) (Hok : node_ok (app_node a)) :
  node_ok (app_node (mine fuel fee a).1).
Proof.
  destruct (mine fuel fee a) as [a' r] eqn:Hrun. simpl.
  apply mine_inv in Hrun as [[(_ & _ & Hq) _]|(confirmed & a1 & (_ & _ & Hq) & _ & Hrun)]; [by apply Hq|].
  unfold mbind, str_bind in Hrun. destruct (submit_confirmed fuel confirmed a1) as [a2 r2] eqn:Hsub.
  assert (node_ok (app_node a2)) as Hok2.
  { destruct confirmed as [[[main_hash header] body]|]; [|injection Hsub as <- _; by apply Hq].
    apply submit_confirmed_answered in Hsub as [Hs _]. by apply Hs, Hq. }
  destruct r2 as [[]| |]; [|by injection Hrun as <- _..].
  by rewrite <- (update_node a2), Hrun in Hok2.
Qed.
End app.

(** ** Witnesses: the first block of the sidechain *)
Module AppToy.
#[local] Existing Instances Toy.externals ShardTreeToy.shard_externals WalletToy.wallet_externals
  AddressToy.hex AddressToy.hex_laws AddressToy.crates AddressToy.laws ProtoToy.consensus ProtoToy.consensus_laws.
Import ArchiveToy.
Import NodeToy.

(** The mainchain has one block; the next one commits to [block0]. *)
Definition next_info : BlockHeaderInfo * BlockInfo :=
  (main_header 2, mk_BlockInfo (Some (Header_hash block0)) []).
Definition validator : ValidatorService := {|
  rpc_get_block_header_info _ := Ok [];
  rpc_get_block_info _ := Ok [];
  rpc_get_bmm_h_star_commitment _ := Ok None;
  rpc_get_chain_info := Ok 0%Z;
  rpc_get_chain_tip := Ok (Some (enc_header_info ProtoToy.form (main_header 1)));
  rpc_get_two_way_peg_data _ := Ok [];
  rpc_subscribe_events _ :=
    let i := enc_info ProtoToy.form next_info in
    Ok [Ok (Some (Some (G_ConnectBlock (gi_header_info i) (gi_block_info i))))]
|}.
Definition main_wallet : WalletService := {|
  rpc_broadcast_withdrawal_bundle _ := Ok tt;
  rpc_create_bmm_critical_data_transaction _ := Ok (Some (enc_hash ProtoToy.form "txid" (mh 9)));
  rpc_create_deposit_transaction _ := Ok None;
  rpc_create_new_address := Ok [];
  rpc_generate_blocks _ := []
|}.
Definition client (n : nat) (b : BtcBlockHash) (max_ancestors : Z) :
    Res ProtoError (option ((BlockHeaderInfo * BlockInfo) * list (BlockHeaderInfo * BlockInfo))) :=
  Ok (match list_find (λ x, info_hash x = b) [next_info; MainchainTaskToy.toy_info 1] with
      | Some (_, x) => Some (x, [])
      | None => None
      end).
Definition app : App :=
  mk_App (mk_Node MainchainTaskToy.opened MemPool_empty_dbs genesis) WalletToy.wallet1
    (Some (Miner_new validator main_wallet)).
Definition mine_toy := mine set_order map_order values_of Z.add client (λ _, []) 3 None.
Lemma mine_toy_pair : mine_toy app = ((mine_toy app).1, (mine_toy app).2).
Proof. by destruct (mine_toy app). Qed.
Definition succeeds {A} (r : Res AppFailure A) : bool := match r with Ok _ => true | _ => false end.
Example mine_toy_succeeds : succeeds (mine_toy app).2 = true.
Proof. vm_compute. reflexivity. Qed.
Example mine_toy_tip : tip (nd_state (app_node (mine_toy app).1)) = Some (Header_hash block0).
Proof. apply (bool_decide_unpack _). vm_compute. exact I. Qed.

Lemma mine_follows_commitments_witness :
  nd_state (app_node (mine_toy app).1) = nd_state (app_node app)
  ∨ ∃ main_hash header body, asked_for app main_hash header body
      ∧ ((mine_toy app).2 = Ok tt → tip (nd_state (app_node (mine_toy app).1)) = Some (Header_hash header)).
Proof.
  exact (proj1 (mine_follows_commitments set_order map_order values_of Z.add client (λ _, []) 3 None app
    (mine_toy app).1 (mine_toy app).2 mine_toy_pair)).
Defined.

Lemma app_node_ok : node_ok (app_node app).
Proof.
  split; [apply mempool_empty_ok| |apply same_acc_ok; vm_compute; reflexivity].
  apply (bool_decide_unpack _). vm_compute. exact I.
Qed.
Lemma mine_keeps_node_consistent_witness : node_ok (app_node (mine_toy app).1).
Proof.
  exact (mine_keeps_node_consistent set_order map_order values_of Z.add client (λ _, []) 3 None app app_node_ok).
Defined.
End AppToy.
