(* ===== verification/Rpc.v ===== *)
(** The RPC server ([src/app/rpc_server.rs]): its handlers as calls on the
    application and the network.

    An error of any part is answered as [custom_err] of it.  The answers to
    [get_*] calls are computed from one reading of the stores; the five payment
    calls share [pay]. *)
From S2P Require Import Prelude.
From S2P Require Import Effects.
From S2P Require Import Borsh.
From S2P Require Import Serde.
From S2P Require Import Externals.
From S2P Require Import Toy.
From S2P Require Import Types.
From S2P Require Import AccumulatorDiff.
From S2P Require Import Address.
From S2P Require Import WithdrawalBundle.
From S2P Require Import TwoWayPeg.
From S2P Require Import ShardTreeDb.
From S2P Require Import ShardTreeFacts.
From S2P Require Import State.
From S2P Require Import Block.
From S2P Require Import Archive.
From S2P Require Import MemPool.
From S2P Require Import MainchainTask.
From S2P Require Import Node.
From S2P Require Import NodeFacts.
From S2P Require Import NodeApi.
From S2P Require Import Keys.
From S2P Require Import Wallet.
From S2P Require Import WalletToy.
From S2P Require Import WalletNode.
From S2P Require Import WalletNodeToy.
From S2P Require Import Proto.
From S2P Require Import ProtoFacts.
From S2P Require Import Miner.
From S2P Require Import Net.
From S2P Require Import App.

Section rpc.
Context `{E : Externals} `{SE : !ShardTreeExternals} `{WE : !WalletExternals}.
Context `{HexCrate} `{ConsensusCrate} `{AddressCrates}.
Context (iter_set : gset BtcBlockHash → list BtcBlockHash).
Context (iter_bmm : gmap BtcBlockHash BmmResult → list (BtcBlockHash * BmmResult)).
Context (into_values : gmap MainAddress AggregatedWithdrawal → list AggregatedWithdrawal).
Context (work_add : Z → Z → Z).
Context (get_block_infos : nat → BtcBlockHash → Z →
  Res ProtoError (option ((BlockHeaderInfo * BlockInfo) * list (BlockHeaderInfo * BlockInfo)))).
Context (serialize_transaction : BtcTransaction → list byte).
(** [Endpoint::connect] of quinn. *)
Context {ConnectError : Type} (quinn_connect : SocketAddr → option ConnectError).
(** [ShieldedAddress] of the wallet's addresses. *)
Context (shielded : OrchardAddress → ShieldedAddress).
(** [bip39]: the text of a mnemonic, the parser and the seed. *)
Context {Mnemonic : Type} (mnemonic_text : Mnemonic → list byte).
Context (from_phrase : list byte → option Mnemonic) (seed_of : Mnemonic → list byte).
(** Bounds the requests of the mainchain task. *)
Context (fuel : nat).

(** What [custom_err] is applied to. *)
Inductive RpcFailure :=
  | RpcApp (e : AppFailure)
  | RpcNet (e : NetError (ConnectError := ConnectError))
  | RpcMnemonic
  | RpcSeedLength.
(** [ErrorObject::owned(-1, ..)]; the message spells the error out. *)
Record ErrorObject := mk_ErrorObject { error_code : Z; error_of : RpcFailure }.
Definition custom_err (e : RpcFailure) : ErrorObject := mk_ErrorObject (-1) e.

Record RpcServerImpl := mk_RpcServerImpl { rpc_app : App; rpc_net : Net }.
Definition RpcResult (A : Type) : Type := StR RpcServerImpl ErrorObject A.

(** Calls on the application, and readings of its stores; [rpc_net] is the
    network of the application's node. *)
Definition in_app {A} (m : StR App AppFailure A) : StR RpcServerImpl AppFailure A :=
  st_zoom rpc_app (λ a r, mk_RpcServerImpl a (rpc_net r)) m.
Definition answered_by {A} (m : StR RpcServerImpl AppFailure A) : RpcResult A :=
  st_map_err (λ e, custom_err (RpcApp e)) m.
Definition on_app {A} (m : StR App AppFailure A) : RpcResult A := answered_by (in_app m).
Definition ask_node {A} (f : Node → Res (ApiError (ProtoError := ProtoError)) A) : RpcResult A :=
  on_app (λ a, (a, map_err app_node_error (f (app_node a)))).
Definition ask_wallet {A} (f : Wallet → Res WalletError A) : RpcResult A :=
  on_app (λ a, (a, map_err app_wallet_error (f (app_wallet a)))).
(** A wallet transaction, committed if it succeeds. *)
Definition write_wallet {A} (f : Wallet → Res WalletError (Wallet * A)) : StR App AppFailure A := λ a,
  match f (app_wallet a) with
  | Ok (w, x) => (with_wallet w a, Ok x)
  | Err e => (a, Err (app_wallet_error e))
  | Panic => (a, Panic)
  end.

(** ** Blocks and the chain *)
Definition rpc_get_block (block_hash : BlockHash) : RpcResult (option (Header * Body)) :=
  ask_node (λ nd,
    match try_get_header (nd_archive nd) block_hash with
    | None => Ok None
    | Some header => body ← map_err NdArchive (get_body (nd_archive nd) block_hash); Ok (Some (header, body))
    end).
Definition get_best_sidechain_block_hash : RpcResult (option BlockHash) :=
  ask_node (λ nd, Ok (tip (nd_state nd))).
Definition get_best_mainchain_block_hash : RpcResult (option BtcBlockHash) :=
  ask_node (λ nd,
    match tip (nd_state nd) with
    | None => Ok None
    | Some sidechain_hash =>
        block_hash ← map_err NdArchive (get_best_main_verification iter_bmm (nd_archive nd) sidechain_hash);
        Ok (Some block_hash)
    end).
Definition rpc_get_bmm_inclusions (block_hash : BlockHash) : RpcResult (list BtcBlockHash) :=
  ask_node (λ nd, Ok (get_bmm_inclusions iter_bmm nd block_hash)).
Definition rpc_get_transaction (txid : Txid) : RpcResult (option (Transaction * option BlockHash)) :=
  ask_node (λ nd, try_get_transaction nd txid).
Definition getblockcount : RpcResult Z :=
  ask_node (λ nd, Ok match State.height (nd_state nd) with Some height => wrap32 (height + 1) | None => 0%Z end).
Definition latest_failed_withdrawal_bundle_height : RpcResult (option Z) :=
  ask_node (λ nd, res ← map_err NdState (get_latest_failed_withdrawal_bundle (nd_state nd)); Ok (option_map fst res)).
Definition rpc_pending_withdrawal_bundle : RpcResult (option WithdrawalBundle) :=
  ask_node (λ nd, res ← map_err NdState (try_get_pending_withdrawal_bundle (nd_state nd)); Ok (option_map fst res)).
Definition list_utxos : RpcResult (list PointedOutput) :=
  ask_node (λ nd, utxos ← map_err NdState (get_utxos (nd_state nd));
    Ok (map (λ u, mk_PointedOutput u.1 u.2) utxos)).
Definition sidechain_wealth_sats : RpcResult Amount :=
  ask_node (λ nd, map_err NdState (sidechain_wealth (nd_state nd))).
Definition rpc_remove_from_mempool (txid : Txid) : RpcResult unit :=
  on_app (on_node (λ nd,
    match remove_from_mempool nd txid with
    | Ok nd' => (nd', Ok tt) | Err e => (nd, Err e) | Panic => (nd, Panic)
    end)).

(** ** Peers *)
Definition rpc_connect_peer (addr : SocketAddr) : RpcResult unit :=
  st_map_err (λ e, custom_err (RpcNet e))
    (st_zoom rpc_net (λ n r, mk_RpcServerImpl (rpc_app r) n) (λ n, connect_peer quinn_connect n addr)).
Definition rpc_forget_peer (addr : SocketAddr) : RpcResult unit :=
  st_modify (λ r, mk_RpcServerImpl (rpc_app r) (forget_peer (rpc_net r) addr).1).
Definition list_peers : RpcResult (list (SocketAddr * PeerConnectionStatus)) :=
  st_get (λ r, get_active_peers (rpc_net r)).

(** ** The wallet *)
Definition balance : RpcResult Balance := ask_wallet get_balance.
Definition get_new_shielded_address : RpcResult OrchardAddress := on_app (write_wallet get_new_orchard_address).
Definition rpc_get_new_transparent_address : RpcResult TransparentAddress :=
  on_app (write_wallet get_new_transparent_address).
Definition format_deposit_address (address : TransparentAddress) : RpcResult (list byte) :=
  mret (format_for_deposit address).

(** [sort_by_key] *)
Definition text_le {A} (x y : list byte * A) : Prop := bytes_cmp x.1 y.1 ≠ Gt.
#[local] Instance text_le_dec A (x y : list byte * A) : Decision (text_le x y).
Proof. unfold text_le. apply _. Defined.
Definition sort_by_key {A} (key : A → list byte) (l : list A) : list A :=
  snd <$> merge_sort text_le ((λ x, (key x, x)) <$> l).

Definition get_shielded_wallet_addresses : RpcResult (list OrchardAddress) :=
  addrs ← ask_wallet (λ w, Ok (get_shielded_addresses w));
  keyed ← st_lift (mapR (λ addr, text ← bech32m_encode (shielded addr); Ok (text, addr)) (elements addrs));
  mret (snd <$> merge_sort text_le keyed).
Definition get_transparent_wallet_addresses : RpcResult (list TransparentAddress) :=
  addrs ← ask_wallet (λ w, Ok (get_transparent_addresses w));
  mret (sort_by_key as_base58 (elements addrs)).

(** [SpentOutput<PointedOutput>] *)
Record SpentPointed := mk_SpentPointed { sp_output : PointedOutput; sp_inpoint : InPoint }.
Definition spent_pointed (x : OutPoint * SpentOutput) : SpentPointed :=
  mk_SpentPointed (mk_PointedOutput x.1 (so_output x.2)) (inpoint x.2).
Definition unspent_pointed (x : OutPoint * Output) : PointedOutput := mk_PointedOutput x.1 x.2.
Definition get_wallet_stxos : RpcResult (list SpentPointed) :=
  ask_wallet (λ w, Ok (spent_pointed <$> map_to_list (w_stxos w))).
Definition get_wallet_stxos_unconfirmed : RpcResult (list SpentPointed) :=
  ask_wallet (λ w, Ok (spent_pointed <$> map_to_list (w_stxos_unconfirmed w))).
Definition get_wallet_utxos : RpcResult (list PointedOutput) :=
  ask_wallet (λ w, Ok (unspent_pointed <$> map_to_list (w_utxos w))).
Definition get_wallet_utxos_unconfirmed : RpcResult (list PointedOutput) :=
  ask_wallet (λ w, Ok (unspent_pointed <$> map_to_list (w_utxos_unconfirmed w))).

(** [drawn]: the random mnemonic of 12 words. *)
Definition generate_mnemonic (drawn : Mnemonic) : RpcResult (list byte) := mret (mnemonic_text drawn).
Definition set_seed_from_mnemonic (mnemonic : list byte) : RpcResult unit :=
  mnemonic ← st_lift (ok_or (from_phrase mnemonic) (custom_err RpcMnemonic));
  let seed := seed_of mnemonic in
  _ ← st_lift (if bool_decide (length seed = 64) then Ok tt else Err (custom_err RpcSeedLength));
  on_app (write_wallet (λ w, w ← set_seed w seed; Ok (w, tt))).

(** ** Mining and payments *)
Definition rpc_mine (fee : option Amount) : RpcResult unit :=
  on_app (mine iter_set iter_bmm into_values work_add get_block_infos serialize_transaction fuel fee).
Definition create_deposit (address : TransparentAddress) (value_sats fee_sats : Amount) : RpcResult Hash :=
  on_app (deposit address value_sats fee_sats).

(** [App::sign_and_send] *)
Definition app_sign_and_send (tx : Transaction) : StR RpcServerImpl AppFailure unit :=
  st_map_err AppStores (st_zoom (λ r, (app_node (rpc_app r), rpc_net r, app_wallet (rpc_app r)))
    (λ '(nd, net, w) r, mk_RpcServerImpl (mk_App nd w (app_miner (rpc_app r))) net) (sign_and_send tx)).

(** A payment: create the transaction on the accumulator of the tip, sign it,
    send it, and answer with its id. *)
Definition pay_app (create : Wallet → Accumulator → Res WalletError (Wallet * Transaction)) :
    StR RpcServerImpl AppFailure Txid :=
  accumulator ← st_get (λ r, State.get_accumulator (nd_state (app_node (rpc_app r))));
  tx ← in_app (write_wallet (λ w, create w accumulator));
  let txid := txid tx in
  _ ← app_sign_and_send tx;
  mret txid.
Definition pay (create : Wallet → Accumulator → Res WalletError (Wallet * Transaction)) : RpcResult Txid :=
  answered_by (pay_app create).

Definition shield (value_sats fee_sats : Amount) : RpcResult Txid :=
  pay (λ w accumulator, create_shield_transaction w accumulator value_sats fee_sats).
Definition shielded_transfer (dest : OrchardAddress) (value_sats fee_sats : Amount) : RpcResult Txid :=
  pay (λ w accumulator, create_shielded_transaction w accumulator dest value_sats fee_sats (replicate 512 x00)).
Definition transparent_transfer (dest : TransparentAddress) (value_sats fee_sats : Amount) : RpcResult Txid :=
  pay (λ w accumulator, create_transaction w accumulator dest value_sats fee_sats).
Definition unshield (value_sats fee_sats : Amount) : RpcResult Txid :=
  pay (λ w accumulator, create_unshield_transaction w accumulator value_sats fee_sats).
Definition withdraw (mainchain_address : MainAddress) (amount_sats fee_sats mainchain_fee_sats : Amount) :
    RpcResult Txid :=
  pay (λ w accumulator, create_withdrawal w accumulator mainchain_address amount_sats mainchain_fee_sats fee_sats).

(** ** What a payment does to the node and its peers *)

(** The node accepted [t], a signed [tx], and pushed it to its peers. *)
Definition sent (tx : Transaction) (t : AuthorizedTransaction) (nd : Node) (net : Net) (nd' : Node) (net' : Net) :
    Prop :=
  at_transaction t = tx ∧ (∃ fee, validate_transaction (nd_state nd) t = Ok fee)
  ∧ submit_transaction (ProtoError := ProtoError) nd net t = Ok (nd', net').
(** What a push appends to the messages of a peer. *)
Definition pushed (t : AuthorizedTransaction) (h h' : ConnectionHandle) : Prop :=
  h' = match connection_status h, ch_open h with
       | Connected, true => push_to h (ImForwardRequest (PushTransaction t))
       | _, _ => h
       end.

Lemma pushed_peer t h o : option_Forall2 (pushed t) (Some h) o → ∃ h', o = Some h' ∧ pushed t h h'.
Proof. inversion 1; subst. by eexists. Qed.
Lemma authorize_keeps w tx t : Wallet_authorize w tx = Ok t → at_transaction t = tx.
Proof. unfold Wallet_authorize. by intros (auths & _ & [= <-])%bind_Ok. Qed.
Lemma submit_inv nd net t nd' net' : submit_transaction (ProtoError := ProtoError) nd net t = Ok (nd', net') →
  (∃ fee, validate_transaction (nd_state nd) t = Ok fee)
  ∧ ∃ m, mempool_put (nd_mempool nd) t = Ok m ∧ nd' = mk_Node (nd_archive nd) m (nd_state nd)
      ∧ net' = push_tx net ∅ t.
Proof.
  unfold submit_transaction. intros (fee & Hfee%map_err_Ok & Hr)%bind_Ok.
  apply bind_Ok in Hr as (m & Hm%map_err_Ok & [= <- <-]). split; [by exists fee|by exists m].
Qed.
Lemma sent_in_pool tx t nd net nd' net' : mempool_ok (nd_mempool nd) → sent tx t nd net nd' net' →
  nd_state nd' = nd_state nd ∧ nd_archive nd' = nd_archive nd
  ∧ is_Some (mp_transactions (nd_mempool nd') !! txid tx).
Proof.
  intros Hok (<- & _ & (_ & m & Hm & -> & _)%submit_inv).
  split_and!; [done..|]. simpl. apply mempool_put_cases in Hm as [_ ->]; [|done].
  destruct (mp_transactions (nd_mempool nd) !! txid (at_transaction t)) eqn:Ht; [by rewrite Ht|].
  by rewrite lookup_insert_eq.
Qed.
(** The peers are the same; those that are connected were told. *)
Lemma sent_to_peers tx t nd net nd' net' : sent tx t nd net nd' net' →
  known_peers net' = known_peers net
  ∧ ∀ addr, option_Forall2 (pushed t) (active_peers net !! addr) (active_peers net' !! addr).
Proof.
  intros (_ & _ & (_ & m & _ & _ & ->)%submit_inv). split; [done|]. intros addr.
  unfold push_tx. simpl. rewrite map_lookup_imap. destruct (active_peers net !! addr) as [h|]; simpl; constructor.
  unfold pushed, push_tx_to. rewrite bool_decide_false by set_solver.
  destruct (connection_status h); [done|]. by destruct (ch_open h).
Qed.

Lemma sign_and_send_node tx nd net w nd' net' w' r :
  sign_and_send (ProtoError := ProtoError) tx (nd, net, w) = ((nd', net', w'), r) →
  (∃ t, Wallet_authorize w tx = Ok t ∧ sent tx t nd net nd' net') ∨ (nd' = nd ∧ net' = net ∧ r ≠ Ok tt).
Proof.
  unfold sign_and_send. cbv zeta.
  destruct (map_err App_Wallet (Wallet_authorize w tx)) as [t| |] eqn:Ht; [|by intros [= <- <- _ <-]; right..].
  apply map_err_Ok in Ht. pose proof (authorize_keeps _ _ _ Ht) as Htx. rewrite ok_bind. rewrite <- Htx in *.
  destruct (match orchard_bundle _ with Some _ => _ | None => _ end) as [w1| |] eqn:Hw;
    [|by intros [= <- <- _ <-]; right..].
  cbn [mbind res_bind].
  destruct (submit_transaction nd net t) as [[nd1 net1]| |] eqn:Hsub; simpl; [|by intros [= <- <- _ <-]; right..].
  pose proof (proj1 (submit_inv _ _ _ _ _ Hsub)) as Hfee.
  destruct (update_wallet nd1 w1); intros [= <- <- _ _]; left; by exists t.
Qed.

(** C16: A payment that is answered with an id was sent: for each of the five
    payment calls, whatever its outcome, either node and peers are as they
    were, and the answer is an error, or the node has accepted the transaction that the
    wallet created on the accumulator of the tip, signed by the wallet and valid in the
    node's state, and has pushed it to its peers: every peer that is connected
    has exactly the request for it appended to its messages, the others are as they
    were.  Then, if the answer is an id, it is the id of that transaction,
    and a transaction with this id is in the memory pool.  State, archive and
    the sets of active and known peers are never changed. *)
Theorem payment_reaches_pool (create : Wallet → Accumulator → Res WalletError (Wallet * Transaction))
    (r r' : RpcServerImpl) (res : Res ErrorObject Txid)
    (Hok : mempool_ok (nd_mempool (app_node (rpc_app r)))) (Hrun : pay create r = (r', res)) :
  let nd := app_node (rpc_app r) in
  let nd' := app_node (rpc_app r') in
  nd_state nd' = nd_state nd ∧ nd_archive nd' = nd_archive nd
  ∧ ((nd' = nd ∧ rpc_net r' = rpc_net r ∧ ∀ id, res ≠ Ok id)
     ∨ ∃ w tx t, create (app_wallet (rpc_app r)) (State.get_accumulator (nd_state nd)) = Ok (w, tx)
         ∧ Wallet_authorize w tx = Ok t ∧ sent tx t nd (rpc_net r) nd' (rpc_net r')
         ∧ known_peers (rpc_net r') = known_peers (rpc_net r)
         ∧ (∀ addr, option_Forall2 (pushed t) (active_peers (rpc_net r) !! addr)
                      (active_peers (rpc_net r') !! addr))
         ∧ ∀ id, res = Ok id → id = txid tx ∧ is_Some (mp_transactions (nd_mempool nd') !! id)).
Proof.
  cbv zeta. destruct r as [[nd w m] n]. simpl in Hok |- *.
  revert Hrun. unfold pay, answered_by, st_map_err, pay_app. rewrite st_get_bind. cbn [rpc_app app_node].
  unfold mbind, str_bind, in_app, st_zoom, write_wallet. cbn [rpc_app rpc_net app_node app_wallet].
  destruct (create w _) as [[w1 tx]| |] eqn:Hc;
    [|by intros [= <- <-]; (split_and!; [done..|]; left)..].
  unfold app_sign_and_send, st_map_err, st_zoom, with_wallet. cbn [rpc_app rpc_net app_node app_wallet app_miner].
  destruct (sign_and_send tx (nd, n, w1)) as [[[nd' n'] w'] r1] eqn:Hs.
  apply sign_and_send_node in Hs as [(t & Ht & Hs)|(-> & -> & Hr)].
  - destruct (sent_in_pool _ _ _ _ _ _ Hok Hs) as (Hst & Har & Hin).
    destruct (sent_to_peers _ _ _ _ _ _ Hs) as [Hkn Hpeers].
    destruct r1 as [[]| |]; intros [= <- <-]; simpl; (split_and!; [done..|]; right; exists w1, tx, t; split_and!;
      [done..|]); intros id [=]; by subst.
  - destruct r1 as [[]| |]; [done| |]; intros [= <- <-]; simpl; (split_and!; [done..|]; by left).
Qed.
End rpc.

(** ** Witnesses: a transfer *)
Module RpcToy.
#[local] Existing Instances Toy.externals ShardTreeToy.shard_externals WalletToy.wallet_externals
  AddressToy.hex AddressToy.hex_laws AddressToy.crates AddressToy.laws ProtoToy.consensus ProtoToy.consensus_laws.
Import WalletToy.

(** One peer is connected. The wallet's outputs are the leaves of the
    accumulator. *)
Definition peer_addr : SocketAddr := SocketAddr_v4 (Ipv4Addr 10 0 0 1) 4098.
Definition paying_state : State :=
  with_accumulator (with_tip_height WalletNodeToy.synced_state None None) WalletNodeToy.wallet_leaves.
Definition server : RpcServerImpl :=
  mk_RpcServerImpl
    (mk_App (mk_Node Archive_empty_dbs MemPool_empty_dbs paying_state) wallet3 None)
    (mk_Net Regtest {[peer_addr := peer_handle]} ∅ None).
Definition transfer := transparent_transfer (ConnectError := unit) StateToy.alice_addr 400 10.
Lemma transfer_pair : transfer server = ((transfer server).1, (transfer server).2).
Proof. by destruct (transfer server). Qed.
Definition answers {A B} (res : Res A B) : bool := match res with Ok _ => true | _ => false end.
Lemma transfer_answers : answers (transfer server).2 = true.
Proof. vm_compute. reflexivity. Qed.

Lemma server_peer : active_peers (rpc_net server) !! peer_addr = Some peer_handle.
Proof. apply lookup_singleton_eq. Qed.

#[local] Opaque server.
Lemma payment_reaches_pool_witness :
  ∃ id t h, (transfer server).2 = Ok id
    ∧ is_Some (mp_transactions (nd_mempool (app_node (rpc_app (transfer server).1))) !! id)
    ∧ active_peers (rpc_net (transfer server).1) !! peer_addr = Some h
    ∧ ch_messages h = [ImForwardRequest (PushTransaction t)].
Proof.
  destruct (payment_reaches_pool
    (λ w accumulator, create_transaction w accumulator StateToy.alice_addr 400 10) server
    (transfer server).1 (transfer server).2 mempool_empty_ok transfer_pair)
    as (_ & _ & Hcases).
  pose proof transfer_answers as Hans. destruct (transfer server).2 as [id| |]; [|discriminate Hans..].
  destruct Hcases as [(_ & _ & Hno)|(w & tx & t & _ & _ & _ & _ & Hpeers & Hid)]; [by destruct (Hno id)|].
  specialize (Hpeers peer_addr). rewrite server_peer in Hpeers.
  apply pushed_peer in Hpeers as (h & Hh & Hpush).
  exists id, t, h. split; [done|]. split; [by apply Hid|]. split; [exact Hh|]. rewrite Hpush. reflexivity.
Defined.
End RpcToy.
