(* ===== verification/TemplateFacts.v ===== *)
(** The block template is what it should be.

    [get_transactions] returns exactly the pool transactions, among the first
    in key order, that validate against the state, with the sum of their fees;
    what does not validate leaves the pool with its descendants.  A block made
    of them passes [prevalidate], when their proofs are current and the body
    limits hold. *)
From S2P Require Import Prelude.
From S2P Require Import Borsh.
From S2P Require Import Externals.
From S2P Require Import Toy.
From S2P Require Import Types.
From S2P Require Import AccumulatorDiff.
From S2P Require Import WithdrawalBundle.
From S2P Require Import RollBack.
From S2P Require Import Authorization.
From S2P Require Import Limits.
From S2P Require Import Orchard.
From S2P Require Import State.
From S2P Require Import Block.
From S2P Require Import TwoWayPeg.
From S2P Require Import Lineage.
From S2P Require Import Archive.
From S2P Require Import ArchiveFacts.
From S2P Require Import MemPool.
From S2P Require Import MainchainTask.
From S2P Require Import Node.
From S2P Require Import NodeFacts.
From S2P Require Import NodeApi.

Section template.
Context `{E : Externals, !AmountLaws}.
Context {ProtoError : Type}.
Abbreviation ApiError := (ApiError (ProtoError:=ProtoError)).
Implicit Types (s : State) (t : AuthorizedTransaction) (m : MemPool).

(** ** Validation never panics *)
Lemma check_count_no_panic n k : no_panic (check_count n k).
Proof. unfold check_count. by destruct (Nat.compare n k). Qed.

#[local] Hint Resolve check_count_no_panic : no_panic.
Lemma validate_no_panic s t : no_panic (validate_transaction s t).
Proof.
  unfold validate_transaction, fill_transaction, check_addresses, validate_orchard_anchor,
    verify_authorized_transaction, verify_orchard, validate_filled_transaction, validate_utxo_hashes,
    add_values.
  solve_no_panic.
Qed.

(** ** One transaction *)
Definition accepted s t : bool := is_ok (validate_transaction s t).
Definition fee_of s t : Amount := match validate_transaction s t with Ok fee => fee | _ => 0%Z end.

(** Amounts are nonnegative: they are [u64]. *)
Record amounts_ok s m : Prop := {
  am_utxos k o : utxos s !! k = Some o → (0 ≤ get_value o)%Z;
  am_pool u t : mp_transactions m !! u = Some t →
    Forall (λ o, 0 ≤ get_value o)%Z (outputs (at_transaction t))
}.

Lemma accepted_Ok s t : accepted s t = true → validate_transaction s t = Ok (fee_of s t).
Proof. unfold accepted, fee_of. by destruct (validate_transaction s t). Qed.

(** Everything a successful [validate_transaction] has checked. *)
Lemma validate_transaction_inv s t fee :
  validate_transaction s t = Ok fee →
  ∃ ft, fill_transaction s (at_transaction t) = Ok ft
    ∧ check_addresses (authorizations t) (spent_utxos ft) = Ok tt
    ∧ (∀ b, orchard_bundle (at_transaction t) = Some b → validate_orchard_anchor s b = Ok tt)
    ∧ verify_authorized_transaction t = Ok tt
    ∧ validate_filled_transaction ft = Ok fee.
Proof.
  unfold validate_transaction. intros (ft & Hft & Hok)%bind_Ok. apply bind_Ok in Hok as ([] & Ha & Hok).
  apply bind_Ok in Hok as ([] & Ho & Hok). apply bind_Ok in Hok as ([] & Hv%map_err_Ok & Hok).
  exists ft. split_and!; [done..| |done|done]. intros b Hb. by rewrite Hb in Ho.
Qed.

Lemma filled_values_ok s m u t ft :
  amounts_ok s m → mp_transactions m !! u = Some t → fill_transaction s (at_transaction t) = Ok ft →
  values_ok ft.
Proof.
  intros [Hs Hp] Ht [Htx Hall]%fill_transaction_Ok. split.
  - clear -Hs Hall. induction Hall as [|i o l k Ho _ IH]; constructor; [by eapply Hs|done].
  - rewrite Htx. by eapply Hp.
Qed.

Lemma template_fee_ok ft fee :
  values_ok ft → validate_filled_transaction ft = Ok fee → template_fee (ProtoError:=ProtoError) ft = Ok fee.
Proof.
  intros Hv (_ & Hin & Hout & Hf & Heq)%validate_filled_transaction_Ok; [|done].
  pose proof amount_max_range as Hmax. destruct Hv as [Hsp Hou].
  unfold total_in, total_out, value_balance in *.
  unfold template_fee.
  rewrite (proj2 (checked_sum_Some (get_value <$> spent_utxos ft) (sumZ (get_value <$> spent_utxos ft))
    (proj1 Hmax) (proj2 (Forall_fmap _ _ _) Hsp))) by lia.
  cbn [ok_or]. rewrite ok_bind.
  rewrite (proj2 (checked_sum_Some (get_value <$> outputs (transaction ft))
    (sumZ (get_value <$> outputs (transaction ft))) (proj1 Hmax) (proj2 (Forall_fmap _ _ _) Hou))) by lia.
  cbn [ok_or]. rewrite ok_bind.
  destruct (orchard_bundle (transaction ft)) as [b|].
  2: { rewrite ok_bind. by rewrite (proj2 (checked_sub_Some _ _ fee)) by lia. }
  destruct (Z.ltb_spec 0 (bundle_value_balance b)).
  - rewrite (proj2 (checked_add_Some _ _ _)) by (split; [reflexivity|lia]). cbn [ok_or].
    rewrite !ok_bind. by rewrite (proj2 (checked_sub_Some _ _ fee)) by lia.
  - rewrite (proj2 (checked_add_Some _ _ _)) by (split; [reflexivity|lia]). cbn [ok_or].
    rewrite !ok_bind. by rewrite (proj2 (checked_sub_Some _ _ fee)) by lia.
Qed.

Lemma accepted_fee s m u t :
  amounts_ok s m → mp_transactions m !! u = Some t → accepted s t = true →
  ∃ ft, fill_transaction s (at_transaction t) = Ok ft
    ∧ template_fee (ProtoError:=ProtoError) ft = Ok (fee_of s t) ∧ (0 ≤ fee_of s t)%Z.
Proof.
  intros Ham Ht Hacc. apply accepted_Ok, validate_transaction_inv in Hacc as (ft & Hft & _ & _ & _ & Hv).
  pose proof (filled_values_ok s m u t ft Ham Ht Hft) as Hval.
  exists ft. split_and!; [done|by apply template_fee_ok|].
  by apply validate_filled_transaction_Ok in Hv as (_ & _ & _ & ? & _).
Qed.

(** ** The loop *)
Section loop.
Context (s : State) (m0 : MemPool) (Hok : mempool_ok m0) (Ham : amounts_ok s m0).

Definition pooled (t : AuthorizedTransaction) : Prop :=
  mp_transactions m0 !! txid (at_transaction t) = Some t.
Definition returned (l : list AuthorizedTransaction) : list AuthorizedTransaction :=
  filter (λ t, accepted s t = true) l.
Definition fees (l : list AuthorizedTransaction) : Z := sumZ (fee_of s <$> returned l).
(** What leaves the pool: the transactions that do not validate, with their
    descendants. *)
Definition evicted (l : list AuthorizedTransaction) (u : Txid) : Prop :=
  ∃ t, t ∈ l ∧ accepted s t = false ∧ descendant m0 (txid (at_transaction t)) u.

Record template_inv (pre : list AuthorizedTransaction) (acc : Template) : Prop := {
  ti_returned : te_returned acc = returned pre;
  ti_spent : te_spent acc = mjoin (inputs ∘ at_transaction <$> returned pre);
  ti_fee : te_fee acc = fees pre;
  ti_pool : restricts m0 (evicted pre) (te_mempool acc)
}.

Lemma returned_app l k : returned (l ++ k) = returned l ++ returned k.
Proof. apply filter_app. Qed.
Lemma returned_one t : returned [t] = if accepted s t then [t] else [].
Proof. unfold returned. rewrite filter_cons. by destruct (accepted s t). Qed.

Lemma fees_nonneg l : Forall pooled l → (0 ≤ fees l)%Z.
Proof.
  intros Hl. apply sumZ_nonneg, Forall_fmap, Forall_forall. intros t [Ha Ht]%list_elem_of_filter.
  rewrite Forall_forall in Hl. simpl.
  by destruct (accepted_fee s m0 _ t Ham (Hl t Ht) Ha) as (_ & _ & _ & ?).
Qed.

Lemma fees_app l k : fees (l ++ k) = (fees l + fees k)%Z.
Proof. unfold fees. by rewrite returned_app, fmap_app, sumZ_app. Qed.

(** Transactions of the pool have no input in common. *)
Lemma pool_disjoint pre acc t :
  template_inv pre acc → Forall pooled pre → pooled t →
  txid (at_transaction t) ∉ txid ∘ at_transaction <$> pre →
  is_disjoint (te_spent acc) (inputs (at_transaction t)) = true.
Proof.
  intros Hinv Hpre Ht Hnew. unfold is_disjoint. rewrite forallb_forall. intros i Hi%list_elem_of_In.
  apply bool_decide_eq_true. rewrite (ti_spent _ _ Hinv). intros (l & Hil & Hl)%list_elem_of_join.
  apply list_elem_of_fmap in Hl as (t' & -> & [_ Ht']%list_elem_of_filter).
  rewrite Forall_forall in Hpre. pose proof (Hpre t' Ht') as Hp'.
  assert (∀ t, pooled t → i ∈ inputs (at_transaction t) →
    mp_spent_utxos m0 !! i.1 = Some (txid (at_transaction t))) as Hspent.
  { intros u Hu Hin. apply (mp_spent_ok m0 Hok). exists u. split; [done|]. unfold spends.
    by apply list_elem_of_fmap_2. }
  apply Hnew, list_elem_of_fmap. exists t'. split; [|done].
  pose proof (Hspent t Ht Hi). pose proof (Hspent t' Hp' Hil). simpl. congruence.
Qed.

Lemma evicted_snoc_ok pre t u : accepted s t = true → evicted pre u ↔ evicted (pre ++ [t]) u.
Proof.
  intros Ha. unfold evicted. setoid_rewrite elem_of_app. setoid_rewrite list_elem_of_singleton.
  split; [naive_solver|]. intros (t' & [Ht'| ->] & Hb & Hd); [eauto|congruence].
Qed.
Lemma evicted_snoc_bad pre t u : accepted s t = false →
  (evicted pre u ∨ descendant m0 (txid (at_transaction t)) u) ↔ evicted (pre ++ [t]) u.
Proof.
  intros Ha. unfold evicted. setoid_rewrite elem_of_app. setoid_rewrite list_elem_of_singleton.
  naive_solver.
Qed.

Lemma template_step_ok pre acc t :
  template_inv pre acc → Forall pooled pre → pooled t →
  txid (at_transaction t) ∉ txid ∘ at_transaction <$> pre →
  if (fees (pre ++ [t]) <=? amount_max)%Z
  then ∃ acc', template_step (ProtoError:=ProtoError) s acc t = Ok acc' ∧ template_inv (pre ++ [t]) acc'
  else accepted s t = false ∨ template_step (ProtoError:=ProtoError) s acc t = Err NdAmountUnderflow.
Proof.
  intros Hinv Hpre Ht Hnew. unfold template_step.
  rewrite (pool_disjoint pre acc t) by done. cbn [negb].
  pose proof (validate_no_panic s t) as Hnp. pose proof (fees_app pre [t]) as Hfees.
  unfold fees at 3 in Hfees. rewrite returned_one in Hfees.
  destruct (validate_transaction s t) as [fee|e|] eqn:Hval; [| |done].
  - assert (accepted s t = true) as Ha by (unfold accepted; by rewrite Hval).
    destruct (accepted_fee s m0 _ t Ham Ht Ha) as (ft & Hft & Hfee & _).
    rewrite Hft. cbn [map_err]. rewrite ok_bind, Hfee, ok_bind.
    rewrite Ha in Hfees. unfold sumZ in Hfees. simpl in Hfees. rewrite Z.add_0_r in Hfees.
    unfold checked_add. rewrite (ti_fee _ _ Hinv), <- Hfees.
    destruct (Z.leb_spec (fees (pre ++ [t])) amount_max); [|by right].
    cbn [ok_or]. rewrite ok_bind. eexists. split; [done|]. split; cbn [te_returned te_spent te_fee te_mempool].
    + by rewrite returned_app, returned_one, Ha, (ti_returned _ _ Hinv).
    + rewrite returned_app, returned_one, Ha, (ti_spent _ _ Hinv), fmap_app, join_app.
      cbn. by rewrite app_nil_r.
    + done.
    + eapply restricts_ext; [|apply (ti_pool _ _ Hinv)]. intros u. by apply evicted_snoc_ok.
  - assert (accepted s t = false) as Ha by (unfold accepted; by rewrite Hval).
    rewrite Ha in Hfees. unfold sumZ in Hfees. simpl in Hfees. rewrite Z.add_0_r in Hfees.
    destruct (restricts_delete m0 _ _ (txid (at_transaction t)) Hok (ti_pool _ _ Hinv)) as (m2 & -> & Hr).
    cbn [map_err]. rewrite ok_bind.
    destruct (fees (pre ++ [t]) <=? amount_max)%Z; [|by left].
    eexists. split; [done|]. split; cbn [te_returned te_spent te_fee te_mempool].
    + rewrite returned_app, returned_one, Ha, app_nil_r. apply Hinv.
    + rewrite returned_app, returned_one, Ha, app_nil_r. apply Hinv.
    + rewrite Hfees. apply Hinv.
    + eapply restricts_ext; [|exact Hr]. intros u. by apply evicted_snoc_bad.
Qed.

Lemma template_loop pre acc l :
  template_inv pre acc → Forall pooled (pre ++ l) → NoDup (txid ∘ at_transaction <$> pre ++ l) →
  (fees pre <= amount_max)%Z →
  if (fees (pre ++ l) <=? amount_max)%Z
  then ∃ acc', foldR (template_step (ProtoError:=ProtoError) s) acc l = Ok acc' ∧ template_inv (pre ++ l) acc'
  else foldR (template_step (ProtoError:=ProtoError) s) acc l = Err NdAmountUnderflow.
Proof.
  revert pre acc. induction l as [|t l IH]; intros pre acc Hinv Hl Hnd Hmax; cbn [foldR].
  { rewrite app_nil_r in *. destruct (Z.leb_spec (fees pre) amount_max); [by exists acc|lia]. }
  rewrite cons_middle, app_assoc in *. pose proof Hl as [[Hpre Ht]%Forall_app Hl']%Forall_app.
  rewrite Forall_singleton in Ht.
  assert (txid (at_transaction t) ∉ txid ∘ at_transaction <$> pre) as Hnew.
  { rewrite !fmap_app in Hnd. apply NoDup_app in Hnd as (Hnd & _ & _).
    apply NoDup_app in Hnd as (_ & Hnd & _). intros Hin. apply (Hnd _ Hin). by left. }
  pose proof (template_step_ok pre acc t Hinv Hpre Ht Hnew) as Hstep.
  destruct (Z.leb_spec (fees (pre ++ [t])) amount_max) as [Hle|Hgt].
  - destruct Hstep as (acc1 & -> & Hinv1). rewrite ok_bind. by apply IH.
  - pose proof (fees_nonneg l Hl'). rewrite fees_app.
    destruct (Z.leb_spec (fees (pre ++ [t]) + fees l) amount_max); [lia|].
    destruct Hstep as [Ha|Hstep]; [|by rewrite Hstep].
    rewrite fees_app in Hgt. unfold fees at 2 in Hgt. rewrite returned_one, Ha in Hgt.
    unfold sumZ in Hgt. simpl in Hgt. lia.
Qed.
End loop.

Lemma taken_pooled m n : mempool_ok m →
  Forall (pooled m) (mempool_take m n) ∧ NoDup (txid ∘ at_transaction <$> mempool_take m n).
Proof.
  intros Hok. assert (Forall (λ x, mp_transactions m !! x.1 = Some x.2) (take n (mempool_iter m))) as Hall.
  { apply Forall_take, Forall_forall. intros [u t] Hin. by apply mempool_iter_elem. }
  unfold mempool_take. split.
  - apply Forall_fmap. eapply Forall_impl; [exact Hall|]. intros [u t] Hx. simpl in *.
    unfold pooled. by rewrite (mp_ids m Hok u t Hx).
  - assert (txid ∘ at_transaction <$> (snd <$> take n (mempool_iter m)) = (take n (mempool_iter m)).*1) as ->.
    { rewrite <- list_fmap_compose. apply list_fmap_ext. intros i [u t] Hi. simpl.
      rewrite Forall_forall in Hall. apply (mp_ids m Hok), (Hall (u, t)). by eapply list_elem_of_lookup_2. }
    rewrite fmap_take. eapply sublist_NoDup; [|apply sublist_take].
    unfold mempool_iter. rewrite merge_sort_Permutation. apply NoDup_fst_map_to_list.
Qed.

Lemma get_transactions_cases nd n :
  mempool_ok (nd_mempool nd) → amounts_ok (nd_state nd) (nd_mempool nd) →
  let taken := mempool_take (nd_mempool nd) n in
  let fee := fees (nd_state nd) taken in
  if (fee <=? amount_max)%Z
  then ∃ m, get_transactions (ProtoError:=ProtoError) nd n
        = Ok (mk_Node (nd_archive nd) m (nd_state nd), returned (nd_state nd) taken, fee)
      ∧ restricts (nd_mempool nd) (evicted (nd_state nd) (nd_mempool nd) taken) m
  else get_transactions (ProtoError:=ProtoError) nd n = Err NdAmountUnderflow.
Proof.
  intros Hok Ham taken fee. destruct (taken_pooled (nd_mempool nd) n Hok) as [Hp Hnd].
  pose proof (template_loop (nd_state nd) (nd_mempool nd) Hok Ham [] (mk_Template (nd_mempool nd) 0%Z [] [])
    taken) as Hloop.
  assert (template_inv (nd_state nd) (nd_mempool nd) [] (mk_Template (nd_mempool nd) 0%Z [] [])) as Hinit.
  { split; [done..|]. split; [done| |intros u [x Hx] Hn; simpl in Hn; congruence|].
    - intros u t. simpl. split; [|naive_solver]. intros Ht. split; [done|].
      intros (x & Hx & _). by apply elem_of_nil in Hx.
    - intros x y (z & Hz & _). by apply elem_of_nil in Hz. }
  pose proof amount_max_range. specialize (Hloop Hinit Hp Hnd). cbn [app] in Hloop.
  unfold get_transactions. fold taken. fold taken in Hloop. unfold fee.
  destruct (Z.leb_spec (fees (nd_state nd) taken) amount_max).
  - destruct Hloop as (acc & -> & Hinv); [unfold fees, sumZ; simpl; lia|]. rewrite ok_bind.
    exists (te_mempool acc). rewrite (ti_returned _ _ _ _ Hinv), (ti_fee _ _ _ _ Hinv).
    split; [done|apply Hinv].
  - by rewrite Hloop by (unfold fees, sumZ; simpl; lia).
Qed.

(** ** The accumulator of a block without repeated leaves *)
Lemma diff_get_fresh h l : h ∉ l.*1 → diff_get h l = None.
Proof. apply diff_get_None. Qed.

Lemma diff_fresh_updates d us :
  NoDup ((diff d).*1 ++ us.*1) → diff (foldl diff_update d us) = diff d ++ us.
Proof.
  revert d. induction us as [|[h b] us IH]; intros d Hnd; [by rewrite app_nil_r|]. cbn [foldl].
  csimpl in Hnd. rewrite cons_middle, app_assoc in Hnd.
  assert (diff (diff_update d (h, b)) = diff d ++ [(h, b)]) as Hd.
  { pose proof (proj1 (NoDup_app _ _) Hnd) as (Hnd' & _). apply NoDup_app in Hnd' as (_ & Hnew & _).
    unfold diff_update, AccumulatorDiff_insert, AccumulatorDiff_remove. simpl.
    assert (diff_get h (diff d) = None) as ->.
    { apply diff_get_fresh. intros Hin. apply (Hnew h Hin). by left. }
    by destruct b. }
  rewrite IH, Hd; [by rewrite <- app_assoc|]. by rewrite Hd, fmap_app.
Qed.

Definition created (ps : list PointedOutput) : list (NodeHash * bool) :=
  (λ p, (PointedOutput_node_hash p, true)) <$> ps.
Definition tx_updates (tx : Transaction) : list (NodeHash * bool) :=
  ((λ i, (node_hash i.2, false)) <$> inputs tx)
  ++ created (pointed_outputs (Regular (txid tx)) (outputs tx)).
(** The leaves that a block deletes and adds. *)
Definition body_updates (b : Body) : list (NodeHash * bool) :=
  created (pointed_outputs (Coinbase (compute_merkle_root b)) (coinbase b))
  ++ mjoin (tx_updates <$> transactions b).

Lemma diff_inserts_updates d ps : diff_inserts d ps = foldl diff_update d (created ps).
Proof. unfold diff_inserts, created. by rewrite foldl_fmap. Qed.

Lemma diff_txs_updates d txs : foldl diff_tx d txs = foldl diff_update d (mjoin (tx_updates <$> txs)).
Proof.
  revert d. induction txs as [|tx txs IH]; intros d; [done|]. csimpl. rewrite foldl_app, IH. f_equal.
  unfold diff_tx, tx_updates, diff_create, diff_spend, created.
  by rewrite foldl_app, !foldl_fmap.
Qed.

Lemma filter_created (b : bool) ps :
  (filter (λ u, u.2 = b) (created ps)).*1 = if b then PointedOutput_node_hash <$> ps else [].
Proof.
  unfold created. induction ps as [|p ps IH]; [by destruct b|]. csimpl. rewrite filter_cons. simpl.
  case_decide; destruct b; try done. csimpl. by rewrite IH.
Qed.
Lemma filter_spent (b : bool) (l : list (OutPoint * Hash)) :
  (filter (λ u, u.2 = b) ((λ i, (node_hash i.2, false)) <$> l)).*1
  = if b then [] else (λ i, node_hash i.2) <$> l.
Proof.
  induction l as [|i l IH]; [by destruct b|]. csimpl. rewrite filter_cons. simpl.
  case_decide; destruct b; try done. csimpl. by rewrite IH.
Qed.

Lemma filter_tx_updates (b : bool) tx :
  (filter (λ u, u.2 = b) (tx_updates tx)).*1 =
    if b then PointedOutput_node_hash <$> pointed_outputs (Regular (txid tx)) (outputs tx)
    else (λ i, node_hash i.2) <$> inputs tx.
Proof.
  unfold tx_updates. rewrite filter_app, fmap_app, filter_created, filter_spent.
  destruct b; [done|apply app_nil_r].
Qed.

Lemma modify_memforest_updates b f :
  modify_memforest b f =
    forest_modify f (filter (λ u, u.2 = true) (body_updates b)).*1
      (filter (λ u, u.2 = false) (body_updates b)).*1.
Proof.
  unfold modify_memforest, body_updates. rewrite !filter_app, !fmap_app, !filter_created.
  set (cb := PointedOutput_node_hash <$> _). cbn [app].
  assert (∀ add del, foldl (λ '(add, del) tx,
      (add ++ (PointedOutput_node_hash <$> pointed_outputs (Regular (txid tx)) (outputs tx)),
       del ++ ((λ i, node_hash i.2) <$> inputs tx))) (add, del) (transactions b)
    = (add ++ (filter (λ u, u.2 = true) (mjoin (tx_updates <$> transactions b))).*1,
       del ++ (filter (λ u, u.2 = false) (mjoin (tx_updates <$> transactions b))).*1)) as Hloop.
  { induction (transactions b) as [|tx txs IH]; intros add del; [by rewrite !app_nil_r|].
    csimpl. rewrite IH, !filter_app, !fmap_app, !filter_tx_updates.
    by rewrite <- !app_assoc. }
  rewrite Hloop. done.
Qed.

(** The header's roots, computed from the body, are the roots that
    [prevalidate] computes from the diff. *)
Lemma apply_block_diff b acc f :
  NoDup (body_updates b).*1 → modify_memforest b (forest acc) = Some f →
  apply_diff acc (foldl diff_tx (diff_inserts AccumulatorDiff_default
      (pointed_outputs (Coinbase (compute_merkle_root b)) (coinbase b))) (transactions b))
  = Some (mk_Accumulator f).
Proof.
  intros Hnd Hf. rewrite diff_inserts_updates, diff_txs_updates, <- foldl_app. fold (body_updates b).
  unfold apply_diff. rewrite split_diff_spec, diff_fresh_updates by done. cbn [AccumulatorDiff_default diff app].
  by rewrite <- modify_memforest_updates, Hf.
Qed.

(** ** The checks of [prevalidate], one by one *)
Record checked s t (ft : FilledTransaction) : Prop := {
  ck_fill : fill_transaction s (at_transaction t) = Ok ft;
  ck_addresses : check_addresses (authorizations t) (spent_utxos ft) = Ok tt;
  ck_anchor b : orchard_bundle (at_transaction t) = Some b → validate_orchard_anchor s b = Ok tt;
  ck_auths : verify_authorized_transaction t = Ok tt;
  ck_fee : validate_filled_transaction ft = Ok (fee_of s t)
}.

Lemma returned_checked s l : ∃ fts, Forall2 (checked s) (returned s l) fts.
Proof.
  assert (Forall (λ t, accepted s t = true) (returned s l)) as Hall.
  { apply Forall_forall. by intros t [Ha _]%list_elem_of_filter. }
  induction Hall as [|t k Ha _ IH]; [by exists []|]. destruct IH as [fts Hfts].
  apply accepted_Ok, validate_transaction_inv in Ha as (ft & ? & ? & ? & ? & ?).
  exists (ft :: fts). by constructor.
Qed.

Lemma checked_fill s l fts :
  Forall2 (checked s) l fts → mapR (fill_transaction s) (at_transaction <$> l) = Ok fts.
Proof.
  intros Hl. apply mapR_Ok, Forall2_fmap_l. eapply Forall2_impl; [exact Hl|]. intros t ft. apply ck_fill.
Qed.
Lemma checked_transactions s l fts :
  Forall2 (checked s) l fts → transaction <$> fts = at_transaction <$> l.
Proof.
  induction 1 as [|t ft l fts Ht _ IH]; [done|]. csimpl. rewrite IH. f_equal.
  pose proof (ck_fill _ _ _ Ht) as [? _]%fill_transaction_Ok. done.
Qed.

Lemma checked_keys s l fts :
  Forall2 (checked s) l fts →
  all_input_keys fts = OutPointKey_from <$> mjoin (spends ∘ at_transaction <$> l).
Proof.
  induction 1 as [|t ft l fts Ht _ IH]; [done|]. unfold all_input_keys in *. csimpl.
  rewrite IH, fmap_app. f_equal. pose proof (ck_fill _ _ _ Ht) as [-> _]%fill_transaction_Ok.
  unfold spends. by rewrite <- list_fmap_compose.
Qed.

(** No outpoint is spent twice by transactions of the pool. *)
Lemma pooled_spends_NoDup m l :
  mempool_ok m → Forall (pooled m) l → NoDup (txid ∘ at_transaction <$> l) →
  NoDup (mjoin (spends ∘ at_transaction <$> l)).
Proof.
  intros Hok. induction 1 as [|t l Ht Hl IH]; csimpl; [constructor|].
  intros [Hnew Hnd]%NoDup_cons. apply NoDup_app. split_and!; [by apply (mp_once m Hok _ t Ht)| |by apply IH].
  intros o Ho (k & Hok' & Hk)%list_elem_of_join. apply list_elem_of_fmap in Hk as (t' & -> & Ht').
  apply Hnew, list_elem_of_fmap. exists t'. split; [|done]. rewrite Forall_forall in Hl.
  assert (∀ t, pooled m t → o ∈ spends (at_transaction t) →
    mp_spent_utxos m !! o = Some (txid (at_transaction t))) as Hspent.
  { intros u Hu Hin. apply (mp_spent_ok m Hok). by exists u. }
  pose proof (Hspent t Ht Ho). pose proof (Hspent t' (Hl t' Ht') Hok'). simpl. congruence.
Qed.

Lemma validate_transactions_ok s acc z d l fts :
  Forall2 (checked s) l fts →
  Forall (λ t, verify acc (proof (at_transaction t)) (targets_of (at_transaction t)) = Some true) l →
  Forall (λ t, (0 <= fee_of s t)%Z) l → (z + sumZ (fee_of s <$> l) <= amount_max)%Z →
  foldR (validate_body_transaction s acc) (z, d) fts
  = Ok ((z + sumZ (fee_of s <$> l))%Z, foldl diff_tx d (at_transaction <$> l)).
Proof.
  intros Hl. revert z d. induction Hl as [|t ft l fts Ht Hl IH]; intros z d Hp Hf Hmax.
  { cbn. by rewrite Z.add_0_r. }
  apply Forall_cons in Hp as [Hp Hps]. apply Forall_cons in Hf as [Hf Hfs].
  pose proof (sumZ_nonneg _ (proj2 (Forall_fmap _ _ _) Hfs)) as Hpos.
  rewrite fmap_cons, sumZ_cons in Hmax. rewrite !fmap_cons, sumZ_cons.
  pose proof (ck_fill _ _ _ Ht) as [Htx _]%fill_transaction_Ok.
  assert (validate_body_transaction s acc (z, d) ft
    = Ok ((z + fee_of s t)%Z, diff_tx d (at_transaction t))) as Hstep.
  { unfold validate_body_transaction. rewrite Htx.
    assert (match orchard_bundle (at_transaction t) with
      | Some orchard_bundle => validate_orchard_anchor s orchard_bundle | None => Ok tt end = Ok tt) as ->.
    { destruct (orchard_bundle (at_transaction t)) as [b|] eqn:Hb; [by apply (ck_anchor _ _ _ Ht)|done]. }
    rewrite ok_bind, (ck_fee _ _ _ Ht), ok_bind.
    unfold checked_add. rewrite (proj2 (Z.leb_le _ _)) by lia. cbn [ok_or]. rewrite ok_bind.
    change (verify acc (proof (at_transaction t)) ((λ i, node_hash i.2) <$> inputs (at_transaction t))
      = Some true) in Hp. rewrite Hp. cbn [ok_or]. rewrite ok_bind. cbn [guard_err]. by rewrite ok_bind. }
  cbn [foldR]. rewrite Hstep, ok_bind, IH by (done || lia). cbn [foldl]. do 2 f_equal. lia.
Qed.

Lemma check_addresses_app a b u v :
  length a = length u → check_addresses a u = Ok tt → check_addresses b v = Ok tt →
  check_addresses (a ++ b) (u ++ v) = Ok tt.
Proof.
  intros Hlen Ha Hb. apply check_addresses_Ok. rewrite zip_with_app by done.
  apply Forall_app. split; by apply check_addresses_Ok.
Qed.

Lemma checked_lengths `{!BatchVerify} s l fts :
  Forall2 (checked s) l fts →
  Forall (λ t, length (authorizations t) = length (inputs (at_transaction t))) l
  ∧ check_addresses (mjoin (authorizations <$> l)) (mjoin (spent_utxos <$> fts)) = Ok tt.
Proof.
  induction 1 as [|t ft l fts Ht _ [IHl IHa]]; [done|].
  pose proof (ck_auths _ _ _ Ht) as (Hlen & _ & _)%verify_authorized_transaction_Ok.
  split; [by constructor|]. csimpl. apply check_addresses_app; [|by apply Ht|done].
  pose proof (ck_fill _ _ _ Ht) as [_ Hsp]%fill_transaction_Ok.
  by rewrite Hlen, (Forall2_length _ _ _ Hsp).
Qed.

Lemma checked_authorizations `{!BatchVerify} s l fts cb :
  Forall2 (checked s) l fts → verify_authorizations (Body_new l cb) = Ok tt.
Proof.
  intros Hl. destruct (checked_lengths s l fts Hl) as [Hlen _]. rewrite Body_new_spec.
  apply verify_authorizations_Ok. cbn [transactions body_authorizations]. split_and!.
  - apply Forall_fmap. clear Hlen. induction Hl as [|t ft l fts Ht _ IH]; constructor; [|done].
    by pose proof (ck_auths _ _ _ Ht) as (_ & ? & _)%verify_authorized_transaction_Ok.
  - clear Hl. induction Hlen as [|t l Ht _ IH]; [done|]. csimpl. by rewrite length_app, Ht, IH.
  - rewrite zip_messages by done. apply Forall_mjoin, Forall_fmap. clear Hlen.
    induction Hl as [|t ft l fts Ht _ IH]; constructor; [|done].
    by pose proof (ck_auths _ _ _ Ht) as (_ & _ & ?)%verify_authorized_transaction_Ok.
Qed.

Lemma mining_coinbase_value root addr fee :
  (0 <= fee <= amount_max)%Z →
  validate_coinbase root (mining_coinbase addr fee) AccumulatorDiff_default
  = Ok (fee, diff_inserts AccumulatorDiff_default
      (pointed_outputs (Coinbase root) (mining_coinbase addr fee))).
Proof.
  intros Hfee. unfold mining_coinbase. case_bool_decide as H0; [by subst|].
  unfold validate_coinbase, pointed_outputs, diff_inserts. simpl. unfold get_value. simpl.
  unfold checked_add. by rewrite (proj2 (Z.leb_le fee amount_max)) by lia.
Qed.

(** ** A whole block *)
Section block.
Context `{!BatchVerify}.
Context (nd : Node) (acc : Accumulator) (l : list AuthorizedTransaction) (fee : Amount).
Context (addr : TransparentAddress) (prev_main : BtcBlockHash).
Let s := nd_state nd.
Let body := Body_new (returned s l) (mining_coinbase addr fee).

Lemma template_prevalidates f :
  utreexo_accumulator s = Some acc → modify_memforest body (forest acc) = Some f →
  fee = fees s l → (0 <= fee <= amount_max)%Z → Forall (λ t, (0 <= fee_of s t)%Z) (returned s l) →
  Forall (λ t, verify acc (proof (at_transaction t)) (targets_of (at_transaction t)) = Some true)
    (returned s l) →
  NoDup (mjoin (spends ∘ at_transaction <$> returned s l)) →
  NoDup (body_updates body).*1 →
  (zlen (body_authorizations body) <= body_sigops_limit (next_block_height s))%Z →
  (zlen (borsh body) <= body_size_limit (next_block_height s))%Z →
  ∃ p, prevalidate s (mk_Header (compute_merkle_root body) (tip s) prev_main (forest_roots f)) body = Ok p
    ∧ total_fees p = fee ∧ coinbase_value p = fee.
Proof.
  intros Hacc Hf Hfee Hmax Hpos Hproofs Hnd Hleaves Hsig Hsize.
  destruct (returned_checked s l) as [fts Hfts].
  pose proof (apply_block_diff body acc f Hleaves Hf) as Hdiff.
  assert (transactions body = at_transaction <$> returned s l) as Etx.
  { unfold body. by rewrite Body_new_spec. }
  assert (coinbase body = mining_coinbase addr fee) as Ecb.
  { unfold body. by rewrite Body_new_spec. }
  assert (body_authorizations body = mjoin (authorizations <$> returned s l)) as Eau.
  { unfold body. by rewrite Body_new_spec. }
  eexists. split.
  - unfold prevalidate, check_prev_side_hash, check_merkle_root. cbn [prev_side_hash merkle_root roots].
    rewrite !(bool_decide_true (_ = _)) by done. cbn [guard_err map_err]. rewrite !ok_bind.
    rewrite (proj2 (Z.ltb_ge _ _) Hsig), (proj2 (Z.ltb_ge _ _) Hsize). cbn [negb guard_err].
    rewrite !ok_bind.
    rewrite Hacc. cbn [ok_or map_err]. rewrite !ok_bind.
    rewrite Ecb, mining_coinbase_value, ok_bind by done.
    rewrite Etx, (checked_fill s _ fts Hfts), ok_bind.
    rewrite (proj2 (has_duplicate_key_spec _)).
    2: { rewrite (checked_keys s _ fts Hfts). apply NoDup_fmap_2_strong; [|done].
         intros a b _ _ Hk%(f_equal outpoint_of). rewrite !outpoint_of_key in Hk. by injection Hk. }
    cbn [negb guard_err]. rewrite ok_bind.
    rewrite (validate_transactions_ok s acc 0 _ _ fts Hfts Hproofs Hpos).
    2: { unfold fees in Hfee. lia. }
    rewrite ok_bind. unfold fees in Hfee. rewrite Z.add_0_l, <- Hfee.
    rewrite Z.ltb_irrefl. cbn [negb guard_err]. rewrite ok_bind.
    rewrite Eau, (proj2 (checked_lengths s _ fts Hfts)), ok_bind.
    assert (verify_authorizations body = Ok tt) as -> by exact (checked_authorizations s _ fts _ Hfts).
    cbn [map_err]. rewrite ok_bind.
    rewrite Ecb, Etx in Hdiff. rewrite Hdiff. cbn [ok_or]. rewrite ok_bind.
    rewrite bool_decide_true by done. cbn [guard_err]. rewrite ok_bind. reflexivity.
  - done.
Qed.
End block.

(** ** Nullifiers *)
Lemma collect_transaction_nullifiers (x x' : Mutations * Orchard * Frontier) ft :
  collect_transaction x ft = Ok x' →
  (∀ n, n ∈ bundle_nullifiers (transaction ft) → n ∉ nullifiers x.1.2)
  ∧ nullifiers x.1.2 ⊆ nullifiers x'.1.2.
Proof.
  destruct x as [[m o] f]. unfold collect_transaction. intros (m1 & _ & Hok)%bind_Ok.
  apply bind_Ok in Hok as ([o' f'] & Ho%map_err_Ok & [= <-]).
  apply connect_orchard_opt_Ok in Ho as (_ & Hnew & -> & _). simpl. split; [done|set_solver].
Qed.

(** A block connects only when the nullifiers of its transactions are new. *)
Lemma applied_nullifiers s h b s' fr tx n :
  apply_block s h b = Ok (s', fr) → tx ∈ transactions b → n ∈ bundle_nullifiers tx →
  n ∉ nullifiers (orchard s).
Proof.
  unfold apply_block. intros (p & Hp%map_err_Ok & Hc)%bind_Ok Htx Hn.
  apply prevalidate_Ok in Hp as (? & ? & ? & _ & _ & _ & _ & _ & _ & Hfill & _).
  unfold connect_prevalidated in Hc. apply bind_Ok in Hc as (? & _ & Hc).
  apply bind_Ok in Hc as (? & _ & Hc). apply bind_Ok in Hc as ([[m o] f] & Hloop & _).
  revert Hloop. apply list_elem_of_In, in_split in Htx as (l1 & l2 & E').
  rewrite E' in Hfill. apply Forall2_app_inv_l in Hfill as (k1 & k2 & _ & Hk2 & ->).
  inversion Hk2 as [|? ft ? k3 Hft _]; subst. apply fill_transaction_Ok in Hft as [Hft _].
  rewrite foldR_app. intros (z & Hx & Hloop)%bind_Ok. cbn [foldR] in Hloop.
  apply bind_Ok in Hloop as (z' & Hz' & _).
  apply collect_transaction_nullifiers in Hz' as [Hnew _]. rewrite Hft in Hnew.
  specialize (Hnew n Hn). intros Hin. apply Hnew.
  revert Hx. refine (foldR_inv (λ x _, n ∈ nullifiers x.1.2) collect_transaction _ _ _ _ _); [|done].
  intros y ft' l y' Hy [_ Hsub]%collect_transaction_nullifiers. by apply Hsub.
Qed.

(** ** Ancestors *)
Lemma side_antisym a b c hb hc :
  archive_ok a → get_height a b = Ok hb → get_height a c = Ok hc →
  ancestor_of (side_lineage a) b c → ancestor_of (side_lineage a) c b → b = c.
Proof.
  intros Hok Hb Hc (n & Hn) (k & Hk). pose proof (ok_side a Hok) as HL.
  destruct (up_depth (side_lineage a) (side_known a) n c hc b (get_height_known _ _ _ Hc) Hc Hn)
    as (_ & _ & Hb').
  destruct (up_depth (side_lineage a) (side_known a) k b hb c (get_height_known _ _ _ Hb) Hb Hk)
    as (_ & _ & Hc').
  pose proof (eq_trans (eq_sym Hb) Hb') as [= ->]. pose proof (eq_trans (eq_sym Hc) Hc') as [= ?].
  assert (n = 0) as -> by lia. cbn in Hn. by injection Hn.
Qed.

Lemma ancestors_nth_up a n b c :
  up (side_lineage a) n b = Ok c → is_Some (headers a !! c) → ancestors_nth n a (Some b) = Ok (Some c).
Proof.
  intros Hup Hc. revert b Hup. induction n as [|n IH]; intros b Hup.
  - injection Hup as ->. destruct Hc as [header Hc]. cbn [ancestors_nth].
    unfold AncestorHeaders_next, get_header, try_get_header. by rewrite Hc.
  - cbn [up side_lineage lin_parent] in Hup. apply bind_Ok in Hup as (p & Hp & Hup).
    apply bind_Ok in Hp as (header & Hheader & Hp).
    cbn [ancestors_nth]. unfold AncestorHeaders_next. rewrite Hheader, !ok_bind.
    destruct (prev_side_hash header) as [q|]; [|done]. injection Hp as ->. by apply IH.
Qed.

(** ** Theorems *)

(** [get_transactions] returns what a block can hold: of the first
    [number] transactions of the pool, in key order, exactly those that
    [validate_transaction] accepts, with the sum of their fees; no two of them
    spend the same output, and what left the pool is a refused transaction or
    a descendant of one.  It never panics, and its only error is a sum of fees
    that is not an amount. *)
Theorem get_transactions_spec (nd : Node) (number : nat)
    (Hok : mempool_ok (nd_mempool nd)) (Ham : amounts_ok (nd_state nd) (nd_mempool nd)) :
  let taken := mempool_take (nd_mempool nd) number in
  let kept := filter (λ t, is_ok (validate_transaction (nd_state nd) t) = true) taken in
  let total := sumZ (fee_of (nd_state nd) <$> kept) in
  match get_transactions (ProtoError:=ProtoError) nd number with
  | Ok (nd', txs, fee) =>
      txs = kept ∧ fee = total ∧ (0 <= fee <= amount_max)%Z
      ∧ NoDup (mjoin (spends ∘ at_transaction <$> txs))
      ∧ nd_state nd' = nd_state nd ∧ nd_archive nd' = nd_archive nd ∧ mempool_ok (nd_mempool nd')
      ∧ (∀ t, t ∈ txs → mp_transactions (nd_mempool nd) !! txid (at_transaction t) = Some t)
      ∧ ∀ u t, mp_transactions (nd_mempool nd') !! u = Some t ↔
          mp_transactions (nd_mempool nd) !! u = Some t
          ∧ ¬ ∃ t', t' ∈ taken ∧ is_ok (validate_transaction (nd_state nd) t') = false
              ∧ descendant (nd_mempool nd) (txid (at_transaction t')) u
  | Err e => e = NdAmountUnderflow ∧ (amount_max < total)%Z
  | Panic => False
  end.
Proof.
  intros taken kept total. pose proof (get_transactions_cases nd number Hok Ham) as Hcases.
  destruct (taken_pooled (nd_mempool nd) number Hok) as [Hp Hnd]. cbv zeta in Hcases.
  fold taken in Hcases, Hp, Hnd.
  change (fees (nd_state nd) taken) with total in Hcases.
  pose proof (fees_nonneg _ _ Ham taken Hp) as Hpos.
  destruct (Z.leb_spec total amount_max) as [Hle|Hgt]; [|by rewrite Hcases].
  destruct Hcases as (m & -> & Hr). split_and!; [done..|done| | | | | |]; simpl; [|done..|apply Hr| |apply Hr].
  - apply (pooled_spends_NoDup (nd_mempool nd)); [done| |].
    + apply Forall_forall. intros t [_ Ht]%list_elem_of_filter. by apply (proj1 (Forall_forall _ _) Hp).
    + eapply sublist_NoDup; [exact Hnd|]. apply fmap_sublist, sublist_filter.
  - intros t [_ Ht]%list_elem_of_filter. by apply (proj1 (Forall_forall _ _) Hp).
Qed.

(** C10: The block that the miner builds is valid: when the proofs of the pool
    hold for the accumulator of the state (which [regenerate_proofs] restores
    after each block), the block's leaves are distinct and the body is within
    the limits, the header and body of [full_template] pass [prevalidate] on
    the tip, and the coinbase claims exactly the fees of the transactions. *)
Theorem mined_block_prevalidates `{!BatchVerify} (nd : Node) (number : nat) (address : TransparentAddress)
    (prev_main : BtcBlockHash) (nd' : Node) (header : Header) (body : Body) (fee : Amount)
    (Hok : node_ok nd) (Ham : amounts_ok (nd_state nd) (nd_mempool nd))
    (Hproofs : ∀ acc u t, utreexo_accumulator (nd_state nd) = Some acc →
      mp_transactions (nd_mempool nd) !! u = Some t →
      verify acc (proof (at_transaction t)) (targets_of (at_transaction t)) = Some true)
    (Hrun : full_template (ProtoError:=ProtoError) nd number address prev_main
      = (nd', Ok ((header, body), fee)))
    (Hleaves : NoDup (body_updates body).*1)
    (Hsigops : (zlen (body_authorizations body) <= body_sigops_limit (next_block_height (nd_state nd)))%Z)
    (Hsize : (zlen (borsh body) <= body_size_limit (next_block_height (nd_state nd)))%Z) :
  ∃ p, prevalidate (nd_state nd) header body = Ok p
    ∧ total_fees p = fee ∧ coinbase_value p = fee ∧ prev_main_hash header = prev_main.
Proof.
  destruct (taken_pooled (nd_mempool nd) number (no_mempool nd Hok)) as [Hp Hnd].
  pose proof (get_transactions_cases nd number (no_mempool nd Hok) Ham) as Hcases. cbv zeta in Hcases.
  set (s := nd_state nd) in *. set (taken := mempool_take (nd_mempool nd) number) in *.
  assert (Forall (pooled (nd_mempool nd)) (returned s taken)) as Hret.
  { apply Forall_forall. intros t [_ Ht]%list_elem_of_filter. by apply (proj1 (Forall_forall _ _) Hp). }
  pose proof (fees_nonneg _ _ Ham taken Hp) as Hpos.
  destruct (no_accumulator nd Hok) as (acc & Hacc & Hget). fold s in Hacc, Hget.
  revert Hrun. unfold full_template, attempt.
  destruct (Z.leb_spec (fees s taken) amount_max) as [Hle|Hgt]; [|by rewrite Hcases].
  destruct Hcases as (m & -> & _). cbn [nd_state nd_archive].
  unfold block_template, coinbase_template. cbn [nd_state nd_archive]. fold s. rewrite Hget. cbn [map_err]. rewrite ok_bind.
  destruct (modify_memforest _ (forest acc)) as [f|] eqn:Hf; [|done].
  cbn [ok_or]. rewrite ok_bind. intros [= <- <- <- <-].
  destruct (template_prevalidates nd acc taken (fees s taken) address prev_main f)
    as (p & Hpre & Hfee & Hcb); try done.
  - apply Forall_forall. intros t Ht. pose proof Ht as [Ha _]%list_elem_of_filter.
    by destruct (accepted_fee s _ _ t Ham (proj1 (Forall_forall _ _) Hret t Ht) Ha) as (_ & _ & _ & ?).
  - eapply Forall_impl; [exact Hret|]. intros t. by apply Hproofs.
  - apply (pooled_spends_NoDup (nd_mempool nd)); [apply Hok|done|].
    eapply sublist_NoDup; [exact Hnd|]. apply fmap_sublist, sublist_filter.
  - by exists p.
Qed.

(** C34: A spent nullifier blocks the block template.  [validate_transaction]
    does not look at the nullifiers that the state records, so a transaction
    of the pool whose nullifier is already spent is returned by
    [get_transactions], and no block with the transactions returned
    connects. *)
Theorem spent_nullifier_blocks_template (nd nd' : Node) (number : nat)
    (txs : list AuthorizedTransaction) (fee : Amount) (t : AuthorizedTransaction) (n : Nullifier)
    (Hok : mempool_ok (nd_mempool nd)) (Ham : amounts_ok (nd_state nd) (nd_mempool nd))
    (Hget : get_transactions (ProtoError:=ProtoError) nd number = Ok (nd', txs, fee))
    (Ht : t ∈ mempool_take (nd_mempool nd) number)
    (Hvalid : is_ok (validate_transaction (nd_state nd) t) = true)
    (Hn : n ∈ nullifiers_of (at_transaction t)) (Hspent : n ∈ nullifiers (orchard (nd_state nd))) :
  t ∈ txs ∧ ∀ header coinbase, is_ok (apply_block (nd_state nd) header (Body_new txs coinbase)) = false.
Proof.
  pose proof (get_transactions_cases nd number Hok Ham) as Hcases. cbv zeta in Hcases.
  destruct (Z.leb_spec (fees (nd_state nd) (mempool_take (nd_mempool nd) number)) amount_max);
    [|by rewrite Hcases in Hget].
  destruct Hcases as (m & Hm & _). rewrite Hm in Hget. injection Hget as <- <- <-.
  assert (t ∈ returned (nd_state nd) (mempool_take (nd_mempool nd) number)) as Hret
    by by apply list_elem_of_filter.
  split; [done|]. intros header cb. destruct (apply_block _ _ _) as [[s' fr]| |] eqn:Happly; [exfalso|done..].
  eapply (applied_nullifiers _ _ _ _ _ (at_transaction t) n Happly); [|done..].
  rewrite Body_new_spec. cbn [transactions]. by apply list_elem_of_fmap_2.
Qed.

(** A transaction of an earlier block is not found.  [try_get_transaction]
    asks whether the including block is a descendant of the tip, while
    [is_descendant] takes the ancestor first, so of the blocks of the active
    chain only the tip itself is found: for a transaction in a proper ancestor
    of the tip the answer is [None]. *)
Theorem confirmed_transaction_not_found (nd : Node) (u : Txid) (t b : BlockHash) (ht hb i : Z)
    (Hok : archive_ok (nd_archive nd)) (Htip : tip (nd_state nd) = Some t)
    (Ht : get_height (nd_archive nd) t = Ok ht) (Hb : get_height (nd_archive nd) b = Ok hb)
    (Hin : get_tx_inclusions (nd_archive nd) u = {[ b := i ]})
    (Hanc : ancestor_of (side_lineage (nd_archive nd)) b t) (Hne : b ≠ t)
    (Hpool : mp_transactions (nd_mempool nd) !! u = None) :
  is_descendant (nd_archive nd) b t = Ok true
  ∧ try_get_transaction (ProtoError:=ProtoError) nd u = Ok None.
Proof.
  pose proof (ok_side _ Hok) as HL. set (a := nd_archive nd) in *.
  assert (side_known a t ∧ side_known a b) as [Kt Kb] by (split; by eapply get_height_known).
  destruct (descends_Ok (side_lineage a) (side_known a) b t Kb Kt) as (r & Hr & Hiff).
  destruct (descends_Ok (side_lineage a) (side_known a) t b Kt Kb) as (r' & Hr' & Hiff').
  assert (r = true) as -> by by apply Hiff. split; [exact Hr|].
  assert (r' = false) as ->.
  { apply not_true_iff_false. rewrite Hiff'. intros Hanc'. by apply Hne, (side_antisym a b t hb ht). }
  unfold try_get_transaction. fold a. rewrite Htip, Hin. unfold iter_inclusions.
  rewrite map_to_list_singleton. cbn [merge_sort merge_list_to_stack merge_stack].
  cbn. unfold is_descendant. rewrite Hr'. cbn. by rewrite Hpool.
Qed.

(** The node's block at a height is the ancestor of the tip at that
    height, and there is none above the tip. *)
Theorem block_hash_at_height (nd : Node) (t : BlockHash) (ht h : Z)
    (Hok : archive_ok (nd_archive nd)) (Htip : tip (nd_state nd) = Some t)
    (Hheight : State.height (nd_state nd) = Some ht) (Ht : get_height (nd_archive nd) t = Ok ht)
    (Hh : (0 <= h)%Z) :
  if (h <=? ht)%Z
  then ∃ b, try_get_block_hash (ProtoError:=ProtoError) nd h = Ok (Some b)
    ∧ get_height (nd_archive nd) b = Ok h ∧ ancestor_of (side_lineage (nd_archive nd)) b t
  else try_get_block_hash (ProtoError:=ProtoError) nd h = Ok None.
Proof.
  unfold try_get_block_hash. rewrite Htip, Hheight.
  destruct (Z.leb_spec h ht) as [Hle|]; [|done]. pose proof (ok_side _ Hok) as HL.
  destruct (up_known (side_lineage (nd_archive nd)) (side_known (nd_archive nd)) (Z.to_nat (ht - h)) t ht
    (get_height_known _ _ _ Ht) Ht) as (b & Hup & Kb & Hb); [lia|].
  exists b. rewrite (ancestors_nth_up _ _ _ _ Hup) by by apply (ok_headers _ Hok).
  split_and!; [done| |by eexists]. rewrite Z2Nat.id, Z.sub_sub_distr, Z.sub_diag in Hb by lia. exact Hb.
Qed.
End template.

(** ** Small nodes *)
Module TemplateToy.
#[local] Existing Instance Toy.externals.
Import StateToy.
Import AuthorizationToy.
Import ArchiveToy.
Import NodeToy.

Definition get_toy := get_transactions (ProtoError:=unit).
Definition full_toy := full_template (ProtoError:=unit).

(** The tip of [s0] is block 77; the pool holds its transaction. *)
Definition pool_of (l : list AuthorizedTransaction) : MemPool :=
  match foldR mempool_put MemPool_empty_dbs l with Ok m => m | _ => MemPool_empty_dbs end.
Lemma pool_of_ok l : is_ok (foldR mempool_put MemPool_empty_dbs l) = true → mempool_ok (pool_of l).
Proof.
  intros Hl. apply (mempool_puts_ok MemPool_empty_dbs l); [apply mempool_empty_ok|]. by apply MemPoolToy.default_puts.
Qed.
Definition archive77 : Archive := put_accumulator Archive_empty_dbs (StateToy.h 77) BlockToy.acc0.
Definition mining_node : Node := mk_Node archive77 (pool_of [atx]) s0.

Lemma mining_node_ok : node_ok mining_node.
Proof.
  split; [apply pool_of_ok; vm_compute; reflexivity| |apply same_acc_ok; vm_compute; reflexivity].
  apply (bool_decide_unpack _). vm_compute. exact I.
Qed.

(** Properties of every transaction of a pool, decided. *)
Lemma pool_forall m (P : AuthorizedTransaction → bool) :
  forallb (λ e, P e.2) (mempool_iter m) = true →
  ∀ u t, mp_transactions m !! u = Some t → P t = true.
Proof. intros Hall u t Ht. rewrite forallb_forall in Hall. by apply (Hall (u, t)), list_elem_of_In, mempool_iter_elem. Qed.
Definition amounts_b (t : AuthorizedTransaction) : bool :=
  forallb (λ o, (0 <=? get_value o)%Z) (outputs (at_transaction t)).
Lemma amounts_b_ok s m :
  (∀ k o, utxos s !! k = Some o → (0 <= get_value o)%Z) →
  forallb (λ e, amounts_b e.2) (mempool_iter m) = true → amounts_ok s m.
Proof.
  intros Hs Hm. split; [done|]. intros u t Ht. pose proof (pool_forall m amounts_b Hm u t Ht) as Hb.
  unfold amounts_b in Hb. rewrite forallb_forall in Hb. apply Forall_forall.
  intros o Ho%list_elem_of_In. specialize (Hb o Ho). lia.
Qed.
Lemma mining_amounts : amounts_ok (nd_state mining_node) (nd_mempool mining_node).
Proof. apply amounts_b_ok; [apply state_values|vm_compute; reflexivity]. Qed.

Definition proved (acc : Accumulator) (t : AuthorizedTransaction) : bool :=
  match verify acc (proof (at_transaction t)) (targets_of (at_transaction t)) with
  | Some b => b | None => false
  end.
Lemma mining_proofs acc u t :
  utreexo_accumulator (nd_state mining_node) = Some acc →
  mp_transactions (nd_mempool mining_node) !! u = Some t →
  verify acc (proof (at_transaction t)) (targets_of (at_transaction t)) = Some true.
Proof.
  intros Hacc Ht. injection Hacc as <-.
  assert (proved BlockToy.acc0 t = true) as Hp.
  { revert u t Ht. apply (pool_forall _ (proved BlockToy.acc0)). vm_compute. reflexivity. }
  revert Hp. unfold proved. by destruct (verify _ _ _) as [[]|].
Qed.

Definition mined := full_toy mining_node 10 alice_addr (mh 1).
Definition mined_ok : bool := is_ok mined.2.
Definition mined_block : Header * Body :=
  match mined.2 with Ok (b, _) => b | _ => (block0, empty_body) end.
Definition mined_fee : Amount := match mined.2 with Ok (_, fee) => fee | _ => 0%Z end.
Lemma mined_eq : is_ok mined.2 = true →
  mined = (mined.1, Ok ((mined_block.1, mined_block.2), mined_fee)).
Proof. unfold mined_block, mined_fee. destruct mined as [nd [[[hd b] fee]| |]]; done. Qed.
Example mined_takes_fee : mined_fee = 5%Z.
Proof. vm_compute. reflexivity. Qed.

Lemma get_transactions_spec_witness :
  match get_toy mining_node 10 with
  | Ok (_, txs, fee) => fee = sumZ (fee_of s0 <$> txs)
  | _ => False
  end.
Proof.
  pose proof (get_transactions_spec (ProtoError:=unit) mining_node 10 (no_mempool _ mining_node_ok)
    mining_amounts) as Hspec. cbv zeta in Hspec.
  assert (is_ok (get_toy mining_node 10) = true) as Hok by (vm_compute; reflexivity).
  unfold get_toy in *. destruct (get_transactions mining_node 10) as [[[nd' txs] fee]| |];
    [|discriminate Hok..].
  destruct Hspec as (Htxs & Hfee & _). rewrite Htxs. exact Hfee.
Defined.

Lemma mined_block_prevalidates_witness :
  ∃ p, prevalidate s0 mined_block.1 mined_block.2 = Ok p ∧ total_fees p = mined_fee.
Proof.
  destruct (mined_block_prevalidates (ProtoError:=unit) mining_node 10 alice_addr (mh 1) mined.1
    mined_block.1 mined_block.2 mined_fee mining_node_ok mining_amounts mining_proofs
    (mined_eq ltac:(vm_compute; reflexivity)))
    as (p & Hp & Hfee & _).
  - apply (bool_decide_unpack _). vm_compute. exact I.
  - apply (bool_decide_unpack _). vm_compute. exact I.
  - apply (bool_decide_unpack _). vm_compute. exact I.
  - exists p. split; [exact Hp|exact Hfee].
Defined.

(** *** A spent nullifier *)
Definition spending : AuthorizedTransaction :=
  mk_AuthorizedTransaction (mk_Transaction [] [] [] (Some (Toy.mk_bundle [(5, 6)%Z] false 0 [] true))) [].
Definition spent_state : State := with_orchard s0 (put_nullifier orchard0 6%Z).
Definition spent_node : Node := mk_Node archive77 (pool_of [spending]) spent_state.
Definition got : Node * list AuthorizedTransaction * Amount :=
  match get_toy spent_node 10 with Ok r => r | _ => (spent_node, [], 0%Z) end.
Lemma got_ok : is_ok (get_toy spent_node 10) = true →
  get_transactions (ProtoError:=unit) spent_node 10 = Ok (got.1.1, got.1.2, got.2).
Proof. unfold got, get_toy. by destruct (get_transactions spent_node 10) as [[[]]| |]. Qed.

Definition taken_spending : AuthorizedTransaction :=
  default spending (head (mempool_take (nd_mempool spent_node) 10)).
Lemma default_head {A} (d : A) l : is_none (head l) = false → default d (head l) ∈ l.
Proof. destruct l; [done|]. intros _. by left. Qed.

#[local] Opaque got spent_node.
Lemma spent_nullifier_blocks_template_witness :
  taken_spending ∈ got.1.2
  ∧ ∀ header coinbase, is_ok (apply_block (nd_state spent_node) header (Body_new got.1.2 coinbase)) = false.
Proof.
  refine (spent_nullifier_blocks_template (ProtoError:=unit) spent_node got.1.1 10 got.1.2 got.2
    taken_spending 6%Z _ _ (got_ok _) _ _ _ _).
  - apply pool_of_ok. vm_compute. reflexivity.
  - apply amounts_b_ok; [apply state_values|vm_compute; reflexivity].
  - vm_compute. reflexivity.
  - apply default_head. vm_compute. reflexivity.
  - vm_compute. reflexivity.
  - apply (bool_decide_unpack _). vm_compute. exact I.
  - apply (bool_decide_unpack _). vm_compute. exact I.
Defined.

(** *** A transaction in the parent of the tip *)
Definition paying_body : Body := mk_Body [] [at_transaction spending] [].
Definition paying : Header := mk_Header (compute_merkle_root paying_body) None (mh 1) [].
Definition next : Header := mk_Header body_root (Some (Header_hash paying)) (mh 2) [].
Definition paid_writes : list write :=
  [WOpen; WMainHeader (main_header 1); WMainHeader (main_header 2);
   WMainInfo (mh 1) (mk_BlockInfo None []); WMainInfo (mh 2) (mk_BlockInfo (Some (Header_hash paying)) []);
   WHeader paying; WHeader next; WBody (Header_hash paying) paying_body;
   WBody (Header_hash next) empty_body].
Definition paid_archive : Archive := default Archive_empty_dbs (run Archive_empty_dbs paid_writes).
Definition paid_state : State :=
  mk_State (Some (Header_hash next)) (Some 1%Z) ∅ ∅ None None ∅ ∅ ∅ orchard0 (Some BlockToy.acc0).
Definition paid_node : Node := mk_Node paid_archive MemPool_empty_dbs paid_state.
Lemma paid_archive_ok : archive_ok paid_archive.
Proof.
  apply (reachable_ok set_order map_order Z.add _ map_order_iterates), (run_reach _ paid_writes), default_ok.
  vm_compute. reflexivity.
Qed.
Definition height_is (a : Archive) (b : BlockHash) (h : Z) : bool :=
  match get_height a b with Ok k => (k =? h)%Z | _ => false end.
Lemma height_is_ok a b h : height_is a b h = true → get_height a b = Ok h.
Proof. unfold height_is. destruct (get_height a b) as [k| |]; [|done..]. intros Hk. f_equal. lia. Qed.
Definition parent_is (a : Archive) (b p : BlockHash) : bool :=
  match up (side_lineage a) 1 b with Ok c => bool_decide (c = p) | _ => false end.
Lemma parent_is_ok a b p : parent_is a b p = true → ancestor_of (side_lineage a) p b.
Proof.
  unfold parent_is. intros Hp. exists 1. destruct (up (side_lineage a) 1 b); [|done..].
  by apply bool_decide_eq_true in Hp as ->.
Qed.
#[local] Opaque paid_archive.

Lemma confirmed_transaction_not_found_witness :
  try_get_transaction (ProtoError:=unit) paid_node (txid (at_transaction spending)) = Ok None.
Proof.
  refine (proj2 (confirmed_transaction_not_found paid_node (txid (at_transaction spending))
    (Header_hash next) (Header_hash paying) 1 0 0 paid_archive_ok _ _ _ _ _ _ _)).
  - reflexivity.
  - apply height_is_ok. vm_compute. reflexivity.
  - apply height_is_ok. vm_compute. reflexivity.
  - apply (bool_decide_unpack _). vm_compute. exact I.
  - apply parent_is_ok. vm_compute. reflexivity.
  - apply (bool_decide_unpack _). vm_compute. exact I.
  - reflexivity.
Defined.

Lemma block_hash_at_height_witness :
  ∃ b, try_get_block_hash (ProtoError:=unit) paid_node 0 = Ok (Some b) ∧ get_height paid_archive b = Ok 0%Z.
Proof.
  destruct (block_hash_at_height (ProtoError:=unit) paid_node (Header_hash next) 1 0 paid_archive_ok)
    as (b & Hb & Hh & _).
  - reflexivity.
  - reflexivity.
  - apply height_is_ok. vm_compute. reflexivity.
  - lia.
  - exists b. split; [exact Hb|exact Hh].
Defined.
End TemplateToy.
